(** * Fresh-Scan: infrastructure core, shallow embedding and checked properties

    The development follows the Python sources module by module:

    - [PyStr], [PyTime], [Sha256] : the fragments of [str], [datetime] and
      [hashlib] the code relies on
    - [Blinkit]      : [services/integrations/blinkit.py], per-user session paths
    - [Validators]   : [auth/validators.py], password policy and email shape
    - [Connection]   : [database/connection.py], [ensure_connected]
    - [Camera]       : [services/camera.py], the circuit breaker
    - [Transactions] : [database/transactions.py], operations of a transaction
    - [Grocery]      : [services/grocery.py], optimistic locking
    - [Store]        : the document store seen through [DatabaseConnectionContext]
    - [Config], [Providers] : [auth/config.py], [auth/providers.py]
    - [OAuth]        : [auth/oauth.py], tokens and session creation
    - [Cache]        : [auth/cache.py], the profile-aware cache
    - [CacheMaintenance] : [auth/cache.py], statistics and clean-up
    - [Sessions]     : [auth/oauth.py], the life of a session
    - [PasswordReset], [PasswordGen] : [auth/providers.py] and
      [auth/validators.py], password reset and generated passwords
    - [ConnectionClient] : [database/connection.py], handing out the client
    - [CameraService] : [services/camera.py], [get_latest_image]
    - [TransactionManager] : [database/transactions.py],
      [execute_in_transaction]
    - [BlinkitSessions] : [services/integrations/blinkit.py], the stored
      sessions
    - [Pkce], [Hashing] : [auth/oauth.py] and [utils/hashing.py], PKCE
      values and recipe fingerprints

    Text is modelled on code points U+0000..U+00FF: a Python [str] is a
    [string] whose [ascii] elements are read as code points.  On that range
    [str.lower], [str.isalnum], [str.strip] and the [re] classes used by
    the code act character by character, and are written out below.
    Instants are integers: microseconds for [datetime] values, seconds for
    token claims. *)

From Stdlib Require Import ZArith NArith List String Ascii Bool Lia.
From stdpp Require Import base option list gmap strings sorting.

Local Open Scope string_scope.

(* ===================================================================== *)
(** ** Python strings *)
(* ===================================================================== *)

Module PyStr.

Definition ord (c : ascii) : N := N_of_ascii c.

Definition between (lo hi : N) (c : ascii) : bool :=
  ((lo <=? ord c) && (ord c <=? hi))%N.

(** [c.isalnum()] : letters, decimal digits and the numeric characters
    of the Latin-1 supplement (superscripts, vulgar fractions). *)
Definition isalnum (c : ascii) : bool :=
  between 48 57 c || between 65 90 c || between 97 122 c
  || between 170 170 c || between 178 179 c || between 181 181 c
  || between 185 186 c || between 188 190 c
  || between 192 214 c || between 216 246 c || between 248 255 c.

(** One character of [s.lower()]. *)
Definition lower_char (c : ascii) : ascii :=
  if between 65 90 c || between 192 214 c || between 216 222 c
  then ascii_of_N (ord c + 32)
  else c.

Fixpoint lower (s : string) : string :=
  match s with
  | EmptyString => EmptyString
  | String c r => String (lower_char c) (lower r)
  end.

(** ["".join(c for c in s if p c)] *)
Fixpoint keep (p : ascii -> bool) (s : string) : string :=
  match s with
  | EmptyString => EmptyString
  | String c r => if p c then String c (keep p r) else keep p r
  end.

(** [any(p(c) for c in s)], the meaning of [re.search] with a
    one-character class. *)
Fixpoint any (p : ascii -> bool) (s : string) : bool :=
  match s with
  | EmptyString => false
  | String c r => p c || any p r
  end.

Fixpoint all (p : ascii -> bool) (s : string) : bool :=
  match s with
  | EmptyString => true
  | String c r => p c && all p r
  end.

Definition len (s : string) : Z := Z.of_nat (String.length s).

(** [s.startswith(p)] *)
Fixpoint startswith (p s : string) : bool :=
  match p, s with
  | EmptyString, _ => true
  | String a p', String b s' => Ascii.eqb a b && startswith p' s'
  | String _ _, EmptyString => false
  end.

(** [needle in hay] *)
Fixpoint contains (needle hay : string) : bool :=
  startswith needle hay ||
  match hay with
  | EmptyString => false
  | String _ r => contains needle r
  end.

(** [sep.join(parts)] *)
Fixpoint join (sep : string) (parts : list string) : string :=
  match parts with
  | [] => ""
  | [p] => p
  | p :: rest => p ++ sep ++ join sep rest
  end.

(** [s.split(sep)] for a one-character separator: the fields between
    separators, empty fields included. *)
Fixpoint split_on (sep : ascii) (s : string) : list string :=
  match s with
  | EmptyString => [""]
  | String c r =>
      if Ascii.eqb c sep then "" :: split_on sep r
      else match split_on sep r with
           | [] => [String c ""]
           | f :: fs => String c f :: fs
           end
  end.

(** Truthiness of a string: [if s:] *)
Definition truthy (s : string) : bool :=
  match s with EmptyString => false | _ => true end.

End PyStr.

(* ===================================================================== *)
(** ** services/integrations/blinkit.py : per-user session paths *)
(* ===================================================================== *)

Module Blinkit.
Import PyStr.

(** A POSIX [pathlib.Path]: the anchor (["/"] for an absolute path,
    [""] otherwise) and the parts below it. *)
Record Path := mkPath { anchor : string; parts : list string }.

(** The parts pathlib keeps of a string operand: empty components and
    ["."] are dropped. *)
Definition path_parts (s : string) : list string :=
  List.filter (fun p => negb (String.eqb p "") && negb (String.eqb p "."))
              (split_on "/" s).

(** [p / s] : an operand starting with a slash replaces the left path. *)
Definition div (p : Path) (s : string) : Path :=
  if startswith "/" s
  then mkPath "/" (path_parts s)
  else mkPath (anchor p) (parts p ++ path_parts s).

(** [str(p)] *)
Definition path_str (p : Path) : string :=
  match anchor p, parts p with
  | "", [] => "."
  | a, ps => a ++ join "/" ps
  end.

(** [p.absolute()] relative to the working directory [cwd]. *)
Definition absolute (cwd : Path) (p : Path) : Path :=
  if truthy (anchor p) then p
  else mkPath (anchor cwd) (parts cwd ++ parts p).

(** The manager: [sessions_dir] is [base_cache_dir / "blinkit_sessions"];
    [cwd] is the process working directory read by [absolute()]. *)
Record BlinkitSessionManager := mkManager {
  base_cache_dir : Path;
  cwd : Path
}.

Definition sessions_dir (m : BlinkitSessionManager) : Path :=
  div (base_cache_dir m) "blinkit_sessions".

Definition safe_char (c : ascii) : bool :=
  isalnum c || Ascii.eqb c "_" || Ascii.eqb c "-".

(** ["".join(c for c in username if c.isalnum() or c in ('_', '-')).lower()] *)
Definition safe_username (username : string) : string :=
  lower (keep safe_char username).

Definition _get_user_session_dir (m : BlinkitSessionManager) (username : string) : Path :=
  div (sessions_dir m) (safe_username username).

Definition _get_metadata_path (m : BlinkitSessionManager) (username : string) : Path :=
  div (_get_user_session_dir m username) "session_metadata.json".

Definition _get_auth_state_path (m : BlinkitSessionManager) (username : string) : Path :=
  div (_get_user_session_dir m username) "auth_state.json".

Definition get_auth_state_path (m : BlinkitSessionManager) (username : string) : string :=
  path_str (absolute (cwd m) (_get_auth_state_path m username)).

(** The default manager, [BlinkitSessionManager()], run from [/srv/app]. *)
Definition default_manager : BlinkitSessionManager :=
  mkManager (mkPath "" ["cache"]) (mkPath "/" ["srv"; "app"]).

End Blinkit.

(* ===================================================================== *)
(** ** auth/validators.py : password policy and email shape *)
(* ===================================================================== *)

Module Validators.
Import PyStr.
Local Open Scope Z_scope.

Definition COMMON_PASSWORDS : list string :=
  ["password"; "123456"; "12345678"; "qwerty"; "abc123"; "monkey";
   "1234567"; "letmein"; "trustno1"; "dragon"; "baseball"; "111111";
   "iloveyou"; "master"; "sunshine"; "ashley"; "bailey"; "passw0rd";
   "shadow"; "123123"; "654321"; "superman"; "qazwsx"; "michael";
   "football"; "welcome"; "jesus"; "ninja"; "mustang"; "password1";
   "123456789"; "adobe123"; "admin"; "1234567890"; "photoshop"; "1234";
   "12345"; "princess"; "azerty"; "000000"; "access"; "696969"; "batman";
   "1qaz2wsx"; "login"; "qwertyuiop"; "solo"; "starwars"; "whatever";
   "donald"; "charlie"; "aa123456"; "freedom"; "lovely"; "7777777";
   "888888"; "flower"; "hottie"; "loveme"; "zaq1zaq1"; "password123";
   "!@#$%^&*"; "hello"; "freedom"; "computer"; "121212"; "123321";
   "1q2w3e4r"; "secret"; "123qwe"; "test"; "123abc"; "password!";
   "qwerty123"; "welcome123"; "admin123"].

(** [x in COMMON_PASSWORDS] *)
Definition in_set (x : string) (l : list string) : bool :=
  existsb (String.eqb x) l.

(** The character classes of the policy's regular expressions. *)
Definition is_upper (c : ascii) : bool := between 65 90 c.     (* [A-Z] *)
Definition is_lower (c : ascii) : bool := between 97 122 c.    (* [a-z] *)
Definition is_digit (c : ascii) : bool := between 48 57 c.     (* \d    *)
(** The bracket class of special characters: it lists every ASCII
    punctuation character (U+0021..002F, 003A..0040, 005B..0060,
    007B..007E). *)
Definition is_special (c : ascii) : bool :=
  between 33 47 c || between 58 64 c || between 91 96 c || between 123 126 c.

Module PasswordStrength.
Definition VERY_WEAK : Z := 0.
Definition WEAK : Z := 1.
Definition MEDIUM : Z := 2.
Definition STRONG : Z := 3.
Definition VERY_STRONG : Z := 4.
End PasswordStrength.

Record PasswordValidationResult := mkResult {
  is_valid : bool;
  strength : Z;
  errors : list string;
  suggestions : list string
}.

Definition get_strength_label (r : PasswordValidationResult) : string :=
  if (strength r =? 0)%Z then "Very Weak"
  else if (strength r =? 1)%Z then "Weak"
  else if (strength r =? 2)%Z then "Medium"
  else if (strength r =? 3)%Z then "Strong"
  else if (strength r =? 4)%Z then "Very Strong"
  else "Unknown".

Definition MIN_LENGTH : Z := 8.

(** [re.search(r'(.)\1{2,}', s)] : three equal characters in a row, the
    character not being a newline. *)
Fixpoint has_triple (s : string) : bool :=
  match s with
  | String a ((String b (String c _)) as r) =>
      (Ascii.eqb a b && Ascii.eqb b c && negb (Ascii.eqb a "010"%char))
      || has_triple r
  | _ => false
  end.

(** [re.search] for a run of two characters of class [p]. *)
Fixpoint has_pair (p : ascii -> bool) (s : string) : bool :=
  match s with
  | String a ((String b _) as r) => (p a && p b) || has_pair p r
  | _ => false
  end.

Definition contains_any (needles : list string) (s : string) : bool :=
  existsb (fun n => contains n s) needles.

Definition SEQ_NUMBERS : list string :=
  ["012"; "123"; "234"; "345"; "456"; "567"; "678"; "789"; "890"].

Definition SEQ_LETTERS : list string :=
  ["abc"; "bcd"; "cde"; "def"; "efg"; "fgh"; "ghi"; "hij"; "ijk"; "jkl";
   "klm"; "lmn"; "mno"; "nop"; "opq"; "pqr"; "qrs"; "rst"; "stu"; "tuv";
   "uvw"; "vwx"; "wxy"; "xyz"].

Definition b2z (b : bool) : Z := if b then 1 else 0.

Definition _calculate_strength (password : string) : Z :=
  let score := 0 in
  let score := score + b2z (8 <=? len password) in
  let score := score + b2z (12 <=? len password) in
  let score := score + b2z (16 <=? len password) in
  let variety_count :=
    b2z (any is_upper password) + b2z (any is_lower password)
    + b2z (any is_digit password) + b2z (any is_special password) in
  let score := score + b2z (3 <=? variety_count) in
  let score := score + b2z (variety_count =? 4) in
  let score := score - b2z (has_triple password) in
  let score := score - b2z (contains_any SEQ_NUMBERS password) in
  let score := score - b2z (contains_any SEQ_LETTERS (lower password)) in
  Z.max 0 (Z.min 4 score).

(** One [if cond: errors.append(e); suggestions.append(s)] step. *)
Definition check (cond : bool) (e s : string)
    (acc : list string * list string) : list string * list string :=
  if cond then ((acc.1 ++ [e])%list, (acc.2 ++ [s])%list) else acc.

(** The seven checks of [PasswordValidator.validate], in order: the
    [errors] and the [suggestions] they leave. *)
Definition run_checks (password : string) (username : option string)
    : list string * list string :=
  let acc := ([], []) in
  let acc := check (len password <? MIN_LENGTH)
               "Password must be at least 8 characters"
               "Add more characters" acc in
  let acc := check (negb (any is_upper password))
               "Password must contain at least one uppercase letter"
               "Add uppercase letters (A-Z)" acc in
  let acc := check (negb (any is_lower password))
               "Password must contain at least one lowercase letter"
               "Add lowercase letters (a-z)" acc in
  let acc := check (negb (any is_digit password))
               "Password must contain at least one digit"
               "Add numbers (0-9)" acc in
  let acc := check (negb (any is_special password))
               "Password must contain at least one special character"
               "Add special characters (!@#$%^&*)" acc in
  let acc := check (in_set (lower password) COMMON_PASSWORDS)
               "Password is too common"
               "Use a unique password" acc in
  let acc := check (match username with
                    | Some u => truthy u && contains (lower u) (lower password)
                    | None => false
                    end)
               "Password should not contain username"
               "Avoid using your username" acc
  in acc.

(** [PasswordValidator.validate(password, username)] *)
Definition validate (password : string) (username : option string)
    : PasswordValidationResult :=
  let acc := run_checks password username in
  let errs := acc.1 in
  let sugg := acc.2 in
  match errs with
  | [] =>
      let st := _calculate_strength password in
      let sugg :=
        if st <? PasswordStrength.STRONG then
          let sugg := if len password <? 12
                      then (sugg ++ ["Use 12+ characters for better security"])%list
                      else sugg in
          if negb (has_pair is_special password)
          then (sugg ++ ["Use multiple special characters"])%list
          else sugg
        else sugg in
      mkResult true st errs sugg
  | _ => mkResult false PasswordStrength.VERY_WEAK errs sugg
  end.

Definition bullet (e : string) : string := "  - " ++ e ++ String "010" "".

(** [validate_password_with_feedback(password, username)] *)
Definition validate_password_with_feedback
    (password : string) (username : option string) : bool * string :=
  let result := validate password username in
  if is_valid result then
    let feedback := "Password strength: " ++ get_strength_label result in
    let feedback :=
      match suggestions result with
      | [] => feedback
      | ss => feedback ++ String "010" "Suggestions: " ++ join ", " ss
      end in
    (true, feedback)
  else
    let feedback := "Password validation failed:" ++ String "010" "" in
    let feedback := feedback ++ String.concat "" (map bullet (errors result)) in
    let feedback :=
      match suggestions result with
      | [] => feedback
      | ss => feedback ++ String "010" "Suggestions:" ++ String "010" ""
              ++ String.concat "" (map bullet ss)
      end in
    (false, feedback).

(** *** Email shape *)

Definition is_ascii_alnum (c : ascii) : bool :=
  is_lower c || is_upper c || is_digit c.

(** [[a-zA-Z0-9.!#$%&'*+/=?^_`{|}~-]] *)
Definition is_local_char (c : ascii) : bool :=
  is_ascii_alnum c
  || existsb (Ascii.eqb c)
       (list_ascii_of_string ".!#$%&'*+/=?^_`{|}~-").

Definition first_char (s : string) : option ascii :=
  match s with String c _ => Some c | EmptyString => None end.

Fixpoint last_char (s : string) : option ascii :=
  match s with
  | EmptyString => None
  | String c EmptyString => Some c
  | String _ r => last_char r
  end.

Definition opt_test (p : ascii -> bool) (o : option ascii) : bool :=
  match o with Some c => p c | None => false end.

(** [[a-zA-Z0-9](?:[a-zA-Z0-9-]{0,61}[a-zA-Z0-9])?] against a whole field. *)
Definition is_label (l : string) : bool :=
  (1 <=? len l) && (len l <=? 63)
  && all (fun c => is_ascii_alnum c || Ascii.eqb c "-") l
  && opt_test is_ascii_alnum (first_char l)
  && opt_test is_ascii_alnum (last_char l).

(** The text before the first [sep] and the text after it. *)
Fixpoint partition_at (sep : ascii) (s : string) : option (string * string) :=
  match s with
  | EmptyString => None
  | String c r =>
      if Ascii.eqb c sep then Some ("", r)
      else match partition_at sep r with
           | Some (a, b) => Some (String c a, b)
           | None => None
           end
  end.

(** [s.rsplit(sep, 1)] when [sep] occurs: the split at the last one. *)
Fixpoint rpartition_at (sep : ascii) (s : string) : option (string * string) :=
  match s with
  | EmptyString => None
  | String c r =>
      match rpartition_at sep r with
      | Some (a, b) => Some (String c a, b)
      | None => if Ascii.eqb c sep then Some ("", r) else None
      end
  end.

(** Drop one final newline: [$] also matches just before it. *)
Fixpoint chomp (s : string) : string :=
  match s with
  | EmptyString => EmptyString
  | String c EmptyString => if Ascii.eqb c "010" then EmptyString else s
  | String c r => String c (chomp r)
  end.

Definition domain_ok (d : string) : bool :=
  forallb is_label (split_on "." d).

(** [EMAIL_REGEX.match(email)] *)
Definition EMAIL_REGEX_match (email : string) : bool :=
  match partition_at "@" email with
  | Some (loc, dom) =>
      truthy loc && all is_local_char loc
      && (domain_ok dom || domain_ok (chomp dom))
  | None => false
  end.

(** [validate_email(email)] *)
Definition validate_email (email : string) : bool * string :=
  if negb (truthy email) then (false, "Email is required")
  else if 254 <? len email then (false, "Email is too long (max 254 characters)")
  else if negb (EMAIL_REGEX_match email) then (false, "Invalid email format")
  else match rpartition_at "@" email with
       | None => (false, "Invalid email format")
       | Some (loc, domain) =>
           if 64 <? len loc
           then (false, "Email local part is too long (max 64 characters)")
           else if negb (truthy loc)
           then (false, "Email local part cannot be empty")
           else if 253 <? len domain
           then (false, "Email domain is too long (max 253 characters)")
           else if negb (truthy domain)
           then (false, "Email domain cannot be empty")
           else if contains ".." email
           then (false, "Email cannot contain consecutive dots")
           else if negb (contains "." domain)
           then (false, "Email domain must contain at least one dot")
           else (true, "")
       end.

(** Python's whitespace on this range of code points. *)
Definition is_space (c : ascii) : bool :=
  between 9 13 c || between 28 32 c || between 133 133 c || between 160 160 c.

Fixpoint lstrip (s : string) : string :=
  match s with
  | String c r => if is_space c then lstrip r else s
  | EmptyString => EmptyString
  end.

Fixpoint rstrip (s : string) : string :=
  match s with
  | EmptyString => EmptyString
  | String c r =>
      match rstrip r with
      | EmptyString => if is_space c then EmptyString else String c ""
      | r' => String c r'
      end
  end.

Definition strip (s : string) : string := rstrip (lstrip s).

(** [normalize_email(email)] *)
Definition normalize_email (email : string) : string := lower (strip email).

(** The local part of an address. *)
Definition local_part (email : string) : string :=
  match rpartition_at "@" email with
  | Some (loc, _) => loc
  | None => email
  end.

End Validators.

(* ===================================================================== *)
(** ** Time: [datetime], [timedelta], [time.time()] *)
(* ===================================================================== *)

(** A [datetime] is a count of microseconds on its own wall clock, a
    [timedelta] a difference of two such counts, as in CPython. *)
Module PyTime.
Local Open Scope Z_scope.

Definition US_PER_SECOND : Z := 1000000.
Definition SECONDS_PER_DAY : Z := 86400.

Definition timedelta_seconds (s : Z) : Z := s * US_PER_SECOND.
Definition timedelta_hours (h : Z) : Z := h * 3600 * US_PER_SECOND.
Definition timedelta_days (d : Z) : Z := d * SECONDS_PER_DAY * US_PER_SECOND.

(** [td.days] and [td.seconds] of the normalised form
    [days * 86400 s + seconds + microseconds], [0 <= seconds < 86400]. *)
Definition days (td : Z) : Z := td / (SECONDS_PER_DAY * US_PER_SECOND).
Definition seconds (td : Z) : Z := (td / US_PER_SECOND) mod SECONDS_PER_DAY.

(** [td.total_seconds()], rounded down to whole seconds. *)
Definition total_seconds_floor (td : Z) : Z := td / US_PER_SECOND.

End PyTime.

(* ===================================================================== *)
(** ** database/connection.py : the connection state machine *)
(* ===================================================================== *)

Module Connection.
Local Open Scope Z_scope.

Inductive ConnectionStatus := DISCONNECTED | CONNECTING | CONNECTED | ERROR.

Record ConnectionMetrics := mkMetrics {
  connection_attempts : Z;
  connection_failures : Z;
  total_connection_time : Z;
  last_connection_time : option Z;
  last_error : option string
}.

(** What the machine does to the outside, in order: the states it
    publishes ([_state_changed.set()]), the factory calls, the sleeps (in
    seconds) and the start of the health-check thread. *)
Inductive Event :=
| EvState (s : ConnectionStatus)
| EvFactory
| EvSleep (secs : Z)
| EvHealthCheck.

Record DatabaseStateMachine := mkMachine {
  _client : option nat;
  _state : ConnectionStatus;
  _connection_error : option string;
  _metrics : ConnectionMetrics;
  trace : list Event
}.

Definition initial : DatabaseStateMachine :=
  mkMachine None DISCONNECTED None (mkMetrics 0 0 0 None None) [].

(** One run of the [try] body: the factory returns client [c] which
    answers [server_info()] after [took] units of time at instant [at_];
    or one of the two raises an [Exception] with [str(e) = err]; or one
    of the two is left by an exception that is no [Exception], such as
    [KeyboardInterrupt], which [except Exception] lets through: the
    factory, with nothing assigned, or [server_info()] of the client
    just assigned to [_client]. *)
Inductive Attempt :=
| Connects (c : nat) (took at_ : Z)
| Fails (err : string)
| Interrupted (assigned : option nat).

Inductive Result :=
| Returned
| DatabaseConnectionError (max_retries : Z) (e : string)
| KeyboardInterrupt.

#[global] Instance Result_eq_dec : EqDecision Result.
Proof. solve_decision. Defined.

Definition emit (e : Event) (m : DatabaseStateMachine) : DatabaseStateMachine :=
  mkMachine (_client m) (_state m) (_connection_error m) (_metrics m)
            (trace m ++ [e]).

Definition set_state (s : ConnectionStatus) (m : DatabaseStateMachine) :=
  emit (EvState s)
    (mkMachine (_client m) s (_connection_error m) (_metrics m) (trace m)).

Definition count_attempt (m : DatabaseStateMachine) :=
  let k := _metrics m in
  mkMachine (_client m) (_state m) (_connection_error m)
    (mkMetrics (connection_attempts k + 1) (connection_failures k)
       (total_connection_time k) (last_connection_time k) (last_error k))
    (trace m).

Definition on_success (c : nat) (took at_ : Z) (m : DatabaseStateMachine) :=
  let k := _metrics m in
  let m := mkMachine (Some c) (_state m) (_connection_error m)
             (mkMetrics (connection_attempts k) (connection_failures k)
                (total_connection_time k + took) (Some at_) (last_error k))
             (trace m) in
  let m := mkMachine (_client m) CONNECTED None (_metrics m) (trace m) in
  emit EvHealthCheck (emit (EvState CONNECTED) m).

Definition on_failure (err : string) (m : DatabaseStateMachine) :=
  let k := _metrics m in
  let m := mkMachine None ERROR (Some err)
             (mkMetrics (connection_attempts k) (connection_failures k + 1)
                (total_connection_time k) (last_connection_time k) (Some err))
             (trace m) in
  emit (EvState ERROR) m.

(** An attempt that is left by an interruption: no handler runs, the
    state stays as the attempt set it. *)
Definition on_interrupt (assigned : option nat) (m : DatabaseStateMachine) :=
  match assigned with
  | Some c => mkMachine (Some c) (_state m) (_connection_error m) (_metrics m) (trace m)
  | None => m
  end.

(** The body of [for attempt in range(max_retries)], for the [todo]
    iterations that remain; [env i] is what attempt [i] meets. *)
Fixpoint retry_loop (max_retries : Z) (env : Z -> Attempt) (todo : nat)
    (attempt : Z) (m : DatabaseStateMachine) : Result * DatabaseStateMachine :=
  match todo with
  | O => (Returned, m)
  | S todo' =>
      let m := count_attempt m in
      let m := set_state CONNECTING m in
      let m := emit EvFactory m in
      match env attempt with
      | Connects c took at_ => (Returned, on_success c took at_ m)
      | Fails err =>
          let m := on_failure err m in
          if attempt <? max_retries - 1
          then retry_loop max_retries env todo' (attempt + 1)
                 (emit (EvSleep (1 * (attempt + 1))) m)
          else (DatabaseConnectionError max_retries err, m)
      | Interrupted assigned => (KeyboardInterrupt, on_interrupt assigned m)
      end
  end.

(** [ensure_connected(max_retries)] *)
Definition ensure_connected (max_retries : Z) (env : Z -> Attempt)
    (m : DatabaseStateMachine) : Result * DatabaseStateMachine :=
  match _state m with
  | CONNECTED => (Returned, m)
  | _ => retry_loop max_retries env (Z.to_nat max_retries) 0 m
  end.

Definition sleeps (m : DatabaseStateMachine) : list Z :=
  omap (fun e => match e with EvSleep s => Some s | _ => None end) (trace m).

Definition states (m : DatabaseStateMachine) : list ConnectionStatus :=
  omap (fun e => match e with EvState s => Some s | _ => None end) (trace m).


(** The delays the specification asks for before retries
    [0 .. max_retries - 2]: one second times two to the attempt index. *)
Definition exponential_delays (max_retries : Z) : list Z :=
  map (fun a => 1 * 2 ^ Z.of_nat a) (seq 0 (Z.to_nat (max_retries - 1))).

Definition always_failing (err : string) : Z -> Attempt := fun _ => Fails err.

End Connection.

(* ===================================================================== *)
(** ** services/camera.py : the circuit breaker *)
(* ===================================================================== *)

Module Camera.
Local Open Scope Z_scope.

Inductive CircuitState := CLOSED | OPEN | HALF_OPEN.

Record CircuitBreaker := mkBreaker {
  failure_threshold : Z;
  timeout : Z;
  failure_count : Z;
  last_failure_time : option Z;
  state : CircuitState
}.

(** [CircuitBreaker(failure_threshold, timeout)] *)
Definition new (failure_threshold timeout : Z) : CircuitBreaker :=
  mkBreaker failure_threshold timeout 0 None CLOSED.

(** What the wrapped function does when it is called: it returns, or it
    raises an [Exception], or it is left by an exception that is no
    [Exception], such as [KeyboardInterrupt], which the [except Exception]
    clause of [call] lets through. *)
Inductive Behaviour (R : Type) :=
| Returns (r : R)
| Raises (e : string)
| Interrupts.
Arguments Returns {R} r.
Arguments Raises {R} e.
Arguments Interrupts {R}.

Inductive Outcome (R : Type) :=
| Result (r : R)
| CircuitOpenError                 (* "Circuit breaker is OPEN - service unavailable" *)
| Reraised (e : string)
| Interruption.                    (* the interruption goes through *)
Arguments Result {R} r.
Arguments CircuitOpenError {R}.
Arguments Reraised {R} e.
Arguments Interruption {R}.

Record Call (R : Type) := mkCall {
  outcome : Outcome R;
  invoked : bool;                  (* was [func] called? *)
  after : CircuitBreaker
}.
Arguments mkCall {R}.
Arguments outcome {R}.
Arguments invoked {R}.
Arguments after {R}.

Definition set_state (s : CircuitState) (cb : CircuitBreaker) : CircuitBreaker :=
  mkBreaker (failure_threshold cb) (timeout cb) (failure_count cb)
            (last_failure_time cb) s.

(** The guard of the [OPEN] branch:
    [self.last_failure_time and
     (datetime.now() - self.last_failure_time).seconds >= self.timeout] *)
Definition cooldown_over (cb : CircuitBreaker) (now : Z) : bool :=
  match last_failure_time cb with
  | Some t => timeout cb <=? PyTime.seconds (now - t)
  | None => false
  end.

(** The [try] block, entered in state [state cb]. *)
Definition run {R} (cb : CircuitBreaker) (func : Behaviour R) (now_exc : Z) : Call R :=
  match func with
  | Returns r =>
      mkCall (Result r) true
        (mkBreaker (failure_threshold cb) (timeout cb) 0
                   (last_failure_time cb) CLOSED)
  | Raises e =>
      let cb := mkBreaker (failure_threshold cb) (timeout cb)
                  (failure_count cb + 1) (Some now_exc) (state cb) in
      let cb := if failure_threshold cb <=? failure_count cb
                then set_state OPEN cb else cb in
      mkCall (Reraised e) true cb
  | Interrupts => mkCall Interruption true cb
  end.

(** [call(func)]: [now] is the clock read by the [OPEN] guard, [now_exc]
    the clock read in the [except] clause. *)
Definition call {R} (cb : CircuitBreaker) (func : Behaviour R)
    (now now_exc : Z) : Call R :=
  match state cb with
  | OPEN =>
      if cooldown_over cb now
      then run (set_state HALF_OPEN cb) func now_exc
      else mkCall CircuitOpenError false cb
  | _ => run cb func now_exc
  end.

(** [reset()] *)
Definition reset (cb : CircuitBreaker) : CircuitBreaker :=
  mkBreaker (failure_threshold cb) (timeout cb) 0 None CLOSED.

(** A run of calls that all raise, at the given instants. *)
Fixpoint fail_times {R} (cb : CircuitBreaker) (ts : list Z) : CircuitBreaker :=
  match ts with
  | [] => cb
  | t :: ts' => fail_times (R:=R) (after (call cb (@Raises R "down") t t)) ts'
  end.

End Camera.

(* ===================================================================== *)
(** ** database/transactions.py and services/grocery.py *)
(* ===================================================================== *)

Module Transactions.
Local Open Scope Z_scope.

(** Field values of the documents the core reads and writes. *)
Inductive value :=
| VNull
| VInt (z : Z)
| VStr (s : string)
| VDate (t : Z)
| VItems (l : list (gmap string string)).

#[global] Instance value_eq_dec : EqDecision value.
Proof. solve_decision. Defined.

(** A document, a filter and the operand of [$set] are dictionaries. *)
Abbreviation doc := (gmap string value).

(** Equality filter: every queried field is present with that value. *)
Definition matches (filter_doc d : doc) : bool :=
  bool_decide (map_Forall (fun k v => d !! k = Some v) filter_doc).

(** [collection.find_one(filter)] : the first match in storage order. *)
Fixpoint coll_find_one (filter_doc : doc) (c : list doc) : option doc :=
  match c with
  | [] => None
  | d :: c' => if matches filter_doc d then Some d else coll_find_one filter_doc c'
  end.

(** [collection.update_one(filter, {"$set": upd})] without upsert: the
    first match takes the new fields; the count of matched documents
    comes back. *)
Fixpoint coll_update_one (filter_doc upd : doc) (c : list doc) : Z * list doc :=
  match c with
  | [] => (0, [])
  | d :: c' =>
      if matches filter_doc d then (1, (upd ∪ d) :: c')
      else let '(n, c'') := coll_update_one filter_doc upd c' in (n, d :: c'')
  end.

Record Operation := mkOp {
  op_type : string;
  op_collection : string;
  op_matched : Z
}.

(** An open [MongoTransaction]: its view of the collections, the start
    instant and the deadline, and the operation log. *)
Record MongoTransaction := mkTxn {
  db : gmap string (list doc);
  timeout_seconds : Z;
  _start_time : option Z;
  _operations : list Operation
}.

Inductive Error :=
| TransactionTimeoutError
| VersionConflictError (list_name : string) (expected : Z) (found : option value)
| ValueError (list_name : string).

Definition collection (txn : MongoTransaction) (name : string) : list doc :=
  default [] (db txn !! name).

(** [_check_timeout()] at clock reading [now] (microseconds). *)
Definition _check_timeout (txn : MongoTransaction) (now : Z) : bool :=
  match _start_time txn with
  | Some t0 => PyTime.timedelta_seconds (timeout_seconds txn) <? now - t0
  | None => false
  end.

(** [txn.update_one(collection, filter, {"$set": upd})] *)
Definition update_one (txn : MongoTransaction) (now : Z)
    (coll : string) (filter_doc upd : doc) : (Z + Error) * MongoTransaction :=
  if _check_timeout txn now then (inr TransactionTimeoutError, txn)
  else
    let '(n, c') := coll_update_one filter_doc upd (collection txn coll) in
    (inl n,
     mkTxn (<[coll := c']> (db txn)) (timeout_seconds txn) (_start_time txn)
           (_operations txn ++ [mkOp "update_one" coll n])).

(** [txn.find_one(collection, filter)] *)
Definition find_one (txn : MongoTransaction) (now : Z)
    (coll : string) (filter_doc : doc) : (option doc + Error) :=
  if _check_timeout txn now then inr TransactionTimeoutError
  else inl (coll_find_one filter_doc (collection txn coll)).

End Transactions.

Module Grocery.
Import Transactions.
Local Open Scope Z_scope.

Definition list_query (username list_name : string) : doc :=
  {[ "username" := VStr username; "name" := VStr list_name ]}.

(** [expected_version or 0] *)
Definition or_zero (expected_version : option Z) : Z :=
  match expected_version with Some v => v | None => 0 end.

(** [_update_grocery_list_with_locking(txn, username, list_name, updates,
    expected_version)].  [t_update] and [t_find] are the clock readings
    of the two transaction operations, [now] is [datetime.now()]. *)
Definition _update_grocery_list_with_locking
    (txn : MongoTransaction) (username list_name : string) (updates : doc)
    (expected_version : option Z) (now t_update t_find : Z)
    : (bool + Error) * MongoTransaction :=
  let query := list_query username list_name in
  let query := match expected_version with
               | Some v => <["version" := VInt v]> query
               | None => query
               end in
  let updates := <["version" := VInt (or_zero expected_version + 1)]> updates in
  let updates := <["updated_at" := VDate now]> updates in
  match update_one txn t_update "grocery_lists" query updates with
  | (inr e, txn') => (inr e, txn')
  | (inl matched_count, txn') =>
      if matched_count =? 0 then
        match expected_version with
        | Some v =>
            match find_one txn' t_find "grocery_lists"
                    (list_query username list_name) with
            | inr e => (inr e, txn')
            | inl (Some exists_) =>
                if bool_decide (exists_ = ∅)
                then (inr (ValueError list_name), txn')
                else (inr (VersionConflictError list_name v
                             (exists_ !! "version")), txn')
            | inl None => (inr (ValueError list_name), txn')
            end
        | None => (inr (ValueError list_name), txn')
        end
      else (inl true, txn')
  end.

(** The stored row of a list, as a reader inside the transaction sees it. *)
Definition stored (txn : MongoTransaction) (username list_name : string) : option doc :=
  coll_find_one (list_query username list_name) (collection txn "grocery_lists").

(** The first row of a list that carries version [v]: what the
    versioned filter of the update matches. *)
Definition stored_at (txn : MongoTransaction) (username list_name : string) (v : Z)
    : option doc :=
  coll_find_one (<["version" := VInt v]> (list_query username list_name))
                (collection txn "grocery_lists").



(** A transaction opened at [t0] over one grocery list of [alice]. *)
Definition sample_row (version : Z) : doc :=
  {[ "username" := VStr "alice"; "name" := VStr "weekly";
     "version" := VInt version; "items" := VItems [] ]}.

Definition sample_txn (version : Z) : MongoTransaction :=
  mkTxn {[ "grocery_lists" := [sample_row version] ]} 30 (Some 0) [].


End Grocery.

(* ===================================================================== *)
(** ** The document store behind the authentication kernel *)
(* ===================================================================== *)

(** Code that talks to the store through [DatabaseConnectionContext] runs
    in a small state-and-exception monad over a [World]: the collections,
    the clock, the entropy source, and a schedule saying which of the
    upcoming store operations raise. *)
Module Store.
Local Open Scope Z_scope.

Record Security := mkSecurity {
  failed_login_attempts : Z;
  locked_until : option Z;
  last_login : option Z;
  last_password_change : option Z;
  password_reset_token : option string;
  password_reset_expires : option Z
}.

Record User := mkUser {
  _id : nat;
  email : string;
  email_verified : bool;
  auth_provider : string;
  password_hash : option string;
  profile : gmap string (list string);
  security : Security;
  created_at : Z;
  updated_at : Z
}.

Record DeviceInfo := mkDevice {
  interface : string;
  user_agent : string;
  ip_address : string
}.

Record Session := mkSession {
  s_user_id : nat;
  access_token_jti : string;
  refresh_token_jti : string;
  device_info : DeviceInfo;
  s_created_at : Z;
  expires_at : Z;
  last_activity : Z;
  revoked : bool
}.

Record AuditRecord := mkAudit {
  event_type : string;
  a_user_id : option nat;
  a_email : string;
  provider : option string;
  a_ip_address : option string;
  success : bool;
  failure_reason : option string;
  timestamp : Z
}.

Record Database := mkDatabase {
  users_v2 : list User;
  auth_sessions : list Session;
  auth_audit_log : list AuditRecord;
  next_oid : nat
}.

Record World := mkWorld {
  database : Database;
  faults : list bool;          (* [true]: the next store operation raises *)
  now : Z;                     (* UTC wall clock, microseconds since the epoch *)
  tz_offset : Z;               (* local time minus UTC, seconds *)
  token_hex : nat -> string;   (* what [secrets.token_hex(16)] yields, draw by draw *)
  drawn : nat
}.

Inductive Exn :=
| PyMongoError
| DuplicateKeyError
| ValueError (msg : string)
| TypeError
| NameError (name : string).   (* "name '...' is not defined" *)

Definition M (A : Type) : Type := World -> (A + Exn) * World.

#[global] Instance M_ret : MRet M := fun A x w => (inl x, w).
#[global] Instance M_bind : MBind M := fun A B f m w =>
  match m w with
  | (inl a, w') => f a w'
  | (inr e, w') => (inr e, w')
  end.

Definition raise {A} (e : Exn) : M A := fun w => (inr e, w).

(** [try: body  except Exception: handler] *)
Definition try_except {A} (body : M A) (handler : Exn -> M A) : M A := fun w =>
  match body w with
  | (inl a, w') => (inl a, w')
  | (inr e, w') => handler e w'
  end.

Definition with_database (w : World) (d : Database) : World :=
  mkWorld d (faults w) (now w) (tz_offset w) (token_hex w) (drawn w).

Definition with_faults (w : World) (fs : list bool) : World :=
  mkWorld (database w) fs (now w) (tz_offset w) (token_hex w) (drawn w).

(** One round trip to the store. *)
Definition store_op {A} (f : Database -> (A + Exn) * Database) : M A := fun w =>
  match faults w with
  | true :: fs => (inr PyMongoError, with_faults w fs)
  | fs =>
      let w := with_faults w (tail fs) in
      let '(r, d) := f (database w) in
      (r, with_database w d)
  end.

(** [self.database.get_client()] : connects if need be, and may fail. *)
Definition get_client : M unit := store_op (fun d => (inl tt, d)).

(** [datetime.utcnow()] : naive, on the UTC wall clock. *)
Definition utcnow : M Z := fun w => (inl (now w), w).

(** [int(time.time())] *)
Definition time_time : M Z := fun w => (inl (now w / PyTime.US_PER_SECOND), w).

(** [d.timestamp()] of a naive datetime, read as local time; in
    microseconds since the epoch. *)
Definition timestamp_us (w : World) (naive : Z) : Z :=
  naive - PyTime.timedelta_seconds (tz_offset w).

(** [datetime.fromtimestamp(t)] : naive, on the local wall clock. *)
Definition fromtimestamp (t : Z) : M Z := fun w =>
  (inl (PyTime.timedelta_seconds t + PyTime.timedelta_seconds (tz_offset w)), w).

(** [secrets.token_hex(16)] *)
Definition secrets_token_hex : M string := fun w =>
  (inl (token_hex w (drawn w)),
   mkWorld (database w) (faults w) (now w) (tz_offset w) (token_hex w) (S (drawn w))).

Definition with_users (d : Database) (us : list User) : Database :=
  mkDatabase us (auth_sessions d) (auth_audit_log d) (next_oid d).

(** [db['users_v2'].find_one(...)] *)
Definition users_find_one (p : User -> bool) : M (option User) :=
  store_op (fun d => (inl (List.find p (users_v2 d)), d)).

Fixpoint update_first {A} (p : A -> bool) (f : A -> A) (l : list A) : list A :=
  match l with
  | [] => []
  | x :: l' => if p x then f x :: l' else x :: update_first p f l'
  end.

(** [db['users_v2'].update_one({'_id': id}, {'$set': ...})] *)
Definition users_update_one (id : nat) (f : User -> User) : M unit :=
  store_op (fun d =>
    (inl tt, with_users d (update_first (fun u => Nat.eqb (_id u) id) f (users_v2 d)))).

(** [db['users_v2'].insert_one(doc)] under the unique index on [email];
    the fresh [_id] comes back. *)
Definition users_insert_one (mk : nat -> User) : M nat :=
  store_op (fun d =>
    let u := mk (next_oid d) in
    if existsb (fun u' => String.eqb (email u') (email u)) (users_v2 d)
    then (inr DuplicateKeyError, d)
    else (inl (next_oid d),
          mkDatabase (users_v2 d ++ [u]) (auth_sessions d) (auth_audit_log d)
                     (S (next_oid d)))).

(** [db['auth_sessions'].insert_one(doc)] under the unique index on
    [access_token_jti]. *)
Definition sessions_insert_one (s : Session) : M unit :=
  store_op (fun d =>
    if existsb (fun s' => String.eqb (access_token_jti s') (access_token_jti s))
               (auth_sessions d)
    then (inr DuplicateKeyError, d)
    else (inl tt,
          mkDatabase (users_v2 d) (auth_sessions d ++ [s]) (auth_audit_log d)
                     (next_oid d))).

(** [db['auth_audit_log'].insert_one(doc)] *)
Definition audit_insert_one (mk : Z -> AuditRecord) : M unit := fun w =>
  store_op (fun d =>
    (inl tt,
     mkDatabase (users_v2 d) (auth_sessions d) (auth_audit_log d ++ [mk (now w)])
                (next_oid d))) w.

Definition no_faults (w : World) : Prop := Forall (fun b => b = false) (faults w).

(** An empty store at instant [t] (UTC, microseconds) in time zone
    [tz] (seconds east of UTC), with [fs] as fault schedule; the
    entropy source yields a different string at each draw. *)
Definition empty_database : Database := mkDatabase [] [] [] 0.

Definition fresh_world (t tz : Z) (fs : list bool) : World :=
  mkWorld empty_database fs t tz
          (fun n => String.concat "" (repeat "5f" (S n))) 0.

End Store.

(* ===================================================================== *)
(** ** auth/config.py and auth/providers.py *)
(* ===================================================================== *)

Module Config.
Local Open Scope Z_scope.

Record AuthConfig := mkConfig {
  JWT_SECRET_KEY : string;
  JWT_ACCESS_TOKEN_EXPIRY : Z;
  JWT_REFRESH_TOKEN_EXPIRY : Z;
  JWT_RESET_TOKEN_EXPIRY : Z;
  BCRYPT_COST_FACTOR : Z;
  MAX_LOGIN_ATTEMPTS : Z;
  LOCKOUT_DURATION : Z;
  REQUIRE_EMAIL_VERIFICATION : bool
}.

(** The values the module falls back to when the environment sets
    nothing but the signing key. *)
Definition defaults (secret : string) : AuthConfig :=
  mkConfig secret 900 2592000 3600 12 5 1800 false.

End Config.

Module Providers.
Import Store Config.
Local Open Scope Z_scope.

(** The [bcrypt] functions the provider calls. *)
Class Bcrypt := {
  hashpw : string -> Z -> string;       (* password, cost of the salt *)
  checkpw : string -> string -> bool    (* password, stored hash *)
}.

(** [credentials.data] *)
Record AuthCredentials := mkCredentials {
  c_email : option string;
  c_password : option string;
  c_ip_address : option string;
  c_interface : option string;
  c_user_agent : option string
}.

Inductive Message :=
| InvalidEmail (why : string)            (* "Invalid email: ..." *)
| InvalidPassword (feedback : string)    (* "Invalid password: ..." *)
| EmailAlreadyRegistered                 (* "Email already registered" *)
| RegistrationServerError                (* "Registration failed due to server error" *)
| InvalidEmailOrPassword                 (* "Invalid email or password" *)
| AccountLocked (remaining : Z)          (* "Account locked. Try again in N minutes" *)
| EmailNotVerified                       (* "Email not verified. ..." *)
| AuthenticationServerError              (* "Authentication failed due to server error" *)
| UnknownProvider (name : string).       (* "Unknown provider: ..." *)

Record AuthResult := mkAuthResult {
  r_success : bool;
  r_user_id : option nat;
  r_email : option string;
  error_message : option Message;
  requires_verification : bool
}.

Definition failure (m : Message) : AuthResult :=
  mkAuthResult false None None (Some m) false.

Definition with_security (u : User) (s : Security) : User :=
  mkUser (_id u) (email u) (email_verified u) (auth_provider u)
         (password_hash u) (profile u) s (created_at u) (updated_at u).

(** [{'$set': {'security.failed_login_attempts': n}}], with
    ['security.locked_until'] when a lock is given. *)
Definition set_failed (n : Z) (lock : option Z) (u : User) : User :=
  let s := security u in
  with_security u
    (mkSecurity n
       (match lock with Some t => Some t | None => locked_until s end)
       (last_login s) (last_password_change s)
       (password_reset_token s) (password_reset_expires s)).

(** [{'$set': {'security.failed_login_attempts': 0,
               'security.locked_until': None,
               'security.last_login': t}}] *)
Definition set_logged_in (t : Z) (u : User) : User :=
  let s := security u in
  with_security u
    (mkSecurity 0 None (Some t) (last_password_change s)
       (password_reset_token s) (password_reset_expires s)).

Definition login_failed (uid : option nat) (em : string) (ip : string)
    (reason : string) (t : Z) : AuditRecord :=
  mkAudit "login_failed" uid em (Some "email") (Some ip) false (Some reason) t.

(** A stand-in for the library in examples: the hash shows the
    password. *)
Definition example_bcrypt : Bcrypt :=
  {| hashpw := fun password _ => "$2b$" ++ password;
     checkpw := fun password h => String.eqb h ("$2b$" ++ password) |}.

(** Sample data: the account of [bob@example.com], whose password is
    [Correct-Horse-9!], alone in the store at instant [t]. *)
Definition bob (failed : Z) (lock : option Z) (verified : bool) : User :=
  mkUser 0 "bob@example.com" verified "email" (Some "$2b$Correct-Horse-9!") ∅
         (mkSecurity failed lock None (Some 0) None None) 0 0.

Definition world_with (u : User) (t : Z) : World :=
  mkWorld (mkDatabase [u] [] [] 1) [] t 0
          (fun n => String.concat "" (repeat "5f" (S n))) 0.

Definition bob_tries (password : string) : AuthCredentials :=
  mkCredentials (Some "bob@example.com") (Some password) None None None.

Section EmailPasswordProvider.
Context `{Bcrypt}.
Variable cfg : AuthConfig.

(** [EmailPasswordProvider.register(credentials, profile)] *)
Definition register (credentials : AuthCredentials)
    (prof : gmap string (list string)) : M AuthResult :=
  try_except
    (let email_ := Validators.strip (default "" (c_email credentials)) in
     let password := default "" (c_password credentials) in
     let '(email_valid, email_error) := Validators.validate_email email_ in
     if negb email_valid then mret (failure (InvalidEmail email_error))
     else
       let email_ := Validators.normalize_email email_ in
       let '(password_valid, password_feedback) :=
         Validators.validate_password_with_feedback password (Some email_) in
       if negb password_valid
       then mret (failure (InvalidPassword password_feedback))
       else
         get_client ;;
         existing_user ← users_find_one (fun u => String.eqb (email u) email_) ;
         match existing_user with
         | Some _ => mret (failure EmailAlreadyRegistered)
         | None =>
             let password_hash_ := hashpw password (BCRYPT_COST_FACTOR cfg) in
             t ← utcnow ;
             user_id ← users_insert_one (fun oid =>
               mkUser oid email_ (negb (REQUIRE_EMAIL_VERIFICATION cfg)) "email"
                 (Some password_hash_) prof
                 (mkSecurity 0 None None (Some t) None None) t t) ;
             audit_insert_one (mkAudit "user_registered" (Some user_id) email_
                                 (Some "email") None true None) ;;
             mret (mkAuthResult true (Some user_id) (Some email_) None
                     (REQUIRE_EMAIL_VERIFICATION cfg))
         end)
    (fun _ => mret (failure RegistrationServerError)).

(** The part of [authenticate] after the lock check: the password is
    verified, then either the failure is counted (and the account
    locked at the threshold) or the counters are cleared. *)
Definition verify_password (user : User) (email_ password ip : string)
    (t : Z) : M AuthResult :=
  match password_hash user with
  | None => raise TypeError
  | Some h =>
      if negb (checkpw password h) then
        let failed_attempts := failed_login_attempts (security user) + 1 in
        let lock :=
          if MAX_LOGIN_ATTEMPTS cfg <=? failed_attempts
          then Some (t + PyTime.timedelta_seconds (LOCKOUT_DURATION cfg))
          else None in
        users_update_one (_id user) (set_failed failed_attempts lock) ;;
        audit_insert_one
          (login_failed (Some (_id user)) email_ ip "invalid_password") ;;
        mret (failure InvalidEmailOrPassword)
      else if REQUIRE_EMAIL_VERIFICATION cfg && negb (email_verified user) then
        mret (mkAuthResult false None None (Some EmailNotVerified) true)
      else
        users_update_one (_id user) (set_logged_in t) ;;
        audit_insert_one
          (mkAudit "login_success" (Some (_id user)) email_ (Some "email")
             (Some ip) true None) ;;
        mret (mkAuthResult true (Some (_id user)) (Some email_) None false)
  end.

(** [EmailPasswordProvider.authenticate(credentials)] *)
Definition authenticate (credentials : AuthCredentials) : M AuthResult :=
  try_except
    (let email_ := Validators.normalize_email (default "" (c_email credentials)) in
     let password := default "" (c_password credentials) in
     let ip := default "unknown" (c_ip_address credentials) in
     get_client ;;
     user ← users_find_one (fun u =>
               String.eqb (email u) email_ && String.eqb (auth_provider u) "email") ;
     match user with
     | None =>
         audit_insert_one (login_failed None email_ ip "user_not_found") ;;
         mret (failure InvalidEmailOrPassword)
     | Some user =>
         t ← utcnow ;
         match locked_until (security user) with
         | Some until_ =>
             if t <? until_
             then mret (failure (AccountLocked (PyTime.seconds (until_ - t) / 60)))
             else verify_password user email_ password ip t
         | None => verify_password user email_ password ip t
         end
     end)
    (fun _ => mret (failure AuthenticationServerError)).

End EmailPasswordProvider.

End Providers.

(* ===================================================================== *)
(** ** auth/oauth.py : tokens and session creation *)
(* ===================================================================== *)

Module OAuth.
Import Store Config Providers.
Local Open Scope Z_scope.

Inductive TokenType := ACCESS | REFRESH | RESET.

#[global] Instance TokenType_eq_dec : EqDecision TokenType.
Proof. solve_decision. Defined.

Record TokenClaims := mkClaims {
  sub : nat;
  tc_email : string;
  iat : Z;
  exp : Z;
  jti : string;
  type : TokenType
}.

(** An encoded token: the claims and the key of the signature.  This is
    all [jwt.decode] can tell about the string [jwt.encode] returns. *)
Record Token := mkToken {
  payload : TokenClaims;
  signed_with : string
}.

Record TokenManager := mkTokenManager {
  secret_key : string;
  access_token_expiry : Z;
  refresh_token_expiry : Z;
  reset_token_expiry : Z
}.

(** [TokenManager()] under a configuration. *)
Definition token_manager_of (cfg : AuthConfig) : TokenManager :=
  mkTokenManager (JWT_SECRET_KEY cfg) (JWT_ACCESS_TOKEN_EXPIRY cfg)
    (JWT_REFRESH_TOKEN_EXPIRY cfg) (JWT_RESET_TOKEN_EXPIRY cfg).

Definition generate_token (tm : TokenManager) (lifetime : Z) (ty : TokenType)
    (user_id : nat) (email_ : string) : M Token :=
  now_timestamp ← time_time ;
  let expiry_timestamp := now_timestamp + lifetime in
  j ← secrets_token_hex ;
  mret (mkToken (mkClaims user_id email_ now_timestamp expiry_timestamp j ty)
                (secret_key tm)).

Definition generate_access_token (tm : TokenManager) :=
  generate_token tm (access_token_expiry tm) ACCESS.

Definition generate_refresh_token (tm : TokenManager) :=
  generate_token tm (refresh_token_expiry tm) REFRESH.

Definition generate_reset_token (tm : TokenManager) :=
  generate_token tm (reset_token_expiry tm) RESET.

(** [jwt.decode(token, key, algorithms)] : the signature and the [exp]
    claim are checked. *)
Definition jwt_decode (key : string) (tok : Token) (w : World) : option TokenClaims :=
  if negb (String.eqb (signed_with tok) key) then None
  else if PyTime.timedelta_seconds (exp (payload tok)) <=? now w then None
  else Some (payload tok).

(** [validate_token(token, expected_type)] *)
Definition validate_token (tm : TokenManager) (tok : Token)
    (expected_type : TokenType) : M (option TokenClaims) := fun w =>
  match jwt_decode (secret_key tm) tok w with
  | None => (inl None, w)
  | Some claims =>
      if negb (bool_decide (type claims = expected_type)) then (inl None, w)
      else if PyTime.timedelta_seconds (exp claims) <? timestamp_us w (now w)
      then (inl None, w)
      else (inl (Some claims), w)
  end.

Record TokenPair := mkTokenPair {
  access_token : Token;
  refresh_token : Token;
  token_type : string;
  expires_in : Z
}.

(** One credential provider, as the service sees it. *)
Record AuthProvider := mkProvider {
  provider_name : string;
  provider_register : AuthCredentials -> gmap string (list string) -> M AuthResult;
  provider_authenticate : AuthCredentials -> M AuthResult
}.

Record AuthenticationService := mkService {
  config : AuthConfig;
  token_manager : TokenManager;
  providers : gmap string AuthProvider
}.

Definition tokens_issued (uid : nat) (em : string) (t : Z) : AuditRecord :=
  mkAudit "tokens_issued" (Some uid) em None None true None t.

(** [_create_session(user_id, email, metadata)] *)
Definition _create_session (svc : AuthenticationService)
    (user_id : nat) (email_ : string) (metadata : AuthCredentials) : M TokenPair :=
  let tm := token_manager svc in
  access ← generate_access_token tm user_id email_ ;
  refresh ← generate_refresh_token tm user_id email_ ;
  access_claims ← validate_token tm access ACCESS ;
  refresh_claims ← validate_token tm refresh REFRESH ;
  match access_claims, refresh_claims with
  | Some access_claims, Some refresh_claims =>
      get_client ;;
      t ← utcnow ;
      expires ← fromtimestamp (exp refresh_claims) ;
      sessions_insert_one
        (mkSession user_id (jti access_claims) (jti refresh_claims)
           (mkDevice (default "cli" (c_interface metadata))
                     (default "unknown" (c_user_agent metadata))
                     (default "unknown" (c_ip_address metadata)))
           t expires t false) ;;
      audit_insert_one (tokens_issued user_id email_) ;;
      mret (mkTokenPair access refresh "Bearer"
              (JWT_ACCESS_TOKEN_EXPIRY (config svc)))
  | _, _ => raise (ValueError "Failed to validate newly generated tokens")
  end.

(** [AuthResult(success=False, error_message=...)] as [oauth.py] has it.
    The module imports [AuthResult] under [TYPE_CHECKING] only, so the
    name is not bound when the call is evaluated: the call raises
    [NameError] and no result is built. *)
Definition unbound_AuthResult {A} (m : Message) : M A :=
  raise (NameError "AuthResult").

(** The [except Exception] handler of the two public operations: after
    logging, it builds its reply with [AuthResult]. *)
Definition server_error (m : Message) : M (AuthResult * option TokenPair) :=
  unbound_AuthResult m.

(** [register_user(provider_name, credentials, profile)] *)
Definition register_user (svc : AuthenticationService) (name : string)
    (credentials : AuthCredentials) (prof : gmap string (list string))
    : M (AuthResult * option TokenPair) :=
  try_except
    (match providers svc !! name with
     | None => unbound_AuthResult (UnknownProvider name)
     | Some provider =>
         result ← provider_register provider credentials prof ;
         if negb (r_success result) then mret (result, None)
         else if negb (requires_verification result) then
           tokens ← _create_session svc (default 0%nat (r_user_id result))
                      (default "" (r_email result)) credentials ;
           mret (result, Some tokens)
         else mret (result, None)
     end)
    (fun _ => server_error RegistrationServerError).

(** [authenticate_user(provider_name, credentials)] *)
Definition authenticate_user (svc : AuthenticationService) (name : string)
    (credentials : AuthCredentials) : M (AuthResult * option TokenPair) :=
  try_except
    (match providers svc !! name with
     | None => unbound_AuthResult (UnknownProvider name)
     | Some provider =>
         result ← provider_authenticate provider credentials ;
         if negb (r_success result) then mret (result, None)
         else
           tokens ← _create_session svc (default 0%nat (r_user_id result))
                      (default "" (r_email result)) credentials ;
           mret (result, Some tokens)
     end)
    (fun _ => server_error AuthenticationServerError).

(** The password provider as an [AuthProvider]. *)
Definition email_provider `{Bcrypt} (cfg : AuthConfig) : AuthProvider :=
  mkProvider "email" (register cfg) (authenticate cfg).

(** [AuthenticationService(database)] with the password provider only. *)
Definition service `{Bcrypt} (cfg : AuthConfig) : AuthenticationService :=
  mkService cfg (token_manager_of cfg) {[ "email" := email_provider cfg ]}.

(** A session row answering to an access token: same [jti], not revoked. *)
Definition live_session_for (d : Database) (tok : Token) : Prop :=
  exists s, s ∈ auth_sessions d
            /\ access_token_jti s = jti (payload tok)
            /\ revoked s = false.

End OAuth.

(* ===================================================================== *)
(** ** hashlib.sha256 *)
(* ===================================================================== *)

Module Sha256.
Local Open Scope N_scope.

Definition mask : N := 4294967295.
Definition w32 (x : N) : N := N.land x mask.
Definition add32 (x y : N) : N := w32 (x + y).
Definition rotr (n x : N) : N := N.lor (N.shiftr x n) (w32 (N.shiftl x (32 - n))).
Definition xor3 (x y z : N) : N := N.lxor (N.lxor x y) z.

Definition Ch (e f g : N) : N := N.lxor (N.land e f) (N.land (N.lxor e mask) g).
Definition Maj (a b c : N) : N := xor3 (N.land a b) (N.land a c) (N.land b c).
Definition Sigma0 (a : N) : N := xor3 (rotr 2 a) (rotr 13 a) (rotr 22 a).
Definition Sigma1 (e : N) : N := xor3 (rotr 6 e) (rotr 11 e) (rotr 25 e).
Definition sigma0 (x : N) : N := xor3 (rotr 7 x) (rotr 18 x) (N.shiftr x 3).
Definition sigma1 (x : N) : N := xor3 (rotr 17 x) (rotr 19 x) (N.shiftr x 10).

Definition K : list N :=
  [1116352408; 1899447441; 3049323471; 3921009573; 961987163; 1508970993;
   2453635748; 2870763221; 3624381080; 310598401; 607225278; 1426881987;
   1925078388; 2162078206; 2614888103; 3248222580; 3835390401;
   4022224774; 264347078; 604807628; 770255983; 1249150122; 1555081692;
   1996064986; 2554220882; 2821834349; 2952996808; 3210313671;
   3336571891; 3584528711; 113926993; 338241895; 666307205; 773529912;
   1294757372; 1396182291; 1695183700; 1986661051; 2177026350;
   2456956037; 2730485921; 2820302411; 3259730800; 3345764771;
   3516065817; 3600352804; 4094571909; 275423344; 430227734; 506948616;
   659060556; 883997877; 958139571; 1322822218; 1537002063; 1747873779;
   1955562222; 2024104815; 2227730452; 2361852424; 2428436474;
   2756734187; 3204031479; 3329325298].

Record state := mkState { ha : N; hb : N; hc : N; hd : N;
                          he : N; hf : N; hg : N; hh : N }.

Definition H0 : state :=
  mkState 1779033703 3144134277 1013904242 2773480762
          1359893119 2600822924 528734635 1541459225.

(** Big-endian bytes of [x], [n] of them. *)
Fixpoint be_bytes (n : nat) (x : N) : list N :=
  match n with
  | O => []
  | S n' => N.land (N.shiftr x (8 * N.of_nat n')) 255 :: be_bytes n' x
  end.

Definition pad (msg : list N) : list N :=
  let l := N.of_nat (length msg) in
  let k := (64 + 55 - l mod 64) mod 64 in
  msg ++ [128] ++ repeat 0 (N.to_nat k) ++ be_bytes 8 (8 * l).

Fixpoint words (bytes : list N) : list N :=
  match bytes with
  | a :: b :: c :: d :: rest =>
      (N.shiftl a 24 + N.shiftl b 16 + N.shiftl c 8 + d) :: words rest
  | _ => []
  end.

Definition at_ (w : list N) (i : nat) : N := nth i w 0.

(** The message schedule, grown from 16 words by [n] more. *)
Fixpoint extend (n : nat) (w : list N) : list N :=
  match n with
  | O => w
  | S n' =>
      let t := length w in
      extend n' (w ++ [add32 (add32 (add32 (sigma1 (at_ w (t - 2))) (at_ w (t - 7)))
                                    (sigma0 (at_ w (t - 15))))
                             (at_ w (t - 16))])
  end.

Definition round (s : state) (kw : N * N) : state :=
  let t1 := add32 (add32 (add32 (add32 (hh s) (Sigma1 (he s)))
                                (Ch (he s) (hf s) (hg s))) kw.1) kw.2 in
  let t2 := add32 (Sigma0 (ha s)) (Maj (ha s) (hb s) (hc s)) in
  mkState (add32 t1 t2) (ha s) (hb s) (hc s) (add32 (hd s) t1) (he s) (hf s) (hg s).

Definition compress (h : state) (block : list N) : state :=
  let s := fold_left round (combine K (extend 48 block)) h in
  mkState (add32 (ha h) (ha s)) (add32 (hb h) (hb s)) (add32 (hc h) (hc s))
          (add32 (hd h) (hd s)) (add32 (he h) (he s)) (add32 (hf h) (hf s))
          (add32 (hg h) (hg s)) (add32 (hh h) (hh s)).

(** The 16-word blocks of a padded message; [fuel] bounds their number. *)
Fixpoint blocks (fuel : nat) (ws : list N) : list (list N) :=
  match fuel, ws with
  | S fuel', _ :: _ => take 16 ws :: blocks fuel' (drop 16 ws)
  | _, _ => []
  end.

Definition digest (msg : list N) : state :=
  let ws := words (pad msg) in
  fold_left compress (blocks (length ws) ws) H0.

Definition hex_digit (n : N) : ascii :=
  ascii_of_N (if n <? 10 then 48 + n else 87 + n).

Definition nibble (x i : N) : ascii := hex_digit (N.land (N.shiftr x (4 * i)) 15).

Definition hex8 (x : N) (rest : string) : string :=
  String (nibble x 7) (String (nibble x 6) (String (nibble x 5) (String (nibble x 4)
 (String (nibble x 3) (String (nibble x 2) (String (nibble x 1) (String (nibble x 0)
  rest))))))).

(** [hashlib.sha256(s.encode('utf-8')).hexdigest()] for text whose
    encoding is one byte per character. *)
Definition hexdigest (s : string) : string :=
  let d := digest (map N_of_ascii (list_ascii_of_string s)) in
  hex8 (ha d) (hex8 (hb d) (hex8 (hc d) (hex8 (hd d)
 (hex8 (he d) (hex8 (hf d) (hex8 (hg d) (hex8 (hh d) ""))))))).

End Sha256.

(* ===================================================================== *)
(** ** auth/cache.py : the profile-aware cache *)
(* ===================================================================== *)

Module Cache.
Import PyStr.
Local Open Scope Z_scope.

(** *** Profiles and [sorted] *)

(** A value of the profile dictionary. *)
Inductive pvalue :=
| PList (l : list string)      (* a list of strings *)
| PStr (s : string)            (* a string *)
| PInt (z : Z)                 (* a number *)
| PNone.                       (* [None] *)

#[global] Instance pvalue_eq_dec : EqDecision pvalue.
Proof. solve_decision. Defined.

Abbreviation profile := (gmap string pvalue).

(** [sorted(l)] on strings: [str] compares code point by code point,
    which is the order [String.le]. *)
Definition sorted (l : list string) : list string := merge_sort String.le l.

(** The elements [sorted] iterates over: [None] when the value cannot
    be iterated or its elements compared ([TypeError]). *)
Definition iterate (v : pvalue) : option (list string) :=
  match v with
  | PList l => Some l
  | PStr s => Some (map (fun c => String c "") (list_ascii_of_string s))
  | PInt _ | PNone => None
  end.

(** [sorted(user_profile.get(key, []))] *)
Definition sorted_field (p : profile) (key : string) : option (list string) :=
  sorted <$> iterate (default (PList []) (p !! key)).

(** *** [json.dumps] of the fingerprint *)

Definition hex2 (c : ascii) : string :=
  String (Sha256.nibble (ord c) 1) (String (Sha256.nibble (ord c) 0) "").

(** One character inside a JSON string, with [ensure_ascii]. *)
Definition json_char (c : ascii) : string :=
  if Ascii.eqb c "034" then String "\" (String "034" "")
  else if Ascii.eqb c "\" then "\\"
  else if Ascii.eqb c "010" then "\n"
  else if Ascii.eqb c "013" then "\r"
  else if Ascii.eqb c "009" then "\t"
  else if Ascii.eqb c "008" then "\b"
  else if Ascii.eqb c "012" then "\f"
  else if between 32 126 c then String c ""
  else "\u00" ++ hex2 c.

Fixpoint json_escape (s : string) : string :=
  match s with
  | EmptyString => EmptyString
  | String c r => json_char c ++ json_escape r
  end.

Definition quote : string := String "034" "".

Definition json_string (s : string) : string := quote ++ json_escape s ++ quote.

Definition json_list (l : list string) : string :=
  "[" ++ join ", " (map json_string l) ++ "]".

(** [json.dumps({'allergies': a, 'diet_types': d,
                 'cultural_restrictions': c}, sort_keys=True)] *)
Definition fingerprint_str (a d c : list string) : string :=
  "{" ++ json_string "allergies" ++ ": " ++ json_list a ++ ", "
      ++ json_string "cultural_restrictions" ++ ": " ++ json_list c ++ ", "
      ++ json_string "diet_types" ++ ": " ++ json_list d ++ "}".

(** [s[:n]] *)
Definition prefix (n : nat) (s : string) : string := String.substring 0 n s.

(** [generate_profile_hash(user_profile)]; [None] when it raises. *)
Definition generate_profile_hash (user_profile : profile) : option string :=
  allergies ← sorted_field user_profile "allergies" ;
  diet_types ← sorted_field user_profile "diet_types" ;
  cultural_restrictions ← sorted_field user_profile "cultural_restrictions" ;
  Some (prefix 16 (Sha256.hexdigest
                     (fingerprint_str allergies diet_types cultural_restrictions))).

(** *** The manager *)

(** The dictionary stored in one cache file; a key may be missing. *)
Record Entry := mkEntry {
  cached_at : option Z;
  response : option string;
  mode : option string;
  invalidated : option bool;
  profile_version : option string
}.

(** What a file of the cache directory holds. *)
Inductive File :=
| Json (e : Entry)
| Garbage.                     (* [json.load] raises, or yields no dictionary *)

Record ProfileAwareCacheManager := mkCache {
  ttl_hours : Z;
  memory_cache : gmap string string;
  disk : gmap string File      (* the cache directory: file name to content *)
}.

(** [ProfileAwareCacheManager(cache_dir, ttl_hours)] over a directory. *)
Definition new (ttl_hours : Z) (dir : gmap string File) : ProfileAwareCacheManager :=
  mkCache ttl_hours ∅ dir.

Definition DEFAULT_TTL_HOURS : Z := 12.

(** [if user_profile:] : given, and not the empty dictionary. *)
Definition given (user_profile : option profile) : option profile :=
  match user_profile with
  | Some p => if bool_decide (p = ∅) then None else Some p
  | None => None
  end.

(** [get_cache_key(image_hash, mode, user_profile)]; [None] when the
    profile hash raises. *)
Definition get_cache_key (image_hash mode_ : string)
    (user_profile : option profile) : option string :=
  match given user_profile with
  | Some p =>
      profile_hash ← generate_profile_hash p ;
      Some (image_hash ++ "_" ++ mode_ ++ "_" ++ profile_hash)
  | None => Some (image_hash ++ "_" ++ mode_)
  end.

Definition file_of (cache_key : string) : string := cache_key ++ ".json".

Inductive Lookup :=
| Hit (response : string)
| Miss                         (* returns [None] *)
| Raised.                      (* the exception of the profile hash escapes *)

Definition remove_file (c : ProfileAwareCacheManager) (f : string) :=
  mkCache (ttl_hours c) (memory_cache c) (delete f (disk c)).

Definition remember (c : ProfileAwareCacheManager) (k r : string) :=
  mkCache (ttl_hours c) (<[k := r]> (memory_cache c)) (disk c).

(** The [try] block of [get_cached_response] on the loaded dictionary. *)
Definition check_entry (c : ProfileAwareCacheManager) (cache_key : string)
    (user_profile : option profile) (now : Z) (data : Entry)
    : Lookup * ProfileAwareCacheManager :=
  let cache_file := file_of cache_key in
  if default false (invalidated data) then (Miss, remove_file c cache_file)
  else
    match cached_at data with
    | None => (Miss, c)                                   (* KeyError, caught *)
    | Some at_ =>
        let age := now - at_ in
        if PyTime.timedelta_hours (ttl_hours c) <? age
        then (Miss, remove_file c cache_file)
        else
          let fresh :=
            match given user_profile with
            | Some p =>
                match generate_profile_hash p with
                | Some current_profile_hash =>
                    Some (String.eqb current_profile_hash
                                     (default "" (profile_version data)))
                | None => None                            (* raises, caught *)
                end
            | None => Some true
            end in
          match fresh with
          | None => (Miss, c)
          | Some false => (Miss, remove_file c cache_file)
          | Some true =>
              match response data with
              | None => (Miss, c)                         (* KeyError, caught *)
              | Some r => (Hit r, remember c cache_key r)
              end
          end
    end.

(** [get_cached_response(image_hash, mode, user_profile)] at instant
    [now] of the local clock. *)
Definition get_cached_response (c : ProfileAwareCacheManager)
    (image_hash mode_ : string) (user_profile : option profile) (now : Z)
    : Lookup * ProfileAwareCacheManager :=
  match get_cache_key image_hash mode_ user_profile with
  | None => (Raised, c)
  | Some cache_key =>
      match memory_cache c !! cache_key with
      | Some r => (Hit r, c)
      | None =>
          match disk c !! file_of cache_key with
          | None => (Miss, c)
          | Some Garbage => (Miss, c)
          | Some (Json data) => check_entry c cache_key user_profile now data
          end
      end
  end.

(** [cache_response(image_hash, mode, response, user_profile)] at instant
    [now]; [writable] tells whether the file can be written.  [None]
    stands for the exception of the profile hash. *)
Definition cache_response (c : ProfileAwareCacheManager)
    (image_hash mode_ response_ : string) (user_profile : option profile)
    (now : Z) (writable : bool) : option (bool * ProfileAwareCacheManager) :=
  cache_key ← get_cache_key image_hash mode_ user_profile ;
  let c := remember c cache_key response_ in
  let version :=
    match given user_profile with
    | Some p => generate_profile_hash p
    | None => None
    end in
  let cache_data := mkEntry (Some now) (Some response_) (Some mode_)
                            (Some false) version in
  if writable
  then Some (true, mkCache (ttl_hours c) (memory_cache c)
                     (<[file_of cache_key := Json cache_data]> (disk c)))
  else Some (false, c).

(** [filename.endswith('.json')] *)
Definition is_json_name (filename : string) : bool :=
  let n := String.length filename in
  (5 <=? n)%nat && String.eqb (String.substring (n - 5) 5 filename) ".json".

(** [data['invalidated'] = True] *)
Definition mark_invalidated (data : Entry) : Entry :=
  mkEntry (cached_at data) (response data) (mode data) (Some true)
          (profile_version data).

(** The loop body of [invalidate_cache_for_user] for one file of the
    listing: the count so far and the directory are passed along.
    [writable filename] tells whether the file can be opened for
    writing; when it cannot, [open] raises before anything is written,
    the inner [except] logs, and the loop goes on with the next file. *)
Definition invalidate_step (writable : string -> bool) (filename : string) (f : File)
    (acc : Z * gmap string File) : Z * gmap string File :=
  if negb (is_json_name filename) then acc
  else match f with
       | Json data =>
           if writable filename
           then (acc.1 + 1, <[filename := Json (mark_invalidated data)]> acc.2)
           else acc                                       (* raises, caught *)
       | Garbage => acc                                   (* raises, caught *)
       end.

(** [invalidate_cache_for_user(username)] *)
Definition invalidate_cache_for_user (c : ProfileAwareCacheManager)
    (username : string) (writable : string -> bool) : Z * ProfileAwareCacheManager :=
  let '(count, disk') := map_fold (invalidate_step writable) (0, disk c) (disk c) in
  (count, mkCache (ttl_hours c) ∅ disk').

(** A profile with the given allergies and nothing else. *)
Definition allergic (l : list string) : profile := {[ "allergies" := PList l ]}.

End Cache.

(* ===================================================================== *)
(** ** auth/cache.py : statistics and clean-up *)
(* ===================================================================== *)

Module CacheMaintenance.
Import PyStr Cache.
Local Open Scope Z_scope.

(** The two loops below read the clock once per file: [clock name] is
    [datetime.now()] at the moment the file [name] is examined.
    [os_remove name] tells whether [os.remove] succeeds on that file, and
    [getsize name] is [os.path.getsize] of it. *)

(** The dictionary returned by [get_cache_stats]. *)
Record CacheStats := mkStats {
  total_entries : Z;
  valid_entries : Z;
  expired_entries : Z;
  invalidated_entries : Z;
  total_size_bytes : Z;
  memory_cache_entries : Z
}.

(** The counters of the loop of [get_cache_stats]:
    [total_size], [valid_count], [expired_count], [invalidated_count]. *)
Record Counters := mkCounters {
  total_size : Z;
  valid_count : Z;
  expired_count : Z;
  invalidated_count : Z
}.

(** The loop body of [get_cache_stats] for one file of [cache_files]. *)
Definition stats_step (c : ProfileAwareCacheManager) (clock getsize : string -> Z)
    (filename : string) (f : File) (k : Counters) : Counters :=
  let k := mkCounters (total_size k + getsize filename) (valid_count k)
                      (expired_count k) (invalidated_count k) in
  match f with
  | Garbage => k                                          (* raises, passed over *)
  | Json data =>
      if default false (invalidated data)
      then mkCounters (total_size k) (valid_count k) (expired_count k)
                      (invalidated_count k + 1)
      else
        match cached_at data with
        | None => k                                       (* KeyError, passed over *)
        | Some at_ =>
            let age := clock filename - at_ in
            if PyTime.timedelta_hours (ttl_hours c) <? age
            then mkCounters (total_size k) (valid_count k) (expired_count k + 1)
                            (invalidated_count k)
            else mkCounters (total_size k) (valid_count k + 1) (expired_count k)
                            (invalidated_count k)
        end
  end.

(** [get_cache_stats()] *)
Definition get_cache_stats (c : ProfileAwareCacheManager)
    (clock getsize : string -> Z) : CacheStats :=
  let cache_files := filter (fun kv => is_json_name kv.1 = true) (disk c) in
  let k := map_fold (stats_step c clock getsize) (mkCounters 0 0 0 0) cache_files in
  mkStats (Z.of_nat (size cache_files)) (valid_count k) (expired_count k)
          (invalidated_count k) (total_size k)
          (Z.of_nat (size (memory_cache c))).

(** The loop body of [cleanup_expired] for one file of the listing: the
    count so far and the directory are passed along. *)
Definition cleanup_step (c : ProfileAwareCacheManager) (clock : string -> Z)
    (os_remove : string -> bool) (filename : string) (f : File)
    (acc : Z * gmap string File) : Z * gmap string File :=
  if negb (is_json_name filename) then acc
  else
    match f with
    | Garbage => acc                                      (* raises, caught *)
    | Json data =>
        let should_remove :=
          if default false (invalidated data) then Some true
          else
            match cached_at data with
            | None => None                                (* KeyError, caught *)
            | Some at_ =>
                let age := clock filename - at_ in
                Some (PyTime.timedelta_hours (ttl_hours c) <? age)
            end in
        match should_remove with
        | Some true =>
            if os_remove filename
            then (acc.1 + 1, delete filename acc.2)
            else acc                                      (* raises, caught *)
        | Some false | None => acc
        end
    end.

(** [cleanup_expired()] *)
Definition cleanup_expired (c : ProfileAwareCacheManager) (clock : string -> Z)
    (os_remove : string -> bool) : Z * ProfileAwareCacheManager :=
  let '(count, disk') :=
    map_fold (cleanup_step c clock os_remove) (0, disk c) (disk c) in
  (count, mkCache (ttl_hours c) (memory_cache c) disk').

End CacheMaintenance.

(* ===================================================================== *)
(** ** auth/oauth.py : the life of a session *)
(* ===================================================================== *)

(** [refresh_token], [validate_session], [revoke_token] and [logout] of
    [AuthenticationService].  The [_id] of a row of [auth_sessions] is
    its position in the collection: the code appends rows and rewrites
    them in place, and never removes one.  No other client writes to the
    store while an operation runs. *)
Module Sessions.
Import Store Config Providers OAuth.
Local Open Scope Z_scope.

(** What a caller hands in as a token: the encoding of a token, or text
    that [jwt.decode] cannot decode. *)
Inductive TokenString :=
| Encoded (tok : Token)
| Malformed (text : string).

(** [token_manager.validate_token(token, expected_type)] on such text. *)
Definition validate_token (tm : TokenManager) (token : TokenString)
    (expected_type : TokenType) : M (option TokenClaims) :=
  match token with
  | Encoded tok => OAuth.validate_token tm tok expected_type
  | Malformed _ => mret None                  (* [jwt.InvalidTokenError], caught *)
  end.

(** [token_manager.decode_token_unsafe(token)] : neither the signature
    nor the expiry is looked at. *)
Definition decode_token_unsafe (token : TokenString) : option TokenClaims :=
  match token with
  | Encoded tok => Some (payload tok)
  | Malformed _ => None
  end.

Definition with_sessions (d : Database) (ss : list Session) : Database :=
  mkDatabase (users_v2 d) ss (auth_audit_log d) (next_oid d).

(** [db['auth_sessions'].find_one(filter)] : the first row the filter
    matches, with its [_id]. *)
Definition sessions_find_one (p : Session -> bool) : M (option (nat * Session)) :=
  store_op (fun d => (inl (list_find (fun s => p s = true) (auth_sessions d)), d)).

(** [db['auth_sessions'].update_one({'_id': id}, {'$set': ...})] for
    fields no unique index covers. *)
Definition sessions_update_one (id : nat) (f : Session -> Session) : M unit :=
  store_op (fun d => (inl tt, with_sessions d (alter f id (auth_sessions d)))).

(** The same for a [$set] that writes [access_token_jti], under the
    unique index on that field. *)
Definition sessions_update_jti (id : nat) (f : Session -> Session) : M unit :=
  store_op (fun d =>
    match auth_sessions d !! id with
    | None => (inl tt, d)
    | Some s =>
        if existsb (fun s' => String.eqb (access_token_jti s') (access_token_jti (f s)))
                   (delete id (auth_sessions d))
        then (inr DuplicateKeyError, d)
        else (inl tt, with_sessions d (<[id := f s]> (auth_sessions d)))
    end).

Definition set_last_activity (t : Z) (s : Session) : Session :=
  mkSession (s_user_id s) (access_token_jti s) (refresh_token_jti s)
            (device_info s) (s_created_at s) (expires_at s) t (revoked s).

(** [{'$set': {'access_token_jti': a, 'refresh_token_jti': r,
               'last_activity': t}}] *)
Definition set_tokens (a r : string) (t : Z) (s : Session) : Session :=
  mkSession (s_user_id s) a r (device_info s) (s_created_at s) (expires_at s)
            t (revoked s).

(** [{'$set': {'revoked': True}}] *)
Definition set_revoked (s : Session) : Session :=
  mkSession (s_user_id s) (access_token_jti s) (refresh_token_jti s)
            (device_info s) (s_created_at s) (expires_at s) (last_activity s) true.

(** [db['auth_sessions'].update_one({'$or': [{'access_token_jti': jti},
    {'refresh_token_jti': jti}]}, {'$set': {'revoked': True}})] : the
    first row carrying the [jti] is rewritten; [modified_count] comes
    back, which is 0 when that row was revoked already. *)
Definition sessions_revoke_one (j : string) : M Z :=
  store_op (fun d =>
    match list_find (fun s => String.eqb (access_token_jti s) j
                              || String.eqb (refresh_token_jti s) j = true)
                    (auth_sessions d) with
    | None => (inl 0, d)
    | Some (id, s) =>
        if revoked s then (inl 0, d)
        else (inl 1, with_sessions d (<[id := set_revoked s]> (auth_sessions d)))
    end).

(** The dictionary [validate_session] returns. *)
Record SessionInfo := mkInfo {
  user_id : nat;
  email : string;
  session_id : nat
}.

Definition token_refreshed (uid : nat) (em : string) (t : Z) : AuditRecord :=
  mkAudit "token_refreshed" (Some uid) em None None true None t.

(** The [token_revoked] record.  It carries no user and no address (the
    typed log shows the latter as the empty string); its [metadata], the
    revoked [jti], has no counterpart in [AuditRecord]. *)
Definition token_revoked (t : Z) : AuditRecord :=
  mkAudit "token_revoked" None "" None None true None t.

(** [refresh_token(refresh_token)] *)
Definition refresh_token (svc : AuthenticationService) (refresh_token_ : TokenString)
    : M (option TokenPair) :=
  let tm := token_manager svc in
  try_except
    (claims ← validate_token tm refresh_token_ REFRESH ;
     match claims with
     | None => mret None
     | Some claims =>
         get_client ;;
         session ← sessions_find_one (fun s =>
                     String.eqb (refresh_token_jti s) (jti claims)
                     && negb (revoked s)) ;
         match session with
         | None => mret None
         | Some (id, session) =>
             new_access_token ← generate_access_token tm (sub claims) (tc_email claims) ;
             new_refresh_token ← generate_refresh_token tm (sub claims) (tc_email claims) ;
             new_access_claims ← OAuth.validate_token tm new_access_token ACCESS ;
             new_refresh_claims ← OAuth.validate_token tm new_refresh_token REFRESH ;
             match new_access_claims, new_refresh_claims with
             | Some new_access_claims, Some new_refresh_claims =>
                 t ← utcnow ;
                 sessions_update_jti id
                   (set_tokens (jti new_access_claims) (jti new_refresh_claims) t) ;;
                 audit_insert_one
                   (token_refreshed (s_user_id session) (tc_email claims)) ;;
                 mret (Some (mkTokenPair new_access_token new_refresh_token "Bearer"
                               (JWT_ACCESS_TOKEN_EXPIRY (config svc))))
             | _, _ => mret None              (* [AttributeError], caught *)
             end
         end
     end)
    (fun _ => mret None).

(** [validate_session(access_token)] *)
Definition validate_session (svc : AuthenticationService) (access_token_ : TokenString)
    : M (option SessionInfo) :=
  try_except
    (claims ← validate_token (token_manager svc) access_token_ ACCESS ;
     match claims with
     | None => mret None
     | Some claims =>
         get_client ;;
         session ← sessions_find_one (fun s =>
                     String.eqb (access_token_jti s) (jti claims)
                     && negb (revoked s)) ;
         match session with
         | None => mret None
         | Some (id, session) =>
             t ← utcnow ;
             sessions_update_one id (set_last_activity t) ;;
             mret (Some (mkInfo (s_user_id session) (tc_email claims) id))
         end
     end)
    (fun _ => mret None).

(** [revoke_token(token)] *)
Definition revoke_token (svc : AuthenticationService) (token : TokenString) : M bool :=
  try_except
    (match decode_token_unsafe token with
     | None => mret false
     | Some payload_ =>
         let j := jti payload_ in
         if negb (PyStr.truthy j) then mret false
         else
           get_client ;;
           modified_count ← sessions_revoke_one j ;
           if 0 <? modified_count then
             audit_insert_one token_revoked ;;
             mret true
           else mret false
     end)
    (fun _ => mret false).

(** [logout(access_token)] *)
Definition logout (svc : AuthenticationService) (access_token_ : TokenString) : M bool :=
  revoke_token svc access_token_.

End Sessions.

(* ===================================================================== *)
(** ** auth/providers.py : password reset *)
(* ===================================================================== *)

(** [request_password_reset] and [reset_password] of
    [EmailPasswordProvider]. *)
Module PasswordReset.
Import Store Config Providers OAuth Sessions.
Local Open Scope Z_scope.

(** The text [jwt.encode] returns for a token; the account keeps it in
    [security.password_reset_token]. *)
Class Jwt := { jwt_encode : Token -> string }.

(** The text of what a caller hands in. *)
Definition text_of `{Jwt} (token : TokenString) : string :=
  match token with
  | Encoded tok => jwt_encode tok
  | Malformed text => text
  end.

Inductive ResetMessage :=
| FailedToProcessRequest          (* "Failed to process password reset request" *)
| InvalidOrExpiredResetToken      (* "Invalid or expired reset token" *)
| InvalidNewPassword (feedback : string)    (* "Invalid password: ..." *)
| UserNotFound                    (* "User not found" *)
| InvalidResetToken               (* "Invalid reset token" *)
| ResetTokenHasExpired            (* "Reset token has expired" *)
| FailedToResetPassword.          (* "Failed to reset password" *)

(** [{'$set': {'security.password_reset_token': token,
               'security.password_reset_expires': expires}}] *)
Definition set_reset_token (token : string) (expires : Z) (u : User) : User :=
  let s := security u in
  with_security u
    (mkSecurity (failed_login_attempts s) (locked_until s) (last_login s)
       (last_password_change s) (Some token) (Some expires)).

(** [{'$set': {'password_hash': h,
               'security.password_reset_token': None,
               'security.password_reset_expires': None,
               'security.last_password_change': t,
               'security.failed_login_attempts': 0,
               'security.locked_until': None}}] *)
Definition set_password (h : string) (t : Z) (u : User) : User :=
  mkUser (_id u) (Store.email u) (email_verified u) (auth_provider u) (Some h)
         (profile u)
         (mkSecurity 0 None (last_login (security u)) (Some t) None None)
         (created_at u) (updated_at u).

(** [db['auth_sessions'].update_many(filter, {'$set': {'revoked': True}})] *)
Definition sessions_revoke_many (p : Session -> bool) : M unit :=
  store_op (fun d =>
    (inl tt,
     with_sessions d (map (fun s => if p s then set_revoked s else s)
                          (auth_sessions d)))).

Definition password_reset_requested (uid : nat) (em : string) (t : Z) : AuditRecord :=
  mkAudit "password_reset_requested" (Some uid) em (Some "email") None true None t.

Definition password_reset_completed (uid : nat) (em : string) (t : Z) : AuditRecord :=
  mkAudit "password_reset_completed" (Some uid) em (Some "email") None true None t.

Section EmailPasswordProvider.
Context `{Bcrypt} `{Jwt}.
Variable cfg : AuthConfig.

(** [request_password_reset(email)] : (success, reset_token, error_message) *)
Definition request_password_reset (email_ : string)
    : M (bool * option string * option ResetMessage) :=
  try_except
    (let email_ := Validators.normalize_email email_ in
     get_client ;;
     user ← users_find_one (fun u =>
               String.eqb (Store.email u) email_
               && String.eqb (auth_provider u) "email") ;
     match user with
     | None => mret (true, None, None)
     | Some user =>
         reset_token ← generate_reset_token (token_manager_of cfg) (_id user) email_ ;
         let reset_token := jwt_encode reset_token in
         t ← utcnow ;
         users_update_one (_id user)
           (set_reset_token reset_token
              (t + PyTime.timedelta_seconds (JWT_RESET_TOKEN_EXPIRY cfg))) ;;
         audit_insert_one (password_reset_requested (_id user) email_) ;;
         mret (true, Some reset_token, None)
     end)
    (fun _ => mret (false, None, Some FailedToProcessRequest)).

(** [reset_password(reset_token, new_password)] : (success, error_message) *)
Definition reset_password (reset_token : TokenString) (new_password : string)
    : M (bool * option ResetMessage) :=
  try_except
    (claims ← validate_token (token_manager_of cfg) reset_token RESET ;
     match claims with
     | None => mret (false, Some InvalidOrExpiredResetToken)
     | Some claims =>
         let email_ := tc_email claims in
         let user_id := sub claims in
         let '(password_valid, password_feedback) :=
           Validators.validate_password_with_feedback new_password (Some email_) in
         if negb password_valid
         then mret (false, Some (InvalidNewPassword password_feedback))
         else
           get_client ;;
           user ← users_find_one (fun u => Nat.eqb (_id u) user_id) ;
           match user with
           | None => mret (false, Some UserNotFound)
           | Some user =>
               if negb (bool_decide (password_reset_token (security user)
                                     = Some (text_of reset_token)))
               then mret (false, Some InvalidResetToken)
               else
                 t ← utcnow ;
                 match password_reset_expires (security user) with
                 | None => mret (false, Some ResetTokenHasExpired)
                 | Some expires =>
                     if expires <? t then mret (false, Some ResetTokenHasExpired)
                     else
                       let password_hash_ :=
                         hashpw new_password (BCRYPT_COST_FACTOR cfg) in
                       t ← utcnow ;
                       users_update_one (_id user) (set_password password_hash_ t) ;;
                       sessions_revoke_many (fun s =>
                         Nat.eqb (s_user_id s) (_id user) && negb (revoked s)) ;;
                       audit_insert_one (password_reset_completed (_id user) email_) ;;
                       mret (true, None)
                 end
           end
     end)
    (fun _ => mret (false, Some FailedToResetPassword)).

End EmailPasswordProvider.

End PasswordReset.

(* ===================================================================== *)
(** ** auth/validators.py : generated passwords *)
(* ===================================================================== *)

Module PasswordGen.
Import PyStr Validators.
Local Open Scope Z_scope.

(** The constants of the [string] module. *)
Definition ascii_lowercase : string := "abcdefghijklmnopqrstuvwxyz".
Definition ascii_uppercase : string := "ABCDEFGHIJKLMNOPQRSTUVWXYZ".
Definition ascii_letters : string := ascii_lowercase ++ ascii_uppercase.
Definition digits : string := "0123456789".
Definition punctuation : string :=
  "!" ++ String "034" "#$%&'()*+,-./:;<=>?@[\]^_`{|}~".

(** [secrets.choice(seq)] is [seq[randbelow(len(seq))]]; [r] is what
    the entropy source yields for this draw, reduced below the length. *)
Definition choice (r : nat) (seq : string) : ascii :=
  nth (r mod String.length seq) (list_ascii_of_string seq) "000"%char.

(** [PasswordValidator.generate_secure_password(length)].  [draws k] is
    the entropy of the [k]-th call of [secrets.choice]; [shuffle] is
    what [secrets.SystemRandom().shuffle] does to the list. *)
Definition generate_secure_password (length : Z) (draws : nat -> nat)
    (shuffle : list ascii -> list ascii) : string :=
  let length := if length <? MIN_LENGTH then MIN_LENGTH else length in
  let password_chars :=
    [ choice (draws 0%nat) ascii_uppercase;
      choice (draws 1%nat) ascii_lowercase;
      choice (draws 2%nat) digits;
      choice (draws 3%nat) punctuation ] in
  let all_chars := ascii_letters ++ digits ++ punctuation in
  let password_chars :=
    (password_chars
     ++ map (fun k => choice (draws (4 + k)%nat) all_chars)
            (seq 0 (Z.to_nat (length - 4))))%list in
  let password_list := shuffle password_chars in
  string_of_list_ascii password_list.

(** [is_valid_email(email)] *)
Definition is_valid_email (email : string) : bool := (validate_email email).1.

End PasswordGen.

(* ===================================================================== *)
(** ** database/connection.py : handing out the client *)
(* ===================================================================== *)

(** The other operations of [DatabaseStateMachine].  Each runs under the
    lock of the machine, the health check included, so they are steps on
    the machine, one at a time. *)
Module ConnectionClient.
Import Connection.
Local Open Scope Z_scope.

(** How [get_or_create_client] ends: it returns [self._client], or
    [ensure_connected] has raised, or it raises itself, or the
    interruption that left [ensure_connected] goes through. *)
Inductive Got :=
| Client (c : option nat)
| ConnectFailed (max_retries : Z) (e : string)
    (* "Failed to establish database connection after N attempts: e" *)
| CannotEstablish (last_error : option string)
    (* "Cannot establish database connection. Last error: ..." *)
| Interrupt.

#[global] Instance Got_eq_dec : EqDecision Got.
Proof. solve_decision. Defined.

(** [self._state == ConnectionStatus.CONNECTED] *)
Definition is_connected (m : DatabaseStateMachine) : bool :=
  match _state m with CONNECTED => true | _ => false end.

(** [get_or_create_client(max_retries)] *)
Definition get_or_create_client (max_retries : Z) (env : Z -> Attempt)
    (m : DatabaseStateMachine) : Got * DatabaseStateMachine :=
  let '(r, m) :=
    if negb (is_connected m) then ensure_connected max_retries env m
    else (Returned, m) in
  match r with
  | DatabaseConnectionError n e => (ConnectFailed n e, m)
  | KeyboardInterrupt => (Interrupt, m)
  | Returned =>
      match _state m with
      | ERROR => (CannotEstablish (_connection_error m), m)
      | _ => (Client (_client m), m)
      end
  end.

(** [get_client(max_retries)], the legacy alias. *)
Definition get_client := get_or_create_client.

(** [get_client_if_connected()] *)
Definition get_client_if_connected (m : DatabaseStateMachine) : option nat :=
  if is_connected m then _client m else None.



End ConnectionClient.

(* ===================================================================== *)
(** ** services/camera.py : fetching the latest image *)
(* ===================================================================== *)

Module CameraService.
Import Camera.
Local Open Scope Z_scope.

(** What attempt [i] of [get_latest_image] meets: the answer of
    [check_connection()], what [requests.get] does (the status code of
    the response, an exception, or an interruption), whether the image
    file can be written, the path made from the clock, the two clock
    readings of the breaker, and the jitter drawn by
    [random.uniform(0, 1)], in microseconds. *)
Record Attempt := mkAttempt {
  check_connection : bool;
  fetch_image : Behaviour Z;
  written : bool;
  temp_path : string;
  at_guard : Z;
  at_except : Z;
  jitter : Z
}.

(** The [metadata] dictionary, without [total_time], which is read off
    the clock at the end. *)
Record Metadata := mkMetadata {
  success : bool;
  attempts : Z;
  delays_used : list Z               (* microseconds *)
}.

(** How [get_latest_image] ends: with a path or [None], or with the
    interruption that left the request, which [except Exception] lets
    through. *)
Inductive Fetched :=
| ImagePath (image_path : option string)
| RequestInterrupted.

(** The state of a call: the metadata, the breaker, and the attempts at
    which [requests.get] was called. *)
Record Fetching := mkFetching {
  metadata : Metadata;
  circuit_breaker : CircuitBreaker;
  requested : list Z
}.

Definition base_delay : Z := 1.
Definition max_delay : Z := 30.

(** [min(base_delay * (2 ** attempt), max_delay) + jitter] *)
Definition total_delay (attempt : Z) (a : Attempt) : Z :=
  PyTime.timedelta_seconds (Z.min (base_delay * 2 ^ attempt) max_delay) + jitter a.

(** [if attempt < max_retries - 1: ... delays_used.append(total_delay);
    time.sleep(total_delay)] *)
Definition back_off (max_retries attempt : Z) (a : Attempt) (s : Fetching) : Fetching :=
  if attempt <? max_retries - 1 then
    let md := metadata s in
    mkFetching
      (mkMetadata (success md) (attempts md) (delays_used md ++ [total_delay attempt a]))
      (circuit_breaker s) (requested s)
  else s.

(** The body of [for attempt in range(max_retries)], for the [todo]
    iterations that remain. *)
Fixpoint attempts_loop (max_retries : Z) (env : Z -> Attempt) (todo : nat)
    (attempt : Z) (s : Fetching) : Fetched * Fetching :=
  match todo with
  | O => (ImagePath None, s)
  | S todo' =>
      let a := env attempt in
      let md := metadata s in
      let s := mkFetching (mkMetadata (success md) (attempt + 1) (delays_used md))
                          (circuit_breaker s) (requested s) in
      if negb (check_connection a) then
        attempts_loop max_retries env todo' (attempt + 1)
          (back_off max_retries attempt a s)
      else
        let c := call (circuit_breaker s) (fetch_image a) (at_guard a) (at_except a) in
        let s := mkFetching (metadata s) (after c)
                   (if invoked c then requested s ++ [attempt] else requested s) in
        match outcome c with
        | Result status_code =>
            if (status_code =? 200) && written a then
              let md := metadata s in
              (ImagePath (Some (temp_path a)),
               mkFetching (mkMetadata true (attempts md) (delays_used md))
                          (circuit_breaker s) (requested s))
            else
              attempts_loop max_retries env todo' (attempt + 1)
                (back_off max_retries attempt a s)
        | Interruption => (RequestInterrupted, s)
        | _ =>
            attempts_loop max_retries env todo' (attempt + 1)
              (back_off max_retries attempt a s)
        end
  end.

(** [get_latest_image(max_retries)] on a service whose breaker is [cb]. *)
Definition get_latest_image (max_retries : Z) (env : Z -> Attempt)
    (cb : CircuitBreaker) : Fetched * Fetching :=
  attempts_loop max_retries env (Z.to_nat max_retries) 0
    (mkFetching (mkMetadata false 0 []) cb []).

End CameraService.

(* ===================================================================== *)
(** ** database/transactions.py : running a function in a transaction *)
(* ===================================================================== *)

(** [TransactionManager.execute_in_transaction], with the parts of
    [MongoTransaction] it goes through: [__enter__], [commit] and
    [__exit__].  The function handed in leaves committing to the
    manager. *)
Module TransactionManager.
Import Transactions.
Local Open Scope Z_scope.

(** The exceptions the manager tells apart, and the messages of the
    [TransactionError]s it raises itself. *)
Inductive Exc :=
| ConnectionFailure (msg : string)
| OperationFailure (msg : string) (transient : bool)
    (* [transient]: [e.has_error_label("TransientTransactionError")] *)
| Raised (e : Error)                  (* raised by the operations of the core *)
| Other (msg : string)                (* any other exception *)
| TransactionError (m : Msg)          (* the class itself, no subclass *)
with Msg :=
| FailedToStart (e : Exc)             (* "Failed to start transaction: e" *)
| FailedToCommit (e : Exc)            (* "Failed to commit transaction: e" *)
| TransactionFailed (e : Exc)         (* "Transaction failed: e" *)
| FailedAfter (max_retries : Z) (last_error : option Exc).
    (* "Transaction failed after N attempts: last_error" *)

(** What attempt [i] meets: whether the session and the transaction
    start, what the function does, and whether [commit_transaction]
    goes through. *)
Record Attempt (R : Type) := mkAttempt {
  start_raises : option Exc;
  func_does : R + Exc;
  commit_raises : option Exc
}.
Arguments mkAttempt {R}.
Arguments start_raises {R}.
Arguments func_does {R}.
Arguments commit_raises {R}.

(** What the manager does to the outside, in order. *)
Inductive Event :=
| EvStarted (attempt : Z)
| EvCalled (attempt : Z)              (* [func(txn)] *)
| EvCommitted (attempt : Z)
| EvRolledBack (attempt : Z)
| EvSleep (ms : Z).

(** [with self.transaction() as txn: result = func(txn); txn.commit();
    return result] *)
Definition attempt_once {R} (attempt : Z) (a : Attempt R) : (R + Exc) * list Event :=
  match start_raises a with
  | Some e => (inr (TransactionError (FailedToStart e)), [])
  | None =>
      match func_does a with
      | inr e => (inr e, [EvStarted attempt; EvCalled attempt; EvRolledBack attempt])
      | inl result =>
          match commit_raises a with
          | Some e =>
              (inr (TransactionError (FailedToCommit e)),
               [EvStarted attempt; EvCalled attempt; EvRolledBack attempt])
          | None =>
              (inl result, [EvStarted attempt; EvCalled attempt; EvCommitted attempt])
          end
      end
  end.

(** The [except] clauses that retry. *)
Definition retried (e : Exc) : bool :=
  match e with
  | ConnectionFailure _ => true
  | OperationFailure _ transient => transient
  | _ => false
  end.

(** The body of [for attempt in range(max_retries)], for the [todo]
    iterations that remain. *)
Fixpoint attempts_loop {R} (max_retries : Z) (env : Z -> Attempt R) (todo : nat)
    (attempt : Z) (last_error : option Exc) (trace : list Event)
    : (R + Exc) * list Event :=
  match todo with
  | O => (inr (TransactionError (FailedAfter max_retries last_error)), trace)
  | S todo' =>
      let '(r, evs) := attempt_once attempt (env attempt) in
      let trace := (trace ++ evs)%list in
      match r with
      | inl result => (inl result, trace)
      | inr e =>
          if retried e then
            attempts_loop max_retries env todo' (attempt + 1) (Some e)
              (trace ++ [EvSleep (100 * (attempt + 1))])
          else (inr (TransactionError (TransactionFailed e)), trace)
      end
  end.

(** [execute_in_transaction(func, max_retries)] *)
Definition execute_in_transaction {R} (max_retries : Z) (env : Z -> Attempt R)
    : (R + Exc) * list Event :=
  attempts_loop max_retries env (Z.to_nat max_retries) 0 None [].

Definition sleeps (trace : list Event) : list Z :=
  omap (fun e => match e with EvSleep ms => Some ms | _ => None end) trace.

Definition commits (trace : list Event) : list Z :=
  omap (fun e => match e with EvCommitted i => Some i | _ => None end) trace.

Definition calls (trace : list Event) : list Z :=
  omap (fun e => match e with EvCalled i => Some i | _ => None end) trace.

End TransactionManager.

(* ===================================================================== *)
(** ** services/integrations/blinkit.py : the stored sessions *)
(* ===================================================================== *)

(** The operations of [BlinkitSessionManager] on the session files, over
    a file system: a map from the parts of a path to a directory or a
    regular file.  The working directory, whose parts are empty, is a
    directory. *)
Module BlinkitSessions.
Import PyStr Blinkit.
Local Open Scope Z_scope.

Record SessionMetadata := mkMetadata {
  username : string;
  created_at : Z;
  last_used_at : Z;
  expires_at : Z;
  blinkit_phone_hash : option string
}.

#[global] Instance SessionMetadata_eq_dec : EqDecision SessionMetadata.
Proof. solve_decision. Defined.

(** [metadata.is_expired()] at instant [now] *)
Definition is_expired (now : Z) (md : SessionMetadata) : bool := expires_at md <? now.

(** What a regular file holds: the JSON of a metadata record, which
    [json.load] and [from_dict] read back, or anything else. *)
Inductive Content :=
| MetadataJson (md : SessionMetadata)
| OtherContent.

Inductive Node :=
| Directory
| Regular (c : Content).

#[global] Instance Content_eq_dec : EqDecision Content.
Proof. solve_decision. Defined.

#[global] Instance Node_eq_dec : EqDecision Node.
Proof. solve_decision. Defined.

Abbreviation FileSystem := (gmap (list string) Node).

Inductive OSError :=
| FileExistsError
| FileNotFoundError
| NotADirectoryError
| IsADirectoryError.

Definition node (fs : FileSystem) (k : list string) : option Node :=
  match k with
  | [] => Some Directory
  | _ => fs !! k
  end.

(** [p.exists()] *)
Definition exists_ (fs : FileSystem) (p : Path) : bool :=
  bool_decide (is_Some (node fs (parts p))).

Definition is_file (n : Node) : bool :=
  match n with Regular _ => true | Directory => false end.

(** [k] names an entry of the directory [d]. *)
Definition is_child (d k : list string) : bool :=
  bool_decide (k <> [] /\ removelast k = d).

(** The entries [d.iterdir()] lists. *)
Definition children (fs : FileSystem) (d : list string) : FileSystem :=
  filter (fun kv => is_child d kv.1 = true) fs.

(** [p.mkdir(parents=True, exist_ok=True)], from the directory [above]
    down the parts [below]. *)
Fixpoint mkdir_parents (above below : list string) (fs : FileSystem)
    : FileSystem + OSError :=
  match below with
  | [] => inl fs
  | x :: below' =>
      let k := (above ++ [x])%list in
      match fs !! k with
      | None => mkdir_parents k below' (<[k := Directory]> fs)
      | Some Directory => mkdir_parents k below' fs
      | Some (Regular _) =>
          inr (match below' with [] => FileExistsError | _ => NotADirectoryError end)
      end
  end.

Definition mkdir (p : Path) (fs : FileSystem) : FileSystem + OSError :=
  mkdir_parents [] (parts p) fs.

(** [with open(p, 'w') as f: ...] *)
Definition write (p : Path) (c : Content) (fs : FileSystem) : FileSystem + OSError :=
  match node fs (parts p) with
  | Some Directory => inr IsADirectoryError
  | _ =>
      match node fs (removelast (parts p)) with
      | Some Directory => inl (<[parts p := Regular c]> fs)
      | Some (Regular _) => inr NotADirectoryError
      | None => inr FileNotFoundError
      end
  end.

(** [_hash_phone(phone)] *)
Definition _hash_phone (phone : string) : string :=
  substring 0 16 (Sha256.hexdigest phone).

(** The dictionary [get_session_info] returns; the three instants are
    shown as ['%Y-%m-%d %H:%M:%S']. *)
Record SessionInfo := mkInfo {
  i_username : string;
  created : Z;
  last_used : Z;
  expires : Z;
  i_is_expired : bool;
  days_remaining : Z;
  hours_remaining : Z;
  has_phone : bool
}.

Section Manager.
Variable m : BlinkitSessionManager.
Variable session_ttl_days : Z.

(** [session_exists(username)] *)
Definition session_exists (username : string) (fs : FileSystem) : bool :=
  exists_ fs (_get_metadata_path m username)
  && exists_ fs (_get_auth_state_path m username).

(** [get_session_metadata(username)] : any failure to read gives [None]. *)
Definition get_session_metadata (username : string) (fs : FileSystem)
    : option SessionMetadata :=
  match node fs (parts (_get_metadata_path m username)) with
  | Some (Regular (MetadataJson md)) => Some md
  | _ => None
  end.

(** [is_session_valid(username)] *)
Definition is_session_valid (username : string) (now : Z) (fs : FileSystem) : bool :=
  if negb (session_exists username fs) then false
  else
    match get_session_metadata username fs with
    | None => false
    | Some metadata => negb (is_expired now metadata)
    end.

(** [_save_metadata(username, metadata)] *)
Definition _save_metadata (username : string) (metadata : SessionMetadata)
    (fs : FileSystem) : FileSystem + OSError :=
  write (_get_metadata_path m username) (MetadataJson metadata) fs.

(** [create_session(username, blinkit_phone)] : the metadata, or the
    error raised, and the file system left behind. *)
Definition create_session (username : string) (blinkit_phone : option string)
    (now : Z) (fs : FileSystem) : (SessionMetadata + OSError) * FileSystem :=
  match mkdir (_get_user_session_dir m username) fs with
  | inr e => (inr e, fs)
  | inl fs =>
      let metadata :=
        mkMetadata username now now (now + PyTime.timedelta_days session_ttl_days)
          (match blinkit_phone with
           | Some phone => if truthy phone then Some (_hash_phone phone) else None
           | None => None
           end) in
      match _save_metadata username metadata fs with
      | inr e => (inr e, fs)
      | inl fs => (inl metadata, fs)
      end
  end.

(** [update_session_activity(username)] *)
Definition update_session_activity (username : string) (now : Z) (fs : FileSystem)
    : (unit + OSError) * FileSystem :=
  match get_session_metadata username fs with
  | None => (inl tt, fs)
  | Some md =>
      let md := mkMetadata (BlinkitSessions.username md) (created_at md) now
                           (expires_at md) (blinkit_phone_hash md) in
      match _save_metadata username md fs with
      | inr e => (inr e, fs)
      | inl fs => (inl tt, fs)
      end
  end.

(** [clear_session(username)] : the regular files of the directory are
    unlinked, then [rmdir] goes through when nothing is left. *)
Definition clear_session (username : string) (fs : FileSystem) : bool * FileSystem :=
  let session_dir := parts (_get_user_session_dir m username) in
  match node fs session_dir with
  | None => (false, fs)
  | Some (Regular _) => (false, fs)
  | Some Directory =>
      let fs := filter (fun kv => is_child session_dir kv.1 && is_file kv.2 = false) fs in
      if bool_decide (children fs session_dir = ∅)
      then (true, delete session_dir fs)
      else (false, fs)
  end.

(** One round of the loop of [cleanup_expired_sessions]. *)
Definition cleanup_step (now : Z) (user_dir : list string) (n : Node)
    (acc : Z * FileSystem) : Z * FileSystem :=
  match n with
  | Regular _ => acc
  | Directory =>
      let username := List.last user_dir "" in
      match get_session_metadata username acc.2 with
      | Some metadata =>
          if is_expired now metadata then
            let '(cleared, fs) := clear_session username acc.2 in
            if cleared then (acc.1 + 1, fs) else (acc.1, fs)
          else acc
      | None => acc
      end
  end.

(** [cleanup_expired_sessions()] : the directory is listed once, in the
    order of the map. *)
Definition cleanup_expired_sessions (now : Z) (fs : FileSystem)
    : Z * FileSystem + OSError :=
  match node fs (parts (sessions_dir m)) with
  | None => inl (0, fs)
  | Some (Regular _) => inr NotADirectoryError
  | Some Directory =>
      inl (map_fold (cleanup_step now) (0, fs) (children fs (parts (sessions_dir m))))
  end.

(** [get_session_info(username)] *)
Definition get_session_info (username : string) (now : Z) (fs : FileSystem)
    : option SessionInfo :=
  match get_session_metadata username fs with
  | None => None
  | Some metadata =>
      let time_remaining := expires_at metadata - now in
      Some (mkInfo (BlinkitSessions.username metadata) (created_at metadata)
              (last_used_at metadata) (expires_at metadata)
              (is_expired now metadata)
              (Z.max 0 (PyTime.days time_remaining))
              (Z.max 0 (PyTime.seconds time_remaining / 3600))
              (bool_decide (blinkit_phone_hash metadata <> None)))
  end.

End Manager.

End BlinkitSessions.

(* ===================================================================== *)
(** ** auth/oauth.py : PKCE verifier and challenge *)
(* ===================================================================== *)

Module Pkce.
Import PyStr.
Local Open Scope N_scope.

(** The alphabet of [base64.urlsafe_b64encode]. *)
Definition URLSAFE : string :=
  "ABCDEFGHIJKLMNOPQRSTUVWXYZabcdefghijklmnopqrstuvwxyz0123456789-_".

Definition b64_char (n : N) : ascii :=
  nth (N.to_nat n) (list_ascii_of_string URLSAFE) "="%char.

(** [base64.urlsafe_b64encode(bs).decode('utf-8')] : three bytes give
    four characters, and the last group is padded with [=]. *)
Fixpoint urlsafe_b64encode (bs : list N) : string :=
  match bs with
  | [] => ""
  | [a] =>
      String (b64_char (a / 4)) (String (b64_char (a mod 4 * 16)) "==")
  | [a; b] =>
      String (b64_char (a / 4))
        (String (b64_char (a mod 4 * 16 + b / 16))
           (String (b64_char (b mod 16 * 4)) "="))
  | a :: b :: c :: rest =>
      String (b64_char (a / 4))
        (String (b64_char (a mod 4 * 16 + b / 16))
           (String (b64_char (b mod 16 * 4 + c / 64))
              (String (b64_char (c mod 64)) (urlsafe_b64encode rest))))
  end.

(** [s.rstrip('=')] *)
Fixpoint rstrip_eq (s : string) : string :=
  match s with
  | EmptyString => EmptyString
  | String c s' =>
      match rstrip_eq s' with
      | EmptyString => if Ascii.eqb c "=" then EmptyString else String c EmptyString
      | t => String c t
      end
  end.

Inductive Raised :=
| VerifierLength            (* "Code verifier length must be between 43 and 128" *)
| UnsupportedMethod (method : string).   (* "Unsupported challenge method: ..." *)

(** [generate_code_verifier(length)] : [random_bytes] is what
    [secrets.token_bytes(length)] yields. *)
Definition generate_code_verifier (length : Z) (random_bytes : list N)
    : string + Raised :=
  if ((length <? 43) || (128 <? length))%Z then inr VerifierLength
  else
    let verifier := urlsafe_b64encode random_bytes in
    let verifier := rstrip_eq verifier in
    inl (String.substring 0 (Z.to_nat length) verifier).

(** [hashlib.sha256(data).digest()] *)
Definition sha256_digest (data : list N) : list N :=
  let d := Sha256.digest data in
  (Sha256.be_bytes 4 (Sha256.ha d) ++ Sha256.be_bytes 4 (Sha256.hb d)
   ++ Sha256.be_bytes 4 (Sha256.hc d) ++ Sha256.be_bytes 4 (Sha256.hd d)
   ++ Sha256.be_bytes 4 (Sha256.he d) ++ Sha256.be_bytes 4 (Sha256.hf d)
   ++ Sha256.be_bytes 4 (Sha256.hg d) ++ Sha256.be_bytes 4 (Sha256.hh d))%list.

(** [generate_code_challenge(verifier, method)], for a verifier whose
    encoding is one byte per character. *)
Definition generate_code_challenge (verifier method : string) : string + Raised :=
  if String.eqb method "S256" then
    let digest := sha256_digest (map N_of_ascii (list_ascii_of_string verifier)) in
    let challenge := urlsafe_b64encode digest in
    inl (rstrip_eq challenge)
  else if String.eqb method "plain" then inl verifier
  else inr (UnsupportedMethod method).

End Pkce.

(* ===================================================================== *)
(** ** utils/hashing.py : recipe fingerprints *)
(* ===================================================================== *)

Module Hashing.
Import PyStr Validators.

(** [sorted([x.lower().strip() for x in xs if x])] *)
Definition normalized (xs : list string) : list string :=
  Cache.sorted (map (fun x => strip (lower x)) (List.filter truthy xs)).

(** The string that is hashed. *)
Definition fingerprint (ingredients : list string) (cooking_method cuisine : string)
    (dietary_tags : option (list string)) : string :=
  let dietary_tags := default [] dietary_tags in
  let normalized_ingredients := normalized ingredients in
  let normalized_method :=
    if truthy cooking_method then strip (lower cooking_method) else "" in
  let normalized_cuisine :=
    if truthy cuisine then strip (lower cuisine) else "" in
  let normalized_tags := normalized dietary_tags in
  let fingerprint_parts :=
    [ join "|" normalized_ingredients;
      normalized_method;
      normalized_cuisine;
      join "|" normalized_tags ] in
  join "::" fingerprint_parts.

(** [generate_recipe_hash(recipe_name, ingredients, cooking_method,
    cuisine, dietary_tags)], for a fingerprint whose encoding is one byte
    per character. *)
Definition generate_recipe_hash (recipe_name : string) (ingredients : list string)
    (cooking_method cuisine : string) (dietary_tags : option (list string)) : string :=
  Sha256.hexdigest (fingerprint ingredients cooking_method cuisine dietary_tags).

End Hashing.

(* ===================================================================== *)
(** * Vocabulary of the properties

    Predicates, abbreviations and sample data the statements below are
    written with. *)
(* ===================================================================== *)

Section BlinkitNotions.
Import PyStr Blinkit.

(** No character of a sanitized name is a path separator or a dot. *)
Definition plain_char (c : ascii) : bool :=
  negb (Ascii.eqb c "/") && negb (Ascii.eqb c ".").

(** What [join] puts before a non-empty tail. *)
Fixpoint lead (sep : string) (ps : list string) : string :=
  match ps with
  | [] => ""
  | p :: ps' => p ++ sep ++ lead sep ps'
  end.

(** ASCII characters, and those of [a-z0-9_-]. *)
Definition is_ascii (c : ascii) : bool := between 0 127 c.

Definition is_segment_char (c : ascii) : bool :=
  between 97 122 c || between 48 57 c || Ascii.eqb c "_" || Ascii.eqb c "-".

End BlinkitNotions.

Section ValidatorTerms.
Import PyStr Validators Store Config Providers.
Local Open Scope Z_scope.

(** The policy in the words of the specification, with the name the
    validator is given in place of the local part. *)
Definition policy (password username : string) : bool :=
  (8 <=? len password)
  && any is_upper password && any is_lower password
  && any is_digit password && any is_special password
  && negb (in_set (lower password) COMMON_PASSWORDS)
  && negb (truthy username && contains (lower username) (lower password)).

(** The address the provider stores and checks the password against. *)
Definition address (credentials : AuthCredentials) : string :=
  normalize_email (strip (default "" (c_email credentials))).

(** A registration whose password contains the local part of the address. *)
Definition alice : AuthCredentials :=
  mkCredentials (Some "alice@example.com") (Some "Alice-Horse-9!") None None None.

End ValidatorTerms.

Section ConnectionTerms.
Import Connection.
Local Open Scope Z_scope.

(** One failed attempt: the bookkeeping before the sleep or the raise. *)
Definition failed_attempt (err : string) (m : DatabaseStateMachine) :=
  on_failure err (emit EvFactory (set_state CONNECTING (count_attempt m))).

End ConnectionTerms.

Section CameraSample.
Import Camera.
Local Open Scope Z_scope.

(** The breaker of the camera service after five failures in a row,
    the last at instant 0. *)
Definition tripped : CircuitBreaker :=
  fail_times (R:=unit) (new 5 60) [0; 0; 0; 0; 0].

End CameraSample.

Section GroceryTerms.
Import Transactions Grocery.
Local Open Scope Z_scope.


End GroceryTerms.

Section StoreNotions.
Import Store.
Local Open Scope Z_scope.

(** The world after one store operation that did not raise. *)
Definition pop (w : World) : World := with_faults w (tail (faults w)).

End StoreNotions.

Section ProviderTerms.
Import Store Config Providers.
Local Open Scope Z_scope.

(** The account [authenticate] looks up for an address. *)
Definition is_account (email_ : string) (u : User) : bool :=
  String.eqb (email u) email_ && String.eqb (auth_provider u) "email".

Definition account (w : World) (email_ : string) : option User :=
  List.find (is_account email_) (users_v2 (database w)).

(** [locked_until > now] *)
Definition is_locked (u : User) (t : Z) : bool :=
  match locked_until (security u) with
  | Some until_ => t <? until_
  | None => false
  end.

(** The configuration with email verification switched on. *)
Definition strict : AuthConfig := mkConfig "k" 900 2592000 3600 12 5 1800 true.

Definition unverified_login : (AuthResult + Exn) * World :=
  @authenticate example_bcrypt strict (bob_tries "Correct-Horse-9!")
    (world_with (bob 2 None false) 0).

End ProviderTerms.

Section OAuthTerms.
Import Store Config Providers OAuth.
Local Open Scope Z_scope.

(** The world after a draw from the entropy source. *)
Definition bump (w : World) : World :=
  mkWorld (database w) (faults w) (now w) (tz_offset w) (token_hex w) (S (drawn w)).

(** The session row of an issued pair: it is the last row written to
    [auth_sessions], it carries the [jti] of both tokens and is not
    revoked, and the [tokens_issued] record is the last of the audit
    log. *)
Definition issued (d : Database) (pair : TokenPair) : Prop :=
  exists (s : Session) (sessions : list Session) (log : list AuditRecord)
         (em : string) (t : Z),
    auth_sessions d = (sessions ++ [s])%list
    /\ access_token_jti s = jti (payload (access_token pair))
    /\ refresh_token_jti s = jti (payload (refresh_token pair))
    /\ revoked s = false
    /\ auth_audit_log d = (log ++ [tokens_issued (s_user_id s) em t])%list.

(** Bob logs in with the right password. *)
Definition bob_login : (AuthResult * option TokenPair + Exn) * World :=
  authenticate_user (@service example_bcrypt (defaults "k")) "email"
    (bob_tries "Correct-Horse-9!") (world_with (bob 0 None true) 0).

(** Session creation against a store whose third operation, the insert
    into the audit log, raises. *)
Definition audit_write_fails : (TokenPair + Exn) * World :=
  _create_session (@service example_bcrypt (defaults "k")) 0 "bob@example.com"
    (bob_tries "Correct-Horse-9!") (fresh_world 0 0 [false; false; true]).

End OAuthTerms.

Section CacheTerms.
Import PyStr Cache.
Local Open Scope Z_scope.

(** The elements of a fingerprint field, before sorting. *)
Definition field_items (p : profile) (key : string) : option (list string) :=
  iterate (default (PList []) (p !! key)).

Definition FINGERPRINT_FIELDS : list string :=
  ["allergies"; "diet_types"; "cultural_restrictions"].

(** Two profiles carry the same multisets in the fingerprint fields (or
    fail to iterate on the same ones). *)
Definition same_fingerprint_fields (p p' : profile) : Prop :=
  forall key, key ∈ FINGERPRINT_FIELDS ->
              option_Forall2 (≡ₚ) (field_items p key) (field_items p' key).

(** Two profiles with the same allergies in another order, and other
    fields that differ. *)
Definition profile_a : profile :=
  {[ "allergies" := PList ["nuts"; "dairy"]; "household_size" := PInt 2 ]}.

Definition profile_b : profile :=
  {[ "allergies" := PList ["dairy"; "nuts"]; "household_size" := PInt 5;
     "name" := PStr "Bo" ]}.

(** A profile that carries a name and nothing else. *)
Definition named_only : profile := {[ "name" := PStr "Bo" ]}.

(** The conditions under which a disk entry is served: the fingerprint
    is compared only for a profile that is given and is not the empty
    dictionary. *)
Definition servable (c : ProfileAwareCacheManager) (user_profile : option profile)
    (now : Z) (data : Entry) : Prop :=
  default false (invalidated data) = false
  /\ (exists at_, cached_at data = Some at_
                  /\ now - at_ <= PyTime.timedelta_hours (ttl_hours c))
  /\ (forall p, user_profile = Some p -> p <> ∅ ->
                profile_version data = generate_profile_hash p).

(** A recipe cached at instant 0 for a profile allergic to nuts, with
    the default TTL of 12 hours. *)
Definition warm : ProfileAwareCacheManager :=
  match cache_response (new DEFAULT_TTL_HOURS ∅) "ab" "recipes" "R"
          (Some (allergic ["nuts"])) 0 true with
  | Some (_, c) => c
  | None => new DEFAULT_TTL_HOURS ∅
  end.

(** The same directory, opened by a manager with an empty memory. *)
Definition cold : ProfileAwareCacheManager := new DEFAULT_TTL_HOURS (disk warm).

(** A manager with an empty memory on a directory where a recipe was
    cached at instant 0 without any profile. *)
Definition plain : ProfileAwareCacheManager :=
  match cache_response (new DEFAULT_TTL_HOURS ∅) "ab" "recipes" "R" None 0 true with
  | Some (_, c) => new DEFAULT_TTL_HOURS (disk c)
  | None => new DEFAULT_TTL_HOURS ∅
  end.

(** An entry of the cache: a file whose name ends in [.json] and which
    holds a dictionary. *)
Definition is_entry (name : string) (f : File) : bool :=
  is_json_name name && match f with Json _ => true | Garbage => false end.

(** An entry the invalidation loop rewrites and counts: one whose file
    can be written. *)
Definition is_rewritten (writable : string -> bool) (name : string) (f : File) : bool :=
  is_entry name f && writable name.

(** What the loop leaves in a file. *)
Definition invalidated_file (writable : string -> bool) (name : string) (f : File)
    : File :=
  if is_json_name name && writable name
  then match f with Json data => Json (mark_invalidated data) | Garbage => Garbage end
  else f.

Definition rewritten (writable : string -> bool) (d : gmap string File)
    : gmap string File :=
  filter (fun kv => is_rewritten writable kv.1 kv.2 = true) d.




(** Hexadecimal digits, in lower case. *)
Definition is_hex (c : ascii) : bool := between 48 57 c || between 97 102 c.

End CacheTerms.

(** Vocabulary for the cache maintenance properties. *)
Section CacheMaintenanceTerms.
Import PyStr Cache CacheMaintenance.
Local Open Scope Z_scope.

(** What a [.json] file of the directory is, at instant [now], for a
    manager with the TTL of [c]. *)
Inductive Verdict := IsInvalidated | IsExpired | IsValid | IsUnreadable.

#[global] Instance Verdict_eq_dec : EqDecision Verdict.
Proof. solve_decision. Defined.

Definition verdict (c : ProfileAwareCacheManager) (now : Z) (f : File) : Verdict :=
  match f with
  | Garbage => IsUnreadable
  | Json data =>
      if default false (invalidated data) then IsInvalidated
      else match cached_at data with
           | None => IsUnreadable
           | Some at_ =>
               if PyTime.timedelta_hours (ttl_hours c) <? now - at_
               then IsExpired else IsValid
           end
  end.


(** The files [cleanup_expired] deletes. *)
Definition doomed (c : ProfileAwareCacheManager) (clock : string -> Z)
    (os_remove : string -> bool) (name : string) (f : File) : bool :=
  is_json_name name
  && (bool_decide (verdict c (clock name) f = IsInvalidated)
      || bool_decide (verdict c (clock name) f = IsExpired))
  && os_remove name.

End CacheMaintenanceTerms.

(** Vocabulary for the session properties. *)
Section SessionTerms.
Import Store Config Providers OAuth Sessions.
Local Open Scope Z_scope.

(** A token the manager accepts at the clock of [w]: signed with its
    key, of the expected type, and not expired, neither on the UTC clock
    read by [jwt.decode] nor on the clock [validate_token] reads. *)
Definition accepted (tm : TokenManager) (tok : Token) (ty : TokenType) (w : World) : Prop :=
  signed_with tok = secret_key tm
  /\ type (payload tok) = ty
  /\ now w < PyTime.timedelta_seconds (exp (payload tok))
  /\ timestamp_us w (now w) <= PyTime.timedelta_seconds (exp (payload tok)).

(** No two rows of [auth_sessions] share a [jti], of either kind. *)
Definition distinct_jtis (d : Database) : Prop :=
  NoDup ((access_token_jti <$> auth_sessions d)
         ++ (refresh_token_jti <$> auth_sessions d))%list.

(** A [jti] no stored row carries, and an entropy source whose next two
    draws are such [jti]s, different from each other. *)
Definition unused (d : Database) (j : string) : Prop :=
  j ∉ ((access_token_jti <$> auth_sessions d)
       ++ (refresh_token_jti <$> auth_sessions d))%list.

Definition fresh_draws (w : World) : Prop :=
  token_hex w (drawn w) <> token_hex w (S (drawn w))
  /\ unused (database w) (token_hex w (drawn w))
  /\ unused (database w) (token_hex w (S (drawn w))).

(** The worlds of the examples: Bob has logged in at instant 0. *)
Definition bob_service : AuthenticationService := @service example_bcrypt (defaults "k").

Definition bob_logged_in : World := bob_login.2.

(** The tokens that login issued. *)
Definition bob_access : Token :=
  mkToken (mkClaims 0 "bob@example.com" 0 900 "5f" ACCESS) "k".

Definition bob_refresh : Token :=
  mkToken (mkClaims 0 "bob@example.com" 0 2592000 "5f5f" REFRESH) "k".

Definition bob_tokens : TokenPair := mkTokenPair bob_access bob_refresh "Bearer" 900.

(** The row of that session. *)
Definition bob_row : Session :=
  mkSession 0 "5f" "5f5f" (mkDevice "cli" "unknown" "unknown")
            0 2592000000000 0 false.

(** A session created for Bob at instant 0 in an empty store. *)
Definition first_session : (TokenPair + Exn) * World :=
  _create_session bob_service 0 "bob@example.com" (bob_tries "Correct-Horse-9!")
    (fresh_world 0 0 []).

(** A host five hours behind UTC, with an empty store. *)
Definition behind_utc : World := fresh_world 0 (-18000) [].

End SessionTerms.

Section PasswordResetTerms.
Import Store Config Providers OAuth Sessions PasswordReset.
Local Open Scope Z_scope.

(** The token [request_password_reset] makes in [w] for an account. *)
Definition reset_token_of (cfg : AuthConfig) (w : World) (user : User)
    (email_ : string) : Token :=
  mkToken (mkClaims (_id user) email_ (now w / PyTime.US_PER_SECOND)
             (now w / PyTime.US_PER_SECOND + JWT_RESET_TOKEN_EXPIRY cfg)
             (token_hex w (drawn w)) RESET)
          (JWT_SECRET_KEY cfg).

(** A stand-in for the encoding in examples: the text shows the [jti]. *)
Definition example_jwt : Jwt :=
  {| jwt_encode := fun tok => "jwt." ++ jti (payload tok) |}.

End PasswordResetTerms.

Section PasswordResetSample.
Import Store Config Providers OAuth Sessions PasswordReset.
Local Open Scope Z_scope.

(** Sample data: Bob registers with an empty store; and Bob, locked out
    after five failures, asks for a reset and sets a new password. *)
Definition bob_registers : (AuthResult + Exn) * World :=
  @register example_bcrypt (defaults "k")
    (mkCredentials (Some "bob@example.com") (Some "Correct-Horse-9!") None None None)
    ∅ (fresh_world 0 0 []).

Definition bob_locked_out : User := bob 5 (Some 1800000000) true.

Definition bob_asks : (bool * option string * option ResetMessage + Exn) * World :=
  @request_password_reset example_jwt (defaults "k") " Bob@Example.com"
    (world_with bob_locked_out 0).

Definition bob_reset_token : Token :=
  reset_token_of (defaults "k") (world_with bob_locked_out 0) bob_locked_out
    "bob@example.com".

Definition bob_resets : (bool * option ResetMessage + Exn) * World :=
  @reset_password example_bcrypt example_jwt (defaults "k")
    (Encoded bob_reset_token) "Battery-Staple-7?" bob_asks.2.

End PasswordResetSample.

Section ConnectionClientTerms.
Import Connection ConnectionClient.
Local Open Scope Z_scope.









(** A store that refuses the first [k] attempts and then answers. *)
Definition answers_after (k : Z) (c : nat) (took at_ : Z) : Z -> Attempt :=
  fun i => if i <? k then Fails "refused" else Connects c took at_.

End ConnectionClientTerms.

Section CameraTerms.
Import Camera CameraService.
Local Open Scope Z_scope.

(** A breaker between two calls: closed below its threshold, or open at
    or above it with the instant of the last failure kept. *)
Definition at_rest (cb : CircuitBreaker) : Prop :=
  match state cb with
  | CLOSED => 0 <= failure_count cb < failure_threshold cb
  | OPEN => failure_threshold cb <= failure_count cb /\ is_Some (last_failure_time cb)
  | HALF_OPEN => False
  end.

(** What is done to a breaker: a call, with what the function does and
    the two clock readings, or a manual reset. *)
Inductive Use (R : Type) :=
| Calling (func : Behaviour R) (now now_exc : Z)
| Resetting.
#[global] Arguments Calling {R} func now now_exc.
#[global] Arguments Resetting {R}.

Definition apply_use {R} (cb : CircuitBreaker) (u : Use R) : CircuitBreaker :=
  match u with
  | Calling func now now_exc => after (call cb func now now_exc)
  | Resetting => reset cb
  end.

Definition apply_uses {R} (us : list (Use R)) (cb : CircuitBreaker) : CircuitBreaker :=
  fold_left apply_use us cb.

(** The failures at the end of a list of uses, back to the last return
    or reset; an interrupted call is neither. *)
Definition failures_in_a_row {R} (us : list (Use R)) : Z :=
  fold_left (fun n u => match u with
                        | Calling (Raises _) _ _ => n + 1
                        | Calling Interrupts _ _ => n
                        | _ => 0
                        end) us 0.

(** What holds of a breaker in every state: below its threshold while
    closed, at or above it otherwise, with the instant of the last
    failure kept. *)
Definition kept (cb : CircuitBreaker) : Prop :=
  match state cb with
  | CLOSED => 0 <= failure_count cb < failure_threshold cb
  | OPEN | HALF_OPEN =>
      failure_threshold cb <= failure_count cb /\ is_Some (last_failure_time cb)
  end.

(** No call of the run is given a function that is interrupted. *)
Definition no_interrupt {R} (us : list (Use R)) : bool :=
  forallb (fun u => match u with Calling Interrupts _ _ => false | _ => true end) us.

(** An attempt that brings the image: the server is reachable, answers
    200, and the file is written. *)
Definition delivers (a : Attempt) : bool :=
  check_connection a
  && match fetch_image a with
     | Returns status_code => (status_code =? 200) && written a
     | Raises _ | Interrupts => false
     end.

(** The request of an attempt is interrupted. *)
Definition interrupts (a : Attempt) : bool :=
  match fetch_image a with Interrupts => true | _ => false end.

(** A server that is reachable and refuses every request. *)
Definition refusing : Z -> Attempt :=
  fun i => mkAttempt true (Raises "refused") true "img.jpg" (i * 1000000)
                     (i * 1000000) 500000.

End CameraTerms.

Section TransactionManagerTerms.
Import Transactions TransactionManager.
Local Open Scope Z_scope.

(** An attempt in which the transaction starts and the function raises
    an error of the kinds that are retried. *)
Definition stumbles {R} (a : Attempt R) : Prop :=
  start_raises a = None
  /\ exists e, func_does a = inr e /\ retried e = true.

(** An attempt that goes through: start, function and commit. *)
Definition goes_through {R} (a : Attempt R) (result : R) : Prop :=
  start_raises a = None /\ func_does a = inl result /\ commit_raises a = None.

(** The exception an attempt ends the call with, if any: one that is not
    retried, from the function, the start or the commit. *)
Definition gives_up {R} (a : Attempt R) (e : Exc) : Prop :=
  (exists e0, start_raises a = Some e0 /\ e = TransactionError (FailedToStart e0))
  \/ (start_raises a = None /\ func_does a = inr e /\ retried e = false)
  \/ (start_raises a = None /\ (exists r, func_does a = inl r)
      /\ exists e0, commit_raises a = Some e0 /\ e = TransactionError (FailedToCommit e0)).

(** A connection that drops during the first [k] attempts. *)
Definition drops_then (k : Z) (last : Attempt Z) : Z -> Attempt Z :=
  fun i => if i <? k then mkAttempt None (inr (ConnectionFailure "reset")) None
           else last.

End TransactionManagerTerms.

Section BlinkitSessionTerms.
Import PyStr Blinkit BlinkitSessions.
Local Open Scope Z_scope.

(** The directory name of a user below [sessions_dir]: the sanitized
    name, or nothing when it is empty. *)
Definition segment (username : string) : list string :=
  match safe_username username with
  | EmptyString => []
  | s => [s]
  end.

(** No part of a path is taken by a regular file. *)
Definition free_way (fs : FileSystem) (k : list string) : Prop :=
  forall j c, (1 <= j)%nat -> fs !! take j k <> Some (Regular c).

(** A file system shaped as a tree: every entry lies in a directory. *)
Definition tree (fs : FileSystem) : Prop :=
  forall k n, fs !! k = Some n -> k <> [] /\ node fs (removelast k) = Some Directory.

(** The directories listed in [sd] bear sanitized names, as those the
    manager creates do. *)
Definition named (fs : FileSystem) (sd : list string) : Prop :=
  forall d, is_child sd d = true -> fs !! d = Some Directory ->
            safe_username (List.last d "") = List.last d "" /\ List.last d "" <> "".

(** The metadata a directory holds, when it can be read. *)
Definition held (fs : FileSystem) (d : list string) : option SessionMetadata :=
  match fs !! (d ++ ["session_metadata.json"])%list with
  | Some (Regular (MetadataJson md)) => Some md
  | _ => None
  end.

(** A session directory [cleanup_expired_sessions] clears: a directory
    listed in [sd] whose metadata can be read and has expired. *)
Definition lapsed (sd : list string) (now : Z) (fs : FileSystem) (d : list string) : bool :=
  is_child sd d
  && match fs !! d with Some Directory => true | _ => false end
  && match held fs d with
     | Some md => is_expired now md
     | None => false
     end.

(** A directory without sub-directories: [rmdir] goes through once its
    regular files are unlinked. *)
Definition flat (fs : FileSystem) (d : list string) : bool :=
  bool_decide (filter (fun kv => is_child d kv.1 && negb (is_file kv.2) = true) fs = ∅).

(** What the cleanup takes away: the regular files of the lapsed
    directories, and those directories themselves when flat. *)
Definition swept (sd : list string) (now : Z) (fs : FileSystem)
    (kv : list string * Node) : bool :=
  (is_file kv.2 && lapsed sd now fs (removelast kv.1))
  || (lapsed sd now fs kv.1 && flat fs kv.1).

(** The same, for the directories of a part [listed] of the listing. *)
Definition swept_among (listed : FileSystem) (sd : list string) (now : Z)
    (fs : FileSystem) (kv : list string * Node) : bool :=
  (is_file kv.2 && lapsed sd now fs (removelast kv.1)
   && bool_decide (is_Some (listed !! removelast kv.1)))
  || (lapsed sd now fs kv.1 && flat fs kv.1 && bool_decide (is_Some (listed !! kv.1))).

(** Sample data: the store of the default manager with a session of
    [alice] created at instant 0 and her saved browser state. *)
Definition alice_metadata : SessionMetadata :=
  mkMetadata "alice" 0 0 (PyTime.timedelta_days 7) None.

Definition alice_store : FileSystem :=
  {[ ["cache"] := Directory;
     ["cache"; "blinkit_sessions"] := Directory;
     ["cache"; "blinkit_sessions"; "alice"] := Directory;
     ["cache"; "blinkit_sessions"; "alice"; "session_metadata.json"]
       := Regular (MetadataJson alice_metadata);
     ["cache"; "blinkit_sessions"; "alice"; "auth_state.json"]
       := Regular OtherContent ]}.

End BlinkitSessionTerms.

Section PkceTerms.
Import PyStr Pkce.

(** The characters of a base64url text without padding; they are among
    the unreserved characters a code verifier may hold. *)
Definition is_urlsafe (c : ascii) : bool :=
  between 65 90 c || between 97 122 c || between 48 57 c
  || Ascii.eqb c "-" || Ascii.eqb c "_".

End PkceTerms.

Section HashingTerms.
Import PyStr Validators Hashing.

(** What the hash keeps of a list: its non-empty entries, in lowercase
    and without blanks around them. *)
Definition entries_of (xs : list string) : list string :=
  map (fun x => strip (lower x)) (List.filter truthy xs).

End HashingTerms.

(* ===================================================================== *)
(** * Properties *)
(* ===================================================================== *)

(** ** Strings *)

Section StringFacts.
Import PyStr.

Lemma string_app_cons (c : ascii) (a b : string) :
  String c a ++ b = String c (a ++ b).
Proof. reflexivity. Qed.

Lemma string_app_nil_l (b : string) : "" ++ b = b.
Proof. reflexivity. Qed.

Lemma string_length_app (a b : string) :
  String.length (a ++ b) = (String.length a + String.length b)%nat.
Proof.
  induction a as [|c a IH]; [done|].
  rewrite string_app_cons. cbn. by rewrite IH.
Qed.

Lemma string_app_inj_r (a b t : string) : a ++ t = b ++ t -> a = b.
Proof.
  revert b. induction a as [|c a IH]; intros [|d b] E.
  - done.
  - apply (f_equal String.length) in E.
    rewrite !string_length_app in E. cbn in E. lia.
  - apply (f_equal String.length) in E.
    rewrite !string_length_app in E. cbn in E. lia.
  - rewrite !string_app_cons in E. injection E as -> E. f_equal. by apply IH.
Qed.

Lemma string_app_assoc (a b c : string) : (a ++ b) ++ c = a ++ (b ++ c).
Proof.
  induction a as [|x a IH]; [done|].
  rewrite !string_app_cons. by rewrite IH.
Qed.

Lemma lower_length (s : string) : String.length (lower s) = String.length s.
Proof. induction s; cbn; congruence. Qed.

Lemma all_keep (p : ascii -> bool) (s : string) : all p (keep p s) = true.
Proof.
  induction s as [|c s IH]; cbn; [done|].
  destruct (p c) eqn:E; cbn; [by rewrite E|done].
Qed.

Lemma all_lower (p q : ascii -> bool) (s : string) :
  (forall c, p c = true -> q (lower_char c) = true) ->
  all p s = true -> all q (lower s) = true.
Proof.
  intros Hpq. induction s as [|c s IH]; cbn; [done|].
  intros [Hc Hs]%andb_prop. rewrite (Hpq _ Hc). cbn. by apply IH.
Qed.

(** A field without the separator is not split. *)
Lemma split_on_absent (sep : ascii) (s : string) :
  all (fun c => negb (Ascii.eqb c sep)) s = true -> split_on sep s = [s].
Proof.
  induction s as [|c s IH]; cbn; [done|].
  intros [Hc Hs]%andb_prop. apply negb_true_iff in Hc. rewrite Hc.
  by rewrite (IH Hs).
Qed.

End StringFacts.

(** ** The embedding on sample inputs *)

Section Samples.
Import PyStr.
Local Open Scope Z_scope.

Example sha256_abc :
  Sha256.hexdigest "abc"
  = "ba7816bf8f01cfea414140de5dae2223b00361a396177a9cb410ff61f20015ad".
Proof. by vm_compute. Qed.

Example fingerprint_str_nuts :
  Cache.fingerprint_str ["nuts"] [] []
  = "{" ++ Cache.json_string "allergies" ++ ": [" ++ Cache.json_string "nuts"
    ++ "], " ++ Cache.json_string "cultural_restrictions" ++ ": [], "
    ++ Cache.json_string "diet_types" ++ ": []}".
Proof. by vm_compute. Qed.

Example profile_hash_nuts :
  Cache.generate_profile_hash (Cache.allergic ["nuts"]) = Some "d095660830221994".
Proof. by vm_compute. Qed.

Example profile_hash_of_a_string :
  Cache.generate_profile_hash {[ "allergies" := Cache.PStr "ba" ]}
  = Cache.generate_profile_hash {[ "allergies" := Cache.PList ["a"; "b"] ]}.
Proof. by vm_compute. Qed.

Example profile_hash_raises :
  Cache.generate_profile_hash {[ "diet_types" := Cache.PNone ]} = None.
Proof. by vm_compute. Qed.

Example sorted_by_code_point :
  Cache.sorted ["b"; "a"; "B"; "aa"; ""] = [""; "B"; "a"; "aa"; "b"].
Proof. by vm_compute. Qed.

Example path_of_alice :
  Blinkit.get_auth_state_path Blinkit.default_manager "Alice"
  = "/srv/app/cache/blinkit_sessions/alice/auth_state.json".
Proof. by vm_compute. Qed.

Example path_of_no_name :
  Blinkit.get_auth_state_path Blinkit.default_manager "!?"
  = "/srv/app/cache/blinkit_sessions/auth_state.json".
Proof. by vm_compute. Qed.

Example strong_password :
  Validators.validate "Correct-Horse-9!" (Some "alice@example.com")
  = Validators.mkResult true 4 [] [].
Proof. by vm_compute. Qed.

Example weak_password :
  Validators.errors (Validators.validate "password" None)
  = ["Password must contain at least one uppercase letter";
     "Password must contain at least one digit";
     "Password must contain at least one special character";
     "Password is too common"].
Proof. by vm_compute. Qed.

Example email_shapes :
  map (fun e => (Validators.validate_email e).1)
      ["alice@example.com"; "a.b@x.com"; "a..b@x.com"; "a@b"; "a@-b.com"; ""]
  = [true; true; false; false; false; false].
Proof. by vm_compute. Qed.

Example timedelta_fields :
  PyTime.seconds (PyTime.timedelta_days 1 + PyTime.timedelta_seconds 5) = 5
  /\ PyTime.days (PyTime.timedelta_days 1 + PyTime.timedelta_seconds 5) = 1
  /\ PyTime.seconds (- 1) = 86399.
Proof. by vm_compute. Qed.

Example three_attempts :
  Connection.sleeps
    (Connection.ensure_connected 3 (Connection.always_failing "refused")
       Connection.initial).2 = [1; 2].
Proof. by vm_compute. Qed.

Example connects_at_once :
  let out := Connection.ensure_connected 3 (fun _ => Connection.Connects 7 2 100)
               Connection.initial in
  out.1 = Connection.Returned
  /\ Connection._state out.2 = Connection.CONNECTED
  /\ Connection._client out.2 = Some 7%nat
  /\ Connection.sleeps out.2 = [].
Proof. by vm_compute. Qed.

Example stale_update :
  (Grocery._update_grocery_list_with_locking (Grocery.sample_txn 4) "alice" "weekly"
     ∅ (Some 3) 7 1 2).1
  = inr (Transactions.VersionConflictError "weekly" 3 (Some (Transactions.VInt 4))).
Proof. by vm_compute. Qed.

End Samples.

(** ** Per-user session paths *)

Section BlinkitFacts.
Import PyStr Blinkit.

Lemma safe_char_plain (c : ascii) :
  safe_char c = true -> plain_char (lower_char c) = true.
Proof. destruct c as [[] [] [] [] [] [] [] []]; vm_compute; congruence. Qed.

Lemma safe_username_plain (u : string) : all plain_char (safe_username u) = true.
Proof.
  unfold safe_username. apply (all_lower safe_char); [apply safe_char_plain|].
  apply all_keep.
Qed.

Lemma all_weaken (p q : ascii -> bool) (s : string) :
  (forall c, p c = true -> q c = true) -> all p s = true -> all q s = true.
Proof.
  intros Hpq. induction s as [|c s IH]; cbn; [done|].
  intros [Hc Hs]%andb_prop. rewrite (Hpq _ Hc). cbn. by apply IH.
Qed.

(** The parts of a sanitized name: the name itself, or nothing when it
    is empty. *)
Lemma path_parts_plain (s : string) :
  all plain_char s = true ->
  path_parts s = match s with EmptyString => [] | _ => [s] end
  /\ startswith "/" s = false.
Proof.
  intros Hs. unfold path_parts.
  rewrite split_on_absent.
  2:{ eapply all_weaken; [|exact Hs]. intros c [? _]%andb_prop. done. }
  destruct s as [|c s]; [done|]. cbn in Hs.
  apply andb_prop in Hs as [[Hc1 Hc2]%andb_prop Hs]. split.
  - cbn [List.filter]. destruct s as [|d s].
    + destruct c as [[] [] [] [] [] [] [] []]; vm_compute in Hc2 |- *; congruence.
    + cbn. destruct (Ascii.eqb c "."); done.
  - apply negb_true_iff in Hc1.
    change (startswith "/" (String c s)) with (Ascii.eqb "/" c && true).
    by rewrite Ascii.eqb_sym, Hc1.
Qed.

Lemma join_app_tail (sep : string) (ps xs : list string) :
  xs <> [] -> join sep (ps ++ xs)%list = lead sep ps ++ join sep xs.
Proof.
  intros Hxs. induction ps as [|p ps IH]; [done|].
  cbn [app lead].
  destruct (ps ++ xs)%list as [|y ys] eqn:E.
  { destruct ps; [|done]. cbn in E. done. }
  change (join sep (p :: y :: ys)) with (p ++ sep ++ join sep (y :: ys)).
  rewrite IH. by rewrite !string_app_assoc.
Qed.

(** The path handed out for a user whose sanitized name is [s]. *)
Lemma get_auth_state_path_shape (m : BlinkitSessionManager) (u : string) :
  exists (a : string) (ps : list string),
  forall v,
    get_auth_state_path m v
    = a ++ join "/" (ps ++ match safe_username v with
                           | EmptyString => []
                           | s => [s]
                           end ++ ["auth_state.json"])%list.
Proof.
  set (sd := sessions_dir m).
  exists (if truthy (anchor sd) then anchor sd else anchor (cwd m)),
         (if truthy (anchor sd) then parts sd else (parts (cwd m) ++ parts sd)%list).
  intros v. unfold get_auth_state_path, _get_auth_state_path, _get_user_session_dir.
  fold sd.
  destruct (path_parts_plain _ (safe_username_plain v)) as [Hp Hs].
  unfold div at 2. rewrite Hs, Hp. clear Hp Hs.
  unfold div. change (startswith "/" "auth_state.json") with false.
  change (path_parts "auth_state.json") with ["auth_state.json"].
  cbn [anchor parts]. unfold absolute. cbn [anchor parts].
  assert (Hnil : forall l : list string, (l ++ ["auth_state.json"])%list <> []).
  { intros l E. by apply app_eq_nil in E as [_ E]. }
  destruct (truthy (anchor sd)) eqn:Ht; unfold path_str; cbn [anchor parts].
  - destruct (anchor sd) as [|c a]; [cbn in Ht; discriminate|].
    rewrite <- !(assoc_L (++)%list). by destruct (safe_username v).
  - rewrite !(assoc_L (++)%list).
    destruct (((parts (cwd m) ++ parts sd) ++ _) ++ ["auth_state.json"])%list eqn:E.
    { by destruct (Hnil _ E). }
    rewrite <- E. clear E.
    destruct (anchor (cwd m)) as [|c a]; by destruct (safe_username v).
Qed.

(** Users whose sanitized names differ get different paths. *)
Lemma get_auth_state_path_differ (m : BlinkitSessionManager) (u1 u2 : string) :
  safe_username u1 <> safe_username u2 ->
  get_auth_state_path m u1 <> get_auth_state_path m u2.
Proof.
  intros Hne E.
  destruct (get_auth_state_path_shape m u1) as (a & ps & Hshape).
  rewrite !Hshape in E. apply (inj (String.app a)) in E.
  assert (Hj : forall xs : list string,
             join "/" (ps ++ xs ++ ["auth_state.json"])%list
             = lead "/" ps ++ join "/" (xs ++ ["auth_state.json"])%list).
  { intros xs. apply join_app_tail. by destruct xs. }
  rewrite !Hj in E. apply (inj (String.app _)) in E.
  destruct (safe_username u1) as [|c1 s1] eqn:E1,
           (safe_username u2) as [|c2 s2] eqn:E2.
  - done.
  - apply (f_equal String.length) in E. cbn [app join] in E.
    rewrite !string_length_app in E. cbn in E. lia.
  - apply (f_equal String.length) in E. cbn [app join] in E.
    rewrite !string_length_app in E. cbn in E. lia.
  - cbn [app join] in E. apply string_app_inj_r in E. done.
Qed.

End BlinkitFacts.
Section BlinkitClaims.
Import PyStr Blinkit.

Lemma get_auth_state_path_eq_iff (m : BlinkitSessionManager) (u1 u2 : string) :
  get_auth_state_path m u1 = get_auth_state_path m u2
  <-> safe_username u1 = safe_username u2.
Proof.
  split.
  - intros E. destruct (decide (safe_username u1 = safe_username u2)); [done|].
    by destruct (get_auth_state_path_differ m u1 u2).
  - intros E. unfold get_auth_state_path, _get_auth_state_path,
      _get_user_session_dir. by rewrite E.
Qed.

Lemma safe_username_charset (u : string) :
  all is_ascii u = true -> all is_segment_char (safe_username u) = true.
Proof.
  intros Hu. unfold safe_username.
  apply (all_lower (fun c => is_ascii c && safe_char c)).
  { intros c. destruct c as [[] [] [] [] [] [] [] []]; vm_compute; congruence. }
  induction u as [|c u IH]; [done|]. cbn in Hu |- *.
  apply andb_prop in Hu as [Hc Hu].
  destruct (safe_char c) eqn:Hs; [|by apply IH].
  cbn. rewrite Hc, Hs. cbn. by apply IH.
Qed.

(** C1. Distinct usernames are to get distinct auth-state paths.  The
    usernames of the application are email addresses, and the two
    addresses below are distinct; yet, whatever the cache and working
    directories, [get_auth_state_path] hands out the same path for both,
    because the sanitized directory name drops [.] and [@]. *)
Theorem get_auth_state_path_collides :
  "a.b@x.com" <> "ab@x.com"
  /\ Validators.validate_email "a.b@x.com" = (true, "")
  /\ Validators.validate_email "ab@x.com" = (true, "")
  /\ forall m : BlinkitSessionManager,
       get_auth_state_path m "a.b@x.com" = get_auth_state_path m "ab@x.com".
Proof.
  split; [done|]. split; [by vm_compute|]. split; [by vm_compute|].
  intros m. by apply get_auth_state_path_eq_iff.
Qed.

End BlinkitClaims.

(** ** Password policy *)

Section ValidatorClaims.
Import PyStr Validators Store Config Providers.
Local Open Scope Z_scope.

Lemma check_fst (cond : bool) (e s : string) (acc : list string * list string) :
  (check cond e s acc).1 = if cond then (acc.1 ++ [e])%list else acc.1.
Proof. unfold check. by destruct cond. Qed.

Lemma check_nil (cond : bool) (e s : string) (acc : list string * list string) :
  (check cond e s acc).1 = [] <-> cond = false /\ acc.1 = [].
Proof.
  rewrite check_fst. destruct cond; split.
  - intros E. by apply app_eq_nil in E as [_ E].
  - by intros [? _].
  - done.
  - by intros [_ ?].
Qed.

Lemma run_checks_nil (password username : string) :
  (run_checks password (Some username)).1 = [] <-> policy password username = true.
Proof.
  unfold run_checks, policy, MIN_LENGTH. cbv zeta.
  rewrite !check_nil. cbn [fst].
  rewrite !andb_true_iff, !negb_true_iff, !negb_false_iff.
  rewrite Z.ltb_ge, Z.leb_le. tauto.
Qed.

(** The verdict of the validator is the policy. *)
Lemma validate_is_policy (password username : string) :
  is_valid (validate password (Some username)) = policy password username.
Proof.
  unfold validate. cbv zeta.
  destruct ((run_checks password (Some username)).1) eqn:E; cbn [is_valid].
  - symmetry. by apply run_checks_nil.
  - symmetry. apply not_true_iff_false. intros Hp%run_checks_nil. congruence.
Qed.

Lemma validate_password_with_feedback_fst (password : string) (username : option string) :
  (validate_password_with_feedback password username).1
  = is_valid (validate password username).
Proof.
  unfold validate_password_with_feedback.
  by destruct (is_valid (validate password username)).
Qed.

(** A well-formed address starts with a character that is not blank. *)
Lemma EMAIL_REGEX_match_head (s : string) :
  EMAIL_REGEX_match s = true ->
  exists c r, s = String c r /\ is_space c = false.
Proof.
  unfold EMAIL_REGEX_match. destruct s as [|c r]; [done|].
  intros Hm. exists c, r. split; [done|]. cbn [partition_at] in Hm.
  destruct (Ascii.eqb c "@") eqn:Ec.
  { cbn in Hm. done. }
  destruct (partition_at "@" r) as [[a b]|]; [|done].
  apply andb_prop in Hm as [Hm _]. apply andb_prop in Hm as [_ Hm].
  cbn [all] in Hm. apply andb_prop in Hm as [Hc _]. clear -Hc.
  destruct c as [[] [] [] [] [] [] [] []]; vm_compute in Hc |- *; congruence.
Qed.

Lemma normalize_email_truthy (s : string) :
  EMAIL_REGEX_match s = true -> truthy (normalize_email s) = true.
Proof.
  intros (c & r & -> & Hc)%EMAIL_REGEX_match_head.
  unfold normalize_email, strip. cbn [lstrip]. rewrite Hc.
  cbn [rstrip]. rewrite Hc. by destruct (rstrip r).
Qed.

Lemma validate_email_match (s : string) :
  (validate_email s).1 = true -> EMAIL_REGEX_match s = true.
Proof.
  unfold validate_email.
  destruct (negb (truthy s)); [done|].
  destruct (254 <? len s); [done|].
  by destruct (EMAIL_REGEX_match s).
Qed.

(** C4 (as the code has it). A registration succeeds only if the
    password has at least 8 characters, an uppercase letter, a lowercase
    letter, a digit and a symbol, is not a common password, and does not
    contain the whole normalized email address (compared in lower
    case). *)
Theorem register_enforces_policy `{Bcrypt} (cfg : AuthConfig)
    (credentials : AuthCredentials) (prof : gmap string (list string))
    (w w' : World) (r : AuthResult) :
  register cfg credentials prof w = (inl r, w') ->
  r_success r = true ->
  let password := default "" (c_password credentials) in
  8 <= len password
  /\ any is_upper password = true
  /\ any is_lower password = true
  /\ any is_digit password = true
  /\ any is_special password = true
  /\ in_set (lower password) COMMON_PASSWORDS = false
  /\ contains (lower (address credentials)) (lower password) = false.
Proof.
  intros Hreg Hok password.
  assert (Hpol : truthy (address credentials) = true
                 /\ policy password (address credentials) = true).
  { unfold register, try_except in Hreg. fold (address credentials) in Hreg.
    fold password in Hreg.
    destruct (validate_email (strip (default "" (c_email credentials))))
      as [email_valid email_error] eqn:Ev.
    destruct email_valid; cbn [negb] in Hreg.
    2:{ cbv in Hreg. injection Hreg as <- _. done. }
    split.
    { apply normalize_email_truthy, validate_email_match. by rewrite Ev. }
    rewrite <- validate_is_policy, <- validate_password_with_feedback_fst.
    destruct (validate_password_with_feedback password (Some (address credentials)))
      as [password_valid feedback].
    destruct password_valid; [done|]. cbv in Hreg. injection Hreg as <- _. done. }
  destruct Hpol as [Ht Hpol]. unfold policy in Hpol. rewrite Ht in Hpol.
  rewrite !andb_true_iff, !negb_true_iff in Hpol.
  rewrite Z.leb_le in Hpol. cbn [andb] in Hpol. tauto.
Qed.

Lemma register_enforces_policy_witness :
  8 <= len "Alice-Horse-9!"
  /\ any is_upper "Alice-Horse-9!" = true
  /\ any is_lower "Alice-Horse-9!" = true
  /\ any is_digit "Alice-Horse-9!" = true
  /\ any is_special "Alice-Horse-9!" = true
  /\ in_set (lower "Alice-Horse-9!") COMMON_PASSWORDS = false
  /\ contains (lower "alice@example.com") (lower "Alice-Horse-9!") = false.
Proof.
  pose (out := @register example_bcrypt (defaults "k") alice ∅ (fresh_world 0 0 [])).
  apply (@register_enforces_policy example_bcrypt (defaults "k") alice ∅
           (fresh_world 0 0 []) out.2
           (mkAuthResult true (Some 0%nat) (Some "alice@example.com") None false)).
  - vm_compute. reflexivity.
  - reflexivity.
Defined.

(** C4 (as stated) fails: the password below contains the local part
    [alice] of the address, and the registration goes through. *)
Lemma register_accepts_local_part :
  contains (lower (local_part "alice@example.com")) (lower "Alice-Horse-9!") = true
  /\ (@register example_bcrypt (defaults "k") alice ∅ (fresh_world 0 0 [])).1
     = inl (mkAuthResult true (Some 0%nat) (Some "alice@example.com") None false).
Proof. split; vm_compute; reflexivity. Qed.

End ValidatorClaims.

(** ** Connection state machine *)

Section ConnectionClaims.
Import Connection.
Local Open Scope Z_scope.

Lemma sleeps_emit (e : Event) (m : DatabaseStateMachine) :
  sleeps (emit e m)
  = (sleeps m ++ match e with EvSleep s => [s] | _ => [] end)%list.
Proof. unfold sleeps, emit. cbn [trace]. rewrite omap_app. by destruct e. Qed.

Lemma states_emit (e : Event) (m : DatabaseStateMachine) :
  states (emit e m)
  = (states m ++ match e with EvState s => [s] | _ => [] end)%list.
Proof. unfold states, emit. cbn [trace]. rewrite omap_app. by destruct e. Qed.

Lemma failed_attempt_state err m : _state (failed_attempt err m) = ERROR.
Proof. reflexivity. Qed.

Lemma failed_attempt_error err m :
  _connection_error (failed_attempt err m) = Some err
  /\ last_error (_metrics (failed_attempt err m)) = Some err
  /\ _client (failed_attempt err m) = None.
Proof. repeat split; reflexivity. Qed.

Lemma failed_attempt_trace err m :
  trace (failed_attempt err m)
  = (trace m ++ [EvState CONNECTING; EvFactory; EvState ERROR])%list.
Proof.
  change (trace (failed_attempt err m))
    with (((trace m ++ [EvState CONNECTING]) ++ [EvFactory]) ++ [EvState ERROR])%list.
  by rewrite <- !app_assoc.
Qed.

Lemma failed_attempt_sleeps err m : sleeps (failed_attempt err m) = sleeps m.
Proof.
  unfold sleeps. rewrite failed_attempt_trace, omap_app. cbn.
  by rewrite app_nil_r.
Qed.

Lemma failed_attempt_states err m :
  states (failed_attempt err m) = (states m ++ [CONNECTING; ERROR])%list.
Proof. unfold states. by rewrite failed_attempt_trace, omap_app. Qed.

(** When every attempt fails, the loop sleeps [attempt + 1] seconds
    after each attempt but the last, leaves the machine in [ERROR] with
    the error of the last attempt, and raises with that error. *)
Lemma retry_loop_all_fail (max_retries : Z) (err : Z -> string) :
  forall (todo : nat) (attempt : Z) (m : DatabaseStateMachine),
    (1 <= todo)%nat ->
    attempt + Z.of_nat todo = max_retries ->
    let out := retry_loop max_retries (fun i => Fails (err i)) todo attempt m in
    out.1 = DatabaseConnectionError max_retries (err (max_retries - 1))
    /\ _state out.2 = ERROR
    /\ _connection_error out.2 = Some (err (max_retries - 1))
    /\ sleeps out.2
       = (sleeps m ++ map (fun k => 1 * (attempt + Z.of_nat k + 1))
                          (seq 0 (todo - 1)))%list
    /\ states out.2
       = (states m ++ concat (repeat [CONNECTING; ERROR] todo))%list.
Proof.
  induction todo as [|todo IH]; intros attempt m Htodo Hsum; [lia|].
  cbn [retry_loop]. fold (failed_attempt (err attempt) m).
  destruct (attempt <? max_retries - 1) eqn:Hlt.
  - apply Z.ltb_lt in Hlt.
    destruct todo as [|todo']; [lia|].
    specialize (IH (attempt + 1)
                   (emit (EvSleep (1 * (attempt + 1)))
                         (failed_attempt (err attempt) m))).
    destruct IH as (Hr & Hs & He & Hsl & Hst); [lia|lia|].
    cbv zeta. rewrite Hr, Hs, He, Hsl, Hst.
    rewrite sleeps_emit, states_emit, failed_attempt_sleeps, failed_attempt_states.
    repeat split.
    + rewrite <- !app_assoc. f_equal.
      replace (S (S todo') - 1)%nat with (S (S todo' - 1)) by lia.
      cbn [seq map app]. f_equal; [f_equal; lia|].
      rewrite <- seq_shift, map_map. apply map_ext. intros k. lia.
    + rewrite app_nil_r, <- !app_assoc. done.
  - apply Z.ltb_ge in Hlt. assert (todo = 0%nat) as -> by lia.
    assert (attempt = max_retries - 1) as -> by lia.
    cbv zeta. cbn [fst snd].
    rewrite failed_attempt_sleeps, failed_attempt_states. cbn.
    by rewrite app_nil_r.
Qed.

(** [ensure_connected] on a machine that is not connected, against a
    store that never answers. *)
Lemma ensure_connected_all_fail (max_retries : Z) (err : Z -> string)
    (m : DatabaseStateMachine) :
  1 <= max_retries ->
  _state m <> CONNECTED ->
  let out := ensure_connected max_retries (fun i => Fails (err i)) m in
  out.1 = DatabaseConnectionError max_retries (err (max_retries - 1))
  /\ _state out.2 = ERROR
  /\ sleeps out.2
     = (sleeps m ++ map (fun k => 1 * (Z.of_nat k + 1))
                        (seq 0 (Z.to_nat max_retries - 1)))%list.
Proof.
  intros Hn Hs. unfold ensure_connected.
  destruct (retry_loop_all_fail max_retries err (Z.to_nat max_retries) 0 m)
    as (Hr & Hst & _ & Hsl & _); [lia|lia|].
  destruct (_state m); try done; cbv zeta; by rewrite Hr, Hst, Hsl.
Qed.

(** Up to three attempts the delays are those of the doubling rule. *)
Lemma backoff_agrees_up_to_3 (max_retries : Z) :
  1 <= max_retries <= 3 ->
  map (fun k => 1 * (Z.of_nat k + 1)) (seq 0 (Z.to_nat max_retries - 1))
  = exponential_delays max_retries.
Proof.
  intros H. assert (max_retries = 1 \/ max_retries = 2 \/ max_retries = 3)
    as [-> | [-> | ->]] by lia; reflexivity.
Qed.

(** C5. The delay before a retry is to be one second times two to the
    power of the attempt index.  With four attempts against a store that
    never answers, [ensure_connected] ends in [ERROR] and raises with the
    last error, but it has slept 1, 2 and 3 seconds, where the rule asks
    for 1, 2 and 4: the delay is [1 * (attempt + 1)]. *)
Theorem ensure_connected_backoff_is_linear :
  let out := ensure_connected 4 (always_failing "refused") initial in
  out.1 = DatabaseConnectionError 4 "refused"
  /\ _state out.2 = ERROR
  /\ sleeps out.2 = [1; 2; 3]
  /\ exponential_delays 4 = [1; 2; 4].
Proof. by vm_compute. Qed.

End ConnectionClaims.

(** ** Circuit breaker *)

Section CameraClaims.
Import Camera.
Local Open Scope Z_scope.

Variable R : Type.

Lemma fail_once_closed (cb : CircuitBreaker) (e : string) (t : Z) :
  state cb = CLOSED ->
  after (call cb (@Raises R e) t t)
  = mkBreaker (failure_threshold cb) (timeout cb) (failure_count cb + 1) (Some t)
      (if failure_threshold cb <=? failure_count cb + 1 then OPEN else CLOSED).
Proof.
  intros Hs. unfold call. rewrite Hs. cbn. unfold set_state. cbn.
  destruct (failure_threshold cb <=? failure_count cb + 1); by rewrite ?Hs.
Qed.

(** Consecutive failures on a closed breaker count up and open it at
    the threshold. *)
Lemma fail_times_closed (ts : list Z) :
  forall cb : CircuitBreaker,
    state cb = CLOSED ->
    failure_count cb + Z.of_nat (length ts) < failure_threshold cb ->
    let cb' := fail_times (R:=R) cb ts in
    state cb' = CLOSED
    /\ failure_count cb' = failure_count cb + Z.of_nat (length ts)
    /\ failure_threshold cb' = failure_threshold cb
    /\ timeout cb' = timeout cb.
Proof.
  induction ts as [|t ts IH]; intros cb Hs Hlt; cbn [fail_times length] in *.
  { cbv zeta. repeat split; try done. lia. }
  rewrite fail_once_closed by done.
  destruct (failure_threshold cb <=? failure_count cb + 1) eqn:E.
  { apply Z.leb_le in E. lia. }
  destruct (IH (mkBreaker (failure_threshold cb) (timeout cb)
                  (failure_count cb + 1) (Some t) CLOSED))
    as (H1 & H2 & H3 & H4); [done|cbn; lia|].
  cbn in H2, H3, H4. cbv zeta. rewrite H1, H2, H3, H4.
  repeat split; try done. lia.
Qed.

(** After N consecutive failures a fresh breaker of threshold N is open;
    the instant of the last failure is recorded. *)
Lemma fail_times_opens (threshold cooldown : Z) (ts : list Z) (t : Z) :
  Z.of_nat (length ts) + 1 = threshold ->
  let cb := fail_times (R:=R) (new threshold cooldown) (ts ++ [t]) in
  state cb = OPEN
  /\ failure_count cb = threshold
  /\ last_failure_time cb = Some t
  /\ failure_threshold cb = threshold
  /\ timeout cb = cooldown.
Proof.
  intros Hn.
  assert (Happ : forall l1 l2 (c : CircuitBreaker),
             fail_times (R:=R) c (l1 ++ l2) = fail_times (R:=R) (fail_times (R:=R) c l1) l2).
  { induction l1 as [|x l1 IH]; intros l2 c; [done|]. cbn. apply IH. }
  cbv zeta. rewrite Happ.
  destruct (fail_times_closed ts (new threshold cooldown)) as (H1 & H2 & H3 & H4).
  { done. }
  { cbn. lia. }
  cbn [fail_times]. rewrite fail_once_closed by done.
  rewrite H2, H3, H4. cbn [new failure_count failure_threshold timeout].
  destruct (threshold <=? 0 + Z.of_nat (length ts) + 1) eqn:E.
  - cbn. repeat split; try done; lia.
  - apply Z.leb_gt in E. lia.
Qed.

Lemma seconds_le (d : Z) : 0 <= d -> PyTime.seconds d <= d / PyTime.US_PER_SECOND.
Proof.
  intros Hd. unfold PyTime.seconds, PyTime.SECONDS_PER_DAY, PyTime.US_PER_SECOND.
  apply Z.mod_le; [|lia]. apply Z.div_pos; lia.
Qed.

Lemma seconds_within_a_day (d : Z) :
  0 <= d < PyTime.timedelta_days 1 ->
  PyTime.seconds d = d / PyTime.US_PER_SECOND.
Proof.
  unfold PyTime.seconds, PyTime.timedelta_days, PyTime.SECONDS_PER_DAY,
    PyTime.US_PER_SECOND. intros Hd.
  apply Z.mod_small. split; [apply Z.div_pos; lia|].
  apply Z.div_lt_upper_bound; lia.
Qed.

(** While less than the cooldown has passed since the last failure, an
    open breaker raises without calling the function and stays as it
    is. *)
Lemma open_short_circuits (cb : CircuitBreaker) (func : Behaviour R)
    (t now now_exc : Z) :
  state cb = OPEN ->
  last_failure_time cb = Some t ->
  0 <= now - t < PyTime.timedelta_seconds (timeout cb) ->
  call cb func now now_exc = mkCall CircuitOpenError false cb.
Proof.
  intros Hs Ht Hd. unfold call, cooldown_over. rewrite Hs, Ht.
  destruct (timeout cb <=? PyTime.seconds (now - t)) eqn:E; [|done].
  apply Z.leb_le in E. pose proof (seconds_le (now - t) (proj1 Hd)) as Hle.
  unfold PyTime.timedelta_seconds, PyTime.US_PER_SECOND in *.
  assert ((now - t) / 1000000 < timeout cb); [|lia].
  apply Z.div_lt_upper_bound; lia.
Qed.

(** Once the cooldown has passed, and within a day of the last failure,
    the next call is let through as a probe: it closes the breaker when
    it returns and re-opens it when it raises. *)
Lemma open_probes_after_cooldown (cb : CircuitBreaker) (func : Behaviour R)
    (t now now_exc : Z) :
  state cb = OPEN ->
  last_failure_time cb = Some t ->
  failure_threshold cb <= failure_count cb + 1 ->
  PyTime.timedelta_seconds (timeout cb) <= now - t < PyTime.timedelta_days 1 ->
  0 <= timeout cb ->
  let c := call cb func now now_exc in
  invoked c = true
  /\ match func with
     | Returns r => outcome c = Result r
                    /\ state (after c) = CLOSED /\ failure_count (after c) = 0
     | Raises e => outcome c = Reraised e
                   /\ state (after c) = OPEN
                   /\ last_failure_time (after c) = Some now_exc
     | Interrupts => outcome c = Interruption /\ state (after c) = HALF_OPEN
     end.
Proof.
  intros Hs Ht Hth Hd Hpos. unfold call, cooldown_over. rewrite Hs, Ht.
  unfold PyTime.timedelta_seconds, PyTime.US_PER_SECOND in Hd.
  rewrite seconds_within_a_day by lia.
  destruct (timeout cb <=? (now - t) / PyTime.US_PER_SECOND) eqn:E.
  2:{ apply Z.leb_gt in E. unfold PyTime.US_PER_SECOND in E.
      assert (timeout cb <= (now - t) / 1000000); [|lia].
      apply Z.div_le_lower_bound; lia. }
  destruct func as [r|e|]; cbn; [done| |done].
  destruct (failure_threshold cb <=? failure_count cb + 1) eqn:E2; [done|].
  apply Z.leb_gt in E2. lia.
Qed.

End CameraClaims.

Section CameraBug.
Import Camera.
Local Open Scope Z_scope.

(** C6. Once the cooldown has elapsed, one probe call is to be let
    through.  The breaker compares the cooldown with the [seconds] field
    of the elapsed time, which starts again from zero every 24 hours:
    exactly one day after the last failure, with a cooldown of 60
    seconds long over, the call is still refused and the function is not
    called. *)
Theorem call_refused_one_day_later :
  state tripped = OPEN
  /\ last_failure_time tripped = Some 0
  /\ PyTime.timedelta_seconds (timeout tripped) <= PyTime.timedelta_days 1 - 0
  /\ call tripped (Returns tt) (PyTime.timedelta_days 1) (PyTime.timedelta_days 1)
     = mkCall CircuitOpenError false tripped.
Proof. by vm_compute. Qed.

End CameraBug.

(** ** Optimistic locking of grocery lists *)

Section GroceryClaims.
Import Transactions Grocery.
Local Open Scope Z_scope.

Lemma matches_spec (q d : doc) :
  matches q d = true <-> forall k v, q !! k = Some v -> d !! k = Some v.
Proof. unfold matches. rewrite bool_decide_eq_true. reflexivity. Qed.

(** Adding the version to a query that does not mention it. *)
Lemma matches_version (q d : doc) (v : Z) :
  q !! "version" = None ->
  matches (<["version" := VInt v]> q) d
  = matches q d && bool_decide (d !! "version" = Some (VInt v)).
Proof.
  intros Hq. apply eq_true_iff_eq.
  rewrite andb_true_iff, !matches_spec, bool_decide_eq_true. split.
  - intros H. split.
    + intros k x Hk. apply H. rewrite lookup_insert_ne; [done|]. congruence.
    + apply H. by rewrite lookup_insert_eq.
  - intros [H1 H2] k x. destruct (decide (k = "version")) as [->|Hne].
    + rewrite lookup_insert_eq. congruence.
    + rewrite lookup_insert_ne by done. apply H1.
Qed.

Lemma list_query_version (username list_name : string) :
  list_query username list_name !! "version" = None.
Proof. done. Qed.

(** [find_one] returns the first match, [update_one] rewrites it. *)
Lemma coll_find_one_Some (q : doc) (c : list doc) (d : doc) :
  coll_find_one q c = Some d <->
  exists i, c !! i = Some d /\ matches q d = true
            /\ forall j d', (j < i)%nat -> c !! j = Some d' -> matches q d' = false.
Proof.
  revert d. induction c as [|x c IH]; intros d; cbn [coll_find_one].
  { split; [done|]. by intros (i & Hi & _). }
  destruct (matches q x) eqn:Hx.
  - split.
    + intros [= <-]. exists 0%nat. repeat split; [done|]. intros; lia.
    + intros (i & Hi & Hm & Hfirst). destruct i as [|i]; [by simplify_eq/=|].
      specialize (Hfirst 0%nat x). cbn in Hfirst. rewrite Hfirst in Hx; [done|lia|done].
  - rewrite IH. split.
    + intros (i & Hi & Hm & Hfirst). exists (S i). repeat split; [done..|].
      intros [|j] d' Hj Hd'; cbn in Hd'; [by simplify_eq|].
      apply (Hfirst j); [lia|done].
    + intros (i & Hi & Hm & Hfirst). destruct i as [|i].
      { cbn in Hi. simplify_eq. congruence. }
      exists i. repeat split; [done..|].
      intros j d' Hj Hd'. apply (Hfirst (S j)); [lia|done].
Qed.

Lemma coll_find_one_None (q : doc) (c : list doc) :
  coll_find_one q c = None <-> forall i d, c !! i = Some d -> matches q d = false.
Proof.
  induction c as [|x c IH]; cbn [coll_find_one].
  { split; [|done]. by intros _ []. }
  destruct (matches q x) eqn:Hx.
  - split; [done|]. intros H. specialize (H 0%nat x eq_refl). congruence.
  - rewrite IH. split.
    + intros H [|i] d Hi; cbn in Hi; [by simplify_eq|]. by apply (H i).
    + intros H i d Hi. by apply (H (S i)).
Qed.




(** A row the versioned filter matches answers the plain query, and
    carries the version. *)
Lemma stored_at_Some (txn : MongoTransaction) (username list_name : string) (v : Z)
    (row : doc) :
  stored_at txn username list_name v = Some row ->
  row !! "version" = Some (VInt v)
  /\ exists first, stored txn username list_name = Some first.
Proof.
  unfold stored_at, stored. intros Hrow.
  apply coll_find_one_Some in Hrow as (i & Hi & Hm & _).
  rewrite matches_version in Hm by done.
  apply andb_prop in Hm as [Hm Hv]. apply bool_decide_eq_true in Hv.
  split; [done|].
  destruct (coll_find_one (list_query username list_name) _) as [first|] eqn:E;
    [by eauto|].
  rewrite coll_find_one_None in E. by rewrite (E i row Hi) in Hm.
Qed.







End GroceryClaims.

(** ** The store monad *)

Section StoreFacts.
Import Store.
Local Open Scope Z_scope.

Lemma no_faults_pop (w : World) : no_faults w -> no_faults (pop w).
Proof.
  unfold no_faults, pop. cbn [faults with_faults].
  destruct (faults w); [done|]. by inversion 1.
Qed.

Lemma no_faults_with_database (w : World) (d : Database) :
  no_faults w -> no_faults (with_database w d).
Proof. done. Qed.

Lemma store_op_ok {A} (f : Database -> (A + Exn) * Database) (w : World) :
  no_faults w ->
  store_op f w = ((f (database w)).1, with_database (pop w) (f (database w)).2).
Proof.
  unfold no_faults, store_op, pop. intros Hf.
  destruct (faults w) as [|[] fs] eqn:E.
  - cbn [database with_faults]. by destruct (f (database w)).
  - by inversion Hf.
  - cbn [database with_faults]. by destruct (f (database w)).
Qed.

Lemma store_op_fault {A} (f : Database -> (A + Exn) * Database) (w : World)
    (fs : list bool) :
  faults w = true :: fs -> store_op f w = (inr PyMongoError, with_faults w fs).
Proof. unfold store_op. by intros ->. Qed.

Lemma store_op_pass {A} (f : Database -> (A + Exn) * Database) (w : World)
    (fs : list bool) :
  faults w = false :: fs ->
  store_op f w = ((f (database w)).1,
                  with_database (with_faults w fs) (f (database w)).2).
Proof.
  unfold store_op. intros ->. cbn [tail database with_faults].
  by destruct (f (database w)).
Qed.

Lemma get_client_ok (w : World) :
  no_faults w -> get_client w = (inl tt, pop w).
Proof.
  intros Hf. unfold get_client. rewrite store_op_ok by done. cbn [fst snd].
  by destruct w.
Qed.

Lemma users_find_one_ok (p : User -> bool) (w : World) :
  no_faults w ->
  users_find_one p w = (inl (List.find p (users_v2 (database w))), pop w).
Proof.
  intros Hf. unfold users_find_one. rewrite store_op_ok by done. cbn [fst snd].
  by destruct w.
Qed.

Lemma users_update_one_ok (id : nat) (f : User -> User) (w : World) :
  no_faults w ->
  users_update_one id f w
  = (inl tt, with_database (pop w)
               (with_users (database w)
                  (update_first (fun u => Nat.eqb (_id u) id) f
                                (users_v2 (database w))))).
Proof. intros Hf. unfold users_update_one. by rewrite store_op_ok. Qed.

Lemma audit_insert_one_ok (mk : Z -> AuditRecord) (w : World) :
  no_faults w ->
  audit_insert_one mk w
  = (inl tt, with_database (pop w)
               (mkDatabase (users_v2 (database w)) (auth_sessions (database w))
                  (auth_audit_log (database w) ++ [mk (now w)])
                  (next_oid (database w)))).
Proof. intros Hf. unfold audit_insert_one. by rewrite store_op_ok. Qed.

(** Rewriting the first document with a given [_id], when ids are
    unique, rewrites the document a query found, in place. *)
Lemma find_update_first (p : User -> bool) (f : User -> User)
    (l : list User) (x : User) :
  NoDup (_id <$> l) ->
  (forall u, p (f u) = p u) ->
  List.find p l = Some x ->
  List.find p (update_first (fun u => Nat.eqb (_id u) (_id x)) f l) = Some (f x)
  /\ exists i, l !! i = Some x
               /\ update_first (fun u => Nat.eqb (_id u) (_id x)) f l = <[i := f x]> l.
Proof.
  intros Hnd Hp. induction l as [|y l IH]; [done|].
  cbn [List.find update_first]. destruct (p y) eqn:Hy.
  - intros [= ->]. rewrite Nat.eqb_refl. cbn [List.find].
    rewrite Hp, Hy. split; [done|]. by exists 0%nat.
  - intros Hx. apply NoDup_cons in Hnd as [Hy_notin Hnd].
    destruct (Nat.eqb (_id y) (_id x)) eqn:Eid.
    + apply Nat.eqb_eq in Eid. exfalso. apply Hy_notin. rewrite Eid.
      apply list_elem_of_fmap. exists x. split; [done|].
      apply find_some in Hx as [Hin _]. by apply list_elem_of_In.
    + cbn [List.find]. rewrite Hy.
      destruct (IH Hnd Hx) as (H1 & i & Hi & Hu).
      split; [done|]. exists (S i). split; [done|]. cbn. by rewrite Hu.
Qed.

End StoreFacts.

(** ** Password authentication *)

Section ProviderClaims.
Import Store Config Providers.
Local Open Scope Z_scope.

Context `{Bcrypt}.
Variable cfg : AuthConfig.

Lemma account_after_update (w w' : World) (e : string) (user : User)
    (f : User -> User) :
  NoDup (_id <$> users_v2 (database w)) ->
  account w e = Some user ->
  (forall u, is_account e (f u) = is_account e u) ->
  users_v2 (database w')
  = update_first (fun u => Nat.eqb (_id u) (_id user)) f (users_v2 (database w)) ->
  account w' e = Some (f user).
Proof.
  intros Hnd Ha Hf Hu. unfold account. rewrite Hu.
  by destruct (find_update_first (is_account e) f _ user Hnd Hf Ha).
Qed.

Lemma account_pop (w : World) (e : string) : account (pop w) e = account w e.
Proof. done. Qed.

Lemma verify_password_mismatch (user : User) (email_ password ip h : string) (w : World) :
  no_faults w ->
  password_hash user = Some h ->
  checkpw password h = false ->
  let failed := failed_login_attempts (security user) + 1 in
  let lock := if MAX_LOGIN_ATTEMPTS cfg <=? failed
              then Some (now w + PyTime.timedelta_seconds (LOCKOUT_DURATION cfg))
              else None in
  let out := verify_password cfg user email_ password ip (now w) w in
  out.1 = inl (failure InvalidEmailOrPassword)
  /\ users_v2 (database out.2)
     = update_first (fun u => Nat.eqb (_id u) (_id user))
                    (set_failed failed lock) (users_v2 (database w)).
Proof.
  intros Hf Hh Hc failed lock out. subst out.
  unfold verify_password. rewrite Hh, Hc. cbn [negb].
  fold failed. fold lock. unfold mbind, M_bind.
  rewrite users_update_one_ok by done.
  rewrite audit_insert_one_ok
    by (apply no_faults_with_database, no_faults_pop, Hf).
  done.
Qed.

Lemma verify_password_match (user : User) (email_ password ip h : string) (w : World) :
  no_faults w ->
  password_hash user = Some h ->
  checkpw password h = true ->
  REQUIRE_EMAIL_VERIFICATION cfg = false \/ email_verified user = true ->
  let out := verify_password cfg user email_ password ip (now w) w in
  out.1 = inl (mkAuthResult true (Some (_id user)) (Some email_) None false)
  /\ users_v2 (database out.2)
     = update_first (fun u => Nat.eqb (_id u) (_id user))
                    (set_logged_in (now w)) (users_v2 (database w)).
Proof.
  intros Hf Hh Hc Hv out. subst out.
  unfold verify_password. rewrite Hh, Hc. cbn [negb].
  assert (REQUIRE_EMAIL_VERIFICATION cfg && negb (email_verified user) = false) as ->.
  { destruct Hv as [-> | ->]; [done|]. by rewrite andb_false_r. }
  unfold mbind, M_bind.
  rewrite users_update_one_ok by done.
  rewrite audit_insert_one_ok
    by (apply no_faults_with_database, no_faults_pop, Hf).
  done.
Qed.

(** The body of [authenticate] once the account is found. *)
Lemma authenticate_found (credentials : AuthCredentials) (w : World) (user : User) :
  no_faults w ->
  account w (Validators.normalize_email (default "" (c_email credentials))) = Some user ->
  authenticate cfg credentials w
  = let w2 := pop (pop w) in
    Store.try_except
      (match locked_until (security user) with
       | Some until_ =>
           if now w <? until_
           then mret (failure (AccountLocked (PyTime.seconds (until_ - now w) / 60)))
           else verify_password cfg user
                  (Validators.normalize_email (default "" (c_email credentials)))
                  (default "" (c_password credentials))
                  (default "unknown" (c_ip_address credentials)) (now w)
       | None =>
           verify_password cfg user
             (Validators.normalize_email (default "" (c_email credentials)))
             (default "" (c_password credentials))
             (default "unknown" (c_ip_address credentials)) (now w)
       end)
      (fun _ => mret (failure AuthenticationServerError)) w2.
Proof.
  intros Hf Ha. unfold authenticate, try_except, mbind, M_bind.
  rewrite get_client_ok by done.
  rewrite users_find_one_ok by (by apply no_faults_pop).
  unfold account, is_account in Ha. change (database (pop w)) with (database w).
  rewrite Ha. reflexivity.
Qed.

(** C8 (as the code has it). For an attempt on an existing password
    account, with the store answering: (1) while [locked_until > now]
    the result is the locked failure whatever the password, and nothing
    is written; (2) otherwise, on a hash mismatch, the failure counter is
    incremented and, when it reaches [MAX_LOGIN_ATTEMPTS], [locked_until]
    is set to [now + LOCKOUT_DURATION]; (3) otherwise, on a match, and
    provided email verification is not required or the address is
    verified, the counter is reset to 0, [locked_until] is cleared and
    [last_login] is stamped. *)
Theorem authenticate_outcomes (credentials : AuthCredentials) (w : World)
    (user : User) (h : string) :
  no_faults w ->
  NoDup (_id <$> users_v2 (database w)) ->
  let email_ := Validators.normalize_email (default "" (c_email credentials)) in
  let password := default "" (c_password credentials) in
  account w email_ = Some user ->
  password_hash user = Some h ->
  let out := authenticate cfg credentials w in
  (is_locked user (now w) = true ->
     (exists remaining, out.1 = inl (failure (AccountLocked remaining)))
     /\ database out.2 = database w)
  /\ (is_locked user (now w) = false -> checkpw password h = false ->
        out.1 = inl (failure InvalidEmailOrPassword)
        /\ exists user',
             account out.2 email_ = Some user'
             /\ failed_login_attempts (security user')
                = failed_login_attempts (security user) + 1
             /\ (MAX_LOGIN_ATTEMPTS cfg <= failed_login_attempts (security user) + 1 ->
                 locked_until (security user')
                 = Some (now w + PyTime.timedelta_seconds (LOCKOUT_DURATION cfg))))
  /\ (is_locked user (now w) = false -> checkpw password h = true ->
      REQUIRE_EMAIL_VERIFICATION cfg = false \/ email_verified user = true ->
        out.1 = inl (mkAuthResult true (Some (_id user)) (Some email_) None false)
        /\ exists user',
             account out.2 email_ = Some user'
             /\ failed_login_attempts (security user') = 0
             /\ locked_until (security user') = None
             /\ last_login (security user') = Some (now w)).
Proof.
  intros Hf Hnd email_ password Ha Hh out.
  assert (Hf2 : no_faults (pop (pop w))) by (by do 2 apply no_faults_pop).
  subst out. rewrite (authenticate_found credentials w user Hf Ha).
  fold email_. fold password. cbv zeta. unfold is_locked, try_except.
  change (now w) with (now (pop (pop w))).
  split; [|split].
  - destruct (locked_until (security user)) as [until_|]; [|done].
    intros ->. split; [by eexists|done].
  - intros Hl Hc.
    assert (Hbody : forall until_, locked_until (security user) = Some until_ ->
                      (now (pop (pop w)) <? until_) = false).
    { intros until_ E. by rewrite E in Hl. }
    destruct (verify_password_mismatch user email_ password
                (default "unknown" (c_ip_address credentials)) h
                (pop (pop w)) Hf2 Hh Hc) as [Hr Hu].
    destruct (locked_until (security user)) as [until_|] eqn:El;
      rewrite ?(Hbody _ eq_refl);
      destruct (verify_password cfg user email_ password _ _ _) as [[r|e] w'];
      cbn [fst snd] in *; simplify_eq; (split; [done|]).
    all: eexists; split;
      [by refine (account_after_update w w' email_ user _ Hnd Ha _ Hu)|];
      (split; [done|]); intros Hmax%Z.leb_le; cbn; by rewrite Hmax.
  - intros Hl Hc Hv.
    assert (Hbody : forall until_, locked_until (security user) = Some until_ ->
                      (now (pop (pop w)) <? until_) = false).
    { intros until_ E. by rewrite E in Hl. }
    destruct (verify_password_match user email_ password
                (default "unknown" (c_ip_address credentials)) h
                (pop (pop w)) Hf2 Hh Hc Hv) as [Hr Hu].
    destruct (locked_until (security user)) as [until_|] eqn:El;
      rewrite ?(Hbody _ eq_refl);
      destruct (verify_password cfg user email_ password _ _ _) as [[r|e] w'];
      cbn [fst snd] in *; simplify_eq; (split; [done|]).
    all: eexists; split;
      [by refine (account_after_update w w' email_ user _ Hnd Ha _ Hu)|];
      done.
Qed.

End ProviderClaims.

Section ProviderExamples.
Import Store Config Providers.
Local Open Scope Z_scope.

(** The fifth wrong password in a row locks the account for 30 minutes. *)
Lemma authenticate_outcomes_witness :
  (@authenticate example_bcrypt (defaults "k") (bob_tries "wrong")
     (world_with (bob 4 None true) 0)).1
  = inl (failure InvalidEmailOrPassword)
  /\ exists user',
       account (@authenticate example_bcrypt (defaults "k") (bob_tries "wrong")
                  (world_with (bob 4 None true) 0)).2 "bob@example.com"
       = Some user'
       /\ failed_login_attempts (security user') = 4 + 1
       /\ (5 <= 4 + 1 ->
           locked_until (security user')
           = Some (0 + PyTime.timedelta_seconds 1800)).
Proof.
  assert (Hnd : NoDup (_id <$> users_v2 (database (world_with (bob 4 None true) 0)))).
  { apply NoDup_singleton. }
  destruct (@authenticate_outcomes example_bcrypt (defaults "k") (bob_tries "wrong")
              (world_with (bob 4 None true) 0) (bob 4 None true)
              "$2b$Correct-Horse-9!" (List.Forall_nil _) Hnd eq_refl eq_refl)
    as (_ & Hmismatch & _).
  exact (Hmismatch eq_refl eq_refl).
Defined.

(** C8 (as stated) fails: with email verification required and the
    address not yet verified, the right password on an unlocked account
    does not reset the failure counter nor stamp [last_login]. *)
Lemma authenticate_unverified_keeps_counters :
  @checkpw example_bcrypt "Correct-Horse-9!" "$2b$Correct-Horse-9!" = true
  /\ is_locked (bob 2 None false) 0 = false
  /\ unverified_login.1 = inl (mkAuthResult false None None (Some EmailNotVerified) true)
  /\ account unverified_login.2 "bob@example.com" = Some (bob 2 None false)
  /\ failed_login_attempts (security (bob 2 None false)) = 2
  /\ last_login (security (bob 2 None false)) = None.
Proof. by vm_compute. Qed.

(** With a store whose third operation raises, the write of the failure
    counter, a wrong password is answered with the server-error failure
    and is not counted. *)
Example mismatch_not_counted :
  let w := with_faults (world_with (bob 4 None true) 0) [false; false; true] in
  let out := @authenticate example_bcrypt (defaults "k") (bob_tries "wrong") w in
  out.1 = inl (failure AuthenticationServerError)
  /\ account out.2 "bob@example.com" = Some (bob 4 None true).
Proof. by vm_compute. Qed.

End ProviderExamples.

(** ** Session creation *)

Section OAuthClaims.
Import Store Config Providers OAuth.
Local Open Scope Z_scope.

Lemma bind_inl {A B} (m : M A) (f : A -> M B) (w w' : World) (b : B) :
  (m ≫= f) w = (inl b, w') ->
  exists a w1, m w = (inl a, w1) /\ f a w1 = (inl b, w').
Proof.
  unfold mbind, M_bind. destruct (m w) as [[a|e] w1]; [by eauto|done].
Qed.

Lemma store_op_inl {A} (f : Database -> (A + Exn) * Database)
    (w w' : World) (a : A) :
  store_op f w = (inl a, w') ->
  exists d', f (database w) = (inl a, d') /\ w' = with_database (pop w) d'.
Proof.
  unfold store_op, pop. destruct (faults w) as [|[] fs] eqn:E; [|done|].
  - cbn [database with_faults tail].
    destruct (f (database w)) as [r d'] eqn:Ef. intros [= -> <-]. eauto.
  - cbn [database with_faults tail].
    destruct (f (database w)) as [r d'] eqn:Ef. intros [= -> <-]. eauto.
Qed.

Lemma generate_token_run (tm : TokenManager) (life : Z) (ty : TokenType)
    (uid : nat) (em : string) (w : World) :
  generate_token tm life ty uid em w
  = (inl (mkToken (mkClaims uid em (now w / PyTime.US_PER_SECOND)
                            (now w / PyTime.US_PER_SECOND + life)
                            (token_hex w (drawn w)) ty)
                  (secret_key tm)),
     bump w).
Proof. reflexivity. Qed.

Lemma validate_token_inv (tm : TokenManager) (tok : Token) (ty : TokenType)
    (w w' : World) (r : option TokenClaims) :
  validate_token tm tok ty w = (inl r, w') ->
  w' = w /\ (forall c, r = Some c -> c = payload tok).
Proof.
  unfold validate_token, jwt_decode.
  repeat (case_match; simplify_eq/=); intros; simplify_eq; split; congruence.
Qed.

(** What [_create_session] has done when it returns a pair. *)
Lemma _create_session_inl (svc : AuthenticationService) (uid : nat) (em : string)
    (md : AuthCredentials) (w w' : World) (pair : TokenPair) :
  _create_session svc uid em md w = (inl pair, w') ->
  exists s : Session,
    auth_sessions (database w') = (auth_sessions (database w) ++ [s])%list
    /\ s_user_id s = uid
    /\ access_token_jti s = jti (payload (access_token pair))
    /\ refresh_token_jti s = jti (payload (refresh_token pair))
    /\ revoked s = false
    /\ auth_audit_log (database w')
       = (auth_audit_log (database w) ++ [tokens_issued uid em (now w)])%list
    /\ users_v2 (database w') = users_v2 (database w).
Proof.
  unfold _create_session, generate_access_token, generate_refresh_token.
  intros Hrun.
  apply bind_inl in Hrun as (access & w1 & Ha & Hrun).
  rewrite generate_token_run in Ha. injection Ha as <- <-.
  apply bind_inl in Hrun as (refresh & w2 & Hr & Hrun).
  rewrite generate_token_run in Hr. injection Hr as <- <-.
  apply bind_inl in Hrun as (ac & w3 & Hac & Hrun).
  apply validate_token_inv in Hac as [-> Hac].
  apply bind_inl in Hrun as (rc & w4 & Hrc & Hrun).
  apply validate_token_inv in Hrc as [-> Hrc].
  destruct ac as [ac|]; [|done]. destruct rc as [rc|]; [|done].
  rewrite (Hac _ eq_refl), (Hrc _ eq_refl) in Hrun. clear Hac Hrc.
  apply bind_inl in Hrun as ([] & w5 & Hg & Hrun).
  apply store_op_inl in Hg as (d5 & [= <-] & ->).
  apply bind_inl in Hrun as (t & w6 & Ht & Hrun).
  injection Ht as <- <-.
  apply bind_inl in Hrun as (expires & w7 & He & Hrun).
  injection He as <- <-.
  apply bind_inl in Hrun as ([] & w8 & Hs & Hrun).
  apply store_op_inl in Hs as (d8 & Hs & ->).
  destruct (existsb _ _) in Hs; [done|]. injection Hs as <-.
  apply bind_inl in Hrun as ([] & w9 & Hau & Hrun).
  apply store_op_inl in Hau as (d9 & [= <-] & ->).
  injection Hrun as <- <-.
  eexists. cbn. repeat split; reflexivity.
Qed.

Lemma try_except_inl {A} (body : M A) (handler : Exn -> M A)
    (w w' : World) (a : A) :
  try_except body handler w = (inl a, w') ->
  body w = (inl a, w') \/ exists e w1, body w = (inr e, w1) /\ handler e w1 = (inl a, w').
Proof.
  unfold try_except. destruct (body w) as [[x|e] w1]; [by left|].
  intros Hh. right. by eauto.
Qed.

Lemma issued_live (d : Database) (pair : TokenPair) :
  issued d pair -> live_session_for d (access_token pair).
Proof.
  intros (s & sessions & log & em & t & Hs & Hj & _ & Hr & _).
  exists s. rewrite Hs. split; [|done]. apply elem_of_app. right. by left.
Qed.

Lemma _create_session_issued (svc : AuthenticationService) (uid : nat) (em : string)
    (md : AuthCredentials) (w w' : World) (pair : TokenPair) :
  _create_session svc uid em md w = (inl pair, w') -> issued (database w') pair.
Proof.
  intros Hrun. apply _create_session_inl in Hrun as (s & Hs & Hu & Hj & Hrj & Hr & Hlog & _).
  exists s, (auth_sessions (database w)), (auth_audit_log (database w)), em, (now w).
  by rewrite Hu.
Qed.

(** C2 (as the code has it). Whenever [authenticate_user] or
    [register_user] returns a TokenPair, the session row with the access
    token's [jti] and [revoked = false] has been written, followed by
    the [tokens_issued] audit record; so when either write raises, no
    TokenPair is returned. *)
Theorem returned_pair_has_session (svc : AuthenticationService) (name : string)
    (credentials : AuthCredentials) (prof : gmap string (list string))
    (w w' : World) (r : AuthResult) (pair : TokenPair) :
  authenticate_user svc name credentials w = (inl (r, Some pair), w')
  \/ register_user svc name credentials prof w = (inl (r, Some pair), w') ->
  issued (database w') pair
  /\ live_session_for (database w') (access_token pair).
Proof.
  intros Hrun.
  assert (Hi : issued (database w') pair); [|by auto using issued_live].
  destruct Hrun as [Hrun | Hrun].
  - unfold authenticate_user in Hrun.
    apply try_except_inl in Hrun as [Hrun | (e & w1 & _ & Hrun)]; [|done].
    destruct (providers svc !! name) as [provider|]; [|done].
    apply bind_inl in Hrun as (result & w1 & _ & Hrun).
    destruct (negb (r_success result)); [done|].
    apply bind_inl in Hrun as (tokens & w2 & Hcs & Hrun).
    injection Hrun as <- <- <-. by eapply _create_session_issued.
  - unfold register_user in Hrun.
    apply try_except_inl in Hrun as [Hrun | (e & w1 & _ & Hrun)]; [|done].
    destruct (providers svc !! name) as [provider|]; [|done].
    apply bind_inl in Hrun as (result & w1 & _ & Hrun).
    destruct (negb (r_success result)); [done|].
    destruct (negb (requires_verification result)); [|done].
    apply bind_inl in Hrun as (tokens & w2 & Hcs & Hrun).
    injection Hrun as <- <- <-. by eapply _create_session_issued.
Qed.

(** A token just generated validates, when its lifetime is positive
    and outlasts the offset of the local clock. *)
Lemma validate_fresh_token (tm : TokenManager) (life : Z) (ty : TokenType)
    (uid : nat) (em : string) (w w1 : World) (tok : Token) :
  generate_token tm life ty uid em w = (inl tok, w1) ->
  1 <= life -> 1 <= life + tz_offset w ->
  forall w2, now w2 = now w -> tz_offset w2 = tz_offset w ->
    validate_token tm tok ty w2 = (inl (Some (payload tok)), w2).
Proof.
  rewrite generate_token_run. intros [= <- <-] Hlife Htz w2 Hnow Hz.
  unfold validate_token, jwt_decode, timestamp_us. cbn [signed_with payload exp type].
  rewrite String.eqb_refl. cbn [negb]. rewrite Hnow, Hz.
  unfold PyTime.timedelta_seconds, PyTime.US_PER_SECOND.
  pose proof (Z.div_mod (now w) 1000000 ltac:(lia)) as Hdm.
  pose proof (Z.mod_pos_bound (now w) 1000000 ltac:(lia)) as Hmb.
  destruct (_ <=? now w) eqn:E1; [apply Z.leb_le in E1; lia|].
  rewrite bool_decide_eq_true_2 by done. cbn [negb].
  destruct (_ <? _) eqn:E2; [apply Z.ltb_lt in E2; cbn [exp] in E2; lia|]. done.
Qed.

(** With the store answering, positive lifetimes and an unused [jti],
    [_create_session] returns a pair. *)
Lemma _create_session_returns (svc : AuthenticationService) (uid : nat) (em : string)
    (md : AuthCredentials) (w : World) :
  no_faults w ->
  1 <= access_token_expiry (token_manager svc) ->
  1 <= access_token_expiry (token_manager svc) + tz_offset w ->
  1 <= refresh_token_expiry (token_manager svc) ->
  1 <= refresh_token_expiry (token_manager svc) + tz_offset w ->
  (forall s, s ∈ auth_sessions (database w) ->
             access_token_jti s <> token_hex w (drawn w)) ->
  exists pair w', _create_session svc uid em md w = (inl pair, w').
Proof.
  intros Hf Ha Haz Hr Hrz Hfresh.
  unfold _create_session, generate_access_token, generate_refresh_token.
  unfold mbind at 1, M_bind at 1.
  destruct (generate_token _ _ ACCESS uid em w) as [r1 w1] eqn:E1.
  pose proof E1 as E1'. rewrite generate_token_run in E1'. injection E1' as <- <-.
  unfold mbind at 1, M_bind at 1.
  destruct (generate_token _ _ REFRESH uid em (bump w)) as [r2 w2] eqn:E2.
  pose proof E2 as E2'. rewrite generate_token_run in E2'. injection E2' as <- <-.
  unfold mbind at 1, M_bind at 1.
  rewrite (validate_fresh_token _ _ _ _ _ _ _ _ E1 Ha Haz) by done.
  unfold mbind at 1, M_bind at 1.
  rewrite (validate_fresh_token _ _ _ _ _ _ _ _ E2 Hr Hrz) by done.
  unfold mbind, M_bind.
  rewrite get_client_ok by done.
  unfold utcnow, fromtimestamp, sessions_insert_one.
  rewrite store_op_ok by (by apply no_faults_pop).
  cbn [payload jti access_token_jti database pop bump with_faults].
  destruct (existsb _ _) eqn:Ex.
  { apply existsb_exists in Ex as (s & Hin & Heq). apply String.eqb_eq in Heq.
    destruct (Hfresh s); [by apply list_elem_of_In|done]. }
  cbn [fst snd]. rewrite audit_insert_one_ok; [by eauto|].
  apply no_faults_with_database, no_faults_pop. by apply no_faults_pop.
Qed.

(** When the insert of the session row raises, session creation raises
    and leaves the store as it was. *)
Lemma _create_session_write_fails (svc : AuthenticationService) (uid : nat) (em : string)
    (md : AuthCredentials) (w : World) (fs : list bool) :
  faults w = false :: true :: fs ->
  1 <= access_token_expiry (token_manager svc) ->
  1 <= access_token_expiry (token_manager svc) + tz_offset w ->
  1 <= refresh_token_expiry (token_manager svc) ->
  1 <= refresh_token_expiry (token_manager svc) + tz_offset w ->
  exists w', _create_session svc uid em md w = (inr PyMongoError, w')
             /\ database w' = database w.
Proof.
  intros Hf Ha Haz Hr Hrz. eexists. split.
  2:{ instantiate (1 := with_faults (bump (bump w)) fs). reflexivity. }
  unfold _create_session, generate_access_token, generate_refresh_token.
  unfold mbind at 1, M_bind at 1.
  destruct (generate_token _ _ ACCESS uid em w) as [r1 w1] eqn:E1.
  pose proof E1 as E1'. rewrite generate_token_run in E1'. injection E1' as <- <-.
  unfold mbind at 1, M_bind at 1.
  destruct (generate_token _ _ REFRESH uid em (bump w)) as [r2 w2] eqn:E2.
  pose proof E2 as E2'. rewrite generate_token_run in E2'. injection E2' as <- <-.
  unfold mbind at 1, M_bind at 1.
  rewrite (validate_fresh_token _ _ _ _ _ _ _ _ E1 Ha Haz) by done.
  unfold mbind at 1, M_bind at 1.
  rewrite (validate_fresh_token _ _ _ _ _ _ _ _ E2 Hr Hrz) by done.
  unfold mbind, M_bind, get_client, utcnow, fromtimestamp, sessions_insert_one.
  rewrite (store_op_pass _ (bump (bump w)) (true :: fs)) by done.
  cbn [fst snd]. by rewrite (store_op_fault _ _ fs).
Qed.

(** When session creation raises after a successful authentication, the
    handler raises in its turn: the caller gets [NameError] and no
    pair. *)
Lemma no_pair_when_session_creation_raises (svc : AuthenticationService)
    (name : string) (credentials : AuthCredentials) (provider : AuthProvider)
    (result : AuthResult) (w w1 w2 : World) (e : Exn) :
  providers svc !! name = Some provider ->
  provider_authenticate provider credentials w = (inl result, w1) ->
  r_success result = true ->
  _create_session svc (default 0%nat (r_user_id result))
    (default "" (r_email result)) credentials w1 = (inr e, w2) ->
  authenticate_user svc name credentials w = (inr (NameError "AuthResult"), w2).
Proof.
  intros Hp Hauth Hok Hcs. unfold authenticate_user, try_except, mbind, M_bind.
  rewrite Hp, Hauth, Hok. cbn [negb]. by rewrite Hcs.
Qed.

End OAuthClaims.

Section OAuthExamples.
Import Store Config Providers OAuth.
Local Open Scope Z_scope.

Lemma returned_pair_has_session_witness :
  exists r pair,
    bob_login.1 = inl (r, Some pair)
    /\ live_session_for (database bob_login.2) (access_token pair).
Proof.
  assert (E : exists r pair, bob_login = (inl (r, Some pair), bob_login.2)).
  { vm_compute. eexists _, _. reflexivity. }
  destruct E as (r & pair & E). exists r, pair. split; [by rewrite E|].
  apply (returned_pair_has_session (@service example_bcrypt (defaults "k")) "email"
           (bob_tries "Correct-Horse-9!") ∅ (world_with (bob 0 None true) 0)
           bob_login.2 r pair).
  left. exact E.
Defined.

(** C2 (as stated) fails: the two inserts are separate writes.  When
    the audit insert raises, no pair is returned and no [tokens_issued]
    record exists, yet the session row stays in the store, not
    revoked. *)
Lemma session_row_without_audit_record :
  audit_write_fails.1 = inr PyMongoError
  /\ auth_audit_log (database audit_write_fails.2) = []
  /\ (revoked <$> auth_sessions (database audit_write_fails.2)) = [false]
  /\ (access_token_jti <$> auth_sessions (database audit_write_fails.2)) = ["5f"].
Proof. by vm_compute. Qed.

End OAuthExamples.

(** ** Profile-aware cache *)

Section CacheClaims.
Import PyStr Cache.
Local Open Scope Z_scope.

(** [sorted] sees only the multiset of its argument. *)
Lemma sorted_Permutation (l l' : list string) : l ≡ₚ l' -> sorted l = sorted l'.
Proof.
  intros Hp. unfold sorted.
  apply (Sorted_unique String.le); [apply Sorted_merge_sort, _ ..|].
  by rewrite !merge_sort_Permutation.
Qed.

Lemma sorted_field_same (p p' : profile) (key : string) :
  option_Forall2 (≡ₚ) (field_items p key) (field_items p' key) ->
  sorted_field p key = sorted_field p' key.
Proof.
  unfold sorted_field, field_items. intros [l l' Hp|]; cbn; [|done].
  f_equal. by apply sorted_Permutation.
Qed.

Lemma substring_length (n : nat) (s : string) :
  (n <= String.length s)%nat -> String.length (String.substring 0 n s) = n.
Proof.
  revert s. induction n as [|n IH]; intros [|c s] Hn; cbn in *; try done; try lia.
  rewrite IH; lia.
Qed.

Lemma hexdigest_length (s : string) : String.length (Sha256.hexdigest s) = 64%nat.
Proof. reflexivity. Qed.

Lemma nibble_is_hex (x i : N) : is_hex (Sha256.nibble x i) = true.
Proof.
  unfold Sha256.nibble.
  assert (Hn : (N.land (N.shiftr x (4 * i)) 15 < 16)%N).
  { change 15%N with (N.ones 4). rewrite N.land_ones. by apply N.mod_lt. }
  rewrite <- (N2Nat.id (N.land (N.shiftr x (4 * i)) 15)).
  assert (Hk : (N.to_nat (N.land (N.shiftr x (4 * i)) 15) < 16)%nat) by lia.
  revert Hk. generalize (N.to_nat (N.land (N.shiftr x (4 * i)) 15)). intros k Hk.
  do 16 (destruct k as [|k]; [reflexivity|]). lia.
Qed.

(** A fingerprint is made of 16 hexadecimal digits. *)
Lemma generate_profile_hash_hex16 (p : profile) (h : string) :
  generate_profile_hash p = Some h ->
  String.length h = 16%nat /\ all is_hex h = true.
Proof.
  unfold generate_profile_hash. intros Hgen.
  destruct (sorted_field p "allergies"); [|done].
  destruct (sorted_field p "diet_types"); [|done].
  destruct (sorted_field p "cultural_restrictions"); [|done].
  cbn [mbind option_bind] in Hgen. injection Hgen as <-. unfold prefix. split.
  - apply substring_length. rewrite hexdigest_length. lia.
  - unfold Sha256.hexdigest, Sha256.hex8. cbn [String.substring all].
    by rewrite !nibble_is_hex.
Qed.

(** C10 (as the code has it). The fingerprint is a function of the
    multisets of values of [allergies], [diet_types] and
    [cultural_restrictions]: profiles that agree on them up to the order
    of elements, whatever their other fields, have the same fingerprint,
    of 16 hexadecimal characters.  Their cache keys, for any image and
    mode, are the same exactly when both profiles are the empty
    dictionary or neither is: for the empty dictionary the key carries
    no fingerprint. *)
Theorem generate_profile_hash_multisets (p p' : profile) :
  same_fingerprint_fields p p' ->
  generate_profile_hash p = generate_profile_hash p'
  /\ (forall h, generate_profile_hash p = Some h ->
                String.length h = 16%nat /\ all is_hex h = true)
  /\ (forall image_hash mode_ : string,
        get_cache_key image_hash mode_ (Some p)
        = get_cache_key image_hash mode_ (Some p')
        <-> (p = ∅ <-> p' = ∅)).
Proof.
  intros Hsame.
  assert (Hh : generate_profile_hash p = generate_profile_hash p').
  { unfold generate_profile_hash.
    rewrite (sorted_field_same p p' "allergies"),
            (sorted_field_same p p' "diet_types"),
            (sorted_field_same p p' "cultural_restrictions");
      [done|apply Hsame; unfold FINGERPRINT_FIELDS; set_solver ..]. }
  split; [done|]. split; [apply generate_profile_hash_hex16|].
  intros image_hash mode_. unfold get_cache_key, given.
  destruct (decide (p = ∅)) as [Hp|Hp], (decide (p' = ∅)) as [Hp'|Hp'].
  - rewrite !bool_decide_eq_true_2 by done. tauto.
  - rewrite bool_decide_eq_true_2, bool_decide_eq_false_2 by done.
    cbv iota. rewrite <- Hh.
    split; [|tauto]. intros Hkey. exfalso.
    destruct (generate_profile_hash p) as [h|]; [|done].
    cbn [mbind option_bind] in Hkey. injection Hkey as Hkey.
    apply (f_equal String.length) in Hkey. rewrite !string_length_app in Hkey.
    cbn [String.length] in Hkey. lia.
  - rewrite bool_decide_eq_false_2, bool_decide_eq_true_2 by done.
    cbv iota.
    split; [|tauto]. intros Hkey. exfalso.
    destruct (generate_profile_hash p) as [h|]; [|done].
    cbn [mbind option_bind] in Hkey. injection Hkey as Hkey.
    apply (f_equal String.length) in Hkey. rewrite !string_length_app in Hkey.
    cbn [String.length] in Hkey. lia.
  - rewrite !bool_decide_eq_false_2 by done. cbv iota. rewrite Hh. tauto.
Qed.

(** Reordering the elements of a fingerprint field. *)
Lemma same_fields_reorder (p : profile) (key : string) (l l' : list string) :
  p !! key = Some (PList l) -> l ≡ₚ l' ->
  same_fingerprint_fields p (<[key := PList l']> p).
Proof.
  intros Hk Hp k _. unfold field_items.
  destruct (decide (k = key)) as [->|Hne].
  - rewrite lookup_insert_eq, Hk. by constructor.
  - rewrite lookup_insert_ne by done.
    destruct (iterate _); by constructor.
Qed.

(** Setting any field outside the fingerprint. *)
Lemma same_fields_other (p : profile) (key : string) (v : pvalue) :
  key ∉ FINGERPRINT_FIELDS -> same_fingerprint_fields p (<[key := v]> p).
Proof.
  intros Hk k Hin. unfold field_items.
  rewrite lookup_insert_ne by (intros ->; done).
  destruct (iterate _); by constructor.
Qed.

End CacheClaims.

Section CacheExamples.
Import PyStr Cache.
Local Open Scope Z_scope.

Lemma profile_a_b_same : same_fingerprint_fields profile_a profile_b.
Proof.
  intros key Hin. unfold FINGERPRINT_FIELDS in Hin.
  apply elem_of_cons in Hin as [->|Hin]; [constructor; apply Permutation_swap|].
  apply elem_of_cons in Hin as [->|Hin]; [by constructor|].
  apply elem_of_cons in Hin as [->|Hin]; [by constructor|].
  by apply elem_of_nil in Hin.
Qed.

Lemma generate_profile_hash_multisets_witness :
  same_fingerprint_fields profile_a profile_b
  /\ generate_profile_hash profile_a = generate_profile_hash profile_b
  /\ generate_profile_hash profile_a = Some "c262d6eed1defff1"
  /\ get_cache_key "ab" "recipes" (Some profile_a)
     = get_cache_key "ab" "recipes" (Some profile_b).
Proof.
  destruct (generate_profile_hash_multisets profile_a profile_b profile_a_b_same)
    as (Hh & _ & Hkey).
  split; [exact profile_a_b_same|]. split; [exact Hh|]. split; [by vm_compute|].
  assert (Ha : profile_a <> ∅) by apply insert_non_empty.
  assert (Hb : profile_b <> ∅) by apply insert_non_empty.
  apply Hkey. tauto.
Defined.

(** C10 (as stated) fails for the cache key: the empty profile and a
    profile that only carries a name have the same fingerprint fields
    and the same fingerprint, but not the same cache key. *)
Lemma keys_differ_from_empty :
  same_fingerprint_fields ∅ named_only
  /\ generate_profile_hash ∅ = generate_profile_hash named_only
  /\ get_cache_key "ab" "recipes" (Some ∅) = Some "ab_recipes"
  /\ get_cache_key "ab" "recipes" (Some named_only)
     = Some "ab_recipes_f56195c81e871164".
Proof.
  split; [|by vm_compute].
  intros key Hin. unfold FINGERPRINT_FIELDS in Hin.
  apply elem_of_cons in Hin as [->|Hin]; [by constructor|].
  apply elem_of_cons in Hin as [->|Hin]; [by constructor|].
  apply elem_of_cons in Hin as [->|Hin]; [by constructor|].
  by apply elem_of_nil in Hin.
Qed.

End CacheExamples.

Section CacheLookupClaims.
Import PyStr Cache.
Local Open Scope Z_scope.



Lemma generate_profile_hash_nonempty (p : profile) (h : string) :
  generate_profile_hash p = Some h -> h <> "".
Proof.
  intros Hh ->. by destruct (generate_profile_hash_hex16 p "" Hh).
Qed.

Lemma check_entry_hit (c c' : ProfileAwareCacheManager) (cache_key : string)
    (user_profile : option profile) (now : Z) (data : Entry) (r : string) :
  check_entry c cache_key user_profile now data = (Hit r, c') ->
  servable c user_profile now data
  /\ response data = Some r /\ c' = remember c cache_key r.
Proof.
  unfold check_entry, servable.
  destruct (default false (invalidated data)) eqn:Ei; [done|].
  destruct (cached_at data) as [at_|] eqn:Ea; [|done].
  destruct (_ <? now - at_) eqn:Ettl; [done|]. apply Z.ltb_ge in Ettl.
  destruct (given user_profile) as [p|] eqn:Eg.
  - destruct (generate_profile_hash p) as [h|] eqn:Eh; [|done].
    destruct (String.eqb h _) eqn:Ev; [|done]. apply String.eqb_eq in Ev.
    destruct (response data) as [r'|] eqn:Er; [|done].
    intros [= -> <-]. repeat split; [by eauto|].
    intros p' -> Hne. unfold given in Eg.
    rewrite bool_decide_eq_false_2 in Eg by done. injection Eg as <-. rewrite Eh.
    destruct (profile_version data) as [v|]; cbn in Ev; [by subst|].
    by destruct (generate_profile_hash_nonempty p' h Eh).
  - destruct (response data) as [r'|] eqn:Er; [|done].
    intros [= -> <-]. repeat split; [by eauto|].
    intros p' -> Hne. unfold given in Eg.
    by rewrite bool_decide_eq_false_2 in Eg by done.
Qed.

(** C3 (as the code has it). A hit comes from one of two tiers.  From
    the in-memory tier it is whatever the map holds under the key, with
    no check of age, fingerprint or invalidation.  From the on-disk tier
    it is returned only if the entry is not marked invalidated, its age
    is at most the TTL and, when a profile other than the empty
    dictionary is supplied, its stored fingerprint is the fingerprint of
    that profile. *)
Theorem hit_tiers (c c' : ProfileAwareCacheManager) (image_hash mode_ : string)
    (user_profile : option profile) (now : Z) (r : string) :
  get_cached_response c image_hash mode_ user_profile now = (Hit r, c') ->
  exists cache_key,
    get_cache_key image_hash mode_ user_profile = Some cache_key
    /\ ((memory_cache c !! cache_key = Some r /\ c' = c)
        \/ (memory_cache c !! cache_key = None
            /\ exists data,
                 disk c !! file_of cache_key = Some (Json data)
                 /\ servable c user_profile now data
                 /\ response data = Some r
                 /\ c' = remember c cache_key r)).
Proof.
  unfold get_cached_response.
  destruct (get_cache_key image_hash mode_ user_profile) as [cache_key|]; [|done].
  intros Hrun. exists cache_key. split; [done|].
  destruct (memory_cache c !! cache_key) as [r'|] eqn:Em.
  { injection Hrun as -> <-. by left. }
  right. split; [done|].
  destruct (disk c !! file_of cache_key) as [[data|]|] eqn:Ed; [|done..].
  exists data. split; [done|]. by apply check_entry_hit.
Qed.

End CacheLookupClaims.

Section CacheLookupExamples.
Import PyStr Cache.
Local Open Scope Z_scope.

Lemma hit_tiers_witness :
  exists cache_key,
    get_cache_key "ab" "recipes" (Some (allergic ["nuts"])) = Some cache_key
    /\ ((memory_cache cold !! cache_key = Some "R"
         /\ remember cold "ab_recipes_d095660830221994" "R" = cold)
        \/ (memory_cache cold !! cache_key = None
            /\ exists data,
                 disk cold !! file_of cache_key = Some (Json data)
                 /\ servable cold (Some (allergic ["nuts"]))
                             (PyTime.timedelta_hours 11) data
                 /\ response data = Some "R"
                 /\ remember cold "ab_recipes_d095660830221994" "R"
                    = remember cold cache_key "R")).
Proof.
  apply (hit_tiers cold (remember cold "ab_recipes_d095660830221994" "R")
           "ab" "recipes" (Some (allergic ["nuts"])) (PyTime.timedelta_hours 11) "R").
  by vm_compute.
Defined.

(** C3 (as stated) fails for the in-memory tier: thirteen hours after
    the entry was cached with a TTL of twelve, the manager that cached
    it still returns it. *)
Lemma memory_hit_past_ttl :
  disk warm !! "ab_recipes_d095660830221994.json"
  = Some (Json (mkEntry (Some 0) (Some "R") (Some "recipes") (Some false)
                        (Some "d095660830221994")))
  /\ PyTime.timedelta_hours DEFAULT_TTL_HOURS < PyTime.timedelta_hours 13 - 0
  /\ (get_cached_response warm "ab" "recipes" (Some (allergic ["nuts"]))
        (PyTime.timedelta_hours 13)).1 = Hit "R"
  /\ (get_cached_response cold "ab" "recipes" (Some (allergic ["nuts"]))
        (PyTime.timedelta_hours 13)).1 = Miss.
Proof. by vm_compute. Qed.

(** A lookup that supplies the empty profile compares no fingerprint: it
    is served, from the disk, an entry that was cached without a profile
    and stores no fingerprint, although the empty profile has one. *)
Example empty_profile_served :
  disk plain !! "ab_recipes.json"
  = Some (Json (mkEntry (Some 0) (Some "R") (Some "recipes") (Some false) None))
  /\ generate_profile_hash ∅ = Some "f56195c81e871164"
  /\ (get_cached_response plain "ab" "recipes" (Some ∅) 1).1 = Hit "R".
Proof. by vm_compute. Qed.

End CacheLookupExamples.

Section CacheInvalidationClaims.
Import PyStr Cache.
Local Open Scope Z_scope.

Lemma rewritten_insert_counted (writable : string -> bool) (m : gmap string File)
    (i : string) (x : File) :
  m !! i = None -> is_rewritten writable i x = true ->
  size (rewritten writable (<[i := x]> m)) = S (size (rewritten writable m)).
Proof.
  intros Hi Hx. unfold rewritten. rewrite map_filter_insert_True by done.
  apply map_size_insert_None. apply map_lookup_filter_None. by left.
Qed.

Lemma rewritten_insert_skipped (writable : string -> bool) (m : gmap string File)
    (i : string) (x : File) :
  m !! i = None -> is_rewritten writable i x = false ->
  rewritten writable (<[i := x]> m) = rewritten writable m.
Proof.
  intros Hi Hx. unfold rewritten.
  rewrite map_filter_insert_False by (cbn; by rewrite Hx).
  by rewrite delete_id.
Qed.

Lemma invalidate_step_skipped (writable : string -> bool) (i : string) (x : File)
    (acc : Z * gmap string File) :
  is_rewritten writable i x = false ->
  invalidate_step writable i x acc = acc /\ invalidated_file writable i x = x.
Proof.
  unfold is_rewritten, is_entry, invalidate_step, invalidated_file.
  destruct (is_json_name i); [|done]. destruct x; [|by destruct (writable i)].
  by destruct (writable i).
Qed.

Lemma invalidate_step_counted (writable : string -> bool) (i : string) (x : File)
    (acc : Z * gmap string File) :
  is_rewritten writable i x = true ->
  exists data,
    x = Json data
    /\ invalidate_step writable i x acc
       = (acc.1 + 1, <[i := Json (mark_invalidated data)]> acc.2)
    /\ invalidated_file writable i x = Json (mark_invalidated data).
Proof.
  unfold is_rewritten, is_entry, invalidate_step, invalidated_file.
  destruct (is_json_name i); [|done]. destruct x as [data|]; [|done].
  destruct (writable i); [|done]. by eauto.
Qed.

(** The loop over any part [m] of the directory [d0]: the count is the
    number of entries of [m] that can be written, and these are
    rewritten. *)
Lemma invalidate_fold (writable : string -> bool) (d0 m : gmap string File) :
  m ⊆ d0 ->
  (map_fold (invalidate_step writable) (0, d0) m).1
  = Z.of_nat (size (rewritten writable m))
  /\ forall name,
       (map_fold (invalidate_step writable) (0, d0) m).2 !! name
       = match m !! name with
         | Some f => Some (invalidated_file writable name f)
         | None => d0 !! name
         end.
Proof.
  apply (map_fold_weak_ind
           (fun r m => m ⊆ d0 ->
                       r.1 = Z.of_nat (size (rewritten writable m))
                       /\ forall name,
                            r.2 !! name
                            = match m !! name with
                              | Some f => Some (invalidated_file writable name f)
                              | None => d0 !! name
                              end)); clear m.
  - intros _. split; [done|]. intros name. by rewrite lookup_empty.
  - intros i x m [n d] Hi IH Hsub.
    assert (Hx : d0 !! i = Some x).
    { eapply lookup_weaken; [|exact Hsub]. by rewrite lookup_insert_eq. }
    destruct IH as [Hn Hd].
    { etrans; [|exact Hsub]. by apply insert_subseteq. }
    cbn [fst snd] in Hn, Hd.
    destruct (is_rewritten writable i x) eqn:Ee.
    + destruct (invalidate_step_counted writable i x (n, d) Ee)
        as (data & -> & -> & Hinv).
      cbn [fst snd]. split.
      * rewrite rewritten_insert_counted by done. lia.
      * intros name. destruct (decide (name = i)) as [->|Hne].
        -- by rewrite !lookup_insert_eq, Hinv.
        -- rewrite !lookup_insert_ne by done. apply Hd.
    + destruct (invalidate_step_skipped writable i x (n, d) Ee) as [-> Hinv].
      rewrite rewritten_insert_skipped by done.
      cbn [fst snd]. split; [done|].
      intros name. destruct (decide (name = i)) as [->|Hne].
      * by rewrite lookup_insert_eq, Hinv, Hd, Hi.
      * rewrite lookup_insert_ne by done. apply Hd.
Qed.

Lemma invalidate_run (c : ProfileAwareCacheManager) (username : string)
    (writable : string -> bool) :
  (invalidate_cache_for_user c username writable).1
  = Z.of_nat (size (rewritten writable (disk c)))
  /\ memory_cache (invalidate_cache_for_user c username writable).2 = ∅
  /\ ttl_hours (invalidate_cache_for_user c username writable).2 = ttl_hours c
  /\ forall name,
       disk (invalidate_cache_for_user c username writable).2 !! name
       = invalidated_file writable name <$> disk c !! name.
Proof.
  unfold invalidate_cache_for_user.
  destruct (invalidate_fold writable (disk c) (disk c)) as [Hn Hd]; [done|].
  destruct (map_fold (invalidate_step writable) (0, disk c) (disk c))
    as [count disk'].
  cbn [fst snd] in *. repeat split; [done|].
  intros name. rewrite Hd. by destruct (disk c !! name).
Qed.




End CacheInvalidationClaims.

(** ** Cache statistics and clean-up *)

Section CacheMaintenanceFacts.
Import PyStr Cache CacheMaintenance.
Local Open Scope Z_scope.

Lemma size_filter_insert (P : string * File -> Prop) `{!forall kv, Decision (P kv)}
    (m : gmap string File) (i : string) (x : File) :
  m !! i = None ->
  size (filter P (<[i := x]> m))
  = ((if decide (P (i, x)) then 1 else 0) + size (filter P m))%nat.
Proof.
  intros Hi. destruct (decide (P (i, x))) as [Hp|Hp].
  - rewrite map_filter_insert_True by done.
    rewrite map_size_insert_None; [done|].
    apply map_lookup_filter_None. by left.
  - rewrite map_filter_insert_False by done. by rewrite delete_id.
Qed.

Lemma cleanup_step_doomed (c : ProfileAwareCacheManager) (clock : string -> Z)
    (os_remove : string -> bool) (i : string) (x : File)
    (acc : Z * gmap string File) :
  cleanup_step c clock os_remove i x acc
  = if doomed c clock os_remove i x then (acc.1 + 1, delete i acc.2) else acc.
Proof.
  unfold cleanup_step, doomed, verdict.
  destruct (is_json_name i); [|done]. cbn [negb andb].
  destruct x as [data|]; [|done].
  destruct (default false (invalidated data)).
  { cbn. by destruct (os_remove i). }
  destruct (cached_at data) as [at_|]; [|done].
  destruct (_ <? _); cbn; [by destruct (os_remove i)|done].
Qed.

(** The loop over any part [m] of the directory [d0]. *)
Lemma cleanup_fold (c : ProfileAwareCacheManager) (clock : string -> Z)
    (os_remove : string -> bool) (d0 m : gmap string File) :
  m ⊆ d0 ->
  (map_fold (cleanup_step c clock os_remove) (0, d0) m).1
  = Z.of_nat (size (filter (fun kv => doomed c clock os_remove kv.1 kv.2 = true) m))
  /\ forall name,
       (map_fold (cleanup_step c clock os_remove) (0, d0) m).2 !! name
       = match m !! name with
         | Some f => if doomed c clock os_remove name f then None else Some f
         | None => d0 !! name
         end.
Proof.
  apply (map_fold_weak_ind
           (fun r m =>
              m ⊆ d0 ->
              r.1 = Z.of_nat (size (filter
                       (fun kv => doomed c clock os_remove kv.1 kv.2 = true) m))
              /\ forall name,
                   r.2 !! name
                   = match m !! name with
                     | Some f => if doomed c clock os_remove name f
                                 then None else Some f
                     | None => d0 !! name
                     end)); clear m.
  - intros _. split; [done|]. intros name. by rewrite lookup_empty.
  - intros i x m [n d] Hi IH Hsub.
    assert (Hx : d0 !! i = Some x).
    { eapply lookup_weaken; [|exact Hsub]. by rewrite lookup_insert_eq. }
    destruct IH as [Hn Hd].
    { etrans; [|exact Hsub]. by apply insert_subseteq. }
    cbn [fst snd] in Hn, Hd. rewrite cleanup_step_doomed. cbn [fst snd].
    rewrite size_filter_insert by done. cbn [fst snd].
    destruct (doomed c clock os_remove i x) eqn:Ed.
    + rewrite decide_True by done. cbn [fst snd]. split; [lia|].
      intros name. destruct (decide (name = i)) as [->|Hne].
      * by rewrite lookup_delete_eq, lookup_insert_eq, Ed.
      * rewrite lookup_delete_ne, lookup_insert_ne by done. apply Hd.
    + rewrite decide_False by done. split; [by rewrite Hn|].
      intros name. destruct (decide (name = i)) as [->|Hne].
      * by rewrite lookup_insert_eq, Ed, Hd, Hi.
      * rewrite lookup_insert_ne by done. apply Hd.
Qed.

Lemma cleanup_run (c : ProfileAwareCacheManager) (clock : string -> Z)
    (os_remove : string -> bool) :
  (cleanup_expired c clock os_remove).1
  = Z.of_nat (size (filter (fun kv => doomed c clock os_remove kv.1 kv.2 = true)
                           (disk c)))
  /\ memory_cache (cleanup_expired c clock os_remove).2 = memory_cache c
  /\ ttl_hours (cleanup_expired c clock os_remove).2 = ttl_hours c
  /\ disk (cleanup_expired c clock os_remove).2
     = filter (fun kv => doomed c clock os_remove kv.1 kv.2 = false) (disk c).
Proof.
  unfold cleanup_expired.
  destruct (cleanup_fold c clock os_remove (disk c) (disk c)) as [Hn Hd]; [done|].
  destruct (map_fold _ _ _) as [count disk']. cbn [fst snd] in *.
  repeat split; [done|]. apply map_eq. intros name. rewrite Hd.
  destruct (disk c !! name) as [f|] eqn:Ef.
  - destruct (doomed c clock os_remove name f) eqn:Ed; symmetry.
    + apply map_lookup_filter_None. right. intros f' Hf'. cbn. congruence.
    + apply map_lookup_filter_Some. by split.
  - symmetry. apply map_lookup_filter_None. by left.
Qed.

Lemma size_filter_split (P : string * File -> Prop) `{!forall kv, Decision (P kv)}
    (m : gmap string File) :
  size m = (size (filter P m) + size (filter (fun kv => ~ P kv) m))%nat.
Proof.
  induction m as [|i x m Hi IH] using map_ind; [done|].
  rewrite map_size_insert_None by done.
  rewrite !size_filter_insert by done.
  destruct (decide (P (i, x))).
  - rewrite decide_False by tauto. lia.
  - rewrite decide_True by tauto. lia.
Qed.

Lemma cleanup_disk_and_count (c : ProfileAwareCacheManager) (clock : string -> Z)
    (os_remove : string -> bool) :
  disk (cleanup_expired c clock os_remove).2
  = filter (fun kv => doomed c clock os_remove kv.1 kv.2 = false) (disk c)
  /\ (cleanup_expired c clock os_remove).1
     = Z.of_nat (size (disk c))
       - Z.of_nat (size (disk (cleanup_expired c clock os_remove).2)).
Proof.
  destruct (cleanup_run c clock os_remove) as (Hn & Hm & _ & Hd).
  split; [done|]. rewrite Hn, Hd.
  rewrite (size_filter_split
             (fun kv => doomed c clock os_remove kv.1 kv.2 = true) (disk c)).
  assert (E : filter (fun kv => doomed c clock os_remove kv.1 kv.2 = false) (disk c)
              = filter (fun kv => ~ doomed c clock os_remove kv.1 kv.2 = true)
                       (disk c)).
  { apply map_filter_ext. intros i x _. cbn.
    by destruct (doomed c clock os_remove i x). }
  rewrite E. lia.
Qed.





End CacheMaintenanceFacts.

Section CacheMaintenanceClaims.
Import PyStr Cache CacheMaintenance.
Local Open Scope Z_scope.

(** X1. [cleanup_expired] deletes exactly the [.json] dictionaries that
    are marked invalidated or older than the TTL at the moment they are
    examined (and that [os.remove] can delete), and returns their number.
    Every other file is left as it was, so a dictionary that stays and
    could have been deleted is neither invalidated nor expired; the
    in-memory tier is not touched. *)
Theorem cleanup_expired_removes_stale (c : ProfileAwareCacheManager)
    (clock : string -> Z) (os_remove : string -> bool) :
  disk (cleanup_expired c clock os_remove).2
  = filter (fun kv => doomed c clock os_remove kv.1 kv.2 = false) (disk c)
  /\ (cleanup_expired c clock os_remove).1
     = Z.of_nat (size (disk c))
       - Z.of_nat (size (disk (cleanup_expired c clock os_remove).2))
  /\ (forall name data,
        disk (cleanup_expired c clock os_remove).2 !! name = Some (Json data) ->
        is_json_name name = true -> os_remove name = true ->
        default false (invalidated data) = false
        /\ forall at_, cached_at data = Some at_ ->
                       clock name - at_ <= PyTime.timedelta_hours (ttl_hours c))
  /\ memory_cache (cleanup_expired c clock os_remove).2 = memory_cache c.
Proof.
  destruct (cleanup_run c clock os_remove) as (_ & Hm & _ & Hd).
  destruct (cleanup_disk_and_count c clock os_remove) as [_ Hcount].
  split; [done|]. split; [done|]. split; [|done].
  - intros name data Hl Hj Hr. rewrite Hd in Hl.
    apply map_lookup_filter_Some in Hl as [_ Hl]. cbn in Hl.
    unfold doomed, verdict in Hl. rewrite Hj, Hr in Hl.
    destruct (default false (invalidated data)); [done|]. split; [done|].
    intros at_ Ha. rewrite Ha in Hl.
    destruct (_ <? _) eqn:E; [done|]. by apply Z.ltb_ge in E.
Qed.


(** X3. A clean-up that follows [invalidate_cache_for_user] deletes
    every entry that the invalidation could rewrite and that [os.remove]
    can delete, and leaves the files that are no entries (another
    extension, or no dictionary) as they were.  When every file of the
    directory can be written and removed, it returns the count the
    invalidation returned and only the files that are no entries
    remain. *)
Theorem cleanup_after_invalidation (c : ProfileAwareCacheManager)
    (username : string) (writable : string -> bool) (clock : string -> Z)
    (os_remove : string -> bool) :
  let inv := invalidate_cache_for_user c username writable in
  let out := cleanup_expired inv.2 clock os_remove in
  (forall name f,
     disk c !! name = Some f -> is_rewritten writable name f = true ->
     os_remove name = true -> disk out.2 !! name = None)
  /\ (forall name f,
        disk c !! name = Some f -> is_entry name f = false ->
        disk out.2 !! name = Some f)
  /\ ((forall name, is_Some (disk c !! name) ->
                    writable name = true /\ os_remove name = true) ->
      out.1 = inv.1
      /\ disk out.2 = filter (fun kv => is_entry kv.1 kv.2 = false) (disk c)).
Proof.
  intros inv out.
  destruct (invalidate_run c username writable) as (Hn & _ & _ & Hd).
  destruct (cleanup_disk_and_count inv.2 clock os_remove) as (Hdisk & Hcount).
  fold inv in Hn, Hd. fold out in Hdisk, Hcount.
  assert (Hgone : forall name f,
            disk c !! name = Some f -> is_rewritten writable name f = true ->
            os_remove name = true -> disk out.2 !! name = None).
  { intros name f Ef Ee Hr. rewrite Hdisk.
    apply map_lookup_filter_None. right. intros f' Hf'. cbn.
    rewrite Hd, Ef in Hf'. cbn in Hf'. injection Hf' as <-.
    destruct (invalidate_step_counted writable name f (0, ∅) Ee)
      as (data & -> & _ & ->).
    unfold is_rewritten, is_entry in Ee.
    apply andb_prop in Ee as [Ee _]. apply andb_prop in Ee as [Hj _].
    unfold doomed, verdict. rewrite Hj, Hr. by cbn. }
  assert (Hkept : forall name f,
            disk c !! name = Some f -> is_entry name f = false ->
            disk out.2 !! name = Some f).
  { intros name f Ef Ee. rewrite Hdisk. apply map_lookup_filter_Some.
    assert (Hsame : invalidated_file writable name f = f).
    { apply (invalidate_step_skipped writable name f (0, ∅)).
      unfold is_rewritten. by rewrite Ee. }
    split; [by rewrite Hd, Ef; cbn; rewrite Hsame|].
    cbn. unfold doomed, is_entry, verdict in *.
    destruct (is_json_name name); [|done]. by destruct f. }
  split; [exact Hgone|]. split; [exact Hkept|]. intros Hall.
  assert (Hfilter : disk out.2
                    = filter (fun kv => is_entry kv.1 kv.2 = false) (disk c)).
  { apply map_eq. intros name.
    destruct (disk c !! name) as [f|] eqn:Ef.
    - destruct (Hall name) as [Hw Hr]; [by rewrite Ef|].
      destruct (is_entry name f) eqn:Ee.
      + rewrite (Hgone name f Ef) by (by unfold is_rewritten; rewrite ?Ee, ?Hw).
        symmetry. apply map_lookup_filter_None. right. intros f' Hf'. cbn. congruence.
      + rewrite (Hkept name f Ef Ee). symmetry. by apply map_lookup_filter_Some.
    - transitivity (@None File); [|symmetry].
      + rewrite Hdisk. apply map_lookup_filter_None. left. by rewrite Hd, Ef.
      + apply map_lookup_filter_None. by left. }
  split; [|done]. rewrite Hcount, Hfilter, Hn.
  assert (Hsize : size (disk inv.2) = size (disk c)).
  { rewrite <- !size_dom. f_equal. apply set_eq. intros name.
    rewrite !elem_of_dom, Hd. apply fmap_is_Some. }
  rewrite Hsize.
  rewrite (size_filter_split (fun kv => is_entry kv.1 kv.2 = true) (disk c)).
  assert (E : filter (fun kv => is_entry kv.1 kv.2 = false) (disk c)
              = filter (fun kv => ~ is_entry kv.1 kv.2 = true) (disk c)).
  { apply map_filter_ext. intros i x _. cbn. by destruct (is_entry i x). }
  assert (E' : rewritten writable (disk c)
               = filter (fun kv => is_entry kv.1 kv.2 = true) (disk c)).
  { apply map_filter_ext. intros i x Hi. cbn. unfold is_rewritten.
    destruct (Hall i) as [-> _]; [by rewrite Hi|]. by rewrite andb_true_r. }
  rewrite E, E'. lia.
Qed.

(** X4. What [cache_response] stores comes back: the manager that
    cached a response returns it for the same image, mode and profile, at
    any later instant; another manager opened on the same directory
    returns it as long as the age is within its TTL. *)
Theorem cache_response_round_trip (c c' : ProfileAwareCacheManager)
    (image_hash mode_ response_ : string) (user_profile : option profile)
    (now : Z) (writable ok : bool) :
  cache_response c image_hash mode_ response_ user_profile now writable
  = Some (ok, c') ->
  ok = writable
  /\ (forall now',
        get_cached_response c' image_hash mode_ user_profile now'
        = (Hit response_, c'))
  /\ (writable = true ->
      forall ttl now',
        now' - now <= PyTime.timedelta_hours ttl ->
        (get_cached_response (new ttl (disk c')) image_hash mode_ user_profile
           now').1 = Hit response_).
Proof.
  unfold cache_response.
  destruct (get_cache_key image_hash mode_ user_profile) as [cache_key|] eqn:Ek;
    [|done].
  cbn [mbind option_bind]. intros Hrun.
  assert (Hmem : memory_cache c' !! cache_key = Some response_
                 /\ ok = writable
                 /\ (writable = true ->
                     disk c' !! file_of cache_key
                     = Some (Json (mkEntry (Some now) (Some response_) (Some mode_)
                                     (Some false)
                                     (match given user_profile with
                                      | Some p => generate_profile_hash p
                                      | None => None
                                      end))))).
  { destruct writable; injection Hrun as <- <-; cbn [memory_cache disk remember];
      rewrite ?lookup_insert_eq; done. }
  destruct Hmem as (Hmem & Hok & Hdisk). split; [done|]. split.
  - intros now'. unfold get_cached_response. by rewrite Ek, Hmem.
  - intros Hw ttl now' Hage. unfold get_cached_response. rewrite Ek.
    unfold new. cbn [memory_cache disk]. rewrite lookup_empty, (Hdisk Hw).
    unfold check_entry. cbn [invalidated cached_at default profile_version
                               response ttl_hours].
    destruct (_ <? now' - now) eqn:E; [apply Z.ltb_lt in E; lia|].
    unfold get_cache_key in Ek.
    destruct (given user_profile) as [p|]; [|done].
    destruct (generate_profile_hash p) as [h|]; [|done].
    cbn [default]. by rewrite String.eqb_refl.
Qed.

End CacheMaintenanceClaims.

Section CacheMaintenanceExamples.
Import PyStr Cache CacheMaintenance.
Local Open Scope Z_scope.

Lemma cache_response_round_trip_witness :
  cache_response (new DEFAULT_TTL_HOURS ∅) "ab" "recipes" "R"
    (Some (allergic ["nuts"])) 0 true = Some (true, warm)
  /\ true = true
  /\ (forall now',
        get_cached_response warm "ab" "recipes" (Some (allergic ["nuts"])) now'
        = (Hit "R", warm))
  /\ (true = true ->
      forall ttl now',
        now' - 0 <= PyTime.timedelta_hours ttl ->
        (get_cached_response (new ttl (disk warm)) "ab" "recipes"
           (Some (allergic ["nuts"])) now').1 = Hit "R").
Proof.
  split; [by vm_compute|].
  apply (cache_response_round_trip (new DEFAULT_TTL_HOURS ∅) warm "ab" "recipes" "R"
           (Some (allergic ["nuts"])) 0 true true).
  by vm_compute.
Defined.

(** A directory with an invalidated entry, an entry cached at instant 0,
    an entry cached thirteen hours later, a dictionary without
    [cached_at], a file that is no JSON and a file of another kind; the
    clean-up and the statistics below run fourteen hours after instant 0. *)
Example cleanup_of_a_mixed_directory :
  let entry at_ inv := Json (mkEntry at_ (Some "R") (Some "recipes") inv None) in
  let c := mkCache DEFAULT_TTL_HOURS {[ "a_recipes" := "R" ]}
             {[ "a_recipes.json" := entry (Some 0) (Some true);
                "b_recipes.json" := entry (Some 0) (Some false);
                "c_recipes.json" := entry (Some (PyTime.timedelta_hours 13)) None;
                "d_recipes.json" := entry None (Some false);
                "e_recipes.json" := Garbage;
                "notes.txt" := Garbage ]} in
  let clock := fun _ : string => PyTime.timedelta_hours 14 in
  (cleanup_expired c clock (fun _ => true)).1 = 2
  /\ (fun name => bool_decide
         (is_Some (disk (cleanup_expired c clock (fun _ => true)).2 !! name)))
     <$> [ "a_recipes.json"; "b_recipes.json"; "c_recipes.json"; "d_recipes.json";
           "e_recipes.json"; "notes.txt" ]
     = [ false; false; true; true; true; true ]
  /\ get_cache_stats c clock (fun _ => 10) = mkStats 5 1 1 1 50 1.
Proof. cbv zeta. split; [by vm_compute|]. split; [|by vm_compute]. by vm_compute. Qed.

End CacheMaintenanceExamples.

(** ** The life of a session *)

(** Discharges [no_faults] after some store operations. *)
Ltac no_faults_tac :=
  repeat first [ assumption
               | apply no_faults_with_database
               | apply no_faults_pop ].

Section SessionFacts.
Import Store Config Providers OAuth Sessions.
Local Open Scope Z_scope.

(** [validate_token] accepts exactly the tokens described by [accepted],
    and leaves the world alone. *)
Lemma validate_token_Some (tm : TokenManager) (tok : Token) (ty : TokenType)
    (w w' : World) (c : TokenClaims) :
  OAuth.validate_token tm tok ty w = (inl (Some c), w') ->
  c = payload tok /\ accepted tm tok ty w /\ w' = w.
Proof.
  unfold OAuth.validate_token, jwt_decode, accepted.
  destruct (String.eqb (signed_with tok) (secret_key tm)) eqn:Ek; [|done].
  apply String.eqb_eq in Ek. cbn [negb].
  destruct (_ <=? now w) eqn:E1; [done|]. apply Z.leb_gt in E1.
  destruct (bool_decide (type (payload tok) = ty)) eqn:Et; [|done].
  apply bool_decide_eq_true in Et. cbn [negb].
  destruct (_ <? timestamp_us w (now w)) eqn:E2; [done|]. apply Z.ltb_ge in E2.
  by intros [= <- <-].
Qed.

Lemma validate_token_accepted (tm : TokenManager) (tok : Token) (ty : TokenType)
    (w : World) :
  accepted tm tok ty w ->
  OAuth.validate_token tm tok ty w = (inl (Some (payload tok)), w).
Proof.
  intros (Hk & Ht & He & Hz). unfold OAuth.validate_token, jwt_decode.
  rewrite Hk, String.eqb_refl. cbn [negb].
  destruct (_ <=? now w) eqn:E1; [apply Z.leb_le in E1; lia|].
  rewrite bool_decide_eq_true_2 by done. cbn [negb].
  destruct (_ <? timestamp_us w (now w)) eqn:E2; [apply Z.ltb_lt in E2; lia|done].
Qed.

Lemma validate_token_world (tm : TokenManager) (token : TokenString) (ty : TokenType)
    (w : World) :
  exists r, Sessions.validate_token tm token ty w = (inl r, w).
Proof.
  destruct token as [tok|text]; [|by eexists].
  cbn [Sessions.validate_token]. unfold OAuth.validate_token.
  repeat case_match; by eexists.
Qed.

(** A token generated on a host whose local clock is behind UTC by more
    than the lifetime of the token does not validate. *)
Lemma validate_token_behind_utc (tm : TokenManager) (life : Z) (ty : TokenType)
    (uid : nat) (em : string) (w w1 : World) (tok : Token) :
  generate_token tm life ty uid em w = (inl tok, w1) ->
  life < - tz_offset w ->
  forall w2, now w2 = now w -> tz_offset w2 = tz_offset w ->
    OAuth.validate_token tm tok ty w2 = (inl None, w2).
Proof.
  rewrite generate_token_run. intros [= <- <-] Hlife w2 Hnow Hz.
  unfold OAuth.validate_token, jwt_decode, timestamp_us.
  cbn [signed_with payload exp type].
  rewrite String.eqb_refl. cbn [negb]. rewrite Hnow, Hz.
  unfold PyTime.timedelta_seconds, PyTime.US_PER_SECOND.
  pose proof (Z.div_mod (now w) 1000000 ltac:(lia)) as Hdm.
  pose proof (Z.mod_pos_bound (now w) 1000000 ltac:(lia)) as Hmb.
  destruct (_ <=? now w) eqn:E1; [done|].
  rewrite bool_decide_eq_true_2 by done. cbn [negb].
  destruct (_ <? _) eqn:E2; [done|]. apply Z.ltb_ge in E2. cbn [exp] in E2. lia.
Qed.

Lemma _create_session_raises_behind_utc (svc : AuthenticationService) (uid : nat)
    (em : string) (md : AuthCredentials) (w : World) :
  access_token_expiry (token_manager svc) < - tz_offset w ->
  _create_session svc uid em md w
  = (inr (ValueError "Failed to validate newly generated tokens"), bump (bump w)).
Proof.
  intros Hlife.
  unfold _create_session, generate_access_token, generate_refresh_token.
  unfold mbind at 1, M_bind at 1.
  destruct (generate_token _ _ ACCESS uid em w) as [r1 w1] eqn:E1.
  pose proof E1 as E1'. rewrite generate_token_run in E1'. injection E1' as <- <-.
  unfold mbind at 1, M_bind at 1.
  destruct (generate_token _ _ REFRESH uid em (bump w)) as [r2 w2] eqn:E2.
  pose proof E2 as E2'. rewrite generate_token_run in E2'. injection E2' as <- <-.
  unfold mbind at 1, M_bind at 1.
  rewrite (validate_token_behind_utc _ _ _ _ _ _ _ _ E1 Hlife) by done.
  unfold mbind at 1, M_bind at 1.
  destruct (OAuth.validate_token _ _ REFRESH (bump (bump w))) as [r w3] eqn:E3.
  destruct r as [r|e].
  - apply validate_token_inv in E3 as [-> _]. by destruct r.
  - unfold OAuth.validate_token in E3. by repeat case_match.
Qed.

Lemma sessions_find_one_ok (p : Session -> bool) (w : World) :
  no_faults w ->
  sessions_find_one p w
  = (inl (list_find (fun s => p s = true) (auth_sessions (database w))), pop w).
Proof.
  intros Hf. unfold sessions_find_one. rewrite store_op_ok by done. cbn [fst snd].
  by destruct w.
Qed.

Lemma sessions_update_one_ok (id : nat) (f : Session -> Session) (w : World) :
  no_faults w ->
  sessions_update_one id f w
  = (inl tt, with_database (pop w)
               (with_sessions (database w) (alter f id (auth_sessions (database w))))).
Proof. intros Hf. unfold sessions_update_one. by rewrite store_op_ok. Qed.

(** What [validate_session] has checked and done when it returns a
    session. *)
Lemma validate_session_Some (svc : AuthenticationService) (token : TokenString)
    (w w' : World) (info : SessionInfo) :
  validate_session svc token w = (inl (Some info), w') ->
  exists (tok : Token) (s : Session),
    token = Encoded tok
    /\ accepted (token_manager svc) tok ACCESS w
    /\ auth_sessions (database w) !! session_id info = Some s
    /\ access_token_jti s = jti (payload tok)
    /\ revoked s = false
    /\ user_id info = s_user_id s
    /\ email info = tc_email (payload tok)
    /\ auth_sessions (database w')
       = alter (set_last_activity (now w)) (session_id info)
               (auth_sessions (database w))
    /\ users_v2 (database w') = users_v2 (database w)
    /\ auth_audit_log (database w') = auth_audit_log (database w).
Proof.
  unfold validate_session. intros Hrun.
  apply try_except_inl in Hrun as [Hrun | (e & w1 & _ & Hrun)]; [|done].
  apply bind_inl in Hrun as (claims & w1 & Hv & Hrun).
  destruct token as [tok|text]; [|by injection Hv as <- <-].
  cbn [Sessions.validate_token] in Hv.
  destruct claims as [claims|]; [|done].
  apply validate_token_Some in Hv as (-> & Hacc & ->).
  apply bind_inl in Hrun as ([] & w2 & Hg & Hrun).
  apply store_op_inl in Hg as (d2 & [= <-] & ->).
  apply bind_inl in Hrun as (session & w3 & Hfind & Hrun).
  apply store_op_inl in Hfind as (d3 & [= <- <-] & ->).
  cbn [database with_database pop with_faults] in Hrun.
  destruct (list_find _ _) as [[id s]|] eqn:Hl; [|done].
  apply list_find_Some in Hl as (Hid & Hp & _).
  apply andb_prop in Hp as [Hj Hr]. apply String.eqb_eq in Hj.
  apply negb_true_iff in Hr.
  apply bind_inl in Hrun as (t & w4 & Ht & Hrun). injection Ht as <- <-.
  apply bind_inl in Hrun as ([] & w5 & Hu & Hrun).
  apply store_op_inl in Hu as (d5 & [= <-] & ->).
  injection Hrun as <- <-.
  exists tok, s. split; [done|]. split; [exact Hacc|]. cbn. by repeat split.
Qed.


(** Rows with distinct [jti]s are told apart by any of them. *)
Lemma distinct_jtis_spec (d : Database) :
  distinct_jtis d ->
  (forall i k s s',
     auth_sessions d !! i = Some s -> auth_sessions d !! k = Some s' ->
     access_token_jti s = access_token_jti s' -> i = k)
  /\ (forall i k s s',
        auth_sessions d !! i = Some s -> auth_sessions d !! k = Some s' ->
        refresh_token_jti s = refresh_token_jti s' -> i = k)
  /\ (forall i k s s',
        auth_sessions d !! i = Some s -> auth_sessions d !! k = Some s' ->
        access_token_jti s <> refresh_token_jti s').
Proof.
  unfold distinct_jtis. intros Hnd.
  apply NoDup_app in Hnd as (Ha & Har & Hr). split; [|split].
  - intros i k s s' Hi Hk He.
    eapply (proj1 (NoDup_alt _) Ha i k (access_token_jti s));
      rewrite list_lookup_fmap; [by rewrite Hi|by rewrite Hk, He].
  - intros i k s s' Hi Hk He.
    eapply (proj1 (NoDup_alt _) Hr i k (refresh_token_jti s));
      rewrite list_lookup_fmap; [by rewrite Hi|by rewrite Hk, He].
  - intros i k s s' Hi Hk He. apply (Har (access_token_jti s)).
    + apply list_elem_of_fmap. exists s. split; [done|].
      by eapply list_elem_of_lookup_2.
    + rewrite He. apply list_elem_of_fmap. exists s'. split; [done|].
      by eapply list_elem_of_lookup_2.
Qed.

(** What [_create_session] has written when it returns a pair, and what
    it has checked. *)
Lemma _create_session_row (svc : AuthenticationService) (uid : nat) (em : string)
    (md : AuthCredentials) (w w' : World) (pair : TokenPair) :
  _create_session svc uid em md w = (inl pair, w') ->
  exists s : Session,
    auth_sessions (database w') = (auth_sessions (database w) ++ [s])%list
    /\ s_user_id s = uid
    /\ access_token_jti s = jti (payload (access_token pair))
    /\ refresh_token_jti s = jti (payload (OAuth.refresh_token pair))
    /\ revoked s = false
    /\ sub (payload (access_token pair)) = uid
    /\ tc_email (payload (access_token pair)) = em
    /\ accepted (token_manager svc) (access_token pair) ACCESS w
    /\ accepted (token_manager svc) (OAuth.refresh_token pair) REFRESH w
    /\ (forall s', s' ∈ auth_sessions (database w) ->
                   access_token_jti s' <> jti (payload (access_token pair)))
    /\ now w' = now w /\ tz_offset w' = tz_offset w.
Proof.
  unfold _create_session, generate_access_token, generate_refresh_token.
  intros Hrun.
  apply bind_inl in Hrun as (access & w1 & Ha & Hrun).
  rewrite generate_token_run in Ha. injection Ha as <- <-.
  apply bind_inl in Hrun as (refresh & w2 & Hr & Hrun).
  rewrite generate_token_run in Hr. injection Hr as <- <-.
  apply bind_inl in Hrun as (ac & w3 & Hac & Hrun).
  apply bind_inl in Hrun as (rc & w4 & Hrc & Hrun).
  destruct ac as [ac|]; [|by destruct (validate_token_inv _ _ _ _ _ _ Hac) as [-> _]].
  apply validate_token_Some in Hac as (-> & Hacc & ->).
  destruct rc as [rc|]; [|done].
  apply validate_token_Some in Hrc as (-> & Hrcc & ->).
  apply bind_inl in Hrun as ([] & w5 & Hg & Hrun).
  apply store_op_inl in Hg as (d5 & [= <-] & ->).
  apply bind_inl in Hrun as (t & w6 & Ht & Hrun).
  injection Ht as <- <-.
  apply bind_inl in Hrun as (expires & w7 & He & Hrun).
  injection He as <- <-.
  apply bind_inl in Hrun as ([] & w8 & Hs & Hrun).
  apply store_op_inl in Hs as (d8 & Hs & ->).
  destruct (existsb _ _) eqn:Ex in Hs; [done|]. injection Hs as <-.
  apply bind_inl in Hrun as ([] & w9 & Hau & Hrun).
  apply store_op_inl in Hau as (d9 & [= <-] & ->).
  injection Hrun as <- <-.
  eexists. cbn. split; [reflexivity|]. do 6 (split; [reflexivity|]).
  split; [exact Hacc|]. split; [exact Hrcc|]. split; [|done].
  intros s' Hin Heq.
  assert (Hex : existsb
            (fun s0 => String.eqb (access_token_jti s0) (token_hex w (drawn w)))
            (auth_sessions (database w)) = true); [|cbn in Ex; congruence].
  apply existsb_exists. exists s'. split; [by apply list_elem_of_In|].
  by apply String.eqb_eq.
Qed.

(** What [refresh_token] has checked when it returns a pair. *)
Lemma refresh_token_Some (svc : AuthenticationService) (token : TokenString)
    (w w' : World) (pair : TokenPair) :
  refresh_token svc token w = (inl (Some pair), w') ->
  exists (tok : Token) (id : nat) (s : Session),
    token = Encoded tok
    /\ accepted (token_manager svc) tok REFRESH w
    /\ auth_sessions (database w) !! id = Some s
    /\ refresh_token_jti s = jti (payload tok)
    /\ revoked s = false.
Proof.
  unfold refresh_token. intros Hrun.
  apply try_except_inl in Hrun as [Hrun | (e & w1 & _ & Hrun)]; [|done].
  apply bind_inl in Hrun as (claims & w1 & Hv & Hrun).
  destruct token as [tok|text]; [|by injection Hv as <- <-].
  cbn [Sessions.validate_token] in Hv.
  destruct claims as [claims|]; [|done].
  apply validate_token_Some in Hv as (-> & Hacc & ->).
  apply bind_inl in Hrun as ([] & w2 & Hg & Hrun).
  apply store_op_inl in Hg as (d2 & [= <-] & ->).
  apply bind_inl in Hrun as (session & w3 & Hfind & Hrun).
  apply store_op_inl in Hfind as (d3 & [= <- <-] & ->).
  cbn [database with_database pop with_faults] in Hrun.
  destruct (list_find _ _) as [[id s]|] eqn:Hl; [|done].
  apply list_find_Some in Hl as (Hid & Hp & _).
  apply andb_prop in Hp as [Hj Hr]. apply String.eqb_eq in Hj.
  apply negb_true_iff in Hr.
  exists tok, id, s. by destruct w.
Qed.

(** What [revoke_token] has found when it returns [True]. *)
Lemma revoke_token_true (svc : AuthenticationService) (token : TokenString)
    (w w' : World) :
  revoke_token svc token w = (inl true, w') ->
  exists (tok : Token) (id : nat) (s : Session),
    token = Encoded tok
    /\ auth_sessions (database w) !! id = Some s
    /\ (access_token_jti s = jti (payload tok)
        \/ refresh_token_jti s = jti (payload tok))
    /\ revoked s = false.
Proof.
  unfold revoke_token. intros Hrun.
  apply try_except_inl in Hrun as [Hrun | (e & w1 & _ & Hrun)]; [|done].
  destruct token as [tok|text]; [|done]. cbn [decode_token_unsafe] in Hrun.
  destruct (negb (PyStr.truthy (jti (payload tok)))); [done|].
  apply bind_inl in Hrun as ([] & w2 & Hg & Hrun).
  apply store_op_inl in Hg as (d2 & [= <-] & ->).
  apply bind_inl in Hrun as (n & w3 & Hrev & Hrun).
  apply store_op_inl in Hrev as (d3 & Hrev & ->).
  cbn [database with_database pop with_faults] in Hrev.
  destruct (list_find _ _) as [[id s]|] eqn:Hl.
  2:{ injection Hrev as <- <-. done. }
  apply list_find_Some in Hl as (Hid & Hp & _).
  destruct (revoked s) eqn:Hr; [by injection Hrev as <- <-|].
  exists tok, id, s. split; [done|]. split; [by destruct w|]. split; [|done].
  apply orb_prop in Hp as [Hp|Hp]; apply String.eqb_eq in Hp; auto.
Qed.

(** With distinct [jti]s, the row [revoke_token] rewrites is the row
    that carries the access token. *)
Lemma find_by_access_jti (d : Database) (i : nat) (s : Session) :
  distinct_jtis d ->
  auth_sessions d !! i = Some s ->
  list_find (fun s' => String.eqb (access_token_jti s') (access_token_jti s)
                       || String.eqb (refresh_token_jti s') (access_token_jti s) = true)
            (auth_sessions d)
  = Some (i, s).
Proof.
  intros Hd Hi. destruct (distinct_jtis_spec d Hd) as (Ha & _ & Har).
  apply list_find_Some. split; [done|]. split.
  { by rewrite String.eqb_refl. }
  intros k s' Hk Hlt Hp. apply orb_prop in Hp as [Hp|Hp]; apply String.eqb_eq in Hp.
  - pose proof (Ha k i s' s Hk Hi Hp). lia.
  - by destruct (Har i k s s' Hi Hk).
Qed.

Lemma revoke_token_runs (svc : AuthenticationService) (tok : Token) (w : World)
    (i : nat) (s : Session) :
  no_faults w ->
  distinct_jtis (database w) ->
  auth_sessions (database w) !! i = Some s ->
  access_token_jti s = jti (payload tok) ->
  revoked s = false ->
  jti (payload tok) <> "" ->
  exists w1,
    revoke_token svc (Encoded tok) w = (inl true, w1)
    /\ auth_sessions (database w1)
       = <[i := set_revoked s]> (auth_sessions (database w))
    /\ users_v2 (database w1) = users_v2 (database w)
    /\ auth_audit_log (database w1)
       = (auth_audit_log (database w) ++ [token_revoked (now w)])%list.
Proof.
  intros Hf Hd Hi Hj Hr Hne. unfold revoke_token, try_except.
  cbn [decode_token_unsafe].
  destruct (jti (payload tok)) as [|c j'] eqn:Ej; [done|]. cbn [PyStr.truthy negb].
  unfold mbind, M_bind. rewrite get_client_ok by done.
  unfold sessions_revoke_one. rewrite store_op_ok by no_faults_tac.
  assert (Hfind := find_by_access_jti (database w) i s Hd Hi).
  rewrite Hj in Hfind. destruct w as [d fs n tz th dr]. cbn in *.
  rewrite Hfind, Hr. cbn.
  rewrite audit_insert_one_ok by (cbn; no_faults_tac; by apply (no_faults_pop (mkWorld d fs n tz th dr)), (no_faults_pop (mkWorld d fs n tz th dr))).
  eexists. by cbn.
Qed.


Lemma existsb_delete {A} (p : A -> bool) (i : nat) (l : list A) :
  existsb p (delete i l) = true -> exists x, x ∈ l /\ p x = true.
Proof.
  intros (x & Hin & Hp)%existsb_exists. exists x. split; [|done].
  apply list_elem_of_In in Hin.
  by eapply list_elem_of_delete_inv.
Qed.

Lemma unused_spec (d : Database) (j : string) :
  unused d j ->
  forall k s, auth_sessions d !! k = Some s ->
              access_token_jti s <> j /\ refresh_token_jti s <> j.
Proof.
  unfold unused. intros Hu k s Hk. split; intros <-; apply Hu, elem_of_app.
  - left. apply list_elem_of_fmap. exists s. split; [done|].
    by eapply list_elem_of_lookup_2.
  - right. apply list_elem_of_fmap. exists s. split; [done|].
    by eapply list_elem_of_lookup_2.
Qed.

(** With distinct [jti]s, the row [refresh_token] finds is the row that
    carries the refresh token. *)
Lemma find_by_refresh_jti (d : Database) (i : nat) (s : Session) :
  distinct_jtis d ->
  auth_sessions d !! i = Some s ->
  revoked s = false ->
  list_find (fun s' => String.eqb (refresh_token_jti s') (refresh_token_jti s)
                       && negb (revoked s') = true)
            (auth_sessions d)
  = Some (i, s).
Proof.
  intros Hd Hi Hr. destruct (distinct_jtis_spec d Hd) as (_ & Hrf & _).
  apply list_find_Some. split; [done|]. split.
  { by rewrite String.eqb_refl, Hr. }
  intros k s' Hk Hlt Hp. apply andb_prop in Hp as [Hp _]. apply String.eqb_eq in Hp.
  pose proof (Hrf k i s' s Hk Hi Hp). lia.
Qed.

Lemma refresh_token_runs (svc : AuthenticationService) (rt : Token) (w : World)
    (i : nat) (s : Session) :
  no_faults w ->
  distinct_jtis (database w) ->
  accepted (token_manager svc) rt REFRESH w ->
  auth_sessions (database w) !! i = Some s ->
  refresh_token_jti s = jti (payload rt) ->
  revoked s = false ->
  1 <= access_token_expiry (token_manager svc) ->
  1 <= access_token_expiry (token_manager svc) + tz_offset w ->
  1 <= refresh_token_expiry (token_manager svc) ->
  1 <= refresh_token_expiry (token_manager svc) + tz_offset w ->
  fresh_draws w ->
  exists w1,
    refresh_token svc (Encoded rt) w
    = (inl (Some (mkTokenPair
                    (mkToken (mkClaims (sub (payload rt)) (tc_email (payload rt))
                                (now w / PyTime.US_PER_SECOND)
                                (now w / PyTime.US_PER_SECOND
                                 + access_token_expiry (token_manager svc))
                                (token_hex w (drawn w)) ACCESS)
                             (secret_key (token_manager svc)))
                    (mkToken (mkClaims (sub (payload rt)) (tc_email (payload rt))
                                (now w / PyTime.US_PER_SECOND)
                                (now w / PyTime.US_PER_SECOND
                                 + refresh_token_expiry (token_manager svc))
                                (token_hex w (S (drawn w))) REFRESH)
                             (secret_key (token_manager svc)))
                    "Bearer" (JWT_ACCESS_TOKEN_EXPIRY (config svc)))), w1)
    /\ auth_sessions (database w1)
       = <[i := set_tokens (token_hex w (drawn w)) (token_hex w (S (drawn w)))
                           (now w) s]> (auth_sessions (database w))
    /\ users_v2 (database w1) = users_v2 (database w)
    /\ auth_audit_log (database w1)
       = (auth_audit_log (database w)
          ++ [token_refreshed (s_user_id s) (tc_email (payload rt)) (now w)])%list.
Proof.
  intros Hf Hd Hacc Hi Hj Hr Ha Haz Hrl Hrz (Hne & Hua & Hur).
  unfold refresh_token, try_except. cbn [Sessions.validate_token].
  unfold mbind at 1, M_bind at 1. rewrite (validate_token_accepted _ _ _ _ Hacc).
  unfold mbind at 1, M_bind at 1. rewrite get_client_ok by done.
  unfold mbind at 1, M_bind at 1. rewrite sessions_find_one_ok by no_faults_tac.
  assert (Hfind := find_by_refresh_jti (database w) i s Hd Hi Hr).
  rewrite Hj in Hfind.
  replace (database (pop w)) with (database w) by (by destruct w).
  rewrite Hfind. unfold generate_access_token, generate_refresh_token.
  set (w2 := pop (pop w)).
  assert (Hw2 : now w2 = now w /\ tz_offset w2 = tz_offset w
                /\ drawn w2 = drawn w /\ token_hex w2 = token_hex w
                /\ database w2 = database w /\ no_faults w2).
  { subst w2. repeat split; try (by destruct w). no_faults_tac. }
  destruct Hw2 as (Hn2 & Hz2 & Hdr2 & Hth2 & Hdb2 & Hf2).
  unfold mbind at 1, M_bind at 1.
  destruct (generate_token _ _ ACCESS _ _ w2) as [r1 w3] eqn:E1.
  pose proof E1 as E1'. rewrite generate_token_run in E1'. injection E1' as <- <-.
  unfold mbind at 1, M_bind at 1.
  destruct (generate_token _ _ REFRESH _ _ (bump w2)) as [r2 w4] eqn:E2.
  pose proof E2 as E2'. rewrite generate_token_run in E2'. injection E2' as <- <-.
  unfold mbind at 1, M_bind at 1.
  rewrite (validate_fresh_token _ _ _ _ _ _ _ _ E1) by (rewrite ?Hz2; done).
  unfold mbind at 1, M_bind at 1.
  rewrite (validate_fresh_token _ _ _ _ _ _ _ _ E2) by (rewrite ?Hz2; done).
  cbn [payload jti]. unfold mbind at 1, M_bind at 1. unfold utcnow at 1.
  unfold mbind at 1, M_bind at 1.
  unfold sessions_update_jti. rewrite store_op_ok by (by destruct w2).
  cbn [database bump now].
  rewrite Hdb2, Hi.
  destruct (existsb _ _) eqn:Ex.
  { exfalso. apply existsb_delete in Ex as (x & Hin & Hx).
    apply String.eqb_eq in Hx. cbn [set_tokens access_token_jti] in Hx.
    apply list_elem_of_lookup in Hin as [k Hk].
    by destruct (unused_spec _ _ Hua k x Hk). }
  cbn [fst snd]. unfold mbind, M_bind.
  rewrite audit_insert_one_ok by (subst w2; destruct w; cbn; no_faults_tac;
                                  cbn in Hf; unfold no_faults in *; cbn in *;
                                  by repeat apply Forall_tail).
  rewrite ?Hn2, ?Hth2, ?Hdr2. eexists. split; [reflexivity|]. by cbn.
Qed.

End SessionFacts.

Section SessionClaims.
Import Store Config Providers OAuth Sessions.
Local Open Scope Z_scope.

(** X5. On a host whose local time is behind UTC by more than the
    lifetime of an access token (15 minutes by default), session creation
    always fails: [validate_token] reads [datetime.utcnow().timestamp()],
    which takes the UTC wall clock for local time, so the token just
    generated counts as expired, [_create_session] raises [ValueError]
    and writes nothing.  A login whose password the provider accepted
    then gets no tokens and no reply: the [except] handler of
    [authenticate_user] builds the server-error reply with [AuthResult],
    a name the module binds under [TYPE_CHECKING] only, and the call ends
    in [NameError]. *)
Theorem _create_session_fails_behind_utc (svc : AuthenticationService) (uid : nat)
    (em : string) (md : AuthCredentials) (w : World) :
  access_token_expiry (token_manager svc) < - tz_offset w ->
  (exists w',
     _create_session svc uid em md w
     = (inr (ValueError "Failed to validate newly generated tokens"), w')
     /\ database w' = database w)
  /\ forall (name : string) (provider : AuthProvider) (credentials : AuthCredentials)
            (result : AuthResult) (w0 : World),
       providers svc !! name = Some provider ->
       provider_authenticate provider credentials w0 = (inl result, w) ->
       r_success result = true ->
       (authenticate_user svc name credentials w0).1 = inr (NameError "AuthResult").
Proof.
  intros Hlife. split.
  - eexists. split; [by apply _create_session_raises_behind_utc|done].
  - intros name provider credentials result w0 Hp Hauth Hok.
    erewrite no_pair_when_session_creation_raises; [done..|].
    by apply _create_session_raises_behind_utc.
Qed.

(** X6. [validate_session] answers with a session only for an access
    token signed with the service key and not expired, whose [jti] is
    that of a stored row which is not revoked.  The answer carries the
    user of that row and the address of the token; the only write is the
    [last_activity] of that row.  So a refresh token, a token signed with
    another key or a token of a revoked session is never accepted. *)
Theorem validate_session_sound (svc : AuthenticationService) (token : TokenString)
    (w w' : World) (info : SessionInfo) :
  validate_session svc token w = (inl (Some info), w') ->
  exists (tok : Token) (s : Session),
    token = Encoded tok
    /\ signed_with tok = secret_key (token_manager svc)
    /\ type (payload tok) = ACCESS
    /\ now w < PyTime.timedelta_seconds (exp (payload tok))
    /\ auth_sessions (database w) !! session_id info = Some s
    /\ access_token_jti s = jti (payload tok)
    /\ revoked s = false
    /\ user_id info = s_user_id s
    /\ email info = tc_email (payload tok)
    /\ auth_sessions (database w')
       = alter (set_last_activity (now w)) (session_id info)
               (auth_sessions (database w))
    /\ users_v2 (database w') = users_v2 (database w)
    /\ auth_audit_log (database w') = auth_audit_log (database w).
Proof.
  intros Hrun.
  apply validate_session_Some in Hrun
    as (tok & s & -> & (Hk & Ht & He & _) & Hrest).
  exists tok, s. by repeat split; try apply Hrest.
Qed.

(** X7. The access token of a pair that [_create_session] returned
    validates: as long as the token is accepted by the token manager and
    the store answers, [validate_session] returns the user and the
    address the session was created for, and stamps [last_activity].
    The token is accepted at the instant of its creation. *)
Theorem issued_access_token_validates (svc : AuthenticationService) (uid : nat)
    (em : string) (md : AuthCredentials) (w w1 w2 : World) (pair : TokenPair) :
  _create_session svc uid em md w = (inl pair, w1) ->
  accepted (token_manager svc) (access_token pair) ACCESS w1
  /\ (auth_sessions (database w2) = auth_sessions (database w1) ->
      no_faults w2 ->
      accepted (token_manager svc) (access_token pair) ACCESS w2 ->
      exists w3,
        validate_session svc (Encoded (access_token pair)) w2
        = (inl (Some (mkInfo uid em (length (auth_sessions (database w))))), w3)
        /\ auth_sessions (database w3)
           = alter (set_last_activity (now w2)) (length (auth_sessions (database w)))
                   (auth_sessions (database w2))).
Proof.
  intros Hrun.
  apply _create_session_row in Hrun
    as (s & Hs & Hu & Hj & _ & Hr & Hsub & Hem & Hacc & _ & Hfresh & Hnow & Htz).
  split.
  { destruct Hacc as (Hk & Ht & He & Hz). unfold accepted, timestamp_us.
    by rewrite Hnow, Htz. }
  intros Hdb Hf Hacc2. unfold validate_session, try_except.
  cbn [Sessions.validate_token]. unfold mbind, M_bind.
  rewrite (validate_token_accepted _ _ _ _ Hacc2).
  rewrite get_client_ok by done.
  rewrite sessions_find_one_ok by no_faults_tac.
  assert (Hfind : list_find
            (fun s0 => String.eqb (access_token_jti s0) (jti (payload (access_token pair)))
                       && negb (revoked s0) = true)
            (auth_sessions (database (pop w2)))
          = Some (length (auth_sessions (database w)), s)).
  { replace (database (pop w2)) with (database w2) by (by destruct w2).
    rewrite Hdb, Hs. rewrite list_find_app_r.
    - cbn. rewrite Hj, String.eqb_refl, Hr. cbn. by rewrite decide_True.
    - apply list_find_None, Forall_forall. intros s' Hin Hp.
      apply andb_prop in Hp as [Hp _]. apply String.eqb_eq in Hp.
      by destruct (Hfresh s' Hin). }
  rewrite Hfind. unfold utcnow.
  rewrite sessions_update_one_ok by no_faults_tac.
  eexists. rewrite Hu, Hem. split; [reflexivity|]. by destruct w2.
Qed.

(** X8. [logout] with the access token of a live session, the [jti]s
    of the stored rows being distinct, marks the row of that session
    revoked, records [token_revoked] and returns [True]; neither the
    signature nor the expiry of the token is looked at.  From then on the
    session is dead: [validate_session] with that access token and
    [refresh_token] with the refresh token of the row return [None], and
    a second [logout] returns [False]. *)
Theorem logout_ends_session (svc : AuthenticationService) (tok : Token) (w : World)
    (i : nat) (s : Session) :
  no_faults w ->
  distinct_jtis (database w) ->
  auth_sessions (database w) !! i = Some s ->
  access_token_jti s = jti (payload tok) ->
  revoked s = false ->
  jti (payload tok) <> "" ->
  exists w1,
    logout svc (Encoded tok) w = (inl true, w1)
    /\ auth_sessions (database w1)
       = <[i := set_revoked s]> (auth_sessions (database w))
    /\ auth_audit_log (database w1)
       = (auth_audit_log (database w) ++ [token_revoked (now w)])%list
    /\ forall w2,
         auth_sessions (database w2) = auth_sessions (database w1) ->
         (validate_session svc (Encoded tok) w2).1 = inl None
         /\ (forall rt, jti (payload rt) = refresh_token_jti s ->
                        (refresh_token svc (Encoded rt) w2).1 = inl None)
         /\ (logout svc (Encoded tok) w2).1 = inl false.
Proof.
  intros Hf Hd Hi Hj Hr Hne.
  destruct (revoke_token_runs svc tok w i s Hf Hd Hi Hj Hr Hne)
    as (w1 & Hrun & Hs1 & _ & Hlog).
  exists w1. split; [exact Hrun|]. split; [exact Hs1|]. split; [exact Hlog|].
  destruct (distinct_jtis_spec _ Hd) as (Ha & Hrf & Har).
  assert (Hdead : forall k s', auth_sessions (database w1) !! k = Some s' ->
                    revoked s' = false ->
                    access_token_jti s' <> jti (payload tok)
                    /\ refresh_token_jti s' <> jti (payload tok)
                    /\ refresh_token_jti s' <> refresh_token_jti s).
  { intros k s' Hk Hr'. rewrite Hs1 in Hk.
    apply list_lookup_insert_Some in Hk as [(-> & <- & _)|[Hne' Hk]]; [done|].
    split; [|split].
    - intros He. apply Hne'. rewrite <- Hj in He. by eapply (Ha i k).
    - intros He. rewrite <- Hj in He. by destruct (Har i k s s' Hi Hk).
    - intros He. apply Hne'. by eapply (Hrf i k). }
  intros w2 Hw2. split; [|split].
  - destruct (validate_session svc (Encoded tok) w2) as [[[info|]|e] w3] eqn:E;
      [|done|].
    + exfalso. apply validate_session_Some in E
        as (tok' & s' & [= <-] & _ & Hk & Hj' & Hr' & _).
      rewrite Hw2 in Hk. by destruct (Hdead _ _ Hk Hr') as (H1 & _).
    + exfalso. unfold validate_session, try_except in E. by case_match; case_match.
  - intros rt Hrt.
    destruct (refresh_token svc (Encoded rt) w2) as [[[p|]|e] w3] eqn:E; [|done|].
    + exfalso. apply refresh_token_Some in E
        as (tok' & k & s' & [= <-] & _ & Hk & Hj' & Hr').
      rewrite Hw2 in Hk. destruct (Hdead _ _ Hk Hr') as (_ & _ & H3).
      by rewrite Hj', Hrt in H3.
    + exfalso. unfold refresh_token, try_except in E. by case_match; case_match.
  - unfold logout.
    destruct (revoke_token svc (Encoded tok) w2) as [[[]|e] w3] eqn:E; [|done|].
    + exfalso. apply revoke_token_true in E
        as (tok' & k & s' & [= <-] & Hk & Hj' & Hr').
      rewrite Hw2 in Hk. destruct (Hdead _ _ Hk Hr') as (H1 & H2 & _).
      by destruct Hj'.
    + exfalso. unfold revoke_token, try_except in E. by case_match; case_match.
Qed.

(** X9. [refresh_token] with a refresh token the token manager accepts,
    of a live session, rotates the tokens of that session, provided the
    [jti]s of the stored rows are distinct, the store answers, the
    entropy source draws two unused [jti]s, and each of the two token
    lifetimes is at least one second, and still at least one second
    once the offset of the local clock from UTC (negative behind UTC) is
    added to it: the row keeps its place and its user and takes the
    [jti]s of the new pair, and [token_refreshed] is recorded.  Afterwards, on any store with
    these session rows, the old refresh token and an access token with
    the old [jti] are refused, and the new access token validates for
    the user of the row as long as the token manager accepts it and the
    store answers. *)
Theorem refresh_token_rotates (svc : AuthenticationService) (rt : Token) (w : World)
    (i : nat) (s : Session) :
  no_faults w ->
  distinct_jtis (database w) ->
  accepted (token_manager svc) rt REFRESH w ->
  auth_sessions (database w) !! i = Some s ->
  refresh_token_jti s = jti (payload rt) ->
  revoked s = false ->
  1 <= access_token_expiry (token_manager svc) ->
  1 <= access_token_expiry (token_manager svc) + tz_offset w ->
  1 <= refresh_token_expiry (token_manager svc) ->
  1 <= refresh_token_expiry (token_manager svc) + tz_offset w ->
  fresh_draws w ->
  exists (pair : TokenPair) (w1 : World),
    refresh_token svc (Encoded rt) w = (inl (Some pair), w1)
    /\ jti (payload (access_token pair)) = token_hex w (drawn w)
    /\ jti (payload (OAuth.refresh_token pair)) = token_hex w (S (drawn w))
    /\ auth_sessions (database w1)
       = <[i := set_tokens (token_hex w (drawn w)) (token_hex w (S (drawn w)))
                           (now w) s]> (auth_sessions (database w))
    /\ auth_audit_log (database w1)
       = (auth_audit_log (database w)
          ++ [token_refreshed (s_user_id s) (tc_email (payload rt)) (now w)])%list
    /\ forall w2,
         auth_sessions (database w2) = auth_sessions (database w1) ->
         (refresh_token svc (Encoded rt) w2).1 = inl None
         /\ (forall old, jti (payload old) = access_token_jti s ->
                         (validate_session svc (Encoded old) w2).1 = inl None)
         /\ (no_faults w2 ->
             accepted (token_manager svc) (access_token pair) ACCESS w2 ->
             (validate_session svc (Encoded (access_token pair)) w2).1
             = inl (Some (mkInfo (s_user_id s) (tc_email (payload rt)) i))).
Proof.
  intros Hf Hd Hacc Hi Hj Hr Ha Haz Hrl Hrz Hfresh.
  destruct (refresh_token_runs svc rt w i s Hf Hd Hacc Hi Hj Hr Ha Haz Hrl Hrz Hfresh)
    as (w1 & Hrun & Hs1 & _ & Hlog).
  destruct Hfresh as (Hne & Hua & Hur).
  destruct (distinct_jtis_spec _ Hd) as (Hda & Hdr & Har).
  eexists _, w1. split; [exact Hrun|]. cbn [access_token OAuth.refresh_token payload jti].
  split; [done|]. split; [done|]. split; [exact Hs1|]. split; [exact Hlog|].
  assert (Hlt : (i < length (auth_sessions (database w)))%nat)
    by (by eapply lookup_lt_Some).
  assert (Hrows : forall k s', auth_sessions (database w1) !! k = Some s' ->
            access_token_jti s' <> access_token_jti s
            /\ refresh_token_jti s' <> jti (payload rt)).
  { intros k s' Hk. rewrite Hs1 in Hk.
    apply list_lookup_insert_Some in Hk as [(<- & <- & _)|[Hne' Hk]].
    - cbn [set_tokens access_token_jti refresh_token_jti]. split.
      + intros He. by destruct (unused_spec _ _ Hua i s Hi) as [H1 _].
      + intros He. rewrite <- Hj in He.
        by destruct (unused_spec _ _ Hur i s Hi) as [_ H2].
    - split.
      + intros He. apply Hne'. by eapply (Hda i k).
      + intros He. apply Hne'. rewrite <- Hj in He. by eapply (Hdr i k). }
  intros w2 Hw2. split; [|split].
  - destruct (refresh_token svc (Encoded rt) w2) as [[[p|]|e] w3] eqn:E; [|done|].
    + exfalso. apply refresh_token_Some in E
        as (tok' & k & s' & [= <-] & _ & Hk & Hj' & _).
      rewrite Hw2 in Hk. by destruct (Hrows _ _ Hk) as [_ H2].
    + exfalso. unfold refresh_token, try_except in E. by case_match; case_match.
  - intros old Hold.
    destruct (validate_session svc (Encoded old) w2) as [[[info|]|e] w3] eqn:E;
      [|done|].
    + exfalso. apply validate_session_Some in E
        as (tok' & s' & [= <-] & _ & Hk & Hj' & _).
      rewrite Hw2 in Hk. destruct (Hrows _ _ Hk) as [H1 _]. congruence.
    + exfalso. unfold validate_session, try_except in E. by case_match; case_match.
  - intros Hf2 Hacc2. unfold validate_session, try_except.
    cbn [Sessions.validate_token]. unfold mbind, M_bind.
    rewrite (validate_token_accepted _ _ _ _ Hacc2).
    rewrite get_client_ok by done.
    rewrite sessions_find_one_ok by no_faults_tac.
    cbn [payload jti tc_email].
    assert (Hfind : list_find
              (fun s0 => String.eqb (access_token_jti s0) (token_hex w (drawn w))
                         && negb (revoked s0) = true)
              (auth_sessions (database (pop w2)))
            = Some (i, set_tokens (token_hex w (drawn w)) (token_hex w (S (drawn w)))
                                  (now w) s)).
    { replace (database (pop w2)) with (database w2) by (by destruct w2).
      rewrite Hw2, Hs1. apply list_find_Some. split.
      { by apply list_lookup_insert_eq. }
      split.
      { cbn [set_tokens access_token_jti revoked].
        by rewrite String.eqb_refl, Hr. }
      intros k y Hk Hlt' Hp. rewrite list_lookup_insert_ne in Hk by lia.
      apply andb_prop in Hp as [Hp _]. apply String.eqb_eq in Hp.
      by destruct (unused_spec _ _ Hua k y Hk) as [H1 _]. }
    rewrite Hfind. unfold utcnow.
    by rewrite sessions_update_one_ok by no_faults_tac.
Qed.

End SessionClaims.

Section SessionExamples.
Import Store Config Providers OAuth Sessions.
Local Open Scope Z_scope.

Lemma _create_session_fails_behind_utc_witness :
  access_token_expiry (token_manager bob_service) < - tz_offset behind_utc
  /\ exists w',
       _create_session bob_service 0 "bob@example.com" (bob_tries "Correct-Horse-9!")
         behind_utc
       = (inr (ValueError "Failed to validate newly generated tokens"), w')
       /\ database w' = database behind_utc.
Proof.
  assert (H : access_token_expiry (token_manager bob_service)
              < - tz_offset behind_utc) by (by vm_compute).
  split; [exact H|].
  exact (proj1 (_create_session_fails_behind_utc bob_service 0 "bob@example.com"
                  (bob_tries "Correct-Horse-9!") behind_utc H)).
Defined.

Lemma validate_session_sound_witness :
  (validate_session bob_service (Encoded bob_access) bob_logged_in).1
  = inl (Some (mkInfo 0 "bob@example.com" 0))
  /\ exists tok s,
       Encoded bob_access = Encoded tok
       /\ signed_with tok = secret_key (token_manager bob_service)
       /\ auth_sessions (database bob_logged_in) !! 0%nat = Some s
       /\ access_token_jti s = jti (payload tok)
       /\ revoked s = false.
Proof.
  assert (E : validate_session bob_service (Encoded bob_access) bob_logged_in
              = (inl (Some (mkInfo 0 "bob@example.com" 0)),
                 (validate_session bob_service (Encoded bob_access) bob_logged_in).2))
    by (by vm_compute).
  split; [by rewrite E|].
  destruct (validate_session_sound _ _ _ _ _ E)
    as (tok & s & H1 & H2 & _ & _ & H5 & H6 & H7 & _).
  by exists tok, s.
Defined.

Lemma issued_access_token_validates_witness :
  first_session.1 = inl bob_tokens
  /\ accepted (token_manager bob_service) bob_access ACCESS first_session.2
  /\ exists w3,
       validate_session bob_service (Encoded bob_access) first_session.2
       = (inl (Some (mkInfo 0 "bob@example.com" 0)), w3).
Proof.
  assert (E : first_session = (inl bob_tokens, first_session.2)) by (by vm_compute).
  split; [by rewrite E|].
  destruct (issued_access_token_validates bob_service 0 "bob@example.com"
              (bob_tries "Correct-Horse-9!") (fresh_world 0 0 []) first_session.2
              first_session.2 bob_tokens E) as [Hacc Hval].
  split; [exact Hacc|].
  destruct (Hval eq_refl) as (w3 & Hrun & _); [by vm_compute; constructor|exact Hacc|].
  by exists w3.
Defined.

Lemma bob_logged_in_distinct : distinct_jtis (database bob_logged_in).
Proof. unfold distinct_jtis. refine (bool_decide_unpack _ _). by vm_compute. Qed.

Lemma logout_ends_session_witness :
  exists w1,
    logout bob_service (Encoded bob_access) bob_logged_in = (inl true, w1)
    /\ auth_sessions (database w1)
       = <[0%nat := set_revoked bob_row]> (auth_sessions (database bob_logged_in))
    /\ (validate_session bob_service (Encoded bob_access) w1).1 = inl None
    /\ (refresh_token bob_service (Encoded bob_refresh) w1).1 = inl None
    /\ (logout bob_service (Encoded bob_access) w1).1 = inl false.
Proof.
  destruct (logout_ends_session bob_service bob_access bob_logged_in 0 bob_row)
    as (w1 & Hrun & Hs & _ & Hafter);
    [by vm_compute; constructor|exact bob_logged_in_distinct|by vm_compute..|].
  exists w1. split; [exact Hrun|]. split; [exact Hs|].
  destruct (Hafter w1 eq_refl) as (H1 & H2 & H3).
  split; [exact H1|]. split; [by apply H2|exact H3].
Defined.

Lemma refresh_token_rotates_witness :
  exists pair w1,
    refresh_token bob_service (Encoded bob_refresh) bob_logged_in
    = (inl (Some pair), w1)
    /\ jti (payload (access_token pair)) = "5f5f5f"
    /\ jti (payload (OAuth.refresh_token pair)) = "5f5f5f5f"
    /\ (refresh_token bob_service (Encoded bob_refresh) w1).1 = inl None
    /\ (validate_session bob_service (Encoded bob_access) w1).1 = inl None.
Proof.
  destruct (refresh_token_rotates bob_service bob_refresh bob_logged_in 0 bob_row)
    as (pair & w1 & Hrun & Ha & Hr & _ & _ & Hafter);
    [by vm_compute; constructor|exact bob_logged_in_distinct
    |by repeat split; vm_compute|by vm_compute..| |].
  { split; [by vm_compute|].
    split; unfold unused; refine (bool_decide_unpack _ _); by vm_compute. }
  exists pair, w1. split; [exact Hrun|]. split; [exact Ha|]. split; [exact Hr|].
  destruct (Hafter w1 eq_refl) as (H1 & H2 & _).
  split; [exact H1|]. by apply H2.
Defined.

End SessionExamples.

(** ** Email normalization and generated passwords *)

Section NormalizationFacts.
Import PyStr Validators.
Local Open Scope Z_scope.

Lemma is_space_lower_char (c : ascii) : is_space (lower_char c) = is_space c.
Proof. by destruct c as [[] [] [] [] [] [] [] []]. Qed.

Lemma lower_char_idemp (c : ascii) : lower_char (lower_char c) = lower_char c.
Proof. by destruct c as [[] [] [] [] [] [] [] []]. Qed.

Lemma lower_idemp (s : string) : lower (lower s) = lower s.
Proof. induction s as [|c s IH]; cbn; [done|]. by rewrite lower_char_idemp, IH. Qed.

Lemma lstrip_lower (s : string) : lstrip (lower s) = lower (lstrip s).
Proof.
  induction s as [|c s IH]; cbn; [done|]. rewrite is_space_lower_char.
  by destruct (is_space c).
Qed.

Lemma rstrip_lower (s : string) : rstrip (lower s) = lower (rstrip s).
Proof.
  induction s as [|c s IH]; cbn; [done|]. rewrite IH, is_space_lower_char.
  destruct (rstrip s); cbn; [by destruct (is_space c)|done].
Qed.

Lemma lstrip_idemp (s : string) : lstrip (lstrip s) = lstrip s.
Proof.
  induction s as [|c s IH]; cbn; [done|].
  destruct (is_space c) eqn:E; [done|]. cbn. by rewrite E.
Qed.

Lemma rstrip_idemp (s : string) : rstrip (rstrip s) = rstrip s.
Proof.
  induction s as [|c s IH]; cbn; [done|].
  destruct (rstrip s) as [|d r] eqn:E.
  - destruct (is_space c) eqn:Ec; cbn; [done|]. by rewrite Ec.
  - cbn [rstrip]. cbn [rstrip] in IH. by rewrite IH.
Qed.

(** Stripping on the right leaves a first character that is not blank
    in place. *)
Lemma lstrip_rstrip (s : string) : lstrip s = s -> lstrip (rstrip s) = rstrip s.
Proof.
  destruct s as [|c s]; [done|]. cbn [lstrip].
  destruct (is_space c) eqn:Ec.
  - intros E. apply (f_equal String.length) in E. cbn in E.
    assert (Hle : forall t, (String.length (lstrip t) <= String.length t)%nat).
    { clear. induction t as [|d t IH]; cbn; [lia|].
      destruct (is_space d); cbn; lia. }
    specialize (Hle s). lia.
  - intros _. cbn [rstrip]. destruct (rstrip s); rewrite ?Ec; cbn; by rewrite Ec.
Qed.

Lemma strip_idemp (s : string) : strip (strip s) = strip s.
Proof.
  unfold strip. rewrite (lstrip_rstrip (lstrip s)) by apply lstrip_idemp.
  apply rstrip_idemp.
Qed.

Lemma strip_lower (s : string) : strip (lower s) = lower (strip s).
Proof. unfold strip. by rewrite lstrip_lower, rstrip_lower. Qed.

Lemma normalize_email_strip (e : string) :
  normalize_email (strip e) = normalize_email e.
Proof. unfold normalize_email. by rewrite strip_idemp. Qed.

End NormalizationFacts.

Section NormalizationClaims.
Import PyStr Validators.
Local Open Scope Z_scope.

(** X10. [normalize_email] is idempotent, and what it returns is in
    lower case and carries no blank at either end: an address that was
    normalized at registration is found again by a login that normalizes
    it once more, whatever the case and the surrounding blanks typed. *)
Theorem normalize_email_idempotent (e : string) :
  normalize_email (normalize_email e) = normalize_email e
  /\ lower (normalize_email e) = normalize_email e
  /\ strip (normalize_email e) = normalize_email e
  /\ normalize_email (strip e) = normalize_email e
  /\ normalize_email (lower e) = normalize_email e.
Proof.
  unfold normalize_email. repeat split.
  - by rewrite strip_lower, strip_idemp, lower_idemp.
  - by rewrite lower_idemp.
  - by rewrite strip_lower, strip_idemp.
  - by rewrite strip_idemp.
  - by rewrite strip_lower, lower_idemp.
Qed.

End NormalizationClaims.

Section PasswordGenFacts.
Import PyStr Validators PasswordGen.
Local Open Scope Z_scope.

Lemma any_string_of_list (p : ascii -> bool) (l : list ascii) :
  any p (string_of_list_ascii l) = existsb p l.
Proof. induction l as [|c l IH]; cbn; [done|]. by rewrite IH. Qed.

Lemma length_string_of_list (l : list ascii) :
  String.length (string_of_list_ascii l) = length l.
Proof. induction l as [|c l IH]; cbn; [done|]. by rewrite IH. Qed.

Lemma existsb_Permutation {A} (p : A -> bool) (l l' : list A) :
  l ≡ₚ l' -> existsb p l = existsb p l'.
Proof.
  intros Hp. induction Hp as [|x l l' _ IH|x y l|l l' l'' _ IH1 _ IH2]; cbn.
  - done.
  - by rewrite IH.
  - by destruct (p x), (p y).
  - by rewrite IH1.
Qed.

(** A drawn character belongs to the alphabet it is drawn from. *)
Lemma choice_all (p : ascii -> bool) (r : nat) (seq : string) :
  seq <> "" -> all p seq = true -> p (choice r seq) = true.
Proof.
  intros Hne Hall. unfold choice.
  assert (Hlen : (r mod String.length seq < String.length seq)%nat).
  { apply Nat.mod_upper_bound. by destruct seq. }
  revert Hlen. generalize (r mod String.length seq)%nat. clear Hne.
  induction seq as [|c s IH]; intros n Hn; cbn in *; [lia|].
  apply andb_prop in Hall as [Hc Hs]. destruct n as [|n]; [done|].
  apply IH; [done|lia].
Qed.

Lemma any_lower_fixed (p : ascii -> bool) (s : string) :
  (forall c, p c = true -> lower_char c = c) ->
  any p s = true -> any p (lower s) = true.
Proof.
  intros Hp. induction s as [|c s IH]; cbn; [done|].
  destruct (p c) eqn:Ec; cbn.
  - intros _. by rewrite (Hp c Ec), Ec.
  - intros Hs. rewrite (IH Hs). apply orb_true_r.
Qed.

(** No common password holds both a digit and a symbol. *)
Lemma not_common (s : string) :
  any is_digit s = true -> any is_special s = true ->
  in_set s COMMON_PASSWORDS = false.
Proof.
  intros Hd Hs. apply not_true_iff_false. unfold in_set.
  intros (c & Hin & Heq)%existsb_exists. apply String.eqb_eq in Heq. subst c.
  assert (Hall : forallb (fun c => negb (any is_digit c && any is_special c))
                         COMMON_PASSWORDS = true) by (by vm_compute).
  rewrite forallb_forall in Hall. specialize (Hall s Hin).
  by rewrite Hd, Hs in Hall.
Qed.

(** The checks of [validate] without a username. *)
Lemma validate_without_username (password : string) :
  8 <= len password ->
  any is_upper password = true -> any is_lower password = true ->
  any is_digit password = true -> any is_special password = true ->
  in_set (lower password) COMMON_PASSWORDS = false ->
  is_valid (validate password None) = true.
Proof.
  intros Hlen Hu Hl Hd Hs Hc. unfold validate. cbv zeta.
  assert (E : (run_checks password None).1 = []).
  { unfold run_checks, MIN_LENGTH. cbv zeta. rewrite !check_nil. cbn [fst].
    rewrite Hu, Hl, Hd, Hs, Hc. cbn [negb]. repeat split; try done.
    apply Z.ltb_ge. lia. }
  by rewrite E.
Qed.

End PasswordGenFacts.

Section PasswordGenClaims.
Import PyStr Validators PasswordGen.
Local Open Scope Z_scope.

(** X11. Whatever the entropy source yields, the password made by
    [generate_secure_password] has the requested length, raised to 8 when
    it is smaller, and passes [PasswordValidator.validate]: it holds an
    uppercase letter, a lowercase letter, a digit and a symbol, and is no
    common password. *)
Theorem generate_secure_password_valid (length : Z) (draws : nat -> nat)
    (shuffle : list ascii -> list ascii) :
  (forall l, shuffle l ≡ₚ l) ->
  len (generate_secure_password length draws shuffle) = Z.max length 8
  /\ is_valid (validate (generate_secure_password length draws shuffle) None) = true
  /\ (validate_password_with_feedback
        (generate_secure_password length draws shuffle) None).1 = true.
Proof.
  intros Hperm. unfold generate_secure_password, MIN_LENGTH. cbv zeta.
  set (n := if length <? 8 then 8 else length).
  assert (Hn : n = Z.max length 8 /\ 8 <= n).
  { subst n. destruct (length <? 8) eqn:E; [apply Z.ltb_lt in E|apply Z.ltb_ge in E];
      lia. }
  destruct Hn as [Hn Hn8].
  set (chars := ([choice (draws 0%nat) ascii_uppercase;
                  choice (draws 1%nat) ascii_lowercase;
                  choice (draws 2%nat) digits;
                  choice (draws 3%nat) punctuation]
                 ++ map (fun k => choice (draws (4 + k)%nat)
                                    (ascii_letters ++ digits ++ punctuation))
                        (seq 0 (Z.to_nat (n - 4))))%list).
  assert (Hlen : len (string_of_list_ascii (shuffle chars)) = n).
  { unfold len. rewrite length_string_of_list, (Permutation_length (Hperm chars)).
    subst chars. rewrite length_app, length_map, length_seq. cbn [List.length]. lia. }
  assert (Hany : forall p, any p (string_of_list_ascii (shuffle chars))
                           = existsb p chars).
  { intros p. rewrite any_string_of_list. by apply existsb_Permutation. }
  assert (Hu : any is_upper (string_of_list_ascii (shuffle chars)) = true).
  { rewrite Hany. subst chars. cbn [app existsb].
    by rewrite (choice_all is_upper _ ascii_uppercase). }
  assert (Hl : any is_lower (string_of_list_ascii (shuffle chars)) = true).
  { rewrite Hany. subst chars. cbn [app existsb].
    rewrite (choice_all is_lower _ ascii_lowercase) by done. by rewrite orb_true_r. }
  assert (Hd : any is_digit (string_of_list_ascii (shuffle chars)) = true).
  { rewrite Hany. subst chars. cbn [app existsb].
    rewrite (choice_all is_digit _ digits) by done. by rewrite !orb_true_r. }
  assert (Hs : any is_special (string_of_list_ascii (shuffle chars)) = true).
  { rewrite Hany. subst chars. cbn [app existsb].
    rewrite (choice_all is_special _ punctuation) by done. by rewrite !orb_true_r. }
  assert (Hv : is_valid (validate (string_of_list_ascii (shuffle chars)) None) = true).
  { apply validate_without_username; try done; [lia|].
    apply not_common; apply any_lower_fixed; try done.
    - intros c Hc. by destruct c as [[] [] [] [] [] [] [] []].
    - intros c Hc. by destruct c as [[] [] [] [] [] [] [] []]. }
  split; [by rewrite Hlen|]. split; [done|].
  by rewrite validate_password_with_feedback_fst.
Qed.

End PasswordGenClaims.

Section PasswordGenExamples.
Import PyStr Validators PasswordGen.
Local Open Scope Z_scope.

(** A password of the default length drawn from a fixed stream and
    shuffled by a reversal. *)
Lemma generate_secure_password_valid_witness :
  generate_secure_password 16 (fun k => (7 * k + 3)%nat) (@rev ascii)
  = "oha^=,%70TMF]7kD"
  /\ len (generate_secure_password 16 (fun k => (7 * k + 3)%nat) (@rev ascii))
     = Z.max 16 8
  /\ is_valid (validate (generate_secure_password 16 (fun k => (7 * k + 3)%nat)
                           (@rev ascii)) None) = true.
Proof.
  split; [by vm_compute|].
  destruct (generate_secure_password_valid 16 (fun k => (7 * k + 3)%nat) (@rev ascii))
    as (H1 & H2 & _); [|by split].
  intros l. symmetry. apply Permutation_rev.
Defined.

End PasswordGenExamples.

(** ** Password accounts: registration, login and reset *)

Section AccountFacts.
Import Store Config Providers OAuth PyStr Validators.
Local Open Scope Z_scope.

Context `{Bcrypt}.
Variable cfg : AuthConfig.

Lemma find_app_None {A} (p : A -> bool) (l l' : list A) :
  List.find p l = None -> List.find p (l ++ l') = List.find p l'.
Proof.
  induction l as [|x l IH]; cbn; [done|]. destruct (p x); [done|]. exact IH.
Qed.

Lemma find_weaken {A} (p q : A -> bool) (l : list A) :
  (forall x, q x = true -> p x = true) ->
  List.find p l = None -> List.find q l = None.
Proof.
  intros Hpq. induction l as [|x l IH]; cbn; [done|].
  destruct (p x) eqn:Ep; [done|]. intros Hn.
  destruct (q x) eqn:Eq; [|by apply IH]. apply Hpq in Eq. congruence.
Qed.

(** What [verify_password] has done when it reports success. *)
Lemma verify_password_success (user : User) (email_ password ip : string) (t : Z)
    (w w' : World) (r : AuthResult) :
  verify_password cfg user email_ password ip t w = (inl r, w') ->
  r_success r = true ->
  exists h,
    password_hash user = Some h
    /\ checkpw password h = true
    /\ (REQUIRE_EMAIL_VERIFICATION cfg = false \/ email_verified user = true)
    /\ r = mkAuthResult true (Some (_id user)) (Some email_) None false
    /\ users_v2 (database w')
       = update_first (fun u => Nat.eqb (_id u) (_id user)) (set_logged_in t)
                      (users_v2 (database w))
    /\ auth_audit_log (database w')
       = (auth_audit_log (database w)
          ++ [mkAudit "login_success" (Some (_id user)) email_ (Some "email")
                (Some ip) true None (now w)])%list.
Proof.
  unfold verify_password. destruct (password_hash user) as [h|]; [|done].
  destruct (checkpw password h) eqn:Hc; cbn [negb].
  - destruct (REQUIRE_EMAIL_VERIFICATION cfg && negb (email_verified user)) eqn:Hv.
    + by intros [= <- <-].
    + intros Hrun Hs.
      apply bind_inl in Hrun as ([] & w1 & Hu & Hrun).
      apply store_op_inl in Hu as (d1 & [= <-] & ->).
      apply bind_inl in Hrun as ([] & w2 & Ha & Hrun).
      unfold audit_insert_one in Ha.
      apply store_op_inl in Ha as (d2 & [= <-] & ->).
      injection Hrun as <- <-.
      exists h. repeat split; try done.
      apply andb_false_iff in Hv as [Hv|Hv]; [by left|right].
      by destruct (email_verified user).
  - intros Hrun Hs.
    apply bind_inl in Hrun as ([] & w1 & Hu & Hrun).
    apply bind_inl in Hrun as ([] & w2 & Ha & Hrun).
    by injection Hrun as <- <-.
Qed.

End AccountFacts.

Section AccountClaims.
Import Store Config Providers OAuth PyStr Validators.
Local Open Scope Z_scope.

Context `{Bcrypt}.
Variable cfg : AuthConfig.

(** X12. Whatever the store does, [authenticate] reports success only
    when the store holds a password account for the normalized address
    whose hash the given password checks against, whose lock, if any, has
    run out, and whose address is verified when verification is required;
    the reply then names that account, its login is stamped and a
    [login_success] record ends the audit log. *)
Theorem authenticate_success_sound (credentials : AuthCredentials) (w w' : World)
    (r : AuthResult) :
  authenticate cfg credentials w = (inl r, w') ->
  r_success r = true ->
  let email_ := normalize_email (default "" (c_email credentials)) in
  exists (user : User) (h : string),
    account w email_ = Some user
    /\ password_hash user = Some h
    /\ checkpw (default "" (c_password credentials)) h = true
    /\ is_locked user (now w) = false
    /\ (REQUIRE_EMAIL_VERIFICATION cfg = false \/ email_verified user = true)
    /\ r = mkAuthResult true (Some (_id user)) (Some email_) None false
    /\ users_v2 (database w')
       = update_first (fun u => Nat.eqb (_id u) (_id user)) (set_logged_in (now w))
                      (users_v2 (database w))
    /\ auth_audit_log (database w')
       = (auth_audit_log (database w)
          ++ [mkAudit "login_success" (Some (_id user)) email_ (Some "email")
                (Some (default "unknown" (c_ip_address credentials))) true None
                (now w)])%list.
Proof.
  intros Hrun Hs email_. unfold authenticate in Hrun. fold email_ in Hrun.
  apply try_except_inl in Hrun as [Hrun|(e & w1 & _ & Hh)];
    [|by injection Hh as <- <-].
  apply bind_inl in Hrun as ([] & w1 & Hg & Hrun).
  apply store_op_inl in Hg as (d1 & [= <-] & ->).
  apply bind_inl in Hrun as (found & w2 & Hf & Hrun).
  apply store_op_inl in Hf as (d2 & [= Hfound <-] & ->).
  destruct found as [user|].
  2:{ apply bind_inl in Hrun as ([] & w3 & _ & Hrun). by injection Hrun as <- <-. }
  apply bind_inl in Hrun as (t & w3 & Ht & Hrun). injection Ht as <- <-.
  assert (Hv : verify_password cfg user email_ (default "" (c_password credentials))
                 (default "unknown" (c_ip_address credentials))
                 (now w) (with_database (pop (with_database (pop w) (database w)))
                            (database w)) = (inl r, w')
               /\ is_locked user (now w) = false).
  { unfold is_locked. cbn [now with_database pop with_faults] in Hrun.
    destruct (locked_until (security user)) as [until_|]; [|done].
    destruct (now w <? until_); [|done]. by injection Hrun as <- <-. }
  destruct Hv as [Hv Hl].
  apply verify_password_success in Hv as (h & Hh & Hc & Hreq & -> & Hu & Ha); [|done].
  exists user, h. by repeat split.
Qed.

(** X13. Registration and login agree. After [register] has succeeded,
    and with a store that answers, [authenticate] with the same password
    and any spelling of the address that normalizes alike (other case,
    blanks around it) finds the new account: it reports success with the
    user id and address [register] returned, except when email
    verification is required, in which case the fresh account is unverified
    and the reply is the verification failure. *)
Theorem register_then_authenticate (credentials credentials' : AuthCredentials)
    (prof : gmap string (list string)) (w w1 : World) (r : AuthResult) :
  (forall password cost, checkpw password (hashpw password cost) = true) ->
  register cfg credentials prof w = (inl r, w1) ->
  r_success r = true ->
  no_faults w1 ->
  normalize_email (default "" (c_email credentials'))
  = normalize_email (default "" (c_email credentials)) ->
  c_password credentials' = c_password credentials ->
  (authenticate cfg credentials' w1).1
  = inl (if REQUIRE_EMAIL_VERIFICATION cfg
         then mkAuthResult false None None (Some EmailNotVerified) true
         else mkAuthResult true (r_user_id r) (r_email r) None false).
Proof.
  intros Hbcrypt Hrun Hs Hf Hem Hpw. unfold register in Hrun.
  apply try_except_inl in Hrun as [Hrun|(e & w0 & _ & Hh)];
    [|injection Hh as <- <-; done].
  rewrite normalize_email_strip in Hrun.
  set (email_ := normalize_email (default "" (c_email credentials))) in *.
  destruct (validate_email (strip (default "" (c_email credentials))))
    as [email_valid email_error].
  destruct email_valid; cbn [negb] in Hrun; [|by injection Hrun as <- <-].
  destruct (validate_password_with_feedback _ _) as [password_valid fb].
  destruct password_valid; cbn [negb] in Hrun; [|by injection Hrun as <- <-].
  apply bind_inl in Hrun as ([] & w2 & Hg & Hrun).
  apply store_op_inl in Hg as (d2 & [= <-] & ->).
  apply bind_inl in Hrun as (existing & w3 & Hfind & Hrun).
  apply store_op_inl in Hfind as (d3 & [= <- <-] & ->).
  destruct (List.find _ _) eqn:Efind in Hrun; [by injection Hrun as <- <-|].
  apply bind_inl in Hrun as (t & w4 & Ht & Hrun). injection Ht as <- <-.
  apply bind_inl in Hrun as (uid & w5 & Hins & Hrun).
  apply store_op_inl in Hins as (d5 & Hins & ->).
  cbv zeta in Hins. destruct (existsb _ _) in Hins; [done|].
  injection Hins as <- <-.
  apply bind_inl in Hrun as ([] & w6 & Ha & Hrun).
  unfold audit_insert_one in Ha. apply store_op_inl in Ha as (d6 & [= <-] & ->).
  injection Hrun as <- <-.
  cbn [database with_database pop with_faults users_v2] in *.
  set (new := mkUser _ _ _ _ _ _ _ _ _) in *.
  set (w1 := with_database _ _) in *.
  assert (Hacc : account w1 email_ = Some new).
  { unfold account. subst w1. cbn [database with_database users_v2].
    rewrite find_app_None.
    - cbn. unfold is_account. subst new. cbn. by rewrite !String.eqb_refl.
    - eapply find_weaken; [|exact Efind]. unfold is_account.
      by intros x [? _]%andb_prop. }
  rewrite <- Hem in Hacc.
  rewrite (authenticate_found cfg credentials' w1 new Hf Hacc).
  cbv zeta. unfold try_except. cbn [locked_until security new].
  assert (Hf2 : no_faults (pop (pop w1))) by (by do 2 apply no_faults_pop).
  change (now w1) with (now (pop (pop w1))).
  destruct (REQUIRE_EMAIL_VERIFICATION cfg) eqn:Ereq.
  - unfold verify_password. cbn [password_hash new]. rewrite Hpw, Hbcrypt.
    cbn [negb]. by rewrite Ereq.
  - destruct (verify_password_match cfg new
                (normalize_email (default "" (c_email credentials')))
                (default "" (c_password credentials'))
                (default "unknown" (c_ip_address credentials'))
                (hashpw (default "" (c_password credentials)) (BCRYPT_COST_FACTOR cfg))
                (pop (pop w1)) Hf2 eq_refl) as [Hout _].
    + rewrite Hpw. apply Hbcrypt.
    + by left.
    + cbv zeta in Hout.
      destruct (verify_password _ _ _ _ _ _ _) as [[r'|e'] w'] in Hout |- *;
        cbn [fst] in Hout; [|done].
      cbn [fst]. rewrite Hout, Hem. done.
Qed.

End AccountClaims.

Section PasswordResetFacts.
Import Store Config Providers OAuth Sessions PasswordReset PyStr Validators.
Local Open Scope Z_scope.

Context `{Bcrypt} `{Jwt}.
Variable cfg : AuthConfig.

Lemma find_by_id (l : list User) (x : User) :
  NoDup (_id <$> l) -> x ∈ l ->
  List.find (fun u => Nat.eqb (_id u) (_id x)) l = Some x.
Proof.
  induction l as [|y l IH]; intros Hnd Hin; [by apply elem_of_nil in Hin|].
  apply NoDup_cons in Hnd as [Hy Hnd]. cbn [List.find].
  apply elem_of_cons in Hin as [->|Hin]; [by rewrite Nat.eqb_refl|].
  destruct (Nat.eqb (_id y) (_id x)) eqn:E; [|by apply IH].
  apply Nat.eqb_eq in E. exfalso. apply Hy. rewrite E.
  apply list_elem_of_fmap. by exists x.
Qed.

Lemma account_elem_of (w : World) (e : string) (user : User) :
  account w e = Some user ->
  user ∈ users_v2 (database w) /\ is_account e user = true.
Proof.
  unfold account. intros [Hin Hp]%find_some. split; [|done]. by apply list_elem_of_In.
Qed.

Lemma update_first_ids (p : User -> bool) (f : User -> User) (l : list User) :
  (forall u, _id (f u) = _id u) ->
  _id <$> update_first p f l = _id <$> l.
Proof.
  intros Hf. induction l as [|x l IH]; [done|]. cbn [update_first].
  destruct (p x); cbn; [by rewrite Hf|by rewrite IH].
Qed.

Lemma sessions_revoke_many_ok (p : Session -> bool) (w : World) :
  no_faults w ->
  sessions_revoke_many p w
  = (inl tt, with_database (pop w)
               (with_sessions (database w)
                  (map (fun s => if p s then set_revoked s else s)
                       (auth_sessions (database w))))).
Proof. intros Hf. unfold sessions_revoke_many. by rewrite store_op_ok. Qed.

Lemma no_faults_bump (w : World) : no_faults w -> no_faults (bump w).
Proof. done. Qed.

Lemma request_password_reset_run (address : string) (w : World) (user : User) :
  no_faults w ->
  account w (normalize_email address) = Some user ->
  let email_ := normalize_email address in
  let tok := reset_token_of cfg w user email_ in
  let out := request_password_reset cfg address w in
  out.1 = inl (true, Some (jwt_encode tok), None)
  /\ users_v2 (database out.2)
     = update_first (fun u => Nat.eqb (_id u) (_id user))
         (set_reset_token (jwt_encode tok)
            (now w + PyTime.timedelta_seconds (JWT_RESET_TOKEN_EXPIRY cfg)))
         (users_v2 (database w))
  /\ auth_sessions (database out.2) = auth_sessions (database w)
  /\ auth_audit_log (database out.2)
     = (auth_audit_log (database w)
        ++ [password_reset_requested (_id user) email_ (now w)])%list.
Proof.
  intros Hf Ha email_ tok out. subst out.
  unfold request_password_reset, try_except, mbind, M_bind. fold email_.
  rewrite get_client_ok by done.
  rewrite users_find_one_ok by no_faults_tac.
  unfold account, is_account in Ha. change (database (pop w)) with (database w).
  fold email_ in Ha. rewrite Ha.
  unfold generate_reset_token. rewrite generate_token_run.
  cbn [utcnow].
  rewrite users_update_one_ok by (apply no_faults_bump; no_faults_tac).
  rewrite audit_insert_one_ok
    by (apply no_faults_with_database, no_faults_pop, no_faults_bump; no_faults_tac).
  done.
Qed.

(** What [reset_password] has checked when it reports success. *)
Lemma reset_password_success (token : TokenString) (new_password : string)
    (w w' : World) (m : option ResetMessage) :
  reset_password cfg token new_password w = (inl (true, m), w') ->
  exists (tok : Token) (user : User) (expires : Z),
    token = Encoded tok
    /\ accepted (token_manager_of cfg) tok RESET w
    /\ (validate_password_with_feedback new_password
          (Some (tc_email (payload tok)))).1 = true
    /\ List.find (fun u => Nat.eqb (_id u) (sub (payload tok))) (users_v2 (database w))
       = Some user
    /\ password_reset_token (security user) = Some (jwt_encode tok)
    /\ password_reset_expires (security user) = Some expires
    /\ now w <= expires
    /\ m = None
    /\ users_v2 (database w')
       = update_first (fun u => Nat.eqb (_id u) (_id user))
           (set_password (hashpw new_password (BCRYPT_COST_FACTOR cfg)) (now w))
           (users_v2 (database w))
    /\ auth_sessions (database w')
       = map (fun s => if Nat.eqb (s_user_id s) (_id user) && negb (revoked s)
                       then set_revoked s else s)
             (auth_sessions (database w))
    /\ auth_audit_log (database w')
       = (auth_audit_log (database w)
          ++ [password_reset_completed (_id user) (tc_email (payload tok)) (now w)])%list.
Proof.
  unfold reset_password. intros Hrun.
  apply try_except_inl in Hrun as [Hrun|(e & w0 & _ & Hh)]; [|by injection Hh].
  apply bind_inl in Hrun as (claims & w1 & Hv & Hrun).
  destruct token as [tok|text]; cbn [Sessions.validate_token] in Hv;
    [|injection Hv as <- <-; by injection Hrun].
  destruct claims as [claims|]; [|by injection Hrun].
  apply validate_token_Some in Hv as (-> & Hacc & ->).
  destruct (validate_password_with_feedback _ _) as [password_valid fb] eqn:Epw.
  destruct password_valid; cbn [negb] in Hrun; [|by injection Hrun].
  apply bind_inl in Hrun as ([] & w2 & Hg & Hrun).
  apply store_op_inl in Hg as (d2 & [= <-] & ->).
  apply bind_inl in Hrun as (found & w3 & Hf & Hrun).
  apply store_op_inl in Hf as (d3 & [= Hfound <-] & ->).
  destruct found as [user|]; [|by injection Hrun].
  destruct (bool_decide _) eqn:Etok in Hrun; cbn [negb] in Hrun; [|by injection Hrun].
  apply bool_decide_eq_true in Etok.
  apply bind_inl in Hrun as (t & w4 & Ht & Hrun). injection Ht as <- <-.
  destruct (password_reset_expires (security user)) as [expires|] eqn:Eexp;
    [|by injection Hrun].
  destruct (expires <? _) eqn:Elt in Hrun; [by injection Hrun|].
  apply Z.ltb_ge in Elt.
  apply bind_inl in Hrun as (t & w5 & Ht & Hrun). injection Ht as <- <-.
  apply bind_inl in Hrun as ([] & w6 & Hu & Hrun).
  apply store_op_inl in Hu as (d6 & [= <-] & ->).
  apply bind_inl in Hrun as ([] & w7 & Hs & Hrun).
  apply store_op_inl in Hs as (d7 & [= <-] & ->).
  apply bind_inl in Hrun as ([] & w8 & Ha & Hrun).
  unfold audit_insert_one in Ha. apply store_op_inl in Ha as (d8 & [= <-] & ->).
  injection Hrun as <- <-.
  exists tok, user, expires. rewrite Epw.
  split; [done|]. split; [exact Hacc|]. by repeat split.
Qed.

Lemma set_revoked_revoked (s : Session) : revoked s = true -> set_revoked s = s.
Proof. destruct s. cbn. by intros ->. Qed.

End PasswordResetFacts.

Section PasswordResetClaims.
Import Store Config Providers OAuth Sessions PasswordReset PyStr Validators.
Local Open Scope Z_scope.

Context `{Bcrypt} `{Jwt}.
Variable cfg : AuthConfig.

(** X14. The password reset round trip. For a password account, and
    with a store that answers, [request_password_reset] returns the
    encoding of a fresh RESET token for the account. Handing that token
    to [reset_password] while the token manager accepts it, with a new
    password that passes the policy, succeeds: the account then holds the
    hash of the new password, its failure counter is 0, its lock and its
    reset token are cleared, and every session of the user is revoked
    while the sessions of other users are untouched. When [bcrypt] checks
    the new hash and the address needs no verification, a login with the
    new password then succeeds, also for an account that was locked. *)
Theorem reset_password_round_trip (address new_password : string) (w : World)
    (user : User) :
  no_faults w ->
  NoDup (_id <$> users_v2 (database w)) ->
  account w (normalize_email address) = Some user ->
  let email_ := normalize_email address in
  let tok := reset_token_of cfg w user email_ in
  let new_hash := hashpw new_password (BCRYPT_COST_FACTOR cfg) in
  let out := request_password_reset cfg address w in
  out.1 = inl (true, Some (jwt_encode tok), None)
  /\ forall w2 : World,
       database w2 = database out.2 -> no_faults w2 ->
       accepted (token_manager_of cfg) tok RESET w2 ->
       (validate_password_with_feedback new_password (Some email_)).1 = true ->
       let out2 := reset_password cfg (Encoded tok) new_password w2 in
       out2.1 = inl (true, None)
       /\ account out2.2 email_ = Some (set_password new_hash (now w2) user)
       /\ auth_sessions (database out2.2)
          = map (fun s => if Nat.eqb (s_user_id s) (_id user)
                          then set_revoked s else s)
                (auth_sessions (database w))
       /\ (checkpw new_password new_hash = true ->
           REQUIRE_EMAIL_VERIFICATION cfg = false \/ email_verified user = true ->
           forall (w3 : World) (credentials : AuthCredentials),
             database w3 = database out2.2 -> no_faults w3 ->
             normalize_email (default "" (c_email credentials)) = email_ ->
             c_password credentials = Some new_password ->
             (authenticate cfg credentials w3).1
             = inl (mkAuthResult true (Some (_id user)) (Some email_) None false)).
Proof.
  intros Hf Hnd Ha email_ tok new_hash out.
  destruct (request_password_reset_run cfg address w user Hf Ha)
    as (Hout & Hus & Hss & _).
  fold email_ tok out in Hout, Hus, Hss. split; [exact Hout|].
  intros w2 Hdb Hf2 Hacc Hpw out2.
  destruct (account_elem_of _ _ _ Ha) as [Hin Hisacc]. fold email_ in Hisacc.
  set (requested := set_reset_token (jwt_encode tok)
         (now w + PyTime.timedelta_seconds (JWT_RESET_TOKEN_EXPIRY cfg))) in *.
  assert (Hfind : List.find (fun u => Nat.eqb (_id u) (_id user))
                            (users_v2 (database w2)) = Some (requested user)).
  { rewrite Hdb, Hus.
    by destruct (find_update_first (fun u => Nat.eqb (_id u) (_id user)) requested
                   (users_v2 (database w)) user Hnd ltac:(done)
                   (find_by_id _ _ Hnd Hin)). }
  assert (Hexp : (now w + PyTime.timedelta_seconds (JWT_RESET_TOKEN_EXPIRY cfg)
                  <? now w2) = false).
  { apply Z.ltb_ge. destruct Hacc as (_ & _ & He & _).
    subst tok. unfold reset_token_of in He. cbn [payload exp] in He.
    unfold PyTime.timedelta_seconds, PyTime.US_PER_SECOND in *.
    pose proof (Z.mul_div_le (now w) 1000000 ltac:(lia)). lia. }
  assert (Hrun : reset_password cfg (Encoded tok) new_password w2
                 = (inl (true, None),
                    with_database (pop (pop (pop (pop (pop w2)))))
                      (mkDatabase
                         (update_first (fun u => Nat.eqb (_id u) (_id user))
                            (set_password new_hash (now w2))
                            (users_v2 (database w2)))
                         (map (fun s => if Nat.eqb (s_user_id s) (_id user)
                                              && negb (revoked s)
                                        then set_revoked s else s)
                              (auth_sessions (database w2)))
                         (auth_audit_log (database w2)
                          ++ [password_reset_completed (_id user) email_ (now w2)])
                         (next_oid (database w2))))).
  { unfold reset_password, try_except. unfold mbind at 1, M_bind at 1.
    cbn [Sessions.validate_token]. rewrite (validate_token_accepted _ _ _ _ Hacc).
    subst tok. cbn [reset_token_of payload tc_email sub].
    destruct (validate_password_with_feedback new_password (Some email_))
      as [valid fb]. cbn [fst] in Hpw. subst valid. cbn [negb].
    unfold mbind at 1, M_bind at 1. rewrite get_client_ok by done.
    unfold mbind at 1, M_bind at 1. rewrite users_find_one_ok by no_faults_tac.
    change (database (pop w2)) with (database w2). rewrite Hfind.
    cbn [requested set_reset_token security with_security password_reset_token
         password_reset_expires text_of].
    rewrite bool_decide_eq_true_2 by done. cbn [negb].
    unfold mbind at 1, M_bind at 1. cbn [utcnow now pop with_faults].
    rewrite Hexp.
    unfold mbind at 1, M_bind at 1. cbn [utcnow now pop with_faults].
    unfold mbind at 1, M_bind at 1.
    rewrite users_update_one_ok by no_faults_tac.
    unfold mbind at 1, M_bind at 1.
    rewrite sessions_revoke_many_ok by no_faults_tac.
    unfold mbind at 1, M_bind at 1.
    rewrite audit_insert_one_ok by no_faults_tac.
    reflexivity. }
  assert (Hacc2 : account out2.2 email_ = Some (set_password new_hash (now w2) user)).
  { subst out2. rewrite Hrun. cbn [snd].
    assert (Hreq : account w2 email_ = Some (requested user)).
    { unfold account. rewrite Hdb.
      by apply (account_after_update w out.2 email_ user requested). }
    rewrite (account_after_update w2 _ email_ (requested user)
               (set_password new_hash (now w2))); try done.
    rewrite Hdb, Hus. by rewrite update_first_ids. }
  subst out2. rewrite Hrun in Hacc2 |- *. cbn [fst snd] in *.
  split; [done|]. split; [exact Hacc2|]. split.
  - cbn [database with_database auth_sessions]. rewrite Hdb, Hss.
    apply map_ext. intros s. destruct (Nat.eqb _ _); [|done].
    destruct (revoked s) eqn:Er; [|done]. cbn. by rewrite set_revoked_revoked.
  - intros Hcheck Hver w3 credentials Hdb3 Hf3 Hem Hpw3.
    assert (Hacc3 : account w3 (normalize_email (default "" (c_email credentials)))
                    = Some (set_password new_hash (now w2) user)).
    { rewrite Hem. unfold account in *. by rewrite Hdb3. }
    rewrite (authenticate_found cfg credentials w3 _ Hf3 Hacc3).
    cbv zeta. unfold try_except. cbn [locked_until security set_password].
    assert (Hf4 : no_faults (pop (pop w3))) by no_faults_tac.
    change (now w3) with (now (pop (pop w3))).
    destruct (verify_password_match cfg (set_password new_hash (now w2) user)
                (normalize_email (default "" (c_email credentials)))
                (default "" (c_password credentials))
                (default "unknown" (c_ip_address credentials)) new_hash
                (pop (pop w3)) Hf4 eq_refl) as [Hv _].
    + by rewrite Hpw3.
    + exact Hver.
    + cbv zeta in Hv.
      destruct (verify_password _ _ _ _ _ _ _) as [[r'|e'] w'] in Hv |- *;
        cbn [fst] in Hv; [|done].
      cbn [fst]. by rewrite Hv, Hem.
Qed.

(** X15. A reset token is good for one reset. Whatever the store does,
    [reset_password] reports success only for the encoding of a RESET
    token the token manager accepts, with a new password that passes the
    policy, when the account the token names holds exactly that text as
    its reset token and the stored expiry has not passed. Once it has
    succeeded, no token naming that account makes [reset_password]
    succeed on the resulting store, until a new one is requested. *)
Theorem reset_token_single_use (token : TokenString) (new_password : string)
    (w w' : World) (m : option ResetMessage) :
  NoDup (_id <$> users_v2 (database w)) ->
  reset_password cfg token new_password w = (inl (true, m), w') ->
  exists (tok : Token) (user : User) (expires : Z),
    token = Encoded tok
    /\ accepted (token_manager_of cfg) tok RESET w
    /\ (validate_password_with_feedback new_password
          (Some (tc_email (payload tok)))).1 = true
    /\ user ∈ users_v2 (database w)
    /\ _id user = sub (payload tok)
    /\ password_reset_token (security user) = Some (jwt_encode tok)
    /\ password_reset_expires (security user) = Some expires
    /\ now w <= expires
    /\ forall (tok' : Token) (password' : string) (w2 w3 : World)
              (m' : option ResetMessage),
         database w2 = database w' ->
         sub (payload tok') = _id user ->
         reset_password cfg (Encoded tok') password' w2 <> (inl (true, m'), w3).
Proof.
  intros Hnd Hrun.
  apply reset_password_success in Hrun
    as (tok & user & expires & -> & Hacc & Hpw & Hfind & Htok & Hexp & Hle & _ & Hus & _).
  pose proof Hfind as [Hin Hid%Nat.eqb_eq]%find_some.
  apply list_elem_of_In in Hin.
  exists tok, user, expires. do 8 (split; [done|]).
  intros tok' password' w2 w3 m' Hdb Hsub Hrun2.
  apply reset_password_success in Hrun2
    as (tok2 & user2 & expires2 & [= <-] & _ & _ & Hfind2 & Htok2 & _).
  rewrite Hdb, Hus, Hsub in Hfind2.
  destruct (find_update_first (fun u => Nat.eqb (_id u) (_id user))
              (set_password (hashpw new_password (BCRYPT_COST_FACTOR cfg)) (now w))
              (users_v2 (database w)) user Hnd ltac:(done)
              (find_by_id _ _ Hnd Hin)) as [Hf _].
  rewrite Hf in Hfind2. injection Hfind2 as <-. done.
Qed.

End PasswordResetClaims.

Section AccountExamples.
Import Store Config Providers OAuth Sessions PasswordReset PyStr Validators.
Local Open Scope Z_scope.

Lemma authenticate_success_sound_witness :
  exists (user : User) (h : string),
    account (world_with (bob 0 None true) 0) "bob@example.com" = Some user
    /\ password_hash user = Some h
    /\ @checkpw example_bcrypt "Correct-Horse-9!" h = true.
Proof.
  destruct (@authenticate_success_sound example_bcrypt (defaults "k")
              (bob_tries "Correct-Horse-9!") (world_with (bob 0 None true) 0)
              (@authenticate example_bcrypt (defaults "k")
                 (bob_tries "Correct-Horse-9!") (world_with (bob 0 None true) 0)).2
              (mkAuthResult true (Some 0%nat) (Some "bob@example.com") None false))
    as (user & h & Ha & Hh & Hc & _); [by vm_compute..|].
  by exists user, h.
Defined.

Lemma register_then_authenticate_witness :
  bob_registers.1
  = inl (mkAuthResult true (Some 0%nat) (Some "bob@example.com") None false)
  /\ (@authenticate example_bcrypt (defaults "k")
        (mkCredentials (Some "  BOB@Example.com ") (Some "Correct-Horse-9!")
           None None None) bob_registers.2).1
     = inl (mkAuthResult true (Some 0%nat) (Some "bob@example.com") None false).
Proof.
  split; [by vm_compute|].
  apply (@register_then_authenticate example_bcrypt (defaults "k")
           (mkCredentials (Some "bob@example.com") (Some "Correct-Horse-9!")
              None None None)
           (mkCredentials (Some "  BOB@Example.com ") (Some "Correct-Horse-9!")
              None None None)
           ∅ (fresh_world 0 0 []) bob_registers.2
           (mkAuthResult true (Some 0%nat) (Some "bob@example.com") None false)).
  - intros password cost. cbn. apply String.eqb_refl.
  - by vm_compute.
  - done.
  - by vm_compute; constructor.
  - by vm_compute.
  - done.
Defined.

Lemma reset_password_round_trip_witness :
  bob_asks.1 = inl (true, Some "jwt.5f", None)
  /\ bob_resets.1 = inl (true, None)
  /\ account bob_resets.2 "bob@example.com"
     = Some (set_password "$2b$Battery-Staple-7?" 0 bob_locked_out)
  /\ (@authenticate example_bcrypt (defaults "k") (bob_tries "Battery-Staple-7?")
        bob_resets.2).1
     = inl (mkAuthResult true (Some 0%nat) (Some "bob@example.com") None false).
Proof.
  destruct (@reset_password_round_trip example_bcrypt example_jwt (defaults "k")
              " Bob@Example.com" "Battery-Staple-7?" (world_with bob_locked_out 0)
              bob_locked_out)
    as (Hask & Hreset); [by vm_compute; constructor|
                         refine (bool_decide_unpack _ _); by vm_compute|
                         by vm_compute|].
  split; [exact Hask|].
  destruct (Hreset bob_asks.2) as (H1 & H2 & _ & H4);
    [done|by vm_compute; constructor|by repeat split; vm_compute|by vm_compute|].
  split; [exact H1|]. split; [exact H2|].
  apply H4; first [done | by left | by vm_compute | by vm_compute; constructor].
Defined.

Lemma reset_token_single_use_witness :
  bob_resets.1 = inl (true, None)
  /\ forall w3 : World,
       @reset_password example_bcrypt example_jwt (defaults "k")
         (Encoded bob_reset_token) "Another-Staple-8?" bob_resets.2
       <> (inl (true, None), w3).
Proof.
  split; [by vm_compute|].
  destruct (@reset_token_single_use example_bcrypt example_jwt (defaults "k")
              (Encoded bob_reset_token) "Battery-Staple-7?" bob_asks.2
              bob_resets.2 None)
    as (tok & user & expires & [= <-] & _ & _ & _ & Hid & _ & _ & _ & Hafter);
    [refine (bool_decide_unpack _ _); by vm_compute|by vm_compute|].
  intros w3. by apply Hafter.
Defined.

End AccountExamples.

(** ** Handing out the database client *)

Section ConnectionClientFacts.
Import Connection ConnectionClient.
Local Open Scope Z_scope.


Lemma on_success_trace (c : nat) (took at_ : Z) (m : DatabaseStateMachine) :
  trace (on_success c took at_
           (emit EvFactory (set_state CONNECTING (count_attempt m))))
  = (trace m ++ [EvState CONNECTING; EvFactory; EvState CONNECTED; EvHealthCheck])%list.
Proof.
  change (trace (on_success c took at_
                   (emit EvFactory (set_state CONNECTING (count_attempt m)))))
    with ((((trace m ++ [EvState CONNECTING]) ++ [EvFactory])
           ++ [EvState CONNECTED]) ++ [EvHealthCheck])%list.
  by rewrite <- !app_assoc.
Qed.








(** The first [k] attempts fail and the next one connects. *)
Lemma retry_loop_connects (max_retries : Z) (env : Z -> Attempt)
    (c : nat) (took at_ : Z) :
  forall (k todo : nat) (attempt : Z) (m : DatabaseStateMachine),
    (k < todo)%nat ->
    attempt + Z.of_nat todo <= max_retries ->
    (forall i, (i < k)%nat -> exists e, env (attempt + Z.of_nat i) = Fails e) ->
    env (attempt + Z.of_nat k) = Connects c took at_ ->
    let out := retry_loop max_retries env todo attempt m in
    out.1 = Returned
    /\ _client out.2 = Some c
    /\ _state out.2 = CONNECTED
    /\ _connection_error out.2 = None
    /\ connection_attempts (_metrics out.2)
       = connection_attempts (_metrics m) + Z.of_nat k + 1
    /\ connection_failures (_metrics out.2)
       = connection_failures (_metrics m) + Z.of_nat k
    /\ total_connection_time (_metrics out.2)
       = total_connection_time (_metrics m) + took
    /\ last_connection_time (_metrics out.2) = Some at_
    /\ sleeps out.2
       = (sleeps m ++ map (fun i => 1 * (attempt + Z.of_nat i + 1)) (seq 0 k))%list
    /\ states out.2
       = (states m ++ concat (repeat [CONNECTING; ERROR] k)
          ++ [CONNECTING; CONNECTED])%list.
Proof.
  induction k as [|k IH]; intros todo attempt m Hk Hsum Hfail Hconn;
    (destruct todo as [|todo]; [lia|]); cbn [retry_loop]; cbv zeta.
  - rewrite Z.add_0_r in Hconn. rewrite Hconn. cbn [fst snd].
    unfold sleeps, states. rewrite on_success_trace, !omap_app. cbn.
    rewrite !app_nil_r. repeat split; try done; lia.
  - destruct (Hfail 0%nat ltac:(lia)) as [err Herr].
    rewrite Z.add_0_r in Herr. rewrite Herr.
    fold (failed_attempt err m).
    destruct (attempt <? max_retries - 1) eqn:Hlt; [|apply Z.ltb_ge in Hlt; lia].
    specialize (IH todo (attempt + 1)
                  (emit (EvSleep (1 * (attempt + 1))) (failed_attempt err m))).
    destruct IH as (H1 & H2 & H3 & H4 & H5 & H6 & H7 & H8 & H9 & H10); [lia|lia| | |].
    { intros i Hi. destruct (Hfail (S i) ltac:(lia)) as [e He]. exists e.
      rewrite <- He. f_equal. lia. }
    { rewrite <- Hconn. f_equal. lia. }
    rewrite H1, H2, H3, H4, H5, H6, H7, H8, H9, H10.
    rewrite sleeps_emit, states_emit, failed_attempt_sleeps, failed_attempt_states.
    cbn [emit _metrics failed_attempt on_failure set_state count_attempt
         connection_attempts connection_failures total_connection_time].
    repeat split; try done; try lia.
    + rewrite <- !app_assoc. f_equal. cbn [seq map app]. f_equal; [f_equal; lia|].
      rewrite <- seq_shift, map_map. apply map_ext. intros i. lia.
    + rewrite app_nil_r, <- !app_assoc. done.
Qed.






End ConnectionClientFacts.

Section ConnectionClientClaims.
Import Connection ConnectionClient.
Local Open Scope Z_scope.


(** X17. When the first [k] attempts fail and the next one connects,
    with [k < max_retries], [ensure_connected] returns with the machine
    [CONNECTED] on the new client and its connection error cleared; it
    has made [k + 1] attempts, counted [k] failures and slept 1, 2, ...,
    [k] seconds; [get_client_if_connected] then hands out the client. *)
Theorem ensure_connected_after_failures (max_retries : Z) (env : Z -> Attempt)
    (k : nat) (c : nat) (took at_ : Z) (m : DatabaseStateMachine) :
  _state m <> CONNECTED ->
  Z.of_nat k < max_retries ->
  (forall i, (i < k)%nat -> exists e, env (Z.of_nat i) = Fails e) ->
  env (Z.of_nat k) = Connects c took at_ ->
  let out := ensure_connected max_retries env m in
  out.1 = Returned
  /\ _state out.2 = CONNECTED
  /\ get_client_if_connected out.2 = Some c
  /\ _connection_error out.2 = None
  /\ connection_attempts (_metrics out.2)
     = connection_attempts (_metrics m) + Z.of_nat k + 1
  /\ connection_failures (_metrics out.2)
     = connection_failures (_metrics m) + Z.of_nat k
  /\ total_connection_time (_metrics out.2) = total_connection_time (_metrics m) + took
  /\ last_connection_time (_metrics out.2) = Some at_
  /\ sleeps out.2 = (sleeps m ++ map (fun i => Z.of_nat i + 1) (seq 0 k))%list
  /\ states out.2
     = (states m ++ concat (repeat [CONNECTING; ERROR] k)
        ++ [CONNECTING; CONNECTED])%list.
Proof.
  intros Hs Hk Hfail Hconn out.
  destruct (retry_loop_connects max_retries env c took at_ k
              (Z.to_nat max_retries) 0 m)
    as (H1 & H2 & H3 & H4 & H5 & H6 & H7 & H8 & H9 & H10); [lia|lia|done|done|].
  assert (E : out = retry_loop max_retries env (Z.to_nat max_retries) 0 m).
  { subst out. unfold ensure_connected. by destruct (_state m). }
  rewrite E. unfold get_client_if_connected, is_connected. rewrite H3.
  repeat split; try done.
  rewrite H9. f_equal. apply map_ext. intros i. lia.
Qed.


End ConnectionClientClaims.

Section ConnectionClientExamples.
Import Connection ConnectionClient.
Local Open Scope Z_scope.


Lemma ensure_connected_after_failures_witness :
  sleeps (ensure_connected 3 (answers_after 2 7 1 5) initial).2 = [1; 2]
  /\ get_client_if_connected (ensure_connected 3 (answers_after 2 7 1 5) initial).2
     = Some 7%nat.
Proof.
  destruct (ensure_connected_after_failures 3 (answers_after 2 7 1 5) 2 7 1 5 initial)
    as (_ & _ & Hc & _ & _ & _ & _ & _ & Hs & _); [done|lia| |done|by split].
  intros i Hi. exists "refused". unfold answers_after.
  destruct (Z.of_nat i <? 2) eqn:E; [done|]. apply Z.ltb_ge in E. lia.
Defined.

(** An attempt left by an interruption while the new client was being
    validated: the machine stays [CONNECTING] with that client, and a
    later call that allows no attempt hands it out. *)
Example interrupted_while_validating :
  let out := ensure_connected 3 (fun _ => Interrupted (Some 7%nat)) initial in
  out.1 = KeyboardInterrupt
  /\ _state out.2 = CONNECTING
  /\ get_client_if_connected out.2 = None
  /\ (get_or_create_client 0 (always_failing "refused") out.2).1 = Client (Some 7%nat).
Proof. by vm_compute. Qed.

End ConnectionClientExamples.

(** ** The circuit breaker in use *)

Section BreakerFacts.
Import Camera CameraService.
Local Open Scope Z_scope.

Context {R : Type}.

Lemma call_kept (cb : CircuitBreaker) (func : Behaviour R) (now now_exc : Z) :
  1 <= failure_threshold cb -> kept cb ->
  kept (after (call cb func now now_exc))
  /\ failure_threshold (after (call cb func now now_exc)) = failure_threshold cb
  /\ timeout (after (call cb func now now_exc)) = timeout cb.
Proof.
  intros Hth. unfold kept, call.
  destruct (state cb) eqn:Es.
  - intros Hc. destruct func as [r|e|]; cbn; [lia| |by rewrite Es].
    destruct (failure_threshold cb <=? failure_count cb + 1) eqn:E; cbn;
      rewrite ?Es; [apply Z.leb_le in E|apply Z.leb_gt in E]; repeat split; lia || eauto.
  - intros [Hc Hl]. destruct (cooldown_over cb now); [|cbn; by rewrite Es].
    destruct func as [r|e|]; cbn; [lia| |done].
    destruct (failure_threshold cb <=? failure_count cb + 1) eqn:E; cbn;
      [repeat split; lia || eauto|apply Z.leb_gt in E; lia].
  - intros [Hc Hl]. destruct func as [r|e|]; cbn; [lia| |by rewrite Es].
    destruct (failure_threshold cb <=? failure_count cb + 1) eqn:E; cbn;
      [repeat split; lia || eauto|apply Z.leb_gt in E; lia].
Qed.

Lemma use_kept (cb : CircuitBreaker) (u : Use R) :
  1 <= failure_threshold cb -> kept cb ->
  kept (apply_use cb u)
  /\ failure_threshold (apply_use cb u) = failure_threshold cb
  /\ timeout (apply_use cb u) = timeout cb.
Proof.
  intros Hth Hr. destruct u as [func now now_exc|]; [by apply call_kept|].
  unfold kept. cbn. repeat split; lia.
Qed.

(** A call whose function is not interrupted never leaves the breaker
    half-open. *)
Lemma call_not_half_open (cb : CircuitBreaker) (func : Behaviour R) (now now_exc : Z) :
  1 <= failure_threshold cb -> kept cb ->
  state cb <> HALF_OPEN -> func <> Interrupts ->
  state (after (call cb func now now_exc)) <> HALF_OPEN.
Proof.
  intros Hth Hk Hs Hf. unfold kept, call in *.
  destruct (state cb) eqn:Es; [| |done].
  - destruct func as [r|e|]; cbn; [done| |done].
    destruct (failure_threshold cb <=? failure_count cb + 1); cbn; by rewrite ?Es.
  - destruct (cooldown_over cb now); [|cbn; by rewrite Es].
    destruct func as [r|e|]; cbn; [done| |done].
    destruct (failure_threshold cb <=? failure_count cb + 1) eqn:E; cbn; [done|].
    apply Z.leb_gt in E. lia.
Qed.

Lemma uses_snoc (us : list (Use R)) (u : Use R) (cb : CircuitBreaker) :
  apply_uses (us ++ [u]) cb = apply_use (apply_uses us cb) u.
Proof. unfold apply_uses. by rewrite fold_left_app. Qed.

Lemma failures_in_a_row_snoc (us : list (Use R)) (u : Use R) :
  failures_in_a_row (us ++ [u])
  = match u with
    | Calling (Raises _) _ _ => failures_in_a_row us + 1
    | Calling Interrupts _ _ => failures_in_a_row us
    | _ => 0
    end.
Proof. unfold failures_in_a_row. by rewrite fold_left_app. Qed.

Lemma uses_kept (threshold cooldown : Z) (us : list (Use R)) :
  1 <= threshold ->
  let cb := apply_uses us (new threshold cooldown) in
  kept cb
  /\ failure_threshold cb = threshold
  /\ timeout cb = cooldown
  /\ (state cb = CLOSED -> failure_count cb = failures_in_a_row us)
  /\ (no_interrupt us = true -> state cb <> HALF_OPEN).
Proof.
  intros Hth. induction us as [|u us IH] using rev_ind; cbv zeta.
  { unfold kept. cbn. repeat split; try done; lia. }
  rewrite uses_snoc, failures_in_a_row_snoc.
  cbv zeta in IH. destruct IH as (Hr & Ht & Hc & Hn & Hh).
  set (cb := apply_uses us (new threshold cooldown)) in *.
  destruct (use_kept cb u ltac:(lia) Hr) as (Hr' & Ht' & Hc').
  split; [done|]. split; [congruence|]. split; [congruence|]. split.
  - destruct u as [func now now_exc|]; [|done].
    unfold apply_use, call. unfold kept in Hr.
    destruct (state cb) eqn:Es.
    + destruct func as [r|e|]; cbn; [done| |by rewrite Es].
      destruct (failure_threshold cb <=? failure_count cb + 1); cbn; [done|].
      intros _. by rewrite Hn.
    + destruct (cooldown_over cb now); [|cbn; by rewrite Es].
      destruct func as [r|e|]; cbn; [done| |done].
      destruct (failure_threshold cb <=? failure_count cb + 1) eqn:E; cbn; [done|].
      apply Z.leb_gt in E. lia.
    + destruct func as [r|e|]; cbn; [done| |by rewrite Es].
      destruct (failure_threshold cb <=? failure_count cb + 1) eqn:E; cbn; [done|].
      apply Z.leb_gt in E. lia.
  - unfold no_interrupt. rewrite forallb_app. cbn [forallb]. rewrite andb_true_r.
    intros [Hus Hu]%andb_prop. specialize (Hh Hus).
    destruct u as [func now now_exc|]; [|done]. cbn [apply_use].
    apply call_not_half_open; [lia|done|done|]. by intros ->.
Qed.

End BreakerFacts.

Section LatestImageFacts.
Import Camera CameraService.
Local Open Scope Z_scope.

Lemma back_off_fields (max_retries attempt : Z) (a : Attempt) (s : Fetching) :
  success (metadata (back_off max_retries attempt a s)) = success (metadata s)
  /\ attempts (metadata (back_off max_retries attempt a s)) = attempts (metadata s)
  /\ circuit_breaker (back_off max_retries attempt a s) = circuit_breaker s
  /\ requested (back_off max_retries attempt a s) = requested s
  /\ delays_used (metadata (back_off max_retries attempt a s))
     = (delays_used (metadata s)
        ++ if attempt <? max_retries - 1 then [total_delay attempt a] else [])%list.
Proof.
  unfold back_off. destruct (attempt <? max_retries - 1); cbn; [done|].
  by rewrite app_nil_r.
Qed.

(** One iteration that does not bring the image goes on with the next
    attempt, after backing off. *)
Lemma attempts_loop_step (max_retries : Z) (env : Z -> Attempt) (todo : nat)
    (attempt : Z) (s : Fetching) :
  let a := env attempt in
  let md := metadata s in
  let s1 := mkFetching (mkMetadata (success md) (attempt + 1) (delays_used md))
                       (circuit_breaker s) (requested s) in
  let c := call (circuit_breaker s) (fetch_image a) (at_guard a) (at_except a) in
  let s2 := if check_connection a
            then mkFetching (metadata s1) (after c)
                   (if invoked c then requested s ++ [attempt] else requested s)
            else s1 in
  attempts_loop max_retries env (S todo) attempt s
  = if check_connection a
       && match outcome c with Interruption => true | _ => false end
    then (RequestInterrupted, s2)
    else if check_connection a
       && match outcome c with
          | Result status_code => (status_code =? 200) && written a
          | _ => false
          end
    then (ImagePath (Some (temp_path a)),
          mkFetching (mkMetadata true (attempt + 1) (delays_used md))
                     (after c) (requested s2))
    else attempts_loop max_retries env todo (attempt + 1)
           (back_off max_retries attempt a s2).
Proof.
  cbn [attempts_loop]. cbv zeta.
  destruct (check_connection (env attempt)); cbn [negb andb]; [|done].
  destruct (outcome _) as [status_code| |e|]; [|done..].
  by destruct ((status_code =? 200) && written (env attempt)).
Qed.

Lemma call_result (cb : CircuitBreaker) (func : Behaviour Z) (now now_exc : Z)
    (status_code : Z) :
  outcome (call cb func now now_exc) = Result status_code ->
  func = Returns status_code
  /\ invoked (call cb func now now_exc) = true
  /\ state (after (call cb func now now_exc)) = CLOSED
  /\ failure_count (after (call cb func now now_exc)) = 0.
Proof.
  unfold call. destruct (state cb); [|destruct (cooldown_over cb now)|];
    destruct func as [r|e|]; cbn; try done; by intros [= ->].
Qed.

Lemma call_interruption (cb : CircuitBreaker) (func : Behaviour Z) (now now_exc : Z) :
  outcome (call cb func now now_exc) = Interruption -> func = Interrupts.
Proof.
  unfold call. destruct (state cb); [|destruct (cooldown_over cb now)|];
    by destruct func as [r|e|].
Qed.

Lemma image_attempts_spec (max_retries : Z) (env : Z -> Attempt) :
  forall (todo : nat) (attempt : Z) (s : Fetching),
    attempt + Z.of_nat todo = max_retries ->
    success (metadata s) = false ->
    let out := attempts_loop max_retries env todo attempt s in
    let md := metadata out.2 in
    exists n : nat,
      (n <= todo)%nat
      /\ (n = 0%nat -> out = (ImagePath None, s))
      /\ ((1 <= n)%nat -> attempts md = attempt + Z.of_nat n)
      /\ delays_used md
         = (delays_used (metadata s)
            ++ map (fun i => total_delay (attempt + Z.of_nat i)
                               (env (attempt + Z.of_nat i)))
                   (seq 0 (n - 1)))%list
      /\ match out.1 with
         | ImagePath None => n = todo /\ success md = false
         | ImagePath (Some p) =>
             (1 <= n)%nat
             /\ delivers (env (attempt + Z.of_nat n - 1)) = true
             /\ p = temp_path (env (attempt + Z.of_nat n - 1))
             /\ success md = true
             /\ state (circuit_breaker out.2) = CLOSED
             /\ failure_count (circuit_breaker out.2) = 0
         | RequestInterrupted =>
             (1 <= n)%nat
             /\ check_connection (env (attempt + Z.of_nat n - 1)) = true
             /\ interrupts (env (attempt + Z.of_nat n - 1)) = true
             /\ success md = false
         end.
Proof.
  induction todo as [|todo IH]; intros attempt s Hsum Hsucc.
  { exists 0%nat. cbn. rewrite app_nil_r. repeat split; try done. lia. }
  cbv zeta. rewrite attempts_loop_step. cbv zeta.
  set (a := env attempt).
  set (c := call (circuit_breaker s) (fetch_image a) (at_guard a) (at_except a)).
  set (s2 := if check_connection a then _ else _).
  assert (Hs2 : success (metadata s2) = false /\ attempts (metadata s2) = attempt + 1
                /\ delays_used (metadata s2) = delays_used (metadata s)).
  { subst s2. by destruct (check_connection a). }
  destruct Hs2 as (S1 & S2 & S3).
  destruct (check_connection a && match outcome c with Interruption => true | _ => false end)
    eqn:Eint.
  { exists 1%nat. cbn [fst snd seq map Nat.sub].
    rewrite app_nil_r. replace (attempt + Z.of_nat 1 - 1) with attempt by lia.
    apply andb_prop in Eint as [Hcc Hres].
    destruct (outcome c) eqn:Eout; try done.
    pose proof (call_interruption _ _ _ _ Eout) as Hf.
    repeat split; try done; try lia.
    all: unfold interrupts; fold a; by rewrite Hf. }
  destruct (check_connection a
            && match outcome c with
               | Result status_code => (status_code =? 200) && written a
               | _ => false
               end) eqn:Eok.
  - exists 1%nat. cbn [fst snd metadata attempts delays_used success seq map
                       circuit_breaker Nat.sub].
    rewrite app_nil_r. replace (attempt + Z.of_nat 1 - 1) with attempt by lia.
    apply andb_prop in Eok as [Hcc Hres].
    destruct (outcome c) as [status_code| |e|] eqn:Eout; [|done..].
    destruct (call_result _ _ _ _ _ Eout) as (Hf & _ & Hst & Hfc).
    repeat split; try done; try lia.
    all: unfold delivers; fold a; by rewrite Hcc, Hf.
  - destruct (back_off_fields max_retries attempt a s2) as (B1 & B2 & B3 & B4 & B5).
    destruct (IH (attempt + 1) (back_off max_retries attempt a s2))
      as (n & Hn & H0 & Hatt & Hdel & Hres); [lia|congruence|].
    cbv zeta in H0, Hatt, Hdel, Hres.
    exists (S n). split; [lia|]. split; [done|].
    assert (Hn0 : n = 0%nat -> todo = 0%nat).
    { intros ->. rewrite (H0 eq_refl) in Hres. cbn in Hres. by destruct Hres. }
    split; [|split].
    + intros _. destruct n as [|n].
      * rewrite (H0 eq_refl). cbn [snd]. rewrite B2, S2. lia.
      * rewrite Hatt by lia. lia.
    + rewrite Hdel, B5, S3. replace (S n - 1)%nat with n by lia.
      rewrite <- app_assoc. f_equal.
      destruct n as [|n].
      * rewrite (Hn0 eq_refl) in Hsum.
        destruct (attempt <? max_retries - 1) eqn:E; [apply Z.ltb_lt in E; lia|done].
      * destruct (attempt <? max_retries - 1) eqn:E; [|apply Z.ltb_ge in E; lia].
        replace (S n - 1)%nat with n by lia. cbn [seq map app].
        rewrite Z.add_0_r. f_equal.
        rewrite <- seq_shift, map_map. apply map_ext. intros i.
        by replace (attempt + 1 + Z.of_nat i) with (attempt + Z.of_nat (S i)) by lia.
    + replace (attempt + Z.of_nat (S n) - 1) with (attempt + 1 + Z.of_nat n - 1) by lia.
      destruct (attempts_loop _ _ _ _ _).1 as [[p|]|].
      * destruct Hres as (H1 & H2 & H3 & H4 & H5 & H6).
        repeat split; try done. lia.
      * destruct Hres as [-> Hs]. by split.
      * destruct Hres as (H1 & H2 & H3 & H4). repeat split; try done. lia.
Qed.

(** With the breaker open and the cooldown never found over, no request
    is made. *)
Lemma attempts_loop_open (max_retries : Z) (env : Z -> Attempt) :
  forall (todo : nat) (attempt : Z) (s : Fetching),
    state (circuit_breaker s) = OPEN ->
    (forall i, attempt <= i < attempt + Z.of_nat todo ->
               cooldown_over (circuit_breaker s) (at_guard (env i)) = false) ->
    let out := attempts_loop max_retries env todo attempt s in
    out.1 = ImagePath None
    /\ circuit_breaker out.2 = circuit_breaker s
    /\ requested out.2 = requested s.
Proof.
  induction todo as [|todo IH]; intros attempt s Hst Hcool; [done|].
  cbv zeta. rewrite attempts_loop_step. cbv zeta.
  assert (Hcall : forall func now_exc,
            call (circuit_breaker s) func (at_guard (env attempt)) now_exc
            = mkCall CircuitOpenError false (circuit_breaker s) :> Call Z).
  { intros func now_exc. unfold call. rewrite Hst, Hcool by lia. done. }
  rewrite !Hcall. cbn [outcome invoked after]. rewrite !andb_false_r.
  set (s2 := if check_connection _ then _ else _).
  assert (Hs2 : circuit_breaker s2 = circuit_breaker s /\ requested s2 = requested s).
  { subst s2. by destruct (check_connection _). }
  destruct Hs2 as [C1 C2].
  destruct (back_off_fields max_retries attempt (env attempt) s2) as (_ & _ & B3 & B4 & _).
  destruct (IH (attempt + 1) (back_off max_retries attempt (env attempt) s2))
    as (H1 & H2 & H3).
  - by rewrite B3, C1.
  - intros i Hi. rewrite B3, C1. apply Hcool. lia.
  - cbv zeta in H1, H2, H3. rewrite H1, H2, H3. by rewrite B3, B4, C1, C2.
Qed.


Lemma get_latest_image_facts (max_retries : Z) (env : Z -> Attempt)
    (cb : CircuitBreaker) :
  let out := get_latest_image max_retries env cb in
  let md := metadata out.2 in
  0 <= attempts md <= Z.max 0 max_retries
  /\ delays_used md
     = map (fun i => total_delay (Z.of_nat i) (env (Z.of_nat i)))
           (seq 0 (Z.to_nat (attempts md) - 1))
  /\ match out.1 with
     | ImagePath None => success md = false /\ attempts md = Z.max 0 max_retries
     | ImagePath (Some p) =>
         success md = true
         /\ 1 <= attempts md
         /\ delivers (env (attempts md - 1)) = true
         /\ p = temp_path (env (attempts md - 1))
         /\ state (circuit_breaker out.2) = CLOSED
         /\ failure_count (circuit_breaker out.2) = 0
     | RequestInterrupted =>
         success md = false
         /\ 1 <= attempts md
         /\ check_connection (env (attempts md - 1)) = true
         /\ interrupts (env (attempts md - 1)) = true
     end.
Proof.
  cbv zeta. unfold get_latest_image.
  destruct (Z.le_gt_cases max_retries 0) as [Hn|Hn].
  { replace (Z.to_nat max_retries) with 0%nat by lia. cbn.
    repeat split; try done; lia. }
  destruct (image_attempts_spec max_retries env (Z.to_nat max_retries) 0
              (mkFetching (mkMetadata false 0 []) cb []))
    as (n & Hle & H0 & Hatt & Hdel & Hres); [lia|done|].
  cbv zeta in H0, Hatt, Hdel, Hres. cbn [metadata delays_used app] in Hdel.
  set (out := attempts_loop _ _ _ _ _) in *.
  assert (Hn1 : (1 <= n)%nat).
  { destruct n as [|n]; [|lia]. rewrite (H0 eq_refl) in Hres. cbn in Hres. lia. }
  rewrite (Hatt Hn1) in *. rewrite Z.add_0_l.
  replace (Z.to_nat (Z.of_nat n)) with n by lia.
  split; [lia|]. split.
  - rewrite Hdel. apply map_ext. intros i. by rewrite Z.add_0_l.
  - destruct out.1 as [[p|]|].
    + destruct Hres as (_ & H2 & H3 & H4 & H5 & H6).
      rewrite Z.add_0_l in H2, H3. repeat split; try done. lia.
    + destruct Hres as [-> Hs]. split; [done|lia].
    + destruct Hres as (_ & H2 & H3 & H4).
      rewrite Z.add_0_l in H2, H3. repeat split; try done. lia.
Qed.

End LatestImageFacts.

Section CameraServiceClaims.
Import Camera CameraService.
Local Open Scope Z_scope.

(** X19. Along any run of calls and resets from a new breaker of
    threshold at least 1, whatever the protected function does (return,
    raise, or be left by an interruption that [except Exception] does
    not catch) and whatever the clock reads: the threshold and the
    cooldown never change; while the breaker is closed, its count is the
    number of failures in a row since the last return or reset, and is
    below the threshold; while it is open or half-open, its count is at
    or above the threshold and the instant of the last failure is kept.
    The breaker is left half-open by interruptions only: never along a
    run in which no function is interrupted, and always when the probe
    let through after the cooldown is interrupted. *)
Theorem breaker_invariants {R : Type} (threshold cooldown : Z) (us : list (Use R)) :
  1 <= threshold ->
  let cb := apply_uses us (new threshold cooldown) in
  failure_threshold cb = threshold
  /\ timeout cb = cooldown
  /\ (state cb = CLOSED ->
      failure_count cb = failures_in_a_row us /\ 0 <= failures_in_a_row us < threshold)
  /\ (state cb <> CLOSED ->
      threshold <= failure_count cb /\ is_Some (last_failure_time cb))
  /\ (no_interrupt us = true -> state cb <> HALF_OPEN /\ at_rest cb)
  /\ (forall now now_exc,
        state cb = OPEN -> cooldown_over cb now = true ->
        state (apply_use cb (Calling (@Interrupts R) now now_exc)) = HALF_OPEN).
Proof.
  intros Hth cb.
  destruct (uses_kept threshold cooldown us Hth) as (Hr & Ht & Hc & Hn & Hh).
  fold cb in Hr, Ht, Hc, Hn, Hh. unfold kept, at_rest in *.
  split; [done|]. split; [done|]. split; [|split; [|split]].
  - intros Hs. rewrite Hs in Hr. rewrite <- (Hn Hs). split; [done|lia].
  - intros Hs. rewrite <- Ht. destruct (state cb); done.
  - intros Hu. specialize (Hh Hu). split; [done|]. by destruct (state cb).
  - intros now now_exc Hs Hcool. cbn [apply_use]. unfold call.
    by rewrite Hs, Hcool.
Qed.


(** X21. While the breaker is open and its guard does not find the
    cooldown over, [get_latest_image] never calls [requests.get] for the
    image (each attempt still asks [check_connection] first) and leaves
    the breaker as it is; it goes through all its attempts, backing off
    between them, and returns no path. *)
Theorem get_latest_image_breaker_open (max_retries : Z) (env : Z -> Attempt)
    (cb : CircuitBreaker) :
  state cb = OPEN ->
  (forall i, 0 <= i < max_retries -> cooldown_over cb (at_guard (env i)) = false) ->
  let out := get_latest_image max_retries env cb in
  out.1 = ImagePath None
  /\ requested out.2 = []
  /\ circuit_breaker out.2 = cb
  /\ attempts (metadata out.2) = Z.max 0 max_retries
  /\ length (delays_used (metadata out.2)) = Z.to_nat (max_retries - 1).
Proof.
  intros Hst Hcool. cbv zeta.
  destruct (get_latest_image_facts max_retries env cb) as (_ & Hd & Hres).
  cbv zeta in Hd, Hres. unfold get_latest_image in *.
  destruct (attempts_loop_open max_retries env (Z.to_nat max_retries) 0
              (mkFetching (mkMetadata false 0 []) cb []))
    as (H1 & H2 & H3); [done|intros i Hi; apply Hcool; lia|].
  cbv zeta in H1, H2, H3. rewrite H1 in Hres. destruct Hres as [_ Hatt].
  repeat split; try done.
  rewrite Hd, length_map, length_seq, Hatt. lia.
Qed.

End CameraServiceClaims.

Section CameraServiceExamples.
Import Camera CameraService.
Local Open Scope Z_scope.

Lemma breaker_invariants_witness :
  state (apply_uses (repeat (Calling (@Raises unit "down") 0 0) 5) (new 5 60)) <> CLOSED
  /\ 5 <= failure_count (apply_uses (repeat (Calling (@Raises unit "down") 0 0) 5) (new 5 60)).
Proof.
  destruct (breaker_invariants 5 60 (repeat (Calling (@Raises unit "down") 0 0) 5))
    as (_ & _ & _ & Hopen & _); [lia|].
  assert (Hs : state (apply_uses (repeat (Calling (@Raises unit "down") 0 0) 5)
                        (new 5 60)) <> CLOSED) by done.
  split; [done|]. by apply Hopen.
Defined.

Lemma get_latest_image_breaker_open_witness :
  (get_latest_image 3 refusing tripped).1 = ImagePath None
  /\ requested (get_latest_image 3 refusing tripped).2 = []
  /\ length (delays_used (metadata (get_latest_image 3 refusing tripped).2)) = 2%nat.
Proof.
  destruct (get_latest_image_breaker_open 3 refusing tripped)
    as (H1 & H2 & _ & _ & H5); [done| |by repeat split].
  intros i Hi. assert (i = 0 \/ i = 1 \/ i = 2) as [->|[->| ->]] by lia; done.
Defined.

(** Three failures in a row, then an image at the fourth attempt: the
    delays are 1, 2 and 4 seconds plus the jitter. *)
Example latest_image_at_fourth_attempt :
  let env := fun i => if i <? 3 then refusing i
                      else mkAttempt true (Returns 200) true "img.jpg" 0 0 0 in
  let out := get_latest_image 5 env (new 5 60) in
  out.1 = ImagePath (Some "img.jpg")
  /\ metadata out.2 = mkMetadata true 4 [1500000; 2500000; 4500000]
  /\ requested out.2 = [0; 1; 2; 3]
  /\ circuit_breaker out.2 = mkBreaker 5 60 0 (Some 2000000) CLOSED.
Proof. by vm_compute. Qed.

(** A probe that is interrupted: one day and one minute after the last
    of five failures the open breaker lets the request through; the
    request is left by an interruption, which goes through
    [get_latest_image], and the breaker stays half-open. *)
Example interrupted_probe :
  let env := fun _ : Z =>
    mkAttempt true Interrupts true "img.jpg"
      (PyTime.timedelta_days 1 + PyTime.timedelta_seconds 60) 0 0 in
  let out := get_latest_image 3 env tripped in
  out.1 = RequestInterrupted
  /\ attempts (metadata out.2) = 1
  /\ requested out.2 = [0]
  /\ state (circuit_breaker out.2) = HALF_OPEN.
Proof. by vm_compute. Qed.

End CameraServiceExamples.

(** ** Running a function in a transaction *)

Section TransactionManagerFacts.
Import Transactions TransactionManager.
Local Open Scope Z_scope.

Context {R : Type}.

(** How one attempt ends. *)
Lemma attempt_once_cases (attempt : Z) (a : Attempt R) :
  let out := attempt_once attempt a in
  sleeps out.2 = []
  /\ match out.1 with
     | inl result => goes_through a result /\ commits out.2 = [attempt]
     | inr e =>
         commits out.2 = []
         /\ if retried e
            then start_raises a = None /\ func_does a = inr e
            else gives_up a e
     end.
Proof.
  unfold attempt_once, goes_through, gives_up.
  destruct (start_raises a) as [e0|] eqn:Es; cbn.
  { split; [done|]. split; [done|]. left. by exists e0. }
  destruct (func_does a) as [result|e] eqn:Ef; cbn.
  - destruct (commit_raises a) as [e0|] eqn:Ec; cbn; [|done].
    split; [done|]. split; [done|]. right. right.
    split; [done|]. split; [by exists result|]. by exists e0.
  - split; [done|]. split; [done|].
    destruct (retried e) eqn:Er; [done|]. right. by left.
Qed.

Lemma sleeps_app (t1 t2 : list Event) : sleeps (t1 ++ t2) = (sleeps t1 ++ sleeps t2)%list.
Proof. unfold sleeps. by rewrite omap_app. Qed.

Lemma commits_app (t1 t2 : list Event) :
  commits (t1 ++ t2) = (commits t1 ++ commits t2)%list.
Proof. unfold commits. by rewrite omap_app. Qed.

Lemma transaction_attempts_spec (max_retries : Z) (env : Z -> Attempt R) :
  forall (todo : nat) (attempt : Z) (last : option Exc) (trace : list Event),
    let out := attempts_loop max_retries env todo attempt last trace in
    exists k : nat,
      (k <= todo)%nat
      /\ (forall i, (i < k)%nat -> stumbles (env (attempt + Z.of_nat i)))
      /\ sleeps out.2
         = (sleeps trace ++ map (fun i => 100 * (attempt + Z.of_nat i + 1)) (seq 0 k))%list
      /\ match out.1 with
         | inl result =>
             (k < todo)%nat
             /\ goes_through (env (attempt + Z.of_nat k)) result
             /\ commits out.2 = (commits trace ++ [attempt + Z.of_nat k])%list
         | inr e =>
             commits out.2 = commits trace
             /\ ((k = todo
                  /\ exists last', e = TransactionError (FailedAfter max_retries last')
                       /\ (k = 0%nat -> last' = last)
                       /\ ((1 <= k)%nat ->
                           exists e0, last' = Some e0
                                      /\ func_does (env (attempt + Z.of_nat k - 1))
                                         = inr e0))
                 \/ ((k < todo)%nat
                     /\ exists e0, gives_up (env (attempt + Z.of_nat k)) e0
                                   /\ e = TransactionError (TransactionFailed e0)))
         end.
Proof.
  induction todo as [|todo IH]; intros attempt last trace; cbv zeta.
  { exists 0%nat. cbn. rewrite app_nil_r.
    split; [lia|]. split; [intros i Hi; lia|]. split; [done|]. split; [done|].
    left. split; [done|]. exists last. split; [done|]. split; [done|]. lia. }
  cbn [attempts_loop].
  pose proof (attempt_once_cases attempt (env attempt)) as Hone. cbv zeta in Hone.
  destruct (attempt_once attempt (env attempt)) as [[result|e] evs];
    cbn [fst snd] in Hone; destruct Hone as [Hsl Hone].
  - destruct Hone as [Hgo Hco]. exists 0%nat. cbn [fst snd seq map].
    rewrite sleeps_app, commits_app, Hsl, Hco, Z.add_0_r.
    split; [lia|]. split; [intros i Hi; lia|]. split; [done|].
    split; [lia|]. by split.
  - destruct Hone as [Hco Hone]. destruct (retried e) eqn:Er.
    + destruct Hone as [Hst Hfn].
      specialize (IH (attempt + 1) (Some e)
                     ((trace ++ evs) ++ [EvSleep (100 * (attempt + 1))])%list).
      cbv zeta in IH. destruct IH as (k & Hk & Hstum & Hsleep & Hres).
      exists (S k). split; [lia|]. split; [|split].
      * intros [|i] Hi.
        -- rewrite Z.add_0_r. split; [done|]. by exists e.
        -- replace (attempt + Z.of_nat (S i)) with (attempt + 1 + Z.of_nat i) by lia.
           apply Hstum. lia.
      * rewrite Hsleep, !sleeps_app, Hsl. cbn [sleeps omap]. cbn.
        rewrite app_nil_r, <- app_assoc. f_equal. cbn [app]. f_equal; [f_equal; lia|].
        rewrite <- seq_shift, map_map. apply map_ext. intros i. f_equal. lia.
      * replace (attempt + Z.of_nat (S k)) with (attempt + 1 + Z.of_nat k) by lia.
        destruct (attempts_loop _ _ _ _ _ _).1 as [result|e'].
        -- destruct Hres as (H1 & H2 & H3). split; [lia|]. split; [done|].
           rewrite H3, !commits_app, Hco. cbn. by rewrite !app_nil_r.
        -- destruct Hres as [Hc Hres]. split.
           { rewrite Hc, !commits_app, Hco. cbn. by rewrite !app_nil_r. }
           destruct Hres as [(Hkt & last' & -> & H0 & H1)|(Hlt & e0 & Hg & ->)].
           ++ left. split; [lia|]. exists last'. split; [done|].
              split; [lia|]. intros _. destruct k as [|k].
              ** exists e. rewrite (H0 eq_refl). split; [done|].
                 by replace (attempt + 1 + Z.of_nat 0 - 1) with attempt by lia.
              ** apply H1. lia.
           ++ right. split; [lia|]. by exists e0.
    + exists 0%nat. cbn [fst snd seq map]. rewrite sleeps_app, commits_app, Hsl, Hco.
      rewrite Z.add_0_r, !app_nil_r.
      split; [lia|]. split; [intros i Hi; lia|]. split; [done|]. split; [done|].
      right. split; [lia|]. by exists e.
Qed.

Lemma stumbles_not_through (a : Attempt R) (result : R) :
  stumbles a -> goes_through a result -> False.
Proof. intros (_ & e & He & _) (_ & Hf & _). congruence. Qed.

Lemma stumbles_not_gives_up (a : Attempt R) (e : Exc) :
  stumbles a -> gives_up a e -> False.
Proof.
  intros (Hs & e1 & He & Hr) [(e0 & H0 & _)|[(_ & Hf & Hr')|(_ & [r Hf] & _)]];
    congruence.
Qed.

Lemma gives_up_unique (a : Attempt R) (e e' : Exc) :
  gives_up a e -> gives_up a e' -> e = e'.
Proof.
  intros [(e0 & H0 & ->)|[(Hs & Hf & Hr)|(Hs & [r Hf] & e0 & Hc & ->)]]
         [(e1 & H1 & ->)|[(Hs' & Hf' & Hr')|(Hs' & [r' Hf'] & e1 & Hc' & ->)]];
    congruence.
Qed.

End TransactionManagerFacts.

Section TransactionManagerClaims.
Import Transactions TransactionManager.
Local Open Scope Z_scope.

(** X22. How [execute_in_transaction] ends, for a function that returns
    or raises an [Exception]. There is a number [k] of attempts in which
    the transaction started and the function raised a connection
    failure or a transient operation failure; after attempt
    [i] of these it has slept [0.1 * (i + 1)] seconds. Then either
    attempt [k] goes through and its result is returned after exactly one
    commit; or attempt [k] raises something else, from the start, the
    function or the commit, and that comes out wrapped in
    [TransactionError("Transaction failed: ...")] with nothing committed;
    or the [max_retries] attempts are used up and the error is
    "Transaction failed after N attempts" with the last error, the
    function having slept after the last attempt too. With
    [max_retries <= 0] the function is never called and the last error is
    [None]. *)
Theorem execute_in_transaction_outcomes {R : Type} (max_retries : Z)
    (env : Z -> Attempt R) :
  let out := execute_in_transaction max_retries env in
  exists k : nat,
    Z.of_nat k <= Z.max 0 max_retries
    /\ (forall i, (i < k)%nat -> stumbles (env (Z.of_nat i)))
    /\ sleeps out.2 = map (fun i => 100 * (Z.of_nat i + 1)) (seq 0 k)
    /\ match out.1 with
       | inl result =>
           Z.of_nat k < max_retries
           /\ goes_through (env (Z.of_nat k)) result
           /\ commits out.2 = [Z.of_nat k]
       | inr e =>
           commits out.2 = []
           /\ ((Z.of_nat k = Z.max 0 max_retries
                /\ exists last, e = TransactionError (FailedAfter max_retries last)
                     /\ (k = 0%nat -> last = None)
                     /\ ((1 <= k)%nat ->
                         exists e0, last = Some e0
                                    /\ func_does (env (Z.of_nat k - 1)) = inr e0))
               \/ (Z.of_nat k < max_retries
                   /\ exists e0, gives_up (env (Z.of_nat k)) e0
                                 /\ e = TransactionError (TransactionFailed e0)))
       end.
Proof.
  cbv zeta. unfold execute_in_transaction.
  destruct (transaction_attempts_spec max_retries env (Z.to_nat max_retries) 0 None [])
    as (k & Hk & Hstum & Hsl & Hres).
  cbv zeta in Hsl, Hres. exists k. split; [lia|]. split; [|split].
  - intros i Hi. specialize (Hstum i Hi). by rewrite Z.add_0_l in Hstum.
  - rewrite Hsl. cbn [sleeps omap app]. apply map_ext. intros i. by rewrite Z.add_0_l.
  - destruct (attempts_loop _ _ _ _ _ _).1 as [result|e].
    + destruct Hres as (H1 & H2 & H3). rewrite Z.add_0_l in H2, H3.
      split; [lia|]. by split.
    + destruct Hres as [Hc Hres]. split; [done|].
      destruct Hres as [(-> & last & -> & H0 & H1)|(Hlt & e0 & Hg & ->)].
      * left. split; [lia|]. exists last. split; [done|]. split; [done|].
        intros Hk1. destruct (H1 Hk1) as (e0 & -> & Hf). exists e0.
        split; [done|]. by rewrite Z.add_0_l in Hf.
      * right. split; [lia|]. exists e0. by rewrite Z.add_0_l in Hg.
Qed.

(** X23. Whatever [Exception] the function raises, the only exception
    that leaves [execute_in_transaction] is a [TransactionError] of the
    class itself: a [VersionConflictError] or a [TransactionTimeoutError] raised by the
    function, at any attempt reached through retried errors, ends the
    call at once, wrapped in the message "Transaction failed: ...", and a
    connection failure met when starting or committing is wrapped the
    same way and is not retried. *)
Theorem execute_in_transaction_wraps {R : Type} (max_retries : Z)
    (env : Z -> Attempt R) :
  let out := execute_in_transaction max_retries env in
  (forall e, out.1 = inr e -> exists m, e = TransactionError m)
  /\ forall (k : nat) (e0 : Exc),
       Z.of_nat k < max_retries ->
       (forall i, (i < k)%nat -> stumbles (env (Z.of_nat i))) ->
       gives_up (env (Z.of_nat k)) e0 ->
       out.1 = inr (TransactionError (TransactionFailed e0))
       /\ sleeps out.2 = map (fun i => 100 * (Z.of_nat i + 1)) (seq 0 k)
       /\ commits out.2 = [].
Proof.
  cbv zeta. unfold execute_in_transaction.
  destruct (transaction_attempts_spec max_retries env (Z.to_nat max_retries) 0 None [])
    as (k' & Hk' & Hstum' & Hsl & Hres).
  cbv zeta in Hsl, Hres. split.
  - intros e He. rewrite He in Hres.
    destruct Hres as [_ [(_ & last & -> & _)|(_ & e0 & _ & ->)]]; by eexists.
  - intros k e0 Hk Hstum Hg.
    assert (Hkk : k' = k).
    { destruct (Nat.lt_trichotomy k' k) as [Hlt|[->|Hgt]]; [|done|].
      - exfalso. specialize (Hstum k' Hlt).
        destruct (attempts_loop _ _ _ _ _ _).1 as [result|e].
        + destruct Hres as (_ & Hgo & _). rewrite Z.add_0_l in Hgo.
          by eapply stumbles_not_through.
        + destruct Hres as [_ [(-> & _)|(_ & e1 & Hg1 & _)]]; [lia|].
          rewrite Z.add_0_l in Hg1. by eapply stumbles_not_gives_up.
      - exfalso. specialize (Hstum' k Hgt). rewrite Z.add_0_l in Hstum'.
        by eapply stumbles_not_gives_up. }
    subst k'. rewrite Hsl. cbn [sleeps omap app].
    destruct (attempts_loop _ _ _ _ _ _).1 as [result|e].
    + destruct Hres as (_ & Hgo & _). rewrite Z.add_0_l in Hgo. exfalso.
      destruct Hgo as (Hs & Hf & Hc).
      destruct Hg as [(e1 & H1 & _)|[(_ & Hf' & _)|(_ & _ & e1 & Hc' & _)]]; congruence.
    + destruct Hres as [Hc [(-> & _)|(_ & e1 & Hg1 & ->)]]; [lia|].
      rewrite Z.add_0_l in Hg1. rewrite (gives_up_unique _ _ _ Hg Hg1).
      split; [done|]. split; [|done]. apply map_ext. intros i. by rewrite Z.add_0_l.
Qed.

End TransactionManagerClaims.

Section TransactionManagerExamples.
Import Transactions TransactionManager.
Local Open Scope Z_scope.

(** A version conflict after one dropped connection; and a connection
    that drops at commit. *)
Example conflict_comes_out_wrapped :
  (execute_in_transaction 3
     (drops_then 1 (mkAttempt None
                      (inr (Raised (VersionConflictError "weekly" 2 (Some (VInt 3)))))
                      None))).1
  = inr (TransactionError
           (TransactionFailed (Raised (VersionConflictError "weekly" 2 (Some (VInt 3))))))
  /\ execute_in_transaction 3
       (drops_then 0 (mkAttempt None (inl 7) (Some (ConnectionFailure "reset"))))
     = (inr (TransactionError
               (TransactionFailed
                  (TransactionError (FailedToCommit (ConnectionFailure "reset"))))),
        [EvStarted 0; EvCalled 0; EvRolledBack 0])
  /\ sleeps (execute_in_transaction 3
               (drops_then 3 (mkAttempt None (inl 7) None))).2 = [100; 200; 300].
Proof. by vm_compute. Qed.

End TransactionManagerExamples.

(** ** Grocery lists: updates without an expected version *)

Section GroceryUnversionedClaims.
Import Transactions Grocery.
Local Open Scope Z_scope.


End GroceryUnversionedClaims.

Section GroceryUnversionedExamples.
Import Transactions Grocery.
Local Open Scope Z_scope.

(** A list stored at version 7 is back at version 1 after an update that
    expects no version. *)
Example version_goes_back :
  let out := _update_grocery_list_with_locking (sample_txn 7) "alice" "weekly" ∅
               None 5 1 1 in
  out.1 = inl true
  /\ omap (fun row : doc => row !! "version") (collection out.2 "grocery_lists")
     = [VInt 1].
Proof. by vm_compute. Qed.

End GroceryUnversionedExamples.

(** ** The stored Blinkit sessions *)

Section BlinkitSessionFacts.
Import PyStr Blinkit BlinkitSessions.
Local Open Scope Z_scope.

Variable m : BlinkitSessionManager.

Lemma sessions_dir_parts :
  parts (sessions_dir m) = (parts (base_cache_dir m) ++ ["blinkit_sessions"])%list.
Proof. reflexivity. Qed.

Lemma user_dir_parts (u : string) :
  parts (_get_user_session_dir m u) = (parts (sessions_dir m) ++ segment u)%list.
Proof.
  unfold _get_user_session_dir, div, segment.
  destruct (path_parts_plain (safe_username u) (safe_username_plain u)) as [-> ->].
  cbn [parts]. by destruct (safe_username u).
Qed.

Lemma metadata_path_parts (u : string) :
  parts (_get_metadata_path m u)
  = (parts (sessions_dir m) ++ segment u ++ ["session_metadata.json"])%list.
Proof.
  unfold _get_metadata_path. unfold div at 1.
  change (startswith "/" "session_metadata.json") with false. cbn [parts].
  rewrite user_dir_parts. by rewrite <- app_assoc.
Qed.

Lemma auth_state_path_parts (u : string) :
  parts (_get_auth_state_path m u)
  = (parts (sessions_dir m) ++ segment u ++ ["auth_state.json"])%list.
Proof.
  unfold _get_auth_state_path. unfold div at 1.
  change (startswith "/" "auth_state.json") with false. cbn [parts].
  rewrite user_dir_parts. by rewrite <- app_assoc.
Qed.

Lemma node_nonempty (fs : FileSystem) (k : list string) :
  k <> [] -> node fs k = fs !! k.
Proof. by destruct k. Qed.

Lemma get_session_metadata_held (u : string) (fs : FileSystem) :
  get_session_metadata m u fs = held fs (parts (_get_user_session_dir m u)).
Proof.
  unfold get_session_metadata, held. rewrite metadata_path_parts, user_dir_parts.
  rewrite node_nonempty, <- app_assoc; [done|].
  rewrite sessions_dir_parts. by destruct (parts (base_cache_dir m)).
Qed.

End BlinkitSessionFacts.

Section BlinkitSessionInfoClaims.
Import PyStr Blinkit BlinkitSessions.
Local Open Scope Z_scope.

(** X25. What [get_session_info] reports as time left. While the
    session has not expired, [days_remaining] and [hours_remaining] are
    the whole days and the whole hours of the rest of the time to the
    expiry. Once it has expired, [is_expired] is set and [days_remaining]
    is 0, but [hours_remaining] is not: it is the hour field of a
    negative duration, which Python keeps between 0 and 23, so that a
    session expired for up to an hour is shown with 23 hours left. *)
Theorem get_session_info_time_left (m : BlinkitSessionManager) (username : string)
    (now : Z) (fs : FileSystem) (info : SessionInfo) :
  get_session_info m username now fs = Some info ->
  exists md,
    get_session_metadata m username fs = Some md
    /\ let left := expires_at md - now in
       (0 <= left ->
        i_is_expired info = false
        /\ 0 <= hours_remaining info < 24
        /\ let shown := PyTime.timedelta_days (days_remaining info)
                        + PyTime.timedelta_hours (hours_remaining info) in
           shown <= left < shown + PyTime.timedelta_hours 1)
       /\ (left < 0 ->
           i_is_expired info = true
           /\ days_remaining info = 0
           /\ hours_remaining info = PyTime.seconds left / 3600
           /\ (- PyTime.timedelta_hours 1 <= left -> hours_remaining info = 23)).
Proof.
  unfold get_session_info.
  destruct (get_session_metadata m username fs) as [md|]; [|done].
  intros [= <-]. exists md. split; [done|]. cbv zeta.
  cbn [i_is_expired days_remaining hours_remaining].
  unfold is_expired, PyTime.days, PyTime.seconds, PyTime.timedelta_days,
    PyTime.timedelta_hours, PyTime.SECONDS_PER_DAY, PyTime.US_PER_SECOND.
  set (left := expires_at md - now).
  pose proof (Z.div_mod left 1000000 ltac:(lia)) as H1.
  pose proof (Z.mod_pos_bound left 1000000 ltac:(lia)) as H2.
  pose proof (Z.div_mod (left / 1000000) 86400 ltac:(lia)) as H3.
  pose proof (Z.mod_pos_bound (left / 1000000) 86400 ltac:(lia)) as H4.
  pose proof (Z.div_mod ((left / 1000000) mod 86400) 3600 ltac:(lia)) as H5.
  pose proof (Z.mod_pos_bound ((left / 1000000) mod 86400) 3600 ltac:(lia)) as H6.
  assert (H7 : left / (86400 * 1000000) = left / 1000000 / 86400).
  { rewrite Z.mul_comm. by rewrite Z.div_div by lia. }
  rewrite H7.
  set (s := left / 1000000) in *. set (d := s / 86400) in *.
  set (r := s mod 86400) in *. set (h := r / 3600) in *.
  split.
  - intros Hleft. assert (0 <= s) by (subst s; apply Z.div_pos; lia).
    assert (0 <= d) by (subst d; apply Z.div_pos; lia).
    assert (0 <= h < 24) by (subst h; split;
      [apply Z.div_pos; lia|apply Z.div_lt_upper_bound; lia]).
    split; [apply Z.ltb_ge; lia|].
    rewrite !Z.max_r by lia. split; [done|]. lia.
  - intros Hleft. assert (s < 0) by (subst s; apply Z.div_lt_upper_bound; lia).
    assert (d < 0) by (subst d; apply Z.div_lt_upper_bound; lia).
    assert (0 <= h) by (subst h; apply Z.div_pos; lia).
    split; [apply Z.ltb_lt; lia|]. split; [lia|]. split; [lia|].
    intros Hhour. rewrite Z.max_r by lia.
    assert (-3600 <= s) by (subst s; apply Z.div_le_lower_bound; lia).
    assert (d = -1) by lia.
    assert (r = s + 86400) by lia.
    symmetry. apply (Z.div_unique r 3600 23 (r - 82800)); lia.
Qed.

End BlinkitSessionInfoClaims.

Section BlinkitSessionInfoExamples.
Import PyStr Blinkit BlinkitSessions.
Local Open Scope Z_scope.

(** Half an hour after the expiry of her session, [alice] is shown 23
    hours. *)
Lemma get_session_info_time_left_witness :
  get_session_info default_manager "alice"
    (PyTime.timedelta_days 7 + PyTime.timedelta_seconds 1800) alice_store
  = Some (mkInfo "alice" 0 0 (PyTime.timedelta_days 7) true 0 23 false).
Proof.
  destruct (get_session_info_time_left default_manager "alice"
              (PyTime.timedelta_days 7 + PyTime.timedelta_seconds 1800) alice_store
              (mkInfo "alice" 0 0 (PyTime.timedelta_days 7) true 0 23 false))
    as (md & Hmd & _); [by vm_compute|].
  by vm_compute.
Defined.

End BlinkitSessionInfoExamples.

Section BlinkitStoreFacts.
Import PyStr Blinkit BlinkitSessions.
Local Open Scope Z_scope.

Variable m : BlinkitSessionManager.

Lemma is_child_spec (d k : list string) :
  is_child d k = true <-> exists name, k = (d ++ [name])%list.
Proof.
  unfold is_child. rewrite bool_decide_eq_true. split.
  - intros [Hk <-]. exists (List.last k ""). by apply app_removelast_last.
  - intros [name ->]. split; [by destruct d|]. apply removelast_last.
Qed.

Lemma is_child_snoc (d : list string) (name : string) : is_child d (d ++ [name]) = true.
Proof. apply is_child_spec. by exists name. Qed.

Lemma is_child_length (d k : list string) :
  is_child d k = true -> length k = S (length d).
Proof. intros [name ->]%is_child_spec. rewrite length_app. cbn. lia. Qed.

Lemma is_child_irrefl (d : list string) : is_child d d = false.
Proof.
  destruct (is_child d d) eqn:E; [|done]. apply is_child_length in E. lia.
Qed.

Lemma sessions_dir_nonempty : parts (sessions_dir m) <> [].
Proof. rewrite sessions_dir_parts. by destruct (parts (base_cache_dir m)). Qed.

Lemma user_dir_nonempty (u : string) : parts (_get_user_session_dir m u) <> [].
Proof.
  rewrite user_dir_parts. pose proof sessions_dir_nonempty.
  by destruct (parts (sessions_dir m)).
Qed.

(** What [mkdir] with parents does. *)
Lemma mkdir_parents_spec (below : list string) :
  forall (above : list string) (fs : FileSystem),
    match mkdir_parents above below fs with
    | inl fs' =>
        (forall j, (1 <= j <= length below)%nat ->
                   fs' !! (above ++ take j below)%list = Some Directory)
        /\ (forall k, (forall j, (1 <= j <= length below)%nat ->
                                 k <> (above ++ take j below)%list) ->
                      fs' !! k = fs !! k)
        /\ (forall k n, fs !! k = Some n -> fs' !! k = Some n)
        /\ (forall j c, (1 <= j <= length below)%nat ->
                        fs !! (above ++ take j below)%list <> Some (Regular c))
    | inr e =>
        exists j c, (1 <= j <= length below)%nat
                    /\ fs !! (above ++ take j below)%list = Some (Regular c)
    end.
Proof.
  induction below as [|x below IH]; intros above fs; cbn [mkdir_parents].
  { repeat split; try done; cbn; intros; lia. }
  assert (Hshift : forall j, (above ++ take (S j) (x :: below)
                              = (above ++ [x]) ++ take j below)%list).
  { intros j. cbn. by rewrite <- app_assoc. }
  destruct (fs !! (above ++ [x])%list) as [[|c]|] eqn:Ek.
  - specialize (IH (above ++ [x])%list fs).
    destruct (mkdir_parents _ below fs) as [fs'|e].
    + destruct IH as (H1 & H2 & H3 & H4). repeat split.
      * intros [|[|j]] Hj; [lia| |].
        -- change (take 1 (x :: below)) with [x]. by apply H3.
        -- rewrite Hshift. apply H1. cbn in Hj. lia.
      * intros k Hk. apply H2. intros j Hj. rewrite <- Hshift. apply Hk. cbn. lia.
      * done.
      * intros [|[|j]] c Hj; [lia| |].
        -- change (take 1 (x :: below)) with [x]. by rewrite Ek.
        -- rewrite Hshift. apply H4. cbn in Hj. lia.
    + destruct IH as (j & c & Hj & Hc). exists (S j), c. rewrite Hshift.
      split; [cbn; lia|done].
  - exists 1%nat, c. split; [cbn; lia|]. by change (take 1 (x :: below)) with [x].
  - specialize (IH (above ++ [x])%list (<[(above ++ [x])%list := Directory]> fs)).
    destruct (mkdir_parents _ below _) as [fs'|e].
    + destruct IH as (H1 & H2 & H3 & H4). repeat split.
      * intros [|[|j]] Hj; [lia| |].
        -- change (take 1 (x :: below)) with [x]. apply H3. by rewrite lookup_insert_eq.
        -- rewrite Hshift. apply H1. cbn in Hj. lia.
      * intros k Hk. rewrite H2.
        -- apply lookup_insert_ne. intros <-. by apply (Hk 1%nat); [cbn; lia|].
        -- intros j Hj. rewrite <- Hshift. apply Hk. cbn. lia.
      * intros k n Hk. apply H3. rewrite lookup_insert_ne; [done|]. congruence.
      * intros [|[|j]] c Hj; [lia| |].
        -- change (take 1 (x :: below)) with [x]. by rewrite Ek.
        -- rewrite Hshift. intros Hc. apply (H4 (S j) c); [cbn in Hj; lia|].
           rewrite lookup_insert_ne; [done|].
           intros E. apply (f_equal length) in E.
           rewrite !length_app, length_take in E. cbn [length] in E, Hj. lia.
    + destruct IH as (j & c & Hj & Hc). exists (S j), c. rewrite Hshift.
      split; [cbn; lia|]. rewrite lookup_insert_ne in Hc; [done|].
      intros E. apply (f_equal length) in E.
      rewrite !length_app, length_take in E. cbn [length] in E. lia.
Qed.

End BlinkitStoreFacts.

Section BlinkitCreateFacts.
Import PyStr Blinkit BlinkitSessions.
Local Open Scope Z_scope.

Variable m : BlinkitSessionManager.
Variable session_ttl_days : Z.

Lemma take_length_le (j : nat) (k : list string) : (length (take j k) <= length k)%nat.
Proof. rewrite length_take. lia. Qed.

(** The keys of another user lie off the way of [create_session]. *)
Lemma other_user_keys (u u' : string) (file : string) (k : list string) :
  safe_username u' <> "" ->
  safe_username u' <> safe_username u ->
  k = (parts (_get_user_session_dir m u') ++ [file])%list ->
  k <> (parts (_get_user_session_dir m u) ++ ["session_metadata.json"])%list
  /\ forall j, k <> take j (parts (_get_user_session_dir m u)).
Proof.
  intros Hne Hdiff ->. rewrite !user_dir_parts. unfold segment.
  destruct (safe_username u') as [|c' s'] eqn:E'; [done|]. split.
  - destruct (safe_username u) as [|c s] eqn:E.
    + intros H. apply (f_equal length) in H. rewrite !length_app in H. cbn in H. lia.
    + rewrite <- !app_assoc. intros H. apply app_inv_head in H. cbn in H.
      injection H as H1 H2 H3. apply Hdiff. congruence.
  - intros j H. apply (f_equal length) in H.
    pose proof (take_length_le j (parts (sessions_dir m)
                                  ++ match safe_username u with
                                     | EmptyString => []
                                     | s => [s]
                                     end)%list) as Hle.
    rewrite <- H in Hle. rewrite !length_app in Hle.
    destruct (safe_username u); cbn in Hle; lia.
Qed.

Lemma create_session_cases (u : string) (phone : option string) (now : Z)
    (fs : FileSystem) :
  let dir := parts (_get_user_session_dir m u) in
  let meta := (dir ++ ["session_metadata.json"])%list in
  let md := mkMetadata u now now (now + PyTime.timedelta_days session_ttl_days)
              (match phone with
               | Some p => if truthy p then Some (_hash_phone p) else None
               | None => None
               end) in
  let out := create_session m session_ttl_days u phone now fs in
  (free_way fs dir /\ fs !! meta <> Some Directory
   /\ out.1 = inl md
   /\ out.2 !! meta = Some (Regular (MetadataJson md))
   /\ forall k, k <> meta -> (forall j, k <> take j dir) -> out.2 !! k = fs !! k)
  \/ (~ (free_way fs dir /\ fs !! meta <> Some Directory)
      /\ exists e, out.1 = inr e).
Proof.
  cbv zeta. unfold create_session, mkdir, _save_metadata, write.
  set (dir := parts (_get_user_session_dir m u)).
  set (md := mkMetadata _ _ _ _ _).
  pose proof (mkdir_parents_spec dir [] fs) as Hmk. cbn [app] in Hmk.
  destruct (mkdir_parents [] dir fs) as [fs1|e].
  2:{ right. destruct Hmk as (j & c & Hj & Hc). split; [|by eexists].
      intros [Hfree _]. by apply (Hfree j c); [lia|]. }
  destruct Hmk as (H1 & H2 & H3 & H4).
  assert (Hmeta : parts (_get_metadata_path m u) = (dir ++ ["session_metadata.json"])%list).
  { rewrite metadata_path_parts. subst dir. by rewrite user_dir_parts, <- app_assoc. }
  rewrite Hmeta. rewrite removelast_last.
  assert (Hdir : dir <> []) by apply user_dir_nonempty.
  assert (Hnode : node fs1 dir = Some Directory).
  { rewrite node_nonempty by done. rewrite <- (firstn_all dir) at 1.
    apply H1. destruct dir; [done|cbn; lia]. }
  assert (Hkeep : fs1 !! (dir ++ ["session_metadata.json"])%list
                  = fs !! (dir ++ ["session_metadata.json"])%list).
  { apply H2. intros j Hj E. apply (f_equal length) in E.
    pose proof (take_length_le j dir). rewrite <- E, length_app in H. cbn in H. lia. }
  assert (Hfree : free_way fs dir).
  { intros j c Hj. destruct (decide (j <= length dir)%nat) as [Hle|Hgt].
    - by apply H4.
    - rewrite firstn_all2 by lia. rewrite <- (firstn_all dir). apply H4.
      destruct dir; [done|cbn; lia]. }
  rewrite node_nonempty by (by destruct dir). rewrite Hkeep, Hnode.
  destruct (fs !! (dir ++ ["session_metadata.json"])%list) as [[|c]|] eqn:Ek.
  - right. split; [|by eexists]. by intros [_ H].
  - left. cbn [fst snd]. split; [done|]. split; [done|]. split; [done|].
    split; [by rewrite lookup_insert_eq|].
    intros k Hk Hpre. rewrite lookup_insert_ne by done. apply H2.
    intros j _. apply Hpre.
  - left. cbn [fst snd]. split; [done|]. split; [done|]. split; [done|].
    split; [by rewrite lookup_insert_eq|].
    intros k Hk Hpre. rewrite lookup_insert_ne by done. apply H2.
    intros j _. apply Hpre.
Qed.

End BlinkitCreateFacts.

Section BlinkitCreateClaims.
Import PyStr Blinkit BlinkitSessions.
Local Open Scope Z_scope.

Variable m : BlinkitSessionManager.
Variable session_ttl_days : Z.

(** X26. [create_session] and what is read back. The call goes through
    exactly when no regular file is in the way of the session directory
    and the metadata path is not a directory; it then returns the
    metadata of a session created and last used now, expiring after the
    time to live, and [get_session_metadata] reads the same record back.
    The session is not valid yet: [session_exists] also asks for the
    saved browser state, which [create_session] does not write, so that
    [is_session_valid] holds only once that file is there, and then as
    long as the expiry has not passed. Users whose sanitized name is
    another one keep their metadata and their sessions. *)
Theorem create_session_round_trip (u : string) (phone : option string) (now : Z)
    (fs : FileSystem) :
  let dir := parts (_get_user_session_dir m u) in
  let meta := (dir ++ ["session_metadata.json"])%list in
  let auth := (dir ++ ["auth_state.json"])%list in
  let md := mkMetadata u now now (now + PyTime.timedelta_days session_ttl_days)
              (match phone with
               | Some p => if truthy p then Some (_hash_phone p) else None
               | None => None
               end) in
  let out := create_session m session_ttl_days u phone now fs in
  (out.1 = inl md <-> free_way fs dir /\ fs !! meta <> Some Directory)
  /\ (out.1 = inl md ->
      get_session_metadata m u out.2 = Some md
      /\ session_exists m u out.2 = bool_decide (is_Some (fs !! auth))
      /\ (forall now',
            is_session_valid m u now' out.2
            = bool_decide (is_Some (fs !! auth)) && (now' <=? expires_at md))
      /\ forall u', safe_username u' <> "" ->
                    safe_username u' <> safe_username u ->
                    get_session_metadata m u' out.2 = get_session_metadata m u' fs
                    /\ session_exists m u' out.2 = session_exists m u' fs).
Proof.
  cbv zeta.
  destruct (create_session_cases m session_ttl_days u phone now fs)
    as [(Hfree & Hmeta & Hout & Hread & Hrest)|(Hnot & e & He)]; cbv zeta in *.
  2:{ rewrite He. split; [split; [done|tauto]|done]. }
  split; [by split|]. intros _.
  set (out := create_session m session_ttl_days u phone now fs) in *.
  set (md := mkMetadata _ _ _ _ _) in *.
  assert (Hdir : parts (_get_user_session_dir m u) <> []) by apply user_dir_nonempty.
  assert (Hm : parts (_get_metadata_path m u)
               = (parts (_get_user_session_dir m u) ++ ["session_metadata.json"])%list).
  { by rewrite metadata_path_parts, user_dir_parts, <- app_assoc. }
  assert (Ha : parts (_get_auth_state_path m u)
               = (parts (_get_user_session_dir m u) ++ ["auth_state.json"])%list).
  { by rewrite auth_state_path_parts, user_dir_parts, <- app_assoc. }
  assert (Hget : get_session_metadata m u out.2 = Some md).
  { unfold get_session_metadata. rewrite Hm.
    rewrite node_nonempty by (by destruct (parts (_get_user_session_dir m u))).
    by rewrite Hread. }
  assert (Hauth : out.2 !! (parts (_get_user_session_dir m u) ++ ["auth_state.json"])%list
                  = fs !! (parts (_get_user_session_dir m u) ++ ["auth_state.json"])%list).
  { apply Hrest.
    - intros E. apply app_inv_head in E. by injection E.
    - intros j E. apply (f_equal length) in E.
      pose proof (take_length_le j (parts (_get_user_session_dir m u))) as Hle.
      rewrite <- E, length_app in Hle. cbn in Hle. lia. }
  assert (Hex : session_exists m u out.2
                = bool_decide (is_Some (fs !! (parts (_get_user_session_dir m u)
                                               ++ ["auth_state.json"])%list))).
  { unfold session_exists, exists_. rewrite Hm, Ha.
    rewrite !node_nonempty by (by destruct (parts (_get_user_session_dir m u))).
    rewrite Hread, Hauth. by rewrite bool_decide_eq_true_2 by eauto. }
  split; [done|]. split; [done|]. split.
  - intros now'. unfold is_session_valid. rewrite Hex, Hget.
    destruct (bool_decide _); cbn [negb andb]; [|done].
    unfold is_expired. destruct (Z.ltb_spec (expires_at md) now');
      destruct (Z.leb_spec now' (expires_at md)); try done; lia.
  - intros u' Hne Hdiff.
    assert (Hkey : forall file,
              out.2 !! (parts (_get_user_session_dir m u') ++ [file])%list
              = fs !! (parts (_get_user_session_dir m u') ++ [file])%list).
    { intros file.
      destruct (other_user_keys m u u' file _ Hne Hdiff eq_refl) as [K1 K2].
      by apply Hrest. }
    assert (Hm' : parts (_get_metadata_path m u')
                  = (parts (_get_user_session_dir m u') ++ ["session_metadata.json"])%list).
    { by rewrite metadata_path_parts, user_dir_parts, <- app_assoc. }
    assert (Ha' : parts (_get_auth_state_path m u')
                  = (parts (_get_user_session_dir m u') ++ ["auth_state.json"])%list).
    { by rewrite auth_state_path_parts, user_dir_parts, <- app_assoc. }
    unfold get_session_metadata, session_exists, exists_. rewrite Hm', Ha'.
    rewrite !node_nonempty by (by destruct (parts (_get_user_session_dir m u'))).
    by rewrite !Hkey.
Qed.

End BlinkitCreateClaims.

Section BlinkitClearFacts.
Import PyStr Blinkit BlinkitSessions.
Local Open Scope Z_scope.

Variable m : BlinkitSessionManager.

Lemma lookup_filter_false (f : list string * Node -> bool) (fs : FileSystem)
    (k : list string) :
  filter (fun kv => f kv = false) fs !! k
  = match fs !! k with
    | Some n => if f (k, n) then None else Some n
    | None => None
    end.
Proof.
  destruct (fs !! k) as [n|] eqn:Ek.
  - destruct (f (k, n)) eqn:Ef.
    + apply map_lookup_filter_None. right. intros n' Hn'. cbn. congruence.
    + apply map_lookup_filter_Some. by split.
  - apply map_lookup_filter_None. by left.
Qed.

Lemma filter_empty_spec (P : list string * Node -> Prop)
    `{!forall kv, Decision (P kv)} (fs : FileSystem) :
  filter P fs = ∅ <-> forall k n, fs !! k = Some n -> ~ P (k, n).
Proof.
  split.
  - intros He k n Hk Hp.
    assert (Hin : filter P fs !! k = Some n) by (by apply map_lookup_filter_Some).
    by rewrite He, lookup_empty in Hin.
  - intros He. apply map_eq. intros k. rewrite lookup_empty.
    apply map_lookup_filter_None. destruct (fs !! k) as [n|] eqn:Ek; [|by left].
    right. intros n' [= <-]. by apply He.
Qed.

Lemma flat_spec (fs : FileSystem) (d : list string) :
  flat fs d = true <-> forall k, is_child d k = true -> fs !! k <> Some Directory.
Proof.
  unfold flat. rewrite bool_decide_eq_true, filter_empty_spec. split.
  - intros H k Hk Hd. apply (H k Directory Hd). cbn. by rewrite Hk.
  - intros H k n Hn. cbn. destruct n; cbn; [|by rewrite andb_false_r].
    rewrite andb_true_r. intros Hk. by apply (H k).
Qed.

Lemma flat_ext (fs fs' : FileSystem) (d : list string) :
  (forall k, is_child d k = true -> fs' !! k = fs !! k) -> flat fs' d = flat fs d.
Proof.
  intros H. apply eq_true_iff_eq. rewrite !flat_spec.
  split; intros Hf k Hk; [rewrite <- H by done|rewrite H by done]; by apply Hf.
Qed.

(** [clear_session] on a session directory, entry by entry. *)
Lemma clear_session_dir (u : string) (fs : FileSystem) :
  let dir := parts (_get_user_session_dir m u) in
  fs !! dir = Some Directory ->
  (clear_session m u fs).1 = flat fs dir
  /\ forall k,
       (clear_session m u fs).2 !! k
       = match fs !! k with
         | Some n => if (is_child dir k && is_file n)
                        || (bool_decide (k = dir) && flat fs dir)
                     then None else Some n
         | None => None
         end.
Proof.
  intros dir Hdir. unfold clear_session. fold dir.
  rewrite node_nonempty by apply user_dir_nonempty. rewrite Hdir.
  set (fs1 := filter _ fs).
  assert (H1 : forall k, fs1 !! k = match fs !! k with
                                    | Some n => if is_child dir k && is_file n
                                                then None else Some n
                                    | None => None
                                    end).
  { intros k. subst fs1.
    apply (lookup_filter_false (fun kv => is_child dir kv.1 && is_file kv.2)). }
  assert (Hflat : bool_decide (children fs1 dir = ∅) = flat fs dir).
  { apply eq_true_iff_eq. rewrite bool_decide_eq_true, flat_spec.
    unfold children. rewrite filter_empty_spec. split.
    - intros H k Hk Hd. apply (H k Directory); [|done].
      rewrite H1, Hd. cbn. by rewrite andb_false_r.
    - intros H k n Hn. cbn. intros Hk. rewrite H1 in Hn.
      destruct (fs !! k) as [[|c]|] eqn:Ek; [|by rewrite Hk in Hn|done].
      by apply (H k). }
  rewrite Hflat. destruct (flat fs dir) eqn:Ef; cbn [fst snd]; (split; [done|]).
  - intros k. destruct (decide (k = dir)) as [->|Hne].
    + rewrite lookup_delete_eq, Hdir. rewrite bool_decide_eq_true_2 by done.
      cbn. by rewrite orb_true_r.
    + rewrite lookup_delete_ne by done. rewrite H1.
      rewrite (bool_decide_eq_false_2 (k = dir)) by done. cbn.
      destruct (fs !! k) as [n|]; [|done]. by rewrite orb_false_r.
  - intros k. rewrite H1. destruct (fs !! k) as [n|]; [|done].
    by rewrite andb_false_r, orb_false_r.
Qed.

Lemma clear_session_absent (u : string) (fs : FileSystem) :
  fs !! parts (_get_user_session_dir m u) <> Some Directory ->
  clear_session m u fs = (false, fs).
Proof.
  intros Hdir. unfold clear_session.
  rewrite node_nonempty by apply user_dir_nonempty.
  by destruct (fs !! _) as [[|c]|].
Qed.

End BlinkitClearFacts.

Section BlinkitClearClaims.
Import PyStr Blinkit BlinkitSessions.
Local Open Scope Z_scope.

Variable m : BlinkitSessionManager.

(** X27. [clear_session] on a tree-shaped store. It returns [True]
    exactly when the session directory of the user is a directory
    without sub-directories; the directory and everything in it are then
    gone. In every case the user has no readable metadata and no valid
    session afterwards, and nothing outside the session directory is
    touched. For a username without any letter, digit, underscore or
    hyphen the session directory is [sessions_dir] itself, so that the
    call unlinks the regular files there and removes [sessions_dir] when
    no session directory is left in it. *)
Theorem clear_session_clears (u : string) (fs : FileSystem) :
  tree fs ->
  let dir := parts (_get_user_session_dir m u) in
  let out := clear_session m u fs in
  (out.1 = true <-> fs !! dir = Some Directory /\ flat fs dir = true)
  /\ get_session_metadata m u out.2 = None
  /\ (forall now, is_session_valid m u now out.2 = false)
  /\ (out.1 = true ->
      out.2 !! dir = None /\ forall k, is_child dir k = true -> out.2 !! k = None)
  /\ (forall k, k <> dir -> is_child dir k = false -> out.2 !! k = fs !! k)
  /\ (safe_username u = "" -> dir = parts (sessions_dir m)).
Proof.
  intros Htree dir out.
  assert (Hmeta : parts (_get_metadata_path m u) = (dir ++ ["session_metadata.json"])%list).
  { subst dir. by rewrite metadata_path_parts, user_dir_parts, <- app_assoc. }
  assert (Hdne : dir <> []) by apply user_dir_nonempty.
  assert (Hget : forall fs', get_session_metadata m u fs' = None
                 -> forall now, is_session_valid m u now fs' = false).
  { intros fs' Hg now. unfold is_session_valid. rewrite Hg.
    by destruct (negb _). }
  assert (Hlast : safe_username u = "" -> dir = parts (sessions_dir m)).
  { intros E. subst dir. rewrite user_dir_parts. unfold segment. rewrite E.
    by rewrite app_nil_r. }
  destruct (fs !! dir) as [[|c]|] eqn:Edir.
  - destruct (clear_session_dir m u fs Edir) as [H1 H2]. fold dir out in H1, H2.
    assert (Hg : get_session_metadata m u out.2 = None).
    { unfold get_session_metadata. rewrite Hmeta.
      rewrite node_nonempty by (by destruct dir). rewrite H2.
      destruct (fs !! (dir ++ ["session_metadata.json"])%list) as [[|c]|]; [|cbn|done].
      - by destruct (_ || _).
      - by rewrite is_child_snoc. }
    split; [rewrite H1; split; [by split|by intros [_ ?]]|].
    split; [done|]. split; [by apply Hget|]. split; [|split; [|done]].
    + intros Hf. rewrite H1 in Hf. split.
      * rewrite H2, Edir, Hf. rewrite bool_decide_eq_true_2 by done.
        cbn. by rewrite orb_true_r.
      * intros k Hk. rewrite H2. destruct (fs !! k) as [[|c]|] eqn:Ek; [|cbn|done].
        -- exfalso. by apply (proj1 (flat_spec fs dir) Hf k).
        -- by rewrite Hk.
    + intros k Hne Hk. rewrite H2.
      destruct (fs !! k) as [n|]; [|done].
      by rewrite Hk, (bool_decide_eq_false_2 (k = dir)) by done.
  - assert (Hout : out = (false, fs)).
    { subst out. apply clear_session_absent. fold dir. by rewrite Edir. }
    rewrite Hout. cbn [fst snd].
    assert (Hg : get_session_metadata m u fs = None).
    { unfold get_session_metadata. rewrite Hmeta.
      rewrite node_nonempty by (by destruct dir).
      destruct (fs !! (dir ++ ["session_metadata.json"])%list) as [n|] eqn:Ek; [|done].
      destruct (Htree _ _ Ek) as [_ Hp]. rewrite removelast_last in Hp.
      rewrite node_nonempty in Hp by done. congruence. }
    split; [split; [done|by intros [? _]]|]. split; [done|].
    split; [by apply Hget|]. by repeat split.
  - assert (Hout : out = (false, fs)).
    { subst out. apply clear_session_absent. fold dir. by rewrite Edir. }
    rewrite Hout. cbn [fst snd].
    assert (Hg : get_session_metadata m u fs = None).
    { unfold get_session_metadata. rewrite Hmeta.
      rewrite node_nonempty by (by destruct dir).
      destruct (fs !! (dir ++ ["session_metadata.json"])%list) as [n|] eqn:Ek; [|done].
      destruct (Htree _ _ Ek) as [_ Hp]. rewrite removelast_last in Hp.
      rewrite node_nonempty in Hp by done. congruence. }
    split; [split; [done|by intros [? _]]|]. split; [done|].
    split; [by apply Hget|]. by repeat split.
Qed.

End BlinkitClearClaims.

Section BlinkitCleanupFacts.
Import PyStr Blinkit BlinkitSessions.
Local Open Scope Z_scope.

Variable m : BlinkitSessionManager.

Lemma size_filter_insert_node (P : list string * Node -> Prop)
    `{!forall kv, Decision (P kv)} (mm : FileSystem) (i : list string) (x : Node) :
  mm !! i = None ->
  size (filter P (<[i := x]> mm))
  = ((if decide (P (i, x)) then 1 else 0) + size (filter P mm))%nat.
Proof.
  intros Hi. destruct (decide (P (i, x))) as [Hp|Hp].
  - rewrite map_filter_insert_True by done.
    rewrite map_size_insert_None; [done|].
    apply map_lookup_filter_None. by left.
  - rewrite map_filter_insert_False by done. by rewrite delete_id.
Qed.

Lemma lapsed_listed (sd : list string) (now : Z) (fs : FileSystem) (d : list string) :
  lapsed sd now fs d = true ->
  is_child sd d = true /\ fs !! d = Some Directory
  /\ exists md, held fs d = Some md /\ is_expired now md = true.
Proof.
  unfold lapsed. intros [[H1 H2]%andb_prop H3]%andb_prop.
  split; [done|]. split; [by destruct (fs !! d) as [[|c]|]|].
  destruct (held fs d) as [md|]; [by exists md|done].
Qed.

(** Adding a directory that is not lapsed to the listing changes
    nothing. *)
Lemma swept_among_insert_other (mm : FileSystem) (sd : list string) (now : Z)
    (fs : FileSystem) (i : list string) (x : Node) (kv : list string * Node) :
  lapsed sd now fs i = false ->
  swept_among (<[i := x]> mm) sd now fs kv = swept_among mm sd now fs kv.
Proof.
  intros Hd. unfold swept_among. f_equal.
  - destruct (decide (removelast kv.1 = i)) as [->|Hne].
    + by rewrite Hd, !andb_false_r.
    + by rewrite lookup_insert_ne.
  - destruct (decide (kv.1 = i)) as [->|Hne].
    + by rewrite Hd.
    + by rewrite lookup_insert_ne.
Qed.

(** The loop over any part [mm] of the listing of [sessions_dir]. *)
Lemma session_cleanup_fold (now : Z) (fs mm : FileSystem) :
  let sd := parts (sessions_dir m) in
  named fs sd ->
  mm ⊆ children fs sd ->
  (map_fold (cleanup_step m now) (0, fs) mm).1
  = Z.of_nat (size (filter (fun kv => lapsed sd now fs kv.1 && flat fs kv.1 = true) mm))
  /\ forall k,
       (map_fold (cleanup_step m now) (0, fs) mm).2 !! k
       = match fs !! k with
         | Some n => if swept_among mm sd now fs (k, n) then None else Some n
         | None => None
         end.
Proof.
  intros sd Hnamed.
  apply (map_fold_weak_ind
           (fun r mm =>
              mm ⊆ children fs sd ->
              r.1 = Z.of_nat (size (filter
                      (fun kv => lapsed sd now fs kv.1 && flat fs kv.1 = true) mm))
              /\ forall k,
                   r.2 !! k
                   = match fs !! k with
                     | Some n => if swept_among mm sd now fs (k, n)
                                 then None else Some n
                     | None => None
                     end)); clear mm.
  { intros _. cbn [fst snd]. split; [done|]. intros k.
    destruct (fs !! k) as [n|]; [|done].
    unfold swept_among. rewrite !lookup_empty.
    rewrite !(bool_decide_eq_false_2 (is_Some None)) by (by intros [? ?]).
    by rewrite !andb_false_r. }
  intros i x mm [cnt fs1] Hi IH Hsub.
  assert (Hx : children fs sd !! i = Some x).
  { eapply lookup_weaken; [|exact Hsub]. by rewrite lookup_insert_eq. }
  apply map_lookup_filter_Some in Hx as [Hx Hchild]. cbn [fst] in Hchild.
  destruct IH as [Hn Hfs].
  { etrans; [|exact Hsub]. by apply insert_subseteq. }
  cbn [fst snd] in Hn, Hfs.
  assert (Hine : i <> []) by (intros ->; by apply is_child_length in Hchild).
  assert (Hlen : length i = S (length sd)) by (by apply is_child_length).
  (* what the loop sees of [i] is what the store held at the start *)
  assert (Hunder : forall k n, removelast k = i -> swept_among mm sd now fs (k, n) = false).
  { intros k n Hk. unfold swept_among. cbn [fst snd]. rewrite Hk, Hi.
    rewrite (bool_decide_eq_false_2 (is_Some None)) by (by intros [? ?]).
    rewrite andb_false_r. cbn [orb].
    destruct (lapsed sd now fs k) eqn:Ed; [|done].
    apply lapsed_listed in Ed as (Hc & _). apply is_child_length in Hc.
    assert (k <> []) by (intros ->; cbn in Hk; congruence).
    pose proof (app_removelast_last "" H) as E. rewrite Hk in E.
    apply (f_equal length) in E. rewrite length_app in E. cbn in E. lia. }
  assert (Hself : swept_among mm sd now fs (i, x) = false).
  { unfold swept_among. cbn [fst snd]. rewrite Hi.
    rewrite (bool_decide_eq_false_2 (is_Some None)) by (by intros [? ?]).
    rewrite andb_false_r, orb_false_r.
    destruct (lapsed sd now fs (removelast i)) eqn:Ed; [|by rewrite andb_false_r].
    apply lapsed_listed in Ed as (Hc & _). apply is_child_length in Hc.
    apply is_child_spec in Hchild as [name ->]. rewrite removelast_last in Hc. lia. }
  assert (Hheld : held fs1 i = held fs i).
  { unfold held. rewrite Hfs.
    destruct (fs !! (i ++ ["session_metadata.json"])%list) as [n|]; [|done].
    by rewrite Hunder by apply removelast_last. }
  rewrite size_filter_insert_node by done. cbn [fst snd].
  assert (Hkeep : lapsed sd now fs i = false ->
            cnt = Z.of_nat ((if decide (lapsed sd now fs i && flat fs i = true)
                             then 1 else 0)
                            + size (filter (fun kv => lapsed sd now fs kv.1
                                                      && flat fs kv.1 = true) mm))
            /\ forall k,
                 fs1 !! k
                 = match fs !! k with
                   | Some n => if swept_among (<[i := x]> mm) sd now fs (k, n)
                               then None else Some n
                   | None => None
                   end).
  { intros Hd. rewrite Hd. cbn [andb]. rewrite decide_False by done.
    split; [by rewrite Hn|]. intros k. rewrite Hfs.
    destruct (fs !! k) as [n|]; [|done]. by rewrite swept_among_insert_other. }
  destruct x as [|c]; cbn [cleanup_step].
  2:{ apply Hkeep. unfold lapsed. rewrite Hx. by rewrite andb_false_r. }
  cbn [fst snd].
  destruct (Hnamed i Hchild Hx) as [Hsafe Hname].
  assert (Hdir : parts (_get_user_session_dir m (List.last i "")) = i).
  { rewrite user_dir_parts. unfold segment. rewrite Hsafe.
    destruct (List.last i "") as [|c s] eqn:El; [done|]. rewrite <- El.
    apply is_child_spec in Hchild as [name ->]. fold sd.
    by rewrite last_last. }
  rewrite get_session_metadata_held, Hdir, Hheld.
  destruct (held fs i) as [md|] eqn:Eh.
  2:{ apply Hkeep. unfold lapsed. rewrite Eh. by rewrite andb_false_r. }
  destruct (is_expired now md) eqn:Eexp.
  2:{ apply Hkeep. unfold lapsed. rewrite Eh, Eexp. by rewrite andb_false_r. }
  assert (Hd : lapsed sd now fs i = true).
  { unfold lapsed. by rewrite Hchild, Hx, Eh, Eexp. }
  assert (Hi1 : fs1 !! i = Some Directory).
  { by rewrite Hfs, Hx, Hself. }
  pose proof (clear_session_dir m (List.last i "") fs1) as Hclear.
  cbv zeta in Hclear. rewrite Hdir in Hclear. destruct (Hclear Hi1) as [Hc1 Hc2].
  assert (Hflat : flat fs1 i = flat fs i).
  { apply flat_ext. intros k Hk. rewrite Hfs.
    destruct (fs !! k) as [n|]; [|done]. rewrite Hunder; [done|].
    by apply is_child_spec in Hk as [name ->]; rewrite removelast_last. }
  rewrite Hflat in Hc1, Hc2.
  destruct (clear_session m (List.last i "") fs1) as [cleared fs2].
  cbn [fst snd] in Hc1, Hc2. subst cleared. rewrite Hd. cbn [andb].
  assert (Hnew : forall k,
            fs2 !! k
            = match fs !! k with
              | Some n => if swept_among (<[i := Directory]> mm) sd now fs (k, n)
                          then None else Some n
              | None => None
              end).
  { intros k. rewrite Hc2, Hfs. destruct (fs !! k) as [n|] eqn:Ek; [|done].
    unfold swept_among at 2. cbn [fst snd].
    destruct (decide (removelast k = i)) as [Hrk|Hrk].
    - assert (Hki : k <> i).
      { intros ->. apply (f_equal length) in Hrk.
        pose proof (app_removelast_last "" Hine) as E.
        apply (f_equal length) in E. rewrite length_app in E. cbn in E. lia. }
      assert (Hkne : k <> []) by (intros ->; cbn in Hrk; congruence).
      rewrite (Hunder k n Hrk). rewrite Hrk, Hd, lookup_insert_eq.
      rewrite (bool_decide_eq_true_2 (is_Some (Some Directory))) by eauto.
      rewrite lookup_insert_ne by done.
      assert (Hck : is_child i k = true).
      { unfold is_child. by apply bool_decide_eq_true. }
      rewrite Hck, (bool_decide_eq_false_2 (k = i)) by done.
      cbn [andb orb]. rewrite !andb_true_r.
      destruct (is_file n) eqn:Ef; cbn [orb]; [done|].
      assert (Hdk : lapsed sd now fs k = false).
      { destruct (lapsed sd now fs k) eqn:Edk; [|done].
        apply lapsed_listed in Edk as (Hc & _). apply is_child_length in Hc.
        apply is_child_length in Hck. lia. }
      by rewrite Hdk.
    - assert (Hck : is_child i k = false).
      { unfold is_child. apply bool_decide_eq_false. by intros [_ ?]. }
      rewrite Hck. cbn [andb orb].
      rewrite (lookup_insert_ne _ i (removelast k)) by done.
      destruct (decide (k = i)) as [->|Hki].
      + assert (n = Directory) as -> by congruence.
        rewrite Hself, Hd, lookup_insert_eq.
        rewrite (bool_decide_eq_true_2 (i = i)) by done.
        rewrite (bool_decide_eq_true_2 (is_Some (Some Directory))) by eauto.
        cbn [is_file andb orb]. rewrite andb_true_r. by destruct (flat fs i).
      + rewrite (bool_decide_eq_false_2 (k = i)) by done. cbn [andb].
        rewrite lookup_insert_ne by done. unfold swept_among. cbn [fst snd].
        by destruct (_ || _). }
  destruct (flat fs i) eqn:Ef.
  - rewrite decide_True by done. cbn [fst snd]. split; [lia|exact Hnew].
  - rewrite decide_False by done. cbn [fst snd]. split; [by rewrite Hn|exact Hnew].
Qed.

End BlinkitCleanupFacts.

Section BlinkitCleanupClaims.
Import PyStr Blinkit BlinkitSessions.
Local Open Scope Z_scope.

Variable m : BlinkitSessionManager.

(** X28. [cleanup_expired_sessions] on a tree-shaped store in which
    [sessions_dir] is a directory and the directories it lists bear
    sanitized names. It unlinks the regular files of every listed
    directory whose metadata can be read and has expired, removes such a
    directory when it has no sub-directory, and returns the number of
    directories removed; nothing else is touched. Afterwards no user with
    a directory of their own has readable metadata that has expired, and
    every session that was valid is as it was. *)
Theorem cleanup_expired_sessions_sweeps (now : Z) (fs : FileSystem) :
  let sd := parts (sessions_dir m) in
  tree fs -> named fs sd -> fs !! sd = Some Directory ->
  exists (n : Z) (fs' : FileSystem),
    cleanup_expired_sessions m now fs = inl (n, fs')
    /\ fs' = filter (fun kv => swept sd now fs kv = false) fs
    /\ n = Z.of_nat (size (filter (fun kv => lapsed sd now fs kv.1
                                             && flat fs kv.1 = true) fs))
    /\ (forall u md, safe_username u <> "" ->
                     get_session_metadata m u fs' = Some md ->
                     is_expired now md = false)
    /\ (forall u, is_session_valid m u now fs = true ->
                  forall now', is_session_valid m u now' fs'
                               = is_session_valid m u now' fs).
Proof.
  intros sd Htree Hnamed Hsd.
  assert (Hsdne : sd <> []) by apply sessions_dir_nonempty.
  destruct (session_cleanup_fold m now fs (children fs sd) Hnamed) as [Hn Hfs]; [done|].
  fold sd in Hn, Hfs.
  unfold cleanup_expired_sessions. fold sd. rewrite node_nonempty by done. rewrite Hsd.
  destruct (map_fold _ _ _) as [n fs']. cbn [fst snd] in Hn, Hfs.
  exists n, fs'. split; [done|].
  assert (Hlisted : forall d, lapsed sd now fs d = true ->
                              is_Some (children fs sd !! d)).
  { intros d (Hc & Hd & _)%lapsed_listed. exists Directory.
    by apply map_lookup_filter_Some. }
  assert (Hsw : forall kv, swept_among (children fs sd) sd now fs kv
                           = swept sd now fs kv).
  { intros kv. unfold swept_among, swept. f_equal.
    - destruct (lapsed sd now fs (removelast kv.1)) eqn:Ed.
      + rewrite bool_decide_eq_true_2 by (by apply Hlisted). by rewrite andb_true_r.
      + by rewrite !andb_false_r.
    - destruct (lapsed sd now fs kv.1) eqn:Ed; [|done].
      rewrite bool_decide_eq_true_2 by (by apply Hlisted). by rewrite andb_true_r. }
  assert (Hlook : forall k, fs' !! k = match fs !! k with
                                       | Some n => if swept sd now fs (k, n)
                                                   then None else Some n
                                       | None => None
                                       end).
  { intros k. rewrite Hfs. destruct (fs !! k) as [x|]; [|done]. by rewrite Hsw. }
  assert (Hfs' : fs' = filter (fun kv => swept sd now fs kv = false) fs).
  { apply map_eq. intros k. rewrite Hlook.
    by rewrite (lookup_filter_false (swept sd now fs)). }
  split; [done|]. split.
  { rewrite Hn. do 2 f_equal. unfold children. rewrite map_filter_filter.
    apply map_filter_ext. intros k x Hk. cbn [fst snd]. split; [tauto|].
    intros Hd. split; [done|].
    apply andb_prop in Hd as [Hd _]. by apply lapsed_listed in Hd as [? _]. }
  assert (Hkeys : forall u (file : string),
            (parts (_get_user_session_dir m u) ++ [file])%list <> []).
  { intros u file E. by apply app_eq_nil in E as [_ ?]. }
  assert (Hm : forall u, parts (_get_metadata_path m u)
                 = (parts (_get_user_session_dir m u) ++ ["session_metadata.json"])%list).
  { intros u. by rewrite metadata_path_parts, user_dir_parts, <- app_assoc. }
  assert (Ha : forall u, parts (_get_auth_state_path m u)
                 = (parts (_get_user_session_dir m u) ++ ["auth_state.json"])%list).
  { intros u. by rewrite auth_state_path_parts, user_dir_parts, <- app_assoc. }
  split.
  - intros u md Hne Hget. unfold get_session_metadata in Hget.
    rewrite Hm, node_nonempty in Hget by apply Hkeys. rewrite Hlook in Hget.
    set (dir := parts (_get_user_session_dir m u)) in *.
    destruct (fs !! (dir ++ ["session_metadata.json"])%list) as [x|] eqn:Ek; [|done].
    destruct (swept sd now fs (dir ++ ["session_metadata.json"], x)%list) eqn:Es; [done|].
    destruct x as [|[md'|]]; [done| |done]. injection Hget as ->.
    unfold swept in Es. cbn [fst snd is_file andb] in Es.
    rewrite removelast_last in Es. apply orb_false_elim in Es as [Es _].
    unfold lapsed in Es.
    assert (Hchild : is_child sd dir = true).
    { subst dir. rewrite user_dir_parts. fold sd. unfold segment.
      destruct (safe_username u); [done|]. apply is_child_snoc. }
    assert (Hdir : fs !! dir = Some Directory).
    { destruct (Htree _ _ Ek) as [_ Hp]. rewrite removelast_last in Hp.
      rewrite node_nonempty in Hp; [done|]. subst dir. apply user_dir_nonempty. }
    unfold held in Es. by rewrite Hchild, Hdir, Ek in Es.
  - intros u Hvalid now'.
    set (dir := parts (_get_user_session_dir m u)) in *.
    unfold is_session_valid, session_exists, exists_, get_session_metadata in *.
    rewrite !Hm, !Ha, !node_nonempty in * by apply Hkeys. fold dir in Hvalid |- *.
    destruct (fs !! (dir ++ ["session_metadata.json"])%list) as [x|] eqn:Ek.
    2:{ rewrite (bool_decide_eq_false_2 (is_Some None)) in Hvalid by (by intros [? ?]).
        done. }
    destruct x as [|[md|]]; [by destruct (negb _)| |by destruct (negb _)].
    destruct (fs !! (dir ++ ["auth_state.json"])%list) as [y|] eqn:Ey.
    2:{ rewrite (bool_decide_eq_false_2 (is_Some None)) in Hvalid by (by intros [? ?]).
        by rewrite andb_false_r in Hvalid. }
    rewrite !bool_decide_eq_true_2 in Hvalid by eauto. cbn [andb negb] in Hvalid.
    apply negb_true_iff in Hvalid.
    assert (Hnot : lapsed sd now fs dir = false).
    { unfold lapsed, held. rewrite Ek, Hvalid. by rewrite andb_false_r. }
    assert (Hlen : forall file, lapsed sd now fs (dir ++ [file])%list = true ->
                     safe_username file = file).
    { intros file (Hc & Hd & _)%lapsed_listed.
      destruct (Hnamed _ Hc Hd) as [Hs _]. by rewrite last_last in Hs. }
    assert (K1 : fs' !! (dir ++ ["session_metadata.json"])%list
                 = fs !! (dir ++ ["session_metadata.json"])%list).
    { rewrite Hlook, Ek. unfold swept. cbn [fst snd]. rewrite removelast_last, Hnot.
      rewrite andb_false_r. cbn [orb].
      destruct (lapsed sd now fs (dir ++ ["session_metadata.json"])%list) eqn:Ed; [|done].
      apply Hlen in Ed. by vm_compute in Ed. }
    assert (K2 : fs' !! (dir ++ ["auth_state.json"])%list
                 = fs !! (dir ++ ["auth_state.json"])%list).
    { rewrite Hlook, Ey. unfold swept. cbn [fst snd]. rewrite removelast_last, Hnot.
      rewrite andb_false_r. cbn [orb].
      destruct (lapsed sd now fs (dir ++ ["auth_state.json"])%list) eqn:Ed; [|done].
      apply Hlen in Ed. by vm_compute in Ed. }
    by rewrite K1, K2, Ek, Ey.
Qed.

End BlinkitCleanupClaims.

Section BlinkitStoreExamples.
Import PyStr Blinkit BlinkitSessions.
Local Open Scope Z_scope.

Lemma alice_store_tree : tree alice_store.
Proof.
  unfold tree.
  change (map_Forall (fun k n => k <> [] /\ node alice_store (removelast k)
                                            = Some Directory) alice_store).
  refine (bool_decide_unpack _ _). by vm_compute.
Qed.

Lemma alice_store_named : named alice_store (parts (sessions_dir default_manager)).
Proof.
  intros d Hc Hd. revert Hc.
  assert (H : map_Forall (fun d n =>
                 n = Directory ->
                 is_child (parts (sessions_dir default_manager)) d = true ->
                 safe_username (List.last d "") = List.last d ""
                 /\ List.last d "" <> "") alice_store).
  { refine (bool_decide_unpack _ _). by vm_compute. }
  by apply (H d Directory Hd).
Qed.

Lemma clear_session_clears_witness :
  (clear_session default_manager "Alice" alice_store).1 = true
  /\ get_session_metadata default_manager "Alice"
       (clear_session default_manager "Alice" alice_store).2 = None
  /\ (clear_session default_manager "Alice" alice_store).2
     !! ["cache"; "blinkit_sessions"; "alice"] = None.
Proof.
  destruct (clear_session_clears default_manager "Alice" alice_store alice_store_tree)
    as (H1 & H2 & _ & H4 & _).
  assert (Ht : (clear_session default_manager "Alice" alice_store).1 = true).
  { apply H1. split; by vm_compute. }
  split; [exact Ht|]. split; [exact H2|]. by destruct (H4 Ht).
Defined.

Lemma cleanup_expired_sessions_sweeps_witness :
  exists (n : Z) (fs' : FileSystem),
    cleanup_expired_sessions default_manager (PyTime.timedelta_days 8) alice_store
    = inl (n, fs')
    /\ n = 1
    /\ get_session_metadata default_manager "alice" fs' = None.
Proof.
  destruct (cleanup_expired_sessions_sweeps default_manager (PyTime.timedelta_days 8)
              alice_store alice_store_tree alice_store_named)
    as (n & fs' & Hrun & Hfs & Hn & _); [by vm_compute|].
  exists n, fs'. split; [exact Hrun|]. split.
  - rewrite Hn. by vm_compute.
  - rewrite Hfs. by vm_compute.
Defined.

(** A session directory that holds a sub-directory: its files go, the
    directory stays, and the call reports failure. *)
Example clear_session_with_subdirectory :
  let fs := <[ ["cache"; "blinkit_sessions"; "alice"; "profile"] := Directory ]>
              alice_store in
  (clear_session default_manager "alice" fs).1 = false
  /\ (clear_session default_manager "alice" fs).2
     !! ["cache"; "blinkit_sessions"; "alice"; "session_metadata.json"] = None
  /\ (clear_session default_manager "alice" fs).2
     !! ["cache"; "blinkit_sessions"; "alice"] = Some Directory.
Proof. by vm_compute. Qed.

End BlinkitStoreExamples.

(** ** PKCE verifier and challenge *)

Section PkceFacts.
Import PyStr Pkce.
Local Open Scope N_scope.

Lemma b64_char_urlsafe (n : N) : n < 64 -> is_urlsafe (b64_char n) = true.
Proof.
  intros Hn. unfold b64_char.
  assert (Hk : (N.to_nat n < 64)%nat) by lia.
  revert Hk. generalize (N.to_nat n). intros k Hk.
  do 64 (destruct k as [|k]; [reflexivity|]). lia.
Qed.

Lemma urlsafe_not_eq (c : ascii) : is_urlsafe c = true -> Ascii.eqb c "=" = false.
Proof. destruct c as [[] [] [] [] [] [] [] []]; by vm_compute. Qed.

Lemma rstrip_eq_cons (c : ascii) (s : string) :
  Ascii.eqb c "=" = false -> rstrip_eq (String c s) = String c (rstrip_eq s).
Proof. intros Hc. cbn [rstrip_eq]. rewrite Hc. by destruct (rstrip_eq s). Qed.

(** Induction on a list of bytes, three at a time. *)
Lemma by_threes (P : list N -> Prop) :
  P [] -> (forall a, P [a]) -> (forall a b, P [a; b]) ->
  (forall a b c rest, P rest -> P (a :: b :: c :: rest)) ->
  forall bs, P bs.
Proof.
  intros H0 H1 H2 H3 bs.
  assert (H : P bs /\ (forall a, P (a :: bs)) /\ forall a b, P (a :: b :: bs)).
  { induction bs as [|c bs (IH0 & IH1 & IH2)]; [by repeat split|].
    split; [apply IH1|]. split; [intros a; apply IH2|]. intros a b. by apply H3. }
  by destruct H.
Qed.

(** The encoding without its padding: its length and its characters. *)
Lemma urlsafe_b64encode_stripped (bs : list N) :
  Forall (fun b => b < 256) bs ->
  String.length (rstrip_eq (urlsafe_b64encode bs))
  = ((4 * length bs + 2) / 3)%nat
  /\ all is_urlsafe (rstrip_eq (urlsafe_b64encode bs)) = true.
Proof.
  induction bs as [|a|a b|a b c rest IH] using by_threes; intros Hb.
  - done.
  - apply Forall_cons in Hb as [Ha _].
    assert (H1 : a / 4 < 64) by (apply N.Div0.div_lt_upper_bound; lia).
    assert (H2 : a mod 4 * 16 < 64) by (pose proof (N.mod_lt a 4); lia).
    cbn [urlsafe_b64encode].
    rewrite !rstrip_eq_cons by (by apply urlsafe_not_eq, b64_char_urlsafe).
    change (rstrip_eq "==") with "". cbn [String.length all length].
    by rewrite !b64_char_urlsafe.
  - apply Forall_cons in Hb as [Ha Hb]. apply Forall_cons in Hb as [Hb _].
    assert (H1 : a / 4 < 64) by (apply N.Div0.div_lt_upper_bound; lia).
    assert (H2 : a mod 4 * 16 + b / 16 < 64).
    { pose proof (N.mod_lt a 4).
      assert (b / 16 < 16) by (apply N.Div0.div_lt_upper_bound; lia). lia. }
    assert (H3 : b mod 16 * 4 < 64) by (pose proof (N.mod_lt b 16); lia).
    cbn [urlsafe_b64encode].
    rewrite !rstrip_eq_cons by (by apply urlsafe_not_eq, b64_char_urlsafe).
    change (rstrip_eq "=") with "". cbn [String.length all length].
    by rewrite !b64_char_urlsafe.
  - apply Forall_cons in Hb as [Ha Hb]. apply Forall_cons in Hb as [Hb Hc].
    apply Forall_cons in Hc as [Hc Hrest].
    assert (H1 : a / 4 < 64) by (apply N.Div0.div_lt_upper_bound; lia).
    assert (H2 : a mod 4 * 16 + b / 16 < 64).
    { pose proof (N.mod_lt a 4).
      assert (b / 16 < 16) by (apply N.Div0.div_lt_upper_bound; lia). lia. }
    assert (H3 : b mod 16 * 4 + c / 64 < 64).
    { pose proof (N.mod_lt b 16).
      assert (c / 64 < 4) by (apply N.Div0.div_lt_upper_bound; lia). lia. }
    assert (H4 : c mod 64 < 64) by (apply N.mod_lt; lia).
    destruct (IH Hrest) as [IHl IHa].
    cbn [urlsafe_b64encode].
    rewrite !rstrip_eq_cons by (by apply urlsafe_not_eq, b64_char_urlsafe).
    cbn [String.length all]. rewrite IHl, IHa, !b64_char_urlsafe by done.
    split; [|done]. cbn [length].
    replace (4 * S (S (S (length rest))) + 2)%nat
      with (4 * length rest + 2 + 4 * 3)%nat by lia.
    rewrite Nat.div_add by lia. lia.
Qed.

Lemma all_substring (p : ascii -> bool) (n : nat) (s : string) :
  all p s = true -> all p (String.substring 0 n s) = true.
Proof.
  revert s. induction n as [|n IH]; intros [|c s]; cbn; try done.
  intros [Hc Hs]%andb_prop. by rewrite Hc, IH.
Qed.

Lemma be_bytes_spec (n : nat) (x : N) :
  length (Sha256.be_bytes n x) = n /\ Forall (fun b => b < 256) (Sha256.be_bytes n x).
Proof.
  induction n as [|n [IH1 IH2]]; [by split|]. cbn [Sha256.be_bytes length].
  split; [by rewrite IH1|]. constructor; [|done].
  change 255 with (N.ones 8). rewrite N.land_ones. by apply N.mod_lt.
Qed.

Lemma sha256_digest_spec (data : list N) :
  length (sha256_digest data) = 32%nat /\ Forall (fun b => b < 256) (sha256_digest data).
Proof.
  unfold sha256_digest. split.
  - rewrite !length_app. by rewrite !(proj1 (be_bytes_spec 4 _)).
  - repeat (apply Forall_app; split); apply be_bytes_spec.
Qed.

End PkceFacts.

Section PkceClaims.
Import PyStr Pkce.
Local Open Scope Z_scope.

(** X29. The shapes PKCE asks for. For a length between 43 and 128,
    [generate_code_verifier] returns exactly that many characters, all of
    them letters, digits, [-] or [_], whatever bytes the entropy source
    yields; outside that range it raises [ValueError]. The S256 challenge
    of any verifier is 43 characters of the same alphabet, without
    padding; the plain challenge is the verifier itself; any other method
    raises [ValueError]. *)
Theorem pkce_shapes (length : Z) (random_bytes : list N) (verifier method : string) :
  (43 <= length <= 128 ->
   List.length random_bytes = Z.to_nat length ->
   Forall (fun b => (b < 256)%N) random_bytes ->
   exists v, generate_code_verifier length random_bytes = inl v
             /\ len v = length
             /\ all is_urlsafe v = true)
  /\ (length < 43 \/ 128 < length ->
      generate_code_verifier length random_bytes = inr VerifierLength)
  /\ (exists c, generate_code_challenge verifier "S256" = inl c
                /\ len c = 43
                /\ all is_urlsafe c = true)
  /\ generate_code_challenge verifier "plain" = inl verifier
  /\ (method <> "S256" -> method <> "plain" ->
      generate_code_challenge verifier method = inr (UnsupportedMethod method)).
Proof.
  split; [|split; [|split; [|split]]].
  - intros Hlen Hn Hb. unfold generate_code_verifier.
    destruct (length <? 43) eqn:E1; [apply Z.ltb_lt in E1; lia|].
    destruct (128 <? length) eqn:E2; [apply Z.ltb_lt in E2; lia|].
    cbn [orb]. eexists. split; [reflexivity|].
    destruct (urlsafe_b64encode_stripped random_bytes Hb) as [Hl Ha].
    split; [|by apply all_substring].
    unfold len. rewrite substring_length; [lia|].
    rewrite Hl, Hn.
    apply Nat.div_le_lower_bound; lia.
  - intros Hout. unfold generate_code_verifier.
    destruct Hout as [H|H]; [apply Z.ltb_lt in H; by rewrite H|].
    apply Z.ltb_lt in H. rewrite H. by rewrite orb_true_r.
  - unfold generate_code_challenge. cbn [String.eqb Ascii.eqb]. cbv zeta.
    destruct (sha256_digest_spec (map N_of_ascii (list_ascii_of_string verifier)))
      as [Hl Hb].
    destruct (urlsafe_b64encode_stripped _ Hb) as [Hs Ha].
    eexists. split; [reflexivity|]. split; [|done].
    unfold len. by rewrite Hs, Hl.
  - done.
  - intros H1 H2. unfold generate_code_challenge.
    destruct (String.eqb_spec method "S256"); [done|].
    by destruct (String.eqb_spec method "plain").
Qed.

End PkceClaims.

Section PkceExamples.
Import PyStr Pkce.

(** The verifier and the challenge of RFC 7636, appendix B. *)
Example rfc7636_appendix_b :
  generate_code_challenge "dBjftJeZ4CVP-mB92K27uhbUJU1p1r_wW1gFWFOEjXk" "S256"
  = inl "E9Melhoa2OwvFrEMTJguCHaoeK1t8URWbuGJSstw-cM".
Proof. by vm_compute. Qed.

End PkceExamples.

(** ** Recipe fingerprints *)

Section HashingFacts.
Import PyStr Validators Hashing.

Lemma normalized_entries (xs : list string) : normalized xs = Cache.sorted (entries_of xs).
Proof. reflexivity. Qed.

Lemma normalized_field (s : string) :
  (if truthy s then strip (lower s) else "") = strip (lower s).
Proof. by destruct s. Qed.

Lemma filter_Permutation {A} (p : A -> bool) (l l' : list A) :
  l ≡ₚ l' -> List.filter p l ≡ₚ List.filter p l'.
Proof.
  intros Hp. induction Hp as [|x l l' _ IH|x y l|l l' l'' _ IH1 _ IH2]; cbn.
  - done.
  - destruct (p x); [by constructor|done].
  - destruct (p x), (p y); try done. apply perm_swap.
  - by etrans.
Qed.

Lemma entries_of_Permutation (l l' : list string) :
  l ≡ₚ l' -> entries_of l ≡ₚ entries_of l'.
Proof. intros Hp. unfold entries_of. by apply Permutation_map, filter_Permutation. Qed.

End HashingFacts.

Section HashingClaims.
Import PyStr Validators Hashing.

(** X30. What [generate_recipe_hash] tells apart. The hash is 64
    hexadecimal digits and does not depend on the recipe name. It is the
    same for ingredient lists and tag lists that hold the same entries
    once empty entries are dropped and the others are put in lowercase
    and stripped, in any order, and for methods and cuisines that agree
    up to case and surrounding blanks; a missing tag list counts as an
    empty one. It is also the same for lists that differ: an ingredient
    written with the separator, as in [a|b], gives the hash of the two
    ingredients [a] and [b]. *)
Theorem generate_recipe_hash_ignores (name name' : string) (l l' : list string)
    (method method' cuisine cuisine' : string) (tags tags' : option (list string)) :
  (entries_of l ≡ₚ entries_of l' ->
   strip (lower method) = strip (lower method') ->
   strip (lower cuisine) = strip (lower cuisine') ->
   entries_of (default [] tags) ≡ₚ entries_of (default [] tags') ->
   generate_recipe_hash name l method cuisine tags
   = generate_recipe_hash name' l' method' cuisine' tags')
  /\ (l ≡ₚ l' ->
      generate_recipe_hash name l method cuisine tags
      = generate_recipe_hash name' l' method cuisine tags)
  /\ generate_recipe_hash name l method cuisine None
     = generate_recipe_hash name l method cuisine (Some [])
  /\ String.length (generate_recipe_hash name l method cuisine tags) = 64%nat
  /\ all is_hex (generate_recipe_hash name l method cuisine tags) = true
  /\ generate_recipe_hash name ["a|b"] method cuisine tags
     = generate_recipe_hash name ["a"; "b"] method cuisine tags.
Proof.
  assert (Hmain : forall n n' x x' a a' b b' t t',
            entries_of x ≡ₚ entries_of x' ->
            strip (lower a) = strip (lower a') ->
            strip (lower b) = strip (lower b') ->
            entries_of (default [] t) ≡ₚ entries_of (default [] t') ->
            generate_recipe_hash n x a b t = generate_recipe_hash n' x' a' b' t').
  { intros n n' x x' a a' b b' t t' Hx Ha Hb Ht.
    unfold generate_recipe_hash, fingerprint. cbv zeta.
    rewrite !normalized_field, !normalized_entries.
    by rewrite (sorted_Permutation _ _ Hx), (sorted_Permutation _ _ Ht), Ha, Hb. }
  split; [apply Hmain|]. split; [|split; [|split; [|split]]].
  - intros Hp. apply Hmain; try done. by apply entries_of_Permutation.
  - done.
  - apply hexdigest_length.
  - unfold generate_recipe_hash, Sha256.hexdigest, Sha256.hex8. cbn [all].
    by rewrite !nibble_is_hex.
  - unfold generate_recipe_hash, fingerprint. cbv zeta.
    assert (E1 : normalized ["a|b"] = ["a|b"]) by (by vm_compute).
    assert (E2 : normalized ["a"; "b"] = ["a"; "b"]) by (by vm_compute).
    by rewrite E1, E2.
Qed.

End HashingClaims.

Section HashingExamples.
Import PyStr Validators Hashing.

Example recipe_hash_of_a_salad :
  generate_recipe_hash "Caprese" ["Tomato "; ""; "basil"] "Baked" "" None
  = "6a79890429400488e50557f0f16dc98181a44aa0612f8bc833ee2e9d7b010b88"
  /\ generate_recipe_hash "Salad" ["BASIL"; "tomato"] " baked" "" (Some [""])
     = "6a79890429400488e50557f0f16dc98181a44aa0612f8bc833ee2e9d7b010b88".
Proof. by vm_compute. Qed.

End HashingExamples.
